(* ===== verification/_CoqProject ===== *)
-Q . S2P
Prelude.v
Bytes.v
Text.v
Types.v
IgniteConversion.v
CommitmentScheme.v
CommitmentMap.v
IndexMap.v
OnChainTable.v
ArrowConversion.v
SqlAst.v
TablesSql.v
ProofOfSql.v
PlainCommitment.v
CommitmentSql.v
Native.v
ColumnOrder.v
Runtime.v
Sample.v
PalletPermissions.v
AttestationCore.v
PalletKeystore.v
PalletAttestation.v
PalletCommitments.v
PalletTables.v
SystemTables.v
PalletIndexing.v
DecisionOrder.v
PalletSmartContracts.v
PalletSystemContracts.v
PalletRewards.v
AttestationTree.v
Rpc.v
KeyFiles.v
Watcher.v
EventForwarder.v
ForwarderMain.v
TranslationLayer.v
TranslationServer.v
DataLoader.v
StaticSetups.v
FlightSql.v
WatcherClient.v
WatcherCommands.v
Inflation.v
Genesis.v
ChainUtils.v
LoadTables.v
CommitGrouper.v
Canary.v
