(* ===== verification/Prelude.v ===== *)
(** * A verification library for sxt-node

    sxt-node is a substrate chain that keeps cryptographic commitments to SQL
    tables.  Indexers submit batches of rows; when enough of them submit the same
    rows for a batch, the batch is decided, its rows are appended to the table's
    commitments, and, if the table is a system table, the rows change the staking
    state.  Attestors sign the root of a merkle tree over all commitments and
    staking locks; the node serves commitments with proofs in that tree; a
    forwarder process carries unbondings to a contract on Ethereum.

    ** Files

    The files are listed in dependency order.  Paths are relative to src/.

    - [Prelude]: outcomes of Rust functions ([Ok], [Err], [Panic]), the monad
      [M S E A] of stateful calls with its notations, the rules that take a run of
      a call apart ([mbind_ok] and the like), frame rules ([preserves]), and the
      [transactional] wrapper that undoes a failed call.
    - [Bytes], [Text]: byte strings, machine integers as bytes, hex, ASCII case,
      UTF-8 and the [str] operations of the standard library.
    - [Types]: the data of sxt-core/src (lib, indexing, keystore, permissions,
      smartcontracts, system_contracts, native and the data of tables and
      attestation).
    - [CommitmentScheme], [CommitmentMap]: proof-of-sql/commitment-map.
    - [IndexMap]: insertion-ordered maps.
    - [OnChainTable], [ArrowConversion]: proof-of-sql/on-chain-table.
    - [SqlAst], [TablesSql]: the syntax trees that the code reads, and the
      functions of sxt-core/src/tables.rs on them; [IgniteConversion]: the conversions of
      WITH clauses of the same file.
    - [ProofOfSql], [PlainCommitment]: the interface of the proof-of-sql library
      with its laws, and an instance of it that satisfies them.
    - [CommitmentSql]: proof-of-sql/commitment-sql.
    - [Native]: native, native-api and sxt-core/src/native.rs.
    - [ColumnOrder], [DecisionOrder]: equality of tables up to the order of their columns,
      and the functions from a submission to the storage that respect it.
    - [Runtime], [Sample]: storage, events and errors of the pallets, the parts of
      FRAME that they use, and a concrete configuration.
    - [PalletPermissions], [PalletKeystore], [PalletAttestation],
      [PalletCommitments], [PalletTables], [SystemTables], [PalletIndexing],
      [PalletSmartContracts], [PalletSystemContracts], [PalletRewards]: the
      src/lib.rs of the pallets of these names (and the other files of
      pallets/system_tables).  [AttestationCore] is sxt-core/src/attestation.rs.
    - [AttestationTree]: attestation_tree.
    - [Rpc]: rpc/src/attestation and rpc/src/commitments.
    - [KeyFiles]: the functions of watcher, event-forwarder and translation-layer that
      load keys from files.
    - [Watcher]: watcher; [WatcherCommands]: its register and verify commands.
    - [EventForwarder]: event-forwarder; [ForwarderMain]: its main.rs, and the histories of
      its processes.
    - [TranslationLayer]: translation-layer: the requests and their conversion, the
      handlers, [TxSubmitter] and [TxProgressDb]; [TranslationServer]: the routes and
      [ApiDoc] of its main.rs, and [TxSubmitter::submit].
    - [DataLoader]: data-loader.
    - [StaticSetups]: proof-of-sql/static-setups/src/io: files, downloads and cells of
      the public setups.
    - [FlightSql]: sxt-core/src/sql.rs, the task that writes events to a database.
    - [WatcherClient]: the concurrent part of watcher: the futures of the blocks on one
      shared [TxSubmitter], the progress logger and the restarts.
    - [Inflation]: [EraPayout] and the constants of runtime/src/lib.rs.
    - [Genesis]: node/src/chain_spec.rs and the choice of a specification.
    - [ChainUtils]: chain-utils/src/test_staking.rs; [LoadTables]: the load-tables command
      of chain-utils.
    - [CommitGrouper]: utils/commit-grouper/src/lib.rs.
    - [Canary]: canaries/src/main.rs, with [f64] as the binary64 numbers of [SpecFloat].

    ** How the code is modelled

    A function that can fail or panic has type [outcome E A]; one that changes
    state has type [M S E A].  All pallets work on one [Storage], because they call
    each other.  An extrinsic is run by [transactional]: a failed call leaves the
    storage as it was, except where the code calls another pallet without it.
    Integers are of type [Z]; where they can overflow, the wrap-around is written
    out (runtime code is compiled without overflow checks) or the saturation is.
    Storage maps are [gmap]s, iteration over them is in the order of the map.

    Code from outside the repository is a class of operations, and what is relied
    on of it is a second class of laws, from its documentation: [UnicodeData],
    [SqlParser], [UuidRng], [ProofOfSql], [EthCrypto], the staking state [Ext] of
    [Config] with [StakingRewards] and the operations of [SystemTables], [Codec],
    [StorageHasher], [EthMerkleTree], [Client], [ProofPlanner], [SubxtBackend],
    [ForwarderClient], [ChainClient], [SetupLibrary], [FlightClient],
    [FixedPoint], [KeyDerivation], [StreamWriter], [Sr25519], [ForwarderStart],
    [StatementParser], [LoadClient] and [CanaryClient].  Every class of laws has an instance
    in the development, and theorems with such laws are applied to it in a lemma named like
    the theorem with the suffix [_witness].

    ** What the theorems show

    - Commitment maps: every lawful implementor refines the specification in which
      a key has one value per scheme; the storage map and the memory map give the
      same responses to all sequences of operations.
    - Tables and commitments: tables keep their guarantees and survive
      serialization and arrow; an insert numbers its rows without gaps and every
      new commitment commits to the old columns with the rows appended, in the
      column order of the commitment; creation commits to the empty table.
    - Indexing: over every history from genesis, a decided batch is backed by more
      distinct authorized submitters than the quorum size, is decided once, and its
      rows are appended to exactly the commitments of its table; the order of the columns
      in a submission makes no difference to what its decision does.
    - Permissions, keys, attestations: who can gain a permission; stored keys and
      attestations carry valid signatures; signing and verifying round-trip.
    - Tables pallet and contracts: the exact effect of creating and dropping tables,
      the consistency of their storage, and that a contract can be added and removed.
    - System tables: a message is handled at most once; errors stay in their row.
    - Rewards: an era is paid within a bounded number of blocks if payouts succeed.
    - Attestation tree and RPCs: every stored entry is provable and nothing else is;
      served commitments are stored ones with valid proofs; proof plans are made
      from commitments of one scheme.
    - Watcher and forwarder: a watcher's attestation is accepted by the pallet; the
      forwarder takes blocks in order, none before the previous one is marked, and over
      any restarts it leaves no block out; a well-formed key file loads the same in all
      programs, what the register command prints is accepted by the keystore, and what the
      verify command shows is the verdict on the attestations.
    - Translation layer: what a request sends, how often and with which nonces, and how
      the outcome of a transaction is reported; every route is documented and a request
      for one network leaves the other alone.
    - Data loader and database task: every listed partition has one checkpoint with its
      outcome; the statements match the values that are sent; the rows of a decided batch
      reach the database with the numbers that the commitments have.
    - Public setups: parallel deserialization equals sequential deserialization, a
      successful start uses verified setups only, and cells never change.
    - Concurrent watcher: for every interleaving of the futures, nonces follow one
      another from refresh to refresh, each block is attested at most once, every run is
      finite and none deadlocks; a future that runs alone refines the submitter's call.
    - Runtime and genesis: the payouts of a year are bounded by the yearly rate; the
      stakers of a genesis are endowed and nominate validators only.
    - Tools: the tables of a file that load-tables sends are registered on the chain; the
      counters of the canary count the events of the blocks, and the gauges of an era are
      set together and never negative or NaN.

    Some theorems and examples show behaviour that the code's documentation does
    not promise or contradicts, for instance [future_block_attested],
    [tables_share_submissions], [watcher_verify_rejects],
    [no_unstake_forwarded], [removal_keeps_contract], [restart_forgets_completed],
    [refresh_rewinds_nonce], [staking_message_refused], [get_smartcontracts_not_routed],
    [verify_leaves_raw_mode] and [first_block_marked_again].

    ** Bounds and fuel

    Almost all recursion is structural.  Fuel is used where the code runs for ever:
    [EventForwarder.stream_loop] takes a number of signals to handle, and its
    theorems hold for every number.  [PalletRewards.blocks_run] runs a number of
    blocks; that the number is enough is the theorem [era_eventually_paid].  The runs of
    [WatcherClient] are a relation without fuel; that they end is [every_block_answered].
    [StaticSetups.par_chunks] and [IgniteConversion.replace_with] take the length of their
    input as fuel, of which every step uses some.

    ** Not modelled

    The assembly of node and runtime (node/src/service.rs and the like, most of
    runtime/src/lib.rs, rpc/src/lib.rs), generated code
    (sxt-core/src/sxt_chain_runtime.rs, weights), benchmarks and the template pallet are
    configuration of libraries or have no behaviour of their own.  The parsing of command
    lines, the HTTP servers, the layout of the terminal, the subscriptions of subxt and the
    commands of chain-utils that print what they fetch are calls of libraries with little
    of the program between them; kitchen_sink.rs is an integration test that is run by hand.
    Weights are modelled only in the rewards pallet, whose control flow depends on them. *)

From stdpp Require Import base tactics list option gmap strings numbers sorting.
From Stdlib Require Import ZArith Lia.
From Stdlib Require Import Strings.Byte.

#[global] Open Scope Z_scope.

Declare Scope sxt_scope.
Delimit Scope sxt_scope with sxt.
#[global] Open Scope sxt_scope.

(** ** Outcomes

    A Rust function of the code either returns [Ok], returns [Err] or panics
    ([unwrap]/[expect]/arithmetic of [U256]).  The three are kept apart so that
    the absence of panics is a statement of its own. *)

Inductive outcome (E A : Type) : Type :=
| Ok (a : A)
| Err (e : E)
| Panic.
Arguments Ok {E A} a.
Arguments Err {E A} e.
Arguments Panic {E A}.

Definition obind {E A B} (m : outcome E A) (f : A -> outcome E B) : outcome E B :=
  match m with
  | Ok a => f a
  | Err e => Err e
  | Panic => Panic
  end.

Definition omap_ok {E A B} (f : A -> B) (m : outcome E A) : outcome E B :=
  match m with
  | Ok a => Ok (f a)
  | Err e => Err e
  | Panic => Panic
  end.

(** [Result::map_err]. *)
Definition map_err {E F A} (f : E -> F) (m : outcome E A) : outcome F A :=
  match m with
  | Ok a => Ok a
  | Err e => Err (f e)
  | Panic => Panic
  end.

(** [Option::ok_or]. *)
Definition ok_or {E A} (o : option A) (e : E) : outcome E A :=
  match o with
  | Some a => Ok a
  | None => Err e
  end.

(** [Option::unwrap] and [expect]. *)
Definition unwrap_option {E A} (o : option A) : outcome E A :=
  match o with
  | Some a => Ok a
  | None => Panic
  end.

(** [Result::unwrap] and [expect]. *)
Definition unwrap {E F A} (m : outcome E A) : outcome F A :=
  match m with
  | Ok a => Ok a
  | Err _ => Panic
  | Panic => Panic
  end.

(** [Result::ok]. *)
Definition to_option {E A} (m : outcome E A) : option A :=
  match m with
  | Ok a => Some a
  | _ => None
  end.

Definition is_ok {E A} (m : outcome E A) : bool :=
  match m with
  | Ok _ => true
  | _ => false
  end.

Notation "'let?' x ':=' m 'in' k" := (obind m (fun x => k))
  (at level 10, x pattern, m at level 100, k at level 200)
  : sxt_scope.

(** [Iterator::collect::<Result<Vec<_>, _>>()] of a mapped iterator: the first
    error stops the traversal. *)
Fixpoint collect {E A B} (f : A -> outcome E B) (l : list A) : outcome E (list B) :=
  match l with
  | [] => Ok []
  | x :: xs => let? y := f x in let? ys := collect f xs in Ok (y :: ys)
  end.

Lemma obind_ok {E A B} (m : outcome E A) (f : A -> outcome E B) b :
  obind m f = Ok b <-> exists a, m = Ok a /\ f a = Ok b.
Proof. destruct m; naive_solver. Qed.

Lemma obind_err {E A B} (m : outcome E A) (f : A -> outcome E B) e :
  obind m f = Err e <-> m = Err e \/ exists a, m = Ok a /\ f a = Err e.
Proof. destruct m; naive_solver. Qed.

Lemma obind_not_panic {E A B} (m : outcome E A) (f : A -> outcome E B) :
  m <> Panic -> (forall a, m = Ok a -> f a <> Panic) -> obind m f <> Panic.
Proof. destruct m; naive_solver. Qed.

Lemma map_err_ok {E F A} (f : E -> F) (m : outcome E A) a :
  map_err f m = Ok a <-> m = Ok a.
Proof. destruct m; naive_solver. Qed.

Lemma map_err_err {E F A} (f : E -> F) (m : outcome E A) e :
  map_err f m = Err e <-> exists e', m = Err e' /\ e = f e'.
Proof. destruct m; naive_solver. Qed.

Lemma ok_or_err {E A} (o : option A) (e e' : E) : ok_or o e = Err e' <-> o = None /\ e' = e.
Proof. destruct o; naive_solver. Qed.

Lemma ok_or_ok {E A} (o : option A) (e : E) a : ok_or o e = Ok a <-> o = Some a.
Proof. destruct o; naive_solver. Qed.

Lemma collect_ok {E A B} (f : A -> outcome E B) l ys :
  collect f l = Ok ys <-> Forall2 (fun x y => f x = Ok y) l ys.
Proof.
  revert ys; induction l as [|x l IH]; intros ys; simpl.
  - split; [intros [= <-]; constructor|by inversion 1].
  - rewrite obind_ok. setoid_rewrite obind_ok. setoid_rewrite IH.
    split; [intros (y & Hy & ys' & H & [= <-]); by constructor|].
    inversion 1; subst; eauto 10.
Qed.

Lemma collect_length {E A B} (f : A -> outcome E B) l ys :
  collect f l = Ok ys -> length ys = length l.
Proof. intros H%collect_ok. symmetry. by eapply Forall2_length. Qed.

Lemma collect_total {E A B} (f : A -> outcome E B) (g : A -> B) l :
  (forall x, x ∈ l -> f x = Ok (g x)) -> collect f l = Ok (g <$> l).
Proof.
  intros H. apply collect_ok, Forall2_fmap_r, Forall_Forall2_diag, Forall_forall.
  done.
Qed.

Lemma combine_fst_snd {A B} (l : list (A * B)) : combine l.*1 l.*2 = l.
Proof. induction l as [|[a b] l IH]; [done|]. rewrite !fmap_cons. simpl. by rewrite IH. Qed.

Lemma collect_err {E A B} (f : A -> outcome E B) l e :
  collect f l = Err e -> exists x, x ∈ l /\ f x = Err e.
Proof.
  induction l as [|x l IH]; simpl; [done|]. destruct (f x) eqn:Hx; simpl; try done.
  - destruct (collect f l); simpl; try done. intros [= ->].
    destruct IH as (y & Hy & Hf); [done|]. exists y. split; [by right|done].
  - intros [= ->]. exists x. split; [left|done].
Qed.

Lemma collect_no_panic {E A B} (f : A -> outcome E B) l :
  (forall x, x ∈ l -> f x <> Panic) -> collect f l <> Panic.
Proof.
  induction l as [|x l IH]; intros Hf; [done|]. simpl.
  apply obind_not_panic; [apply Hf; left|]. intros y _.
  apply obind_not_panic; [|done]. apply IH. intros z Hz. apply Hf. by right.
Qed.

Lemma collect_panic {E A B} (f : A -> outcome E B) l :
  collect f l = Panic -> exists x, x ∈ l /\ f x = Panic.
Proof.
  induction l as [|x l IH]; [done|]. cbn. destruct (f x) as [y| |] eqn:Hx; cbn; [|done|by exists x; split; [left|]].
  destruct (collect f l); [done..|]. intros _. destruct IH as (z & Hz & Hf); [done|]. exists z. split; [by right|done].
Qed.

Lemma map_err_no_panic {E F A} (f : E -> F) (m : outcome E A) : m <> Panic -> map_err f m <> Panic.
Proof. by destruct m. Qed.

Lemma ok_or_no_panic {E A} (o : option A) (e : E) : ok_or o e <> Panic.
Proof. by destruct o. Qed.

Lemma list_filter_keep {A} (P : A -> Prop) `{forall x, Decision (P x)} (l : list A) :
  Forall P l -> filter P l = l.
Proof.
  induction 1; [done|]. by rewrite filter_cons_True, IHForall.
Qed.

Lemma list_filter_ext_in {A} (P Q : A -> Prop) `{forall x, Decision (P x), forall x, Decision (Q x)}
    (l : list A) :
  (forall x, x ∈ l -> P x <-> Q x) -> filter P l = filter Q l.
Proof.
  induction l as [|x l IH]; intros Hl; [done|].
  rewrite !filter_cons, IH by (intros; apply Hl; by right).
  pose proof (Hl x ltac:(left)). repeat case_decide; naive_solver.
Qed.

(** ** Stateful outcomes

    Pallet code reads and writes one storage and may stop with an error at any
    point; the writes made before the error are still there when a caller
    catches it, and it is the dispatch of an extrinsic that undoes them. *)

Definition M (S E A : Type) : Type := S -> S * outcome E A.

Definition mret {S E A} (a : A) : M S E A := fun s => (s, Ok a).
Definition mfail {S E A} (e : E) : M S E A := fun s => (s, Err e).
Definition mpanic {S E A} : M S E A := fun s => (s, Panic).
Definition mbind {S E A B} (m : M S E A) (f : A -> M S E B) : M S E B := fun s =>
  match m s with
  | (s', Ok a) => f a s'
  | (s', Err e) => (s', Err e)
  | (s', Panic) => (s', Panic)
  end.
Definition mget {S E A} (f : S -> A) : M S E A := fun s => (s, Ok (f s)).
Definition mmodify {S E} (f : S -> S) : M S E unit := fun s => (f s, Ok tt).
Definition mlift {S E A} (o : outcome E A) : M S E A := fun s => (s, o).
Definition mensure {S E} (b : bool) (e : E) : M S E unit := fun s =>
  (s, if b then Ok tt else Err e).
Definition mmap_err {S E F A} (f : E -> F) (m : M S E A) : M S F A := fun s =>
  let '(s', o) := m s in (s', map_err f o).

(** [match m { Ok(a) => f(Ok(a)), Err(e) => f(Err(e)) }]: the caller sees the
    error as a value; a panic is not caught. *)
Definition mtry {S E F A} (m : M S E A) : M S F (A + E) := fun s =>
  match m s with
  | (s', Ok a) => (s', Ok (inl a))
  | (s', Err e) => (s', Ok (inr e))
  | (s', Panic) => (s', Panic)
  end.

Notation "'let*' x ':=' m 'in' k" := (mbind m (fun x => k))
  (at level 10, x pattern, m at level 100, k at level 200)
  : sxt_scope.
Notation "m ';;;' k" := (mbind m (fun _ => k))
  (at level 150, right associativity) : sxt_scope.

(** Traversals in the monad: [mcollect] is [collect::<Result<Vec<_>,_>>()] of a
    mapped iterator whose closure has effects, [miter] is a [for] loop with [?]. *)
Fixpoint mcollect {S E A B} (f : A -> M S E B) (l : list A) : M S E (list B) :=
  match l with
  | [] => mret []
  | x :: xs => let* y := f x in let* ys := mcollect f xs in mret (y :: ys)
  end.

Fixpoint miter {S E A} (f : A -> M S E unit) (l : list A) : M S E unit :=
  match l with
  | [] => mret tt
  | x :: xs => f x ;;; miter f xs
  end.

(** The storage layer FRAME opens around an extrinsic: on [Err] the writes are
    undone, on a panic the extrinsic has no result at all. *)
Definition transactional {S E A} (m : M S E A) : M S E A := fun s =>
  match m s with
  | (s', Ok a) => (s', Ok a)
  | (_, o) => (s, o)
  end.

Section monad_lemmas.
Context {S E A B : Type}.
Implicit Types (m : M S E A) (f : A -> M S E B) (s : S).

Lemma mbind_ok m f s s' b :
  mbind m f s = (s', Ok b) <-> exists s1 a, m s = (s1, Ok a) /\ f a s1 = (s', Ok b).
Proof. unfold mbind. destruct (m s) as [s1 []]; naive_solver. Qed.

Lemma mbind_err m f s s' e :
  mbind m f s = (s', Err e) <->
  m s = (s', Err e) \/ exists s1 a, m s = (s1, Ok a) /\ f a s1 = (s', Err e).
Proof. unfold mbind. destruct (m s) as [s1 []]; naive_solver. Qed.

Lemma mbind_panic m f s s' :
  mbind m f s = (s', Panic) <->
  m s = (s', Panic) \/ exists s1 a, m s = (s1, Ok a) /\ f a s1 = (s', Panic).
Proof. unfold mbind. destruct (m s) as [s1 []]; naive_solver. Qed.

Lemma mbind_run m f s s1 a : m s = (s1, Ok a) -> mbind m f s = f a s1.
Proof. unfold mbind. by intros ->. Qed.

Lemma mbind_run_err m f s s1 e : m s = (s1, Err e) -> mbind m f s = (s1, Err e).
Proof. unfold mbind. by intros ->. Qed.

Lemma mensure_ok b (e : E) s s' u : mensure b e s = (s', Ok u) <-> b = true /\ s' = s.
Proof. unfold mensure. destruct b, u; naive_solver. Qed.

Lemma mlift_ok (o : outcome E A) s s' a : mlift o s = (s', Ok a) <-> o = Ok a /\ s' = s.
Proof. unfold mlift. naive_solver. Qed.

Lemma mmap_err_ok {F} (g : E -> F) m s s' a :
  mmap_err g m s = (s', Ok a) <-> m s = (s', Ok a).
Proof. unfold mmap_err. destruct (m s) as [s1 []]; naive_solver. Qed.

Lemma transactional_ok m s s' a : transactional m s = (s', Ok a) <-> m s = (s', Ok a).
Proof. unfold transactional. destruct (m s) as [s1 []]; naive_solver. Qed.

Lemma transactional_err m s s' e :
  transactional m s = (s', Err e) <-> s' = s /\ exists s1, m s = (s1, Err e).
Proof. unfold transactional. destruct (m s) as [s1 []]; naive_solver. Qed.

(** An extrinsic either succeeds or leaves the storage as it found it. *)
Lemma transactional_cases m s :
  (exists s' a, m s = (s', Ok a) /\ transactional m s = (s', Ok a)) \/
  (fst (transactional m s) = s /\ is_ok (snd (transactional m s)) = false).
Proof. unfold transactional. destruct (m s) as [s1 []]; naive_solver. Qed.

(** A run is its final state and its outcome. *)
Lemma run_outcome m s o : snd (m s) = o -> m s = (fst (m s), o).
Proof. by destruct (m s); intros <-. Qed.

Lemma transactional_keep m s s' o :
  transactional m s = (s', o) -> is_ok o = false -> s' = s.
Proof. unfold transactional. destruct (m s) as [s1 []]; naive_solver. Qed.
End monad_lemmas.

(** An invariant of the storage that every step of a computation preserves,
    whatever its outcome. *)
Definition preserves {S E A} (I : S -> Prop) (m : M S E A) : Prop :=
  forall s, I s -> I (fst (m s)).

Section preserves_lemmas.
Context {S E : Type} (I : S -> Prop).

Lemma preserves_ret {A} (a : A) : preserves (E:=E) I (mret a).
Proof. by intros s Hs. Qed.
Lemma preserves_fail {A} (e : E) : preserves (A:=A) I (mfail e).
Proof. by intros s Hs. Qed.
Lemma preserves_get {A} (f : S -> A) : preserves (E:=E) I (mget f).
Proof. by intros s Hs. Qed.
Lemma preserves_lift {A} (o : outcome E A) : preserves I (mlift o).
Proof. by intros s Hs. Qed.
Lemma preserves_ensure b (e : E) : preserves I (mensure b e).
Proof. by intros s Hs. Qed.
Lemma preserves_modify (f : S -> S) :
  (forall s, I s -> I (f s)) -> preserves (E:=E) I (mmodify f).
Proof. intros Hf s Hs. by apply Hf. Qed.
Lemma preserves_bind {A B} (m : M S E A) (f : A -> M S E B) :
  preserves I m -> (forall a, preserves I (f a)) -> preserves I (mbind m f).
Proof.
  intros Hm Hf s Hs. specialize (Hm s Hs). unfold mbind.
  destruct (m s) as [s1 []]; simpl in *; try done. by apply Hf.
Qed.
Lemma preserves_map_err {F A} (g : E -> F) (m : M S E A) :
  preserves I m -> preserves I (mmap_err g m).
Proof. intros Hm s Hs. specialize (Hm s Hs). unfold mmap_err. by destruct (m s). Qed.
Lemma preserves_try {F A} (m : M S E A) :
  preserves I m -> preserves (E:=F) I (mtry m).
Proof.
  intros Hm s Hs. specialize (Hm s Hs). unfold mtry. by destruct (m s) as [s1 []].
Qed.
Lemma preserves_iter {A} (f : A -> M S E unit) l :
  (forall x, preserves I (f x)) -> preserves I (miter f l).
Proof.
  intros Hf. induction l; simpl; [apply preserves_ret|].
  apply preserves_bind; auto.
Qed.
Lemma preserves_collect {A B} (f : A -> M S E B) l :
  (forall x, preserves I (f x)) -> preserves I (mcollect f l).
Proof.
  intros Hf. induction l; simpl; [apply preserves_ret|].
  apply preserves_bind; [done|]. intros; apply preserves_bind; [done|].
  intros; apply preserves_ret.
Qed.
Lemma preserves_collect_in {A B} (f : A -> M S E B) l :
  (forall x, x ∈ l -> preserves I (f x)) -> preserves I (mcollect f l).
Proof.
  induction l as [|x l IH]; intros Hf; cbn [mcollect]; [apply preserves_ret|].
  apply preserves_bind; [apply Hf; left|]. intros y.
  apply preserves_bind; [apply IH; intros z Hz; apply Hf; by right|]. intros; apply preserves_ret.
Qed.
Lemma preserves_transactional {A} (m : M S E A) :
  preserves I m -> preserves I (transactional m).
Proof.
  intros Hm s Hs. specialize (Hm s Hs). unfold transactional.
  by destruct (m s) as [s1 []].
Qed.
End preserves_lemmas.

(** An invariant that every successful run preserves; a failed one may stop in
    the middle, where the invariant need not hold. *)
Definition preserves_ok {S E A} (I : S -> Prop) (m : M S E A) : Prop :=
  forall s s' a, I s -> m s = (s', Ok a) -> I s'.

Section preserves_ok_lemmas.
Context {S E : Type} (I : S -> Prop).

Lemma preserves_preserves_ok {A} (m : M S E A) : preserves I m -> preserves_ok I m.
Proof. intros Hm s s' a Hs Hr. specialize (Hm s Hs). by rewrite Hr in Hm. Qed.
Lemma preserves_ok_bind {A B} (m : M S E A) (f : A -> M S E B) :
  preserves_ok I m -> (forall a, preserves_ok I (f a)) -> preserves_ok I (mbind m f).
Proof. intros Hm Hf s s' b Hs (s1 & a & Hr & Hr')%mbind_ok. eapply Hf, Hr'. by eapply Hm. Qed.
Lemma preserves_ok_map_err {F A} (g : E -> F) (m : M S E A) :
  preserves_ok I m -> preserves_ok I (mmap_err g m).
Proof. intros Hm s s' a Hs Hr%mmap_err_ok. by eapply Hm. Qed.
Lemma preserves_ok_collect_in {A B} (f : A -> M S E B) l :
  (forall x, x ∈ l -> preserves_ok I (f x)) -> preserves_ok I (mcollect f l).
Proof.
  induction l as [|x l IH]; intros Hf; cbn [mcollect]; [apply preserves_preserves_ok, preserves_ret|].
  apply preserves_ok_bind; [apply Hf; left|]. intros; apply preserves_ok_bind.
  - apply IH. intros z Hz. apply Hf. by right.
  - intros; apply preserves_preserves_ok, preserves_ret.
Qed.
Lemma preserves_ok_collect {A B} (f : A -> M S E B) l :
  (forall x, preserves_ok I (f x)) -> preserves_ok I (mcollect f l).
Proof. intros Hf. by apply preserves_ok_collect_in. Qed.
Lemma preserves_ok_transactional {A} (m : M S E A) :
  preserves_ok I m -> preserves I (transactional m).
Proof.
  intros Hm s Hs. unfold transactional. destruct (m s) as [s1 []] eqn:Hr; try done. by eapply Hm.
Qed.
End preserves_ok_lemmas.

(** What a whole list of steps guarantees of each element: a postcondition that
    a step establishes and later steps keep. *)
Lemma mcollect_each {S E A B} (P : A -> S -> Prop) (f : A -> M S E B) l s s' r :
  (forall x s s' y, f x s = (s', Ok y) -> P x s') ->
  (forall x z s s' y, f x s = (s', Ok y) -> P z s -> P z s') ->
  mcollect f l s = (s', Ok r) -> forall x, x ∈ l -> P x s'.
Proof.
  intros Hest Hkeep. revert s r. induction l as [|x l IH]; intros s r; cbn [mcollect].
  { intros _ x Hx. by apply not_elem_of_nil in Hx. }
  intros (s1 & y & Hx & (s2 & r' & Hl & [= <- <-])%mbind_ok)%mbind_ok z [->|Hz]%elem_of_cons.
  - specialize (Hest _ _ _ _ Hx). clear -Hest Hkeep Hl. revert s1 r' Hest Hl.
    induction l as [|w l IH]; intros s1 r Hest; cbn [mcollect]; [by intros [= <- _]|].
    intros (s3 & y & Hw & (s4 & r' & Hl & [= <- _])%mbind_ok)%mbind_ok.
    eapply IH; [|exact Hl]. by eapply Hkeep.
  - by eapply IH.
Qed.

Lemma mcollect_forall2 {S E A B} (P : A -> B -> Prop) (f : A -> M S E B) l s s' r :
  (forall x s s' y, f x s = (s', Ok y) -> P x y) ->
  mcollect f l s = (s', Ok r) -> Forall2 P l r.
Proof.
  intros Hf. revert s r. induction l as [|x l IH]; intros s r; cbn [mcollect].
  { intros [= _ <-]. constructor. }
  intros (s1 & y & Hx & (s2 & r' & Hl & [= <- <-])%mbind_ok)%mbind_ok.
  constructor; [by eapply Hf|by eapply IH].
Qed.

(** A loop is a traversal whose results are forgotten, and one that catches no error
    is the traversal itself. *)
Lemma miter_mcollect {S E A} (f : A -> M S E unit) l s s' u :
  miter f l s = (s', Ok u) -> exists r, mcollect f l s = (s', Ok r).
Proof.
  revert s. induction l as [|x l IH]; intros s; cbn [miter mcollect]; [intros [= -> _]; by eexists|].
  intros (s1 & y & Hx & [r Hl]%IH)%mbind_ok. exists (y :: r).
  rewrite (mbind_run _ _ _ _ _ Hx), (mbind_run _ _ _ _ _ Hl). done.
Qed.

Lemma mcollect_try {S E F A B} (f : A -> M S E B) l s s' rs :
  mcollect (E:=F) (fun x => mtry (f x)) l s = (s', Ok rs) ->
  Forall (fun r => exists y, r = inl y) rs ->
  exists ys, mcollect f l s = (s', Ok ys).
Proof.
  revert s rs. induction l as [|x l IH]; intros s rs; cbn [mcollect]; [intros [= -> _]; by eexists|].
  intros (s1 & y & Hx & (s2 & r' & Hl & [= <- <-])%mbind_ok)%mbind_ok [[z ->] Hall]%Forall_cons.
  destruct (IH _ _ Hl Hall) as [ys Hys]. exists (z :: ys). unfold mtry in Hx.
  destruct (f x s) as [s3 []] eqn:Hf; try done. injection Hx as -> ->.
  rewrite (mbind_run _ _ _ _ _ Hf), (mbind_run _ _ _ _ _ Hys). done.
Qed.

Create HintDb sxt.
#[export] Hint Resolve preserves_ret preserves_fail preserves_get preserves_lift
  preserves_ensure preserves_map_err preserves_try preserves_iter
  preserves_collect preserves_transactional : sxt.

(** Opens the binds of a successful run, left to right; [inv_hook] is extended
    by the files that define further primitives. *)
Ltac inv_hook := fail.
Ltac inv_run1 :=
  match goal with
  | H : mbind _ _ _ = (_, Ok _) |- _ =>
      apply mbind_ok in H; destruct H as (? & ? & ? & H)
  | H : mensure _ _ _ = (_, Ok _) |- _ =>
      apply mensure_ok in H; destruct H as [? ->]
  | H : mlift _ _ = (_, Ok _) |- _ =>
      apply mlift_ok in H; destruct H as [? ->]
  | H : mmap_err _ _ _ = (_, Ok _) |- _ => apply mmap_err_ok in H
  | H : mret _ _ = (_, Ok _) |- _ => unfold mret in H
  | H : mget _ _ = (_, Ok _) |- _ => unfold mget in H
  | H : mmodify _ _ = (_, Ok _) |- _ => unfold mmodify in H
  | H : mfail _ _ = (_, Ok _) |- _ => discriminate H
  | H : mpanic _ = (_, Ok _) |- _ => discriminate H
  | H : (_, _) = (_, Ok _) |- _ => first [injection H; clear H; intros; subst | clear H]
  | H : ok_or _ _ = Ok _ |- _ => apply ok_or_ok in H
  | H : map_err _ _ = Ok _ |- _ => apply map_err_ok in H
  | H : obind _ _ = Ok _ |- _ => apply obind_ok in H; destruct H as (? & ? & H)
  | _ => inv_hook
  end.
Ltac inv_run := repeat (inv_run1; cbn beta iota zeta in * ); simplify_eq.
