(* ===== verification/Bytes.v ===== *)
(** * Byte strings

    [Vec<u8>], [String] and [&str] of the code are lists of bytes.  This file
    holds the operations of the Rust standard library and of the [hex] crate's
    format that the pallets use on them: big- and little-endian integers, hex
    text, ASCII case, UTF-8 validation and substring search. *)

From stdpp Require Import base tactics list option gmap strings numbers countable.
From Stdlib Require Import ZArith Lia.
From Stdlib Require Import Strings.Byte.
From S2P Require Import Prelude.

#[global] Instance byte_eq_decision : EqDecision byte := byte_eq_dec.

#[global] Program Instance byte_countable : Countable byte :=
  inj_countable Byte.to_N Byte.of_N _.
Next Obligation. intros x. apply Byte.of_to_N. Qed.

Notation bytes := (list byte).

(** A string literal of the source. *)
Definition bs (s : string) : bytes := String.list_byte_of_string s.

(** ** A byte as an integer *)

Definition byte_val (b : byte) : Z := Z.of_N (Byte.to_N b).

(** [z as u8]. *)
Definition byte_of (z : Z) : byte := default x00 (Byte.of_N (Z.to_N (z mod 256))).

Lemma byte_val_range b : 0 <= byte_val b < 256.
Proof. unfold byte_val. pose proof (Byte.to_N_bounded b). lia. Qed.

Lemma byte_of_val b : byte_of (byte_val b) = b.
Proof.
  unfold byte_of. rewrite Z.mod_small by apply byte_val_range.
  unfold byte_val. by rewrite N2Z.id, Byte.of_to_N.
Qed.

Lemma byte_val_of z : byte_val (byte_of z) = z mod 256.
Proof.
  unfold byte_of. pose proof (Z.mod_pos_bound z 256 ltac:(lia)) as Hz.
  destruct (Byte.of_N (Z.to_N (z mod 256))) as [b|] eqn:Hb; simpl.
  - apply Byte.to_of_N in Hb. unfold byte_val. lia.
  - apply Byte.of_N_None_iff in Hb. lia.
Qed.

#[global] Instance byte_val_inj : Inj (=) (=) byte_val.
Proof. intros x y H. by rewrite <- (byte_of_val x), H, byte_of_val. Qed.

(** ** Little- and big-endian integers ([to_le_bytes], [to_be_bytes]) *)

Fixpoint le_bytes (n : nat) (z : Z) : bytes :=
  match n with
  | O => []
  | S n => byte_of z :: le_bytes n (z / 256)
  end.

Fixpoint le_val (l : bytes) : Z :=
  match l with
  | [] => 0
  | b :: l => byte_val b + 256 * le_val l
  end.

Definition be_bytes (n : nat) (z : Z) : bytes := reverse (le_bytes n z).
Definition be_val (l : bytes) : Z := le_val (reverse l).

Lemma le_bytes_length n z : length (le_bytes n z) = n.
Proof. revert z; induction n; simpl; auto. Qed.

Lemma be_bytes_length n z : length (be_bytes n z) = n.
Proof. unfold be_bytes. by rewrite length_reverse, le_bytes_length. Qed.

Lemma le_val_bytes n z : le_val (le_bytes n z) = z mod 256 ^ Z.of_nat n.
Proof.
  revert z; induction n as [|n IH]; intros z; simpl; [by rewrite Z.mod_1_r|].
  rewrite byte_val_of, IH.
  replace (Z.of_nat (S n)) with (1 + Z.of_nat n) by lia.
  rewrite Z.pow_add_r, Z.pow_1_r by lia.
  rewrite Z.rem_mul_r; [done|lia|apply Z.pow_pos_nonneg; lia].
Qed.

Lemma le_val_range l : 0 <= le_val l < 256 ^ Z.of_nat (length l).
Proof.
  induction l as [|b l IH]; simpl length; [done|].
  replace (Z.of_nat (S (length l))) with (1 + Z.of_nat (length l)) by lia.
  rewrite Z.pow_add_r, Z.pow_1_r by lia. cbn [le_val]. pose proof (byte_val_range b). lia.
Qed.

Lemma le_bytes_val l : le_bytes (length l) (le_val l) = l.
Proof.
  induction l as [|b l IH]; simpl; [done|]. f_equal.
  - apply byte_val_inj. rewrite byte_val_of. rewrite Z.mul_comm, Z_mod_plus_full.
    apply Z.mod_small, byte_val_range.
  - pose proof (byte_val_range b). rewrite Z.mul_comm, Z.div_add by lia.
    by rewrite Z.div_small, Z.add_0_l.
Qed.

Lemma be_val_bytes n z : be_val (be_bytes n z) = z mod 256 ^ Z.of_nat n.
Proof. unfold be_val, be_bytes. by rewrite reverse_involutive, le_val_bytes. Qed.

Lemma be_val_bytes_small n z : 0 <= z < 256 ^ Z.of_nat n -> be_val (be_bytes n z) = z.
Proof. intros. rewrite be_val_bytes. by apply Z.mod_small. Qed.

Lemma be_bytes_val l : be_bytes (length l) (be_val l) = l.
Proof.
  unfold be_val, be_bytes. rewrite <- length_reverse, le_bytes_val.
  apply reverse_involutive.
Qed.

Lemma be_bytes_inj n x y :
  0 <= x < 256 ^ Z.of_nat n -> 0 <= y < 256 ^ Z.of_nat n ->
  be_bytes n x = be_bytes n y -> x = y.
Proof. intros Hx Hy H. rewrite <- (be_val_bytes_small n x Hx), H. by apply be_val_bytes_small. Qed.

Lemma be_val_range l : 0 <= be_val l < 256 ^ Z.of_nat (length l).
Proof. unfold be_val. rewrite <- length_reverse. apply le_val_range. Qed.

(** ** Hexadecimal text ([hex::encode], [hex::decode]) *)

Definition hex_digits : bytes := bs "0123456789abcdef".
Definition hex_digit (n : Z) : byte := nth (Z.to_nat n) hex_digits x00.

Definition hex_encode (l : bytes) : bytes :=
  b ← l; [hex_digit (byte_val b / 16); hex_digit (byte_val b mod 16)].

(** The value of a hex character, of either case. *)
Definition hex_value (c : byte) : option Z :=
  let v := byte_val c in
  if (48 <=? v) && (v <=? 57) then Some (v - 48)
  else if (65 <=? v) && (v <=? 70) then Some (v - 65 + 10)
  else if (97 <=? v) && (v <=? 102) then Some (v - 97 + 10)
  else None.

(** [None] on an odd length or on a character that is not a hex digit. *)
Fixpoint hex_decode (l : bytes) : option bytes :=
  match l with
  | [] => Some []
  | [_] => None
  | h :: l :: rest =>
      hv ← hex_value h; lv ← hex_value l; t ← hex_decode rest;
      Some (byte_of (hv * 16 + lv) :: t)
  end.

Lemma hex_encode_length l : length (hex_encode l) = (2 * length l)%nat.
Proof. induction l; simpl in *; lia. Qed.

Lemma hex_value_digit n : 0 <= n < 16 -> hex_value (hex_digit n) = Some n.
Proof.
  intros Hn. assert (Z.of_nat (Z.to_nat n) = n) as <- by lia.
  assert (Z.to_nat n < 16)%nat as H by lia. revert H. generalize (Z.to_nat n).
  intros m H. do 16 (destruct m as [|m]; [done|]). lia.
Qed.

Lemma hex_decode_encode l : hex_decode (hex_encode l) = Some l.
Proof.
  induction l as [|b l IH]; [done|].
  change (hex_encode (b :: l)) with
    (hex_digit (byte_val b / 16) :: hex_digit (byte_val b mod 16) :: hex_encode l).
  pose proof (byte_val_range b). cbn [hex_decode].
  rewrite !hex_value_digit by (apply Z.mod_pos_bound || (split; [apply Z.div_pos|apply Z.div_lt_upper_bound]); lia).
  rewrite IH; simpl. do 2 f_equal.
  replace (byte_val b / 16 * 16 + byte_val b mod 16) with (byte_val b); [apply byte_of_val|].
  pose proof (Z.div_mod (byte_val b) 16). lia.
Qed.

Lemma hex_encode_inj a b : hex_encode a = hex_encode b -> a = b.
Proof. intros Hab. apply (f_equal hex_decode) in Hab. rewrite !hex_decode_encode in Hab. congruence. Qed.

Lemma hex_decode_length s l : hex_decode s = Some l -> length s = (2 * length l)%nat.
Proof.
  remember (length s) as n eqn:Hn. revert s l Hn. induction n as [n IH] using lt_wf_ind.
  intros [|a [|b r]] l ->; cbn [hex_decode]; [by intros [= <-]|done|].
  destruct (hex_value a), (hex_value b); [|done..].
  destruct (hex_decode r) as [l'|] eqn:Hr; [|done]. intros [= <-].
  apply (IH (length r)) in Hr; [|cbn; lia|done]. cbn. lia.
Qed.

(** ** ASCII and UTF-8 ([u8::to_ascii_uppercase], [core::str::from_utf8]) *)

Definition in_range (lo hi : Z) (b : byte) : bool :=
  (lo <=? byte_val b) && (byte_val b <=? hi).

Definition is_ascii (b : byte) : bool := byte_val b <? 128.
Definition is_ascii_digit : byte -> bool := in_range 48 57.
Definition is_ascii_upper : byte -> bool := in_range 65 90.
Definition is_ascii_lower : byte -> bool := in_range 97 122.

Definition ascii_upper (b : byte) : byte :=
  if is_ascii_lower b then byte_of (byte_val b - 32) else b.
Definition ascii_lower (b : byte) : byte :=
  if is_ascii_upper b then byte_of (byte_val b + 32) else b.

(** [str::eq_ignore_ascii_case]. *)
Definition eq_ignore_ascii_case (x y : bytes) : bool :=
  bool_decide (ascii_lower <$> x = ascii_lower <$> y).

Lemma ascii_upper_idemp b : ascii_upper (ascii_upper b) = ascii_upper b.
Proof. by destruct b. Qed.
Lemma ascii_lower_upper b : ascii_lower (ascii_upper b) = ascii_lower b.
Proof. by destruct b. Qed.
Lemma ascii_upper_lower b : ascii_upper (ascii_lower b) = ascii_upper b.
Proof. by destruct b. Qed.
Lemma ascii_lower_idemp b : ascii_lower (ascii_lower b) = ascii_lower b.
Proof. by destruct b. Qed.

Definition utf8_cont : byte -> bool := in_range 128 191.

(** The second byte of a three- and of a four-byte sequence: overlong forms,
    surrogates and code points past U+10FFFF are not UTF-8. *)
Definition utf8_second3 (v0 : Z) : byte -> bool :=
  if v0 =? 224 then in_range 160 191
  else if v0 =? 237 then in_range 128 159
  else utf8_cont.
Definition utf8_second4 (v0 : Z) : byte -> bool :=
  if v0 =? 240 then in_range 144 191
  else if v0 =? 244 then in_range 128 143
  else utf8_cont.

Fixpoint utf8_valid (l : bytes) : bool :=
  match l with
  | [] => true
  | b0 :: r0 =>
      let v0 := byte_val b0 in
      if v0 <? 128 then utf8_valid r0
      else match r0 with
      | [] => false
      | b1 :: r1 =>
          if in_range 194 223 b0 then utf8_cont b1 && utf8_valid r1
          else match r1 with
          | [] => false
          | b2 :: r2 =>
              if in_range 224 239 b0
              then utf8_second3 v0 b1 && utf8_cont b2 && utf8_valid r2
              else match r2 with
              | [] => false
              | b3 :: r3 =>
                  in_range 240 244 b0 && utf8_second4 v0 b1 && utf8_cont b2 &&
                  utf8_cont b3 && utf8_valid r3
              end
          end
      end
  end.

(** [core::str::from_utf8] and [String::from_utf8]. *)
Definition from_utf8 (l : bytes) : option bytes := if utf8_valid l then Some l else None.

Lemma from_utf8_some l l' : from_utf8 l = Some l' <-> l' = l /\ utf8_valid l = true.
Proof. unfold from_utf8. destruct (utf8_valid l); naive_solver. Qed.

Lemma utf8_valid_ascii l : forallb is_ascii l = true -> utf8_valid l = true.
Proof.
  induction l as [|b l IH]; simpl; [done|].
  intros [Hb Hl]%andb_prop. unfold is_ascii in Hb. rewrite Hb. auto.
Qed.

(** ** Case mapping of [str] ([to_uppercase], [to_lowercase])

    ASCII is mapped here; the mapping of the other characters is the Unicode
    table, a parameter.  Lower-casing may look at the neighbourhood of a
    character (the final sigma), so its parameter is given the text before and
    after it. *)

Class UnicodeData := {
  char_upper : bytes -> bytes;
  char_lower : bytes -> bytes -> bytes -> bytes;
}.

Definition starts_with_cont (c : bytes) : bool :=
  match c with
  | b :: _ => utf8_cont b
  | [] => false
  end.

(** [str::chars], each character as its encoding. *)
Fixpoint utf8_chars (l : bytes) : list bytes :=
  match l with
  | [] => []
  | b :: r =>
      match utf8_chars r with
      | [] => [[b]]
      | c :: cs => if starts_with_cont c then (b :: c) :: cs else [b] :: c :: cs
      end
  end.

Definition upper_char `{UnicodeData} (c : bytes) : bytes :=
  match c with
  | [b] => if is_ascii b then [ascii_upper b] else char_upper c
  | _ => char_upper c
  end.

Definition to_uppercase `{UnicodeData} (s : bytes) : bytes :=
  concat (upper_char <$> utf8_chars s).

Definition lower_char `{UnicodeData} (before after c : bytes) : bytes :=
  match c with
  | [b] => if is_ascii b then [ascii_lower b] else char_lower before after c
  | _ => char_lower before after c
  end.

Fixpoint lower_chars `{UnicodeData} (before : bytes) (cs : list bytes) : bytes :=
  match cs with
  | [] => []
  | c :: cs => lower_char before (concat cs) c ++ lower_chars (before ++ c) cs
  end.

Definition to_lowercase `{UnicodeData} (s : bytes) : bytes := lower_chars [] (utf8_chars s).

(** What Unicode promises of its table: the upper-case form is stable. *)
Class UnicodeLaws `{UnicodeData} := {
  to_uppercase_idemp s : to_uppercase (to_uppercase s) = to_uppercase s;
}.

Lemma utf8_chars_join l : concat (utf8_chars l) = l.
Proof.
  induction l as [|b l IH]; [done|]. simpl.
  destruct (utf8_chars l) as [|c cs]; simpl in *; [by rewrite <- IH|].
  destruct (starts_with_cont c); simpl; by rewrite IH.
Qed.

Lemma utf8_chars_head l c cs : utf8_chars l = c :: cs -> starts_with_cont c = starts_with_cont l.
Proof.
  destruct l as [|b l]; cbn [utf8_chars]; [done|].
  destruct (utf8_chars l) as [|c' cs']; [by intros [= <- _]|].
  destruct (starts_with_cont c'); by intros [= <- _].
Qed.

(** The first characters of a text are at most so many characters. *)
Lemma utf8_chars_take n l : (length (utf8_chars (concat (take n (utf8_chars l)))) <= n)%nat.
Proof.
  revert n. induction l as [|b l IH]; intros n; [by destruct n; cbn; lia|].
  destruct n as [|n]; [by rewrite take_0; cbn; lia|]. cbn [utf8_chars].
  destruct (utf8_chars l) as [|c cs] eqn:Hl.
  { destruct n; cbn; lia. }
  destruct (starts_with_cont c) eqn:Hc; cbn [take concat app utf8_chars].
  - specialize (IH (S n)). cbn [take concat] in IH.
    destruct (utf8_chars (c ++ concat (take n cs))) as [|c' cs'] eqn:Hh; [cbn; lia|].
    assert (starts_with_cont c' = true) as ->; [|exact IH].
    rewrite (utf8_chars_head _ _ _ Hh). by destruct c.
  - specialize (IH n). destruct (utf8_chars (concat (take n (c :: cs)))) as [|c' cs'] eqn:Hh; [cbn; lia|].
    destruct (starts_with_cont c'); cbn in *; lia.
Qed.

Lemma utf8_chars_length l : (length (utf8_chars l) <= length l)%nat.
Proof.
  induction l as [|b l IH]; [done|]. cbn [utf8_chars].
  destruct (utf8_chars l) as [|c cs]; [cbn; lia|]. destruct (starts_with_cont c); cbn in *; lia.
Qed.

Lemma utf8_chars_ascii l :
  forallb is_ascii l = true -> utf8_chars l = (fun b => [b]) <$> l.
Proof.
  induction l as [|b l IH]; simpl; [done|].
  intros [Hb Hl]%andb_prop. rewrite IH by done.
  destruct l as [|c l]; [done|]. simpl.
  assert (utf8_cont c = false) as ->; [|done].
  simpl in Hl. apply andb_prop in Hl as [Hc _]. revert Hc.
  unfold is_ascii, utf8_cont, in_range. lia.
Qed.

Lemma to_uppercase_ascii `{UnicodeData} l :
  forallb is_ascii l = true -> to_uppercase l = ascii_upper <$> l.
Proof.
  intros Hl. unfold to_uppercase. rewrite utf8_chars_ascii by done.
  induction l as [|b l IH]; [done|]. simpl in *.
  apply andb_prop in Hl as [-> Hl]. simpl. f_equal. by apply IH.
Qed.

Lemma to_lowercase_ascii `{UnicodeData} l :
  forallb is_ascii l = true -> to_lowercase l = ascii_lower <$> l.
Proof.
  intros Hl. unfold to_lowercase. rewrite utf8_chars_ascii by done.
  assert (forall before, lower_chars before ((fun b => [b]) <$> l) = ascii_lower <$> l) as Hg; [|apply Hg].
  induction l as [|b l IH]; intros before; [done|]. simpl in *.
  apply andb_prop in Hl as [-> Hl]. simpl. f_equal. by apply IH.
Qed.

(** The smallest Unicode table, for evaluating on ASCII text. *)
Definition ascii_unicode : UnicodeData := {|
  char_upper c := ascii_upper <$> c;
  char_lower _ _ c := ascii_lower <$> c;
|}.

Lemma to_uppercase_ascii_unicode s :
  @to_uppercase ascii_unicode s = ascii_upper <$> s.
Proof.
  unfold to_uppercase. rewrite <- (utf8_chars_join s) at 2.
  induction (utf8_chars s) as [|c cs IH]; [done|].
  rewrite fmap_cons. cbn [concat]. rewrite fmap_app, IH. f_equal.
  destruct c as [|b [|b' c]]; simpl; try done. by destruct (is_ascii b).
Qed.

Lemma ascii_unicode_laws : @UnicodeLaws ascii_unicode.
Proof.
  constructor. intros s. rewrite !to_uppercase_ascii_unicode, <- list_fmap_compose.
  apply list_fmap_ext. intros. apply ascii_upper_idemp.
Qed.
