(* ===== verification/Text.v ===== *)
(** * Operations on [str]

    The string operations of the standard library that the code uses, on the
    UTF-8 bytes of a string: searching, splitting, trimming and number
    formatting. *)

From stdpp Require Import base tactics option strings numbers list.
From Stdlib Require Import ZArith Lia DecimalString.
From Stdlib Require Import Strings.Byte.
From S2P Require Import Prelude Bytes.

(** [starts_with] and [ends_with]. *)
Definition str_starts_with (s prefix : bytes) : bool :=
  bool_decide (take (length prefix) s = prefix).
Definition str_ends_with (s suffix : bytes) : bool :=
  (length suffix <=? length s)%nat && bool_decide (drop (length s - length suffix) s = suffix).

(** [find]: the offset of the first occurrence. *)
Fixpoint str_find (s needle : bytes) : option nat :=
  if str_starts_with s needle then Some 0%nat
  else
    match s with
    | [] => None
    | _ :: s => S <$> str_find s needle
    end.

(** [str::contains]. *)
Definition str_contains (s needle : bytes) : bool := bool_decide (is_Some (str_find s needle)).

(** [rfind]: the offset of the last occurrence. *)
Fixpoint str_rfind (s needle : bytes) : option nat :=
  match s with
  | [] => if str_starts_with s needle then Some 0%nat else None
  | _ :: s' =>
      match str_rfind s' needle with
      | Some i => Some (S i)
      | None => if str_starts_with s needle then Some 0%nat else None
      end
  end.

(** [trim_start_matches] and [trim_end_matches] of one character. *)
Fixpoint trim_start_byte (c : byte) (s : bytes) : bytes :=
  match s with
  | [] => []
  | b :: r => if decide (b = c) then trim_start_byte c r else s
  end.
Definition trim_end_byte (c : byte) (s : bytes) : bytes := reverse (trim_start_byte c (reverse s)).

(** [char::is_whitespace]: the encodings of the characters with the Unicode
    property [White_Space]. *)
Definition WHITE_SPACE : list bytes :=
  [[x09]; [x0a]; [x0b]; [x0c]; [x0d]; [x20]; [xc2; x85]; [xc2; xa0]; [xe1; x9a; x80];
   [xe2; x80; x80]; [xe2; x80; x81]; [xe2; x80; x82]; [xe2; x80; x83]; [xe2; x80; x84];
   [xe2; x80; x85]; [xe2; x80; x86]; [xe2; x80; x87]; [xe2; x80; x88]; [xe2; x80; x89];
   [xe2; x80; x8a]; [xe2; x80; xa8]; [xe2; x80; xa9]; [xe2; x80; xaf]; [xe2; x81; x9f];
   [xe3; x80; x80]].
Definition is_whitespace (c : bytes) : bool := bool_decide (c ∈ WHITE_SPACE).

Fixpoint drop_while {A} (f : A -> bool) (l : list A) : list A :=
  match l with
  | [] => []
  | x :: r => if f x then drop_while f r else l
  end.

(** [trim_start], [trim_end] and [trim]. *)
Definition trim_start (s : bytes) : bytes := concat (drop_while is_whitespace (utf8_chars s)).
Definition trim_end (s : bytes) : bytes :=
  concat (reverse (drop_while is_whitespace (reverse (utf8_chars s)))).
Definition trim (s : bytes) : bytes := trim_end (trim_start s).

(** [split] at one character: there is always at least one piece. *)
Fixpoint str_split (c : byte) (s : bytes) : list bytes :=
  match s with
  | [] => [[]]
  | b :: r =>
      if decide (b = c) then [] :: str_split c r
      else match str_split c r with
           | [] => [[b]]
           | p :: ps => (b :: p) :: ps
           end
  end.

Lemma str_split_cons c s : exists p ps, str_split c s = p :: ps.
Proof.
  induction s as [|b s (p & ps & IH)]; cbn; [by eauto|]. destruct (decide (b = c)); [by eauto|].
  rewrite IH. by eauto.
Qed.

Lemma str_split_app c x y : str_split c (x ++ c :: y) = str_split c x ++ str_split c y.
Proof.
  induction x as [|b x IH]; cbn; [by rewrite decide_True|]. rewrite IH. destruct (decide (b = c)); [done|].
  destruct (str_split_cons c x) as (p & ps & ->). done.
Qed.

Lemma str_split_none c x : c ∉ x -> str_split c x = [x].
Proof.
  induction x as [|b x IH]; cbn; [done|]. intros [Hb Hx]%not_elem_of_cons.
  rewrite decide_False by congruence. by rewrite IH.
Qed.

(** [splitn(2, c)]. *)
Fixpoint str_splitn2 (c : byte) (s : bytes) : bytes * option bytes :=
  match s with
  | [] => ([], None)
  | b :: r =>
      if decide (b = c) then ([], Some r)
      else let '(p, q) := str_splitn2 c r in (b :: p, q)
  end.

(** [format!("{}", n)] of an unsigned integer. *)
Definition dec_bytes (n : Z) : bytes :=
  bs (NilZero.string_of_uint (N.to_uint (Z.to_N n))).

(** [{:016X}] of a [u64]: the sixteen upper-case hex digits of a number. *)
Definition hex_digit_upper (n : Z) : byte := nth (Z.to_nat n) (bs "0123456789ABCDEF") x00.

Fixpoint hex_upper (n : nat) (z : Z) : bytes :=
  match n with
  | O => []
  | S n => hex_upper n (z / 16) ++ [hex_digit_upper (z mod 16)]
  end.

Lemma hex_upper_length n z : length (hex_upper n z) = n.
Proof. revert z; induction n as [|n IH]; intros z; [done|]. simpl. rewrite length_app, IH. simpl. lia. Qed.

(** The order of [str]: by bytes. *)
Fixpoint bytes_le (a b : bytes) : bool :=
  match a, b with
  | [], _ => true
  | _ :: _, [] => false
  | x :: a, y :: b =>
      if byte_val x <? byte_val y then true
      else if byte_val y <? byte_val x then false
      else bytes_le a b
  end.

Lemma bytes_le_refl a : bytes_le a a = true.
Proof. induction a as [|x a IH]; [done|]. simpl. by rewrite Z.ltb_irrefl. Qed.

Lemma bytes_le_total a b : bytes_le a b = true \/ bytes_le b a = true.
Proof.
  revert b; induction a as [|x a IH]; intros [|y b]; simpl; auto.
  destruct (Z.ltb_spec (byte_val x) (byte_val y)); [auto|].
  destruct (Z.ltb_spec (byte_val y) (byte_val x)); auto.
Qed.

Lemma bytes_le_antisymm a b : bytes_le a b = true -> bytes_le b a = true -> a = b.
Proof.
  revert b; induction a as [|x a IH]; intros [|y b]; simpl; try done.
  destruct (Z.ltb_spec (byte_val x) (byte_val y)), (Z.ltb_spec (byte_val y) (byte_val x));
    try lia; try done.
  intros ??. f_equal; [apply byte_val_inj; lia|auto].
Qed.

Lemma bytes_le_trans a b c : bytes_le a b = true -> bytes_le b c = true -> bytes_le a c = true.
Proof.
  revert b c; induction a as [|x a IH]; intros [|y b] [|z c]; simpl; try done.
  destruct (Z.ltb_spec (byte_val x) (byte_val y)), (Z.ltb_spec (byte_val y) (byte_val x)),
    (Z.ltb_spec (byte_val y) (byte_val z)), (Z.ltb_spec (byte_val z) (byte_val y)),
    (Z.ltb_spec (byte_val x) (byte_val z)), (Z.ltb_spec (byte_val z) (byte_val x));
    try lia; try done. eauto.
Qed.

(** [trim_start_matches] of a prefix; each match removes a byte at least, so the
    length of the text is enough fuel. *)
Fixpoint trim_matches (fuel : nat) (prefix s : bytes) : bytes :=
  match fuel with
  | O => s
  | S fuel => if str_starts_with s prefix
              then trim_matches fuel prefix (drop (length prefix) s) else s
  end.
Definition trim_start_matches (prefix s : bytes) : bytes := trim_matches (length s) prefix s.

(** ** Hex text with a prefix *)

(** [trim_start_matches("0x")] removes every leading occurrence. *)
Fixpoint trim_0x (s : bytes) : bytes :=
  match s with
  | b0 :: (b1 :: r) as t =>
      if decide (b0 = "0"%byte /\ b1 = "x"%byte) then trim_0x r else s
  | _ => s
  end.

Lemma hex_digit_not_x n : 0 <= n < 16 -> hex_digit n <> "x"%byte.
Proof.
  intros Hn. assert (Forall (fun k => hex_digit k <> "x"%byte) (seqZ 0 16)) as Hall
    by (apply (bool_decide_unpack _); vm_compute; exact I).
  rewrite Forall_forall in Hall. apply Hall, elem_of_seqZ. lia.
Qed.

Lemma trim_0x_hex a : trim_0x (hex_encode a) = hex_encode a.
Proof.
  destruct a as [|b a]; [done|].
  change (hex_encode (b :: a)) with
    (hex_digit (byte_val b / 16) :: hex_digit (byte_val b mod 16) :: hex_encode a).
  cbn [trim_0x]. case_decide as Hx; [|done]. destruct Hx as [_ Hx].
  exfalso. eapply hex_digit_not_x, Hx. apply Z.mod_pos_bound. lia.
Qed.

Lemma trim_0x_prefix a : trim_0x (bs "0x" ++ hex_encode a) = hex_encode a.
Proof. apply trim_0x_hex. Qed.

Lemma trim_0x_length s : (length (trim_0x s) <= length s)%nat.
Proof.
  remember (length s) as n eqn:Hn. revert s Hn. induction n as [n IH] using lt_wf_ind.
  intros [|b0 [|b1 r]] ->; [done..|]. cbn [trim_0x]. case_decide; [|done].
  specialize (IH (length r) ltac:(cbn; lia) r eq_refl). cbn. lia.
Qed.

(** [String::from_utf8_lossy]: the longest start of a character that does not go on
    as one is replaced. *)
Definition REPLACEMENT_CHARACTER : bytes := [xef; xbf; xbd].
Fixpoint from_utf8_lossy (l : bytes) : bytes :=
  match l with
  | [] => []
  | b0 :: r0 =>
      let v0 := byte_val b0 in
      if v0 <? 128 then b0 :: from_utf8_lossy r0
      else if in_range 194 223 b0 then
        match r0 with
        | b1 :: r1 => if utf8_cont b1 then b0 :: b1 :: from_utf8_lossy r1
                      else REPLACEMENT_CHARACTER ++ from_utf8_lossy r0
        | [] => REPLACEMENT_CHARACTER
        end
      else if in_range 224 239 b0 then
        match r0 with
        | b1 :: r1 =>
            if utf8_second3 v0 b1 then
              match r1 with
              | b2 :: r2 => if utf8_cont b2 then b0 :: b1 :: b2 :: from_utf8_lossy r2
                            else REPLACEMENT_CHARACTER ++ from_utf8_lossy r1
              | [] => REPLACEMENT_CHARACTER
              end
            else REPLACEMENT_CHARACTER ++ from_utf8_lossy r0
        | [] => REPLACEMENT_CHARACTER
        end
      else if in_range 240 244 b0 then
        match r0 with
        | b1 :: r1 =>
            if utf8_second4 v0 b1 then
              match r1 with
              | b2 :: r2 =>
                  if utf8_cont b2 then
                    match r2 with
                    | b3 :: r3 => if utf8_cont b3 then b0 :: b1 :: b2 :: b3 :: from_utf8_lossy r3
                                  else REPLACEMENT_CHARACTER ++ from_utf8_lossy r2
                    | [] => REPLACEMENT_CHARACTER
                    end
                  else REPLACEMENT_CHARACTER ++ from_utf8_lossy r1
              | [] => REPLACEMENT_CHARACTER
              end
            else REPLACEMENT_CHARACTER ++ from_utf8_lossy r0
        | [] => REPLACEMENT_CHARACTER
        end
      else REPLACEMENT_CHARACTER ++ from_utf8_lossy r0
  end.

(** Text is unchanged. *)
Lemma from_utf8_lossy_valid l : utf8_valid l = true -> from_utf8_lossy l = l.
Proof.
  remember (length l) as n eqn:Hn. revert l Hn. induction n as [n IH] using lt_wf_ind.
  assert (forall r, (length r < n)%nat -> utf8_valid r = true -> from_utf8_lossy r = r) as IH'
    by (intros r Hr; by apply (IH (length r))). clear IH.
  intros [|b0 r0] ->; [done|]. cbn [utf8_valid from_utf8_lossy]. cbn [length] in IH'.
  destruct (byte_val b0 <? 128); [intros Hv; f_equal; apply IH'; [lia|done]|].
  destruct r0 as [|b1 r1]; [done|]. cbn [length] in IH'.
  destruct (in_range 194 223 b0).
  { intros [-> Hv]%andb_prop. do 2 f_equal. apply IH'; [lia|done]. }
  destruct r1 as [|b2 r2]; [done|]. cbn [length] in IH'.
  destruct (in_range 224 239 b0).
  { intros [[-> ->]%andb_prop Hv]%andb_prop. do 3 f_equal. apply IH'; [lia|done]. }
  destruct r2 as [|b3 r3]; [done|]. cbn [length] in IH'.
  rewrite !andb_true_iff. intros [[[[-> ->] ->] ->] Hv]. do 4 f_equal. apply IH'; [lia|done].
Qed.
