(* ===== verification/Types.v ===== *)
(** * The types of [sxt-core]

    The data that the pallets store, receive and emit, with the source's
    constructors and field names.  A [BoundedVec<T, N>] is the list of its
    elements; the bound is checked by [try_from_bounded] and [try_push] where
    the code converts, and bounds of stored values are invariants. *)

From stdpp Require Import base tactics list option gmap countable strings numbers.
From Stdlib Require Import ZArith Lia.
From Stdlib Require Import Strings.Byte.
From S2P Require Import Prelude Bytes.

(** [BoundedVec::try_from] and [BoundedVec::try_push]. *)
Definition try_from_bounded {A} (bound : nat) (l : list A) : option (list A) :=
  if (length l <=? bound)%nat then Some l else None.
Definition try_push {A} (bound : nat) (l : list A) (x : A) : option (list A) :=
  if (length l <? bound)%nat then Some (l ++ [x]) else None.

(** The same for the large bounds. *)
Definition try_from_large {A} (bound : Z) (l : list A) : option (list A) :=
  if Z.of_nat (length l) <=? bound then Some l else None.

Lemma try_from_large_some {A} bound (l l' : list A) :
  try_from_large bound l = Some l' <-> l' = l /\ Z.of_nat (length l) <= bound.
Proof.
  unfold try_from_large. destruct (Z.leb_spec (Z.of_nat (length l)) bound); naive_solver lia.
Qed.
Lemma try_from_bounded_some {A} bound (l l' : list A) :
  try_from_bounded bound l = Some l' <-> l' = l /\ (length l <= bound)%nat.
Proof.
  unfold try_from_bounded. destruct (Nat.leb_spec (length l) bound); naive_solver lia.
Qed.
Lemma try_push_some {A} bound (l l' : list A) x :
  try_push bound l x = Some l' <-> l' = l ++ [x] /\ (length l < bound)%nat.
Proof.
  unfold try_push. destruct (Nat.ltb_spec (length l) bound); naive_solver lia.
Qed.
Lemma try_push_none {A} bound (l : list A) x :
  try_push bound l x = None <-> (bound <= length l)%nat.
Proof.
  unfold try_push. destruct (Nat.ltb_spec (length l) bound); naive_solver lia.
Qed.

(** [BoundedBTreeSet::try_insert]: an element that is already there never
    exceeds the bound. *)
Definition set_try_insert `{Countable A} (bound : nat) (X : gset A) (x : A) : option (gset A) :=
  if bool_decide (x ∈ X) || (size X <? bound)%nat then Some ({[x]} ∪ X) else None.

(** ** sxt-core/src/lib.rs *)

Definition IDENT_LENGTH : nat := 64.
Notation ByteString := (list byte) (only parsing).
Definition ByteString_try_from (l : bytes) : option ByteString := try_from_bounded IDENT_LENGTH l.

(** ** sxt-core/src/tables.rs *)

Definition MAX_COLS_PER_TABLE : nat := 64.
Definition MAX_TABLES_PER_SCHEMA : nat := 1024.
Definition MAX_SNAPSHOT_LEN : nat := 2048.
Definition CREATE_STMNT_LENGTH : nat := 8192.
Definition MAX_IDENTIFIERS_PER_SOURCE_AND_MODE : nat := 1024.

Inductive Source :=
| Ethereum
| Sepolia
| Bitcoin
| Polygon
| ZkSyncEra
| Source_UserCreated (name : ByteString).

Inductive IndexerMode :=
| Core
| Full
| PriceFeeds
| SmartContract (name : ByteString)
| IndexerMode_UserCreated (name : ByteString).

Record SourceAndMode := { source : Source; mode : IndexerMode }.

Notation TableName := (list byte) (only parsing).
Notation TableNamespace := (list byte) (only parsing).
Notation TableUuid := (list byte) (only parsing).
Notation CreateStatement := (list byte) (only parsing).
Notation SnapshotUrl := (list byte) (only parsing).
Notation TableVersion := Z (only parsing).

Definition TableUuid_try_from (l : bytes) : option TableUuid := try_from_bounded IDENT_LENGTH l.
Definition CreateStatement_try_from (l : bytes) : option CreateStatement :=
  try_from_bounded CREATE_STMNT_LENGTH l.

Record TableIdentifier := mkTableIdentifier {
  name : TableName;
  namespace : TableNamespace;
}.

Definition is_staking_table (self : TableIdentifier) : bool :=
  bool_decide (namespace self = bs "SXT_SYSTEM_STAKING").

(** [TableIdentifier::from_str_unchecked] panics on an overlong name. *)
Definition from_str_unchecked `{UnicodeData} {E} (nm ns : bytes) : outcome E TableIdentifier :=
  let? nm := unwrap_option (ByteString_try_from (to_uppercase nm)) in
  let? ns := unwrap_option (ByteString_try_from (to_uppercase ns)) in
  Ok (mkTableIdentifier nm ns).

Definition normalized `{UnicodeData} {E} (ident : TableIdentifier) : outcome E TableIdentifier :=
  let? nm := unwrap_option (from_utf8 (name ident)) in
  let? ns := unwrap_option (from_utf8 (namespace ident)) in
  from_str_unchecked nm ns.

(** [impl TryFrom<&TableIdentifier> for String]. *)
Definition table_identifier_to_string (t : TableIdentifier) : option bytes :=
  ns ← from_utf8 (namespace t); nm ← from_utf8 (name t); Some (ns ++ bs "." ++ nm).

Record ColumnUuid := mkColumnUuid { column_name : ByteString; column_uuid : TableUuid }.
Notation ColumnUuidList := (list ColumnUuid) (only parsing).

Inductive TableIdentifierConversionError :=
| NotTwoIdentifiers
| IdentifierExceedsMaxLength.

(** [impl TryFrom<&ObjectName> for TableIdentifier]; an [ObjectName] is the
    list of the identifiers' values. *)
Definition table_identifier_try_from `{UnicodeData} (object_name : list bytes)
    : outcome TableIdentifierConversionError TableIdentifier :=
  let? idents := collect (fun ident =>
      ok_or (ByteString_try_from (to_uppercase ident)) IdentifierExceedsMaxLength)
    object_name in
  match idents with
  | [namespace; name] => Ok (mkTableIdentifier name namespace)
  | _ => Err NotTwoIdentifiers
  end.

(** [impl TryFrom<TableRef> for TableIdentifier]; a [TableRef] is an optional
    schema and a table identifier. *)
Definition table_identifier_try_from_table_ref `{UnicodeData}
    (schema_id : option bytes) (table_id : bytes)
    : outcome TableIdentifierConversionError TableIdentifier :=
  let? schema := ok_or schema_id NotTwoIdentifiers in
  let? namespace := ok_or (ByteString_try_from (to_uppercase schema)) IdentifierExceedsMaxLength in
  let? name := ok_or (ByteString_try_from (to_uppercase table_id)) IdentifierExceedsMaxLength in
  Ok (mkTableIdentifier name namespace).

Inductive QuorumScope := Public | Privileged.

Record InsertQuorumSize := mkInsertQuorumSize {
  quorum_public : option Z;
  quorum_privileged : option Z;
}.

Definition InsertQuorumSize_of_scope (self : InsertQuorumSize) (quorum_scope : QuorumScope)
    : option Z :=
  match quorum_scope with
  | Public => quorum_public self
  | Privileged => quorum_privileged self
  end.

Inductive TableType :=
| CoreBlockchain
| SCI
| Community
| Testing (q : InsertQuorumSize).

(** [impl From<TableType> for InsertQuorumSize]. *)
Definition insert_quorum_of_table_type (table_type : TableType) : InsertQuorumSize :=
  match table_type with
  | CoreBlockchain => mkInsertQuorumSize (Some 3) None
  | SCI => mkInsertQuorumSize (Some 1) None
  | Community => mkInsertQuorumSize None (Some 0)
  | Testing quorum => quorum
  end.

Definition InsertQuorumSize_default : InsertQuorumSize := mkInsertQuorumSize None None.

(** ** sxt-core/src/permissions.rs *)

Inductive TablesPalletPermission := EditSchema | EditRewards | EditUuid.
Inductive GovernancePalletPermission := AddIndexer | RemoveIndexer.
Inductive IndexingPalletPermission :=
| SubmitDataForPublicQuorum
| SubmitDataForPrivilegedQuorum (table : TableIdentifier).
Inductive AttestationPalletPermission := AttestBlock | ForwardAttestedBlock.
Inductive SmartContractsPalletPermission : Set := UpdateABI.

Inductive PermissionLevel :=
| UpdatePermissions
| UserCreated (level : ByteString)
| TablesPallet (p : TablesPalletPermission)
| GovernancePallet (p : GovernancePalletPermission)
| IndexingPallet (p : IndexingPalletPermission)
| AttestationPallet (p : AttestationPalletPermission)
| SmartContractsPallet (p : SmartContractsPalletPermission)
| EditSpecificPermission (p : PermissionLevel).

Notation PermissionList := (list PermissionLevel) (only parsing).
Definition PERMISSION_LIST_MAX : nat := 32.

(** ** Decidable equality and countability of the keys *)

#[global] Instance Source_eq_dec : EqDecision Source.
Proof. solve_decision. Defined.
#[global] Instance IndexerMode_eq_dec : EqDecision IndexerMode.
Proof. solve_decision. Defined.
#[global] Instance TableIdentifier_eq_dec : EqDecision TableIdentifier.
Proof. solve_decision. Defined.
#[global] Instance ColumnUuid_eq_dec : EqDecision ColumnUuid.
Proof. solve_decision. Defined.
#[global] Instance QuorumScope_eq_dec : EqDecision QuorumScope.
Proof. solve_decision. Defined.
#[global] Instance InsertQuorumSize_eq_dec : EqDecision InsertQuorumSize.
Proof. solve_decision. Defined.
#[global] Instance TableType_eq_dec : EqDecision TableType.
Proof. solve_decision. Defined.
#[global] Instance TablesPalletPermission_eq_dec : EqDecision TablesPalletPermission.
Proof. solve_decision. Defined.
#[global] Instance GovernancePalletPermission_eq_dec : EqDecision GovernancePalletPermission.
Proof. solve_decision. Defined.
#[global] Instance IndexingPalletPermission_eq_dec : EqDecision IndexingPalletPermission.
Proof. solve_decision. Defined.
#[global] Instance AttestationPalletPermission_eq_dec : EqDecision AttestationPalletPermission.
Proof. solve_decision. Defined.
#[global] Instance SmartContractsPalletPermission_eq_dec :
  EqDecision SmartContractsPalletPermission.
Proof. solve_decision. Defined.
#[global] Instance PermissionLevel_eq_dec : EqDecision PermissionLevel.
Proof. solve_decision. Defined.

#[global] Instance Source_countable : Countable Source.
Proof.
  refine (inj_countable'
    (fun s => match s with
      | Ethereum => inl 0%nat | Sepolia => inl 1%nat | Bitcoin => inl 2%nat
      | Polygon => inl 3%nat | ZkSyncEra => inl 4%nat | Source_UserCreated n => inr n
      end)
    (fun x => match x with
      | inl 0%nat => Ethereum | inl 1%nat => Sepolia | inl 2%nat => Bitcoin
      | inl 3%nat => Polygon | inl _ => ZkSyncEra | inr n => Source_UserCreated n
      end) _).
  by intros [].
Defined.

#[global] Instance TableIdentifier_countable : Countable TableIdentifier.
Proof.
  refine (inj_countable' (fun t => (name t, namespace t)) (fun p => mkTableIdentifier p.1 p.2) _).
  by intros [].
Defined.

#[global] Instance InsertQuorumSize_countable : Countable InsertQuorumSize.
Proof.
  refine (inj_countable' (fun q => (quorum_public q, quorum_privileged q))
    (fun p => mkInsertQuorumSize p.1 p.2) _).
  by intros [].
Defined.

#[global] Instance TableType_countable : Countable TableType.
Proof.
  refine (inj_countable'
    (fun t => match t with
      | CoreBlockchain => inl 0%nat | SCI => inl 1%nat | Community => inl 2%nat
      | Testing q => inr q
      end)
    (fun x => match x with
      | inl 0%nat => CoreBlockchain | inl 1%nat => SCI | inl _ => Community
      | inr q => Testing q
      end) _).
  by intros [].
Defined.

(** ** sxt-core/src/indexing.rs *)

Definition DATA_MAX_LEN : Z := 8000000.
Definition ID_LEN : nat := 36.
Definition MAX_SUBMITTERS : nat := 32.

Notation RowData := (list byte) (only parsing).
Notation BatchId := (list byte) (only parsing).

Section indexing_types.
Context {T : Type} `{Countable T}.

Record SubmittersByScope := mkSubmittersByScope {
  submitters_public : gset T;
  submitters_privileged : gset T;
}.

Definition SubmittersByScope_default : SubmittersByScope := mkSubmittersByScope ∅ ∅.

Definition of_scope (self : SubmittersByScope) (quorum_scope : QuorumScope) : gset T :=
  match quorum_scope with
  | Public => submitters_public self
  | Privileged => submitters_privileged self
  end.

Definition with_submitter (self : SubmittersByScope) (submitter : T) (quorum_scope : QuorumScope)
    : SubmittersByScope + (SubmittersByScope * T) :=
  match quorum_scope with
  | Public =>
      match set_try_insert MAX_SUBMITTERS (submitters_public self) submitter with
      | Some X => inl (mkSubmittersByScope X (submitters_privileged self))
      | None => inr (self, submitter)
      end
  | Privileged =>
      match set_try_insert MAX_SUBMITTERS (submitters_privileged self) submitter with
      | Some X => inl (mkSubmittersByScope (submitters_public self) X)
      | None => inr (self, submitter)
      end
  end.

Definition len_of_scope (self : SubmittersByScope) (quorum_scope : QuorumScope) : Z :=
  match quorum_scope with
  | Public => Z.of_nat (size (submitters_public self))
  | Privileged => Z.of_nat (size (submitters_privileged self))
  end.

Definition scope_is_empty (self : SubmittersByScope) (quorum_scope : QuorumScope) : bool :=
  len_of_scope self quorum_scope =? 0.

End indexing_types.
Arguments SubmittersByScope T {_ _}.

Record DataSubmission (Hash : Type) := mkDataSubmission {
  submission_table : TableIdentifier;
  submission_batch_id : BatchId;
  submission_data_hash : Hash;
  submission_quorum_scope : QuorumScope;
}.
Arguments mkDataSubmission {Hash} _ _ _ _.
Arguments submission_table {Hash} _.
Arguments submission_batch_id {Hash} _.
Arguments submission_data_hash {Hash} _.
Arguments submission_quorum_scope {Hash} _.

Record DataQuorum (AccountId Hash : Type) `{Countable AccountId} := mkDataQuorum {
  quorum_table : TableIdentifier;
  quorum_batch_id : BatchId;
  quorum_data_hash : Hash;
  quorum_block_number : Z;
  agreements : gset AccountId;
  dissents : gset AccountId;
  quorum_scope : QuorumScope;
}.
Arguments mkDataQuorum {AccountId Hash _ _} _ _ _ _ _ _ _.
Arguments quorum_table {AccountId Hash _ _} _.
Arguments quorum_batch_id {AccountId Hash _ _} _.
Arguments quorum_data_hash {AccountId Hash _ _} _.
Arguments quorum_block_number {AccountId Hash _ _} _.
Arguments agreements {AccountId Hash _ _} _.
Arguments dissents {AccountId Hash _ _} _.
Arguments quorum_scope {AccountId Hash _ _} _.

(** ** sxt-core/src/attestation.rs and keystore.rs *)

Notation Address20 := (list byte) (only parsing).

Record EthereumSignature := mkEthereumSignature {
  sig_r : bytes;
  sig_s : bytes;
  sig_v : Z;
}.

Definition EthereumSignature_new (r s : bytes) (v : option Z) : EthereumSignature :=
  mkEthereumSignature r s (default 28 v).

Inductive RegisterExternalAddress :=
| EthereumAddress (signature : EthereumSignature) (proposed_pub_key : bytes)
    (address20 : Address20).

Inductive UnregisterExternalAddress : Set := UnregisterEthereumAddress.

Inductive AttestationKey :=
| AttestationEthereumKey (pub_key : bytes) (address20 : Address20).

Record EthereumKey := mkEthereumKey { pub_key : bytes; key_address20 : Address20 }.

Record UserKeystore := mkUserKeystore { eth_key : option EthereumKey }.

Definition with_eth_key (self : UserKeystore) (k : option EthereumKey) : UserKeystore :=
  mkUserKeystore k.

Inductive Attestation (BH : Type) :=
| EthereumAttestation (signature : EthereumSignature) (proposed_pub_key : bytes)
    (address20 : Address20) (state_root : bytes) (block_number : Z) (block_hash : BH).
Arguments EthereumAttestation {BH} _ _ _ _ _ _.

Inductive VerificationError :=
| InvalidRecoveryIdError (recovery_id : Z)
| KeyRecoveryError
| PublicKeyParsingError
| SignatureRecoveryError
| SignatureMismatchError.

Inductive SignatureError : Set := CreateSigningKeyError.

Inductive AttestationError :=
| VerificationErrorE (source : VerificationError)
| SignatureErrorE (source : SignatureError)
| PublicKeyError
| InvalidPublicKey
| ConversionError.

#[global] Instance EthereumSignature_eq_dec : EqDecision EthereumSignature.
Proof. solve_decision. Defined.
#[global] Instance EthereumKey_eq_dec : EqDecision EthereumKey.
Proof. solve_decision. Defined.
#[global] Instance Attestation_eq_dec `{EqDecision BH} : EqDecision (Attestation BH).
Proof. solve_decision. Defined.

(** ** sxt-core/src/smartcontracts.rs and system_contracts.rs *)

Notation ContractAddress := (list byte) (only parsing).

Record EventDetails := mkEventDetails {
  event_name : bytes;
  event_signature : bytes;
  event_table : TableName;
}.

Record ContractDetails := mkContractDetails {
  contract_source : Source;
  contract_address : ContractAddress;
  abi : option bytes;
  starting_block : option Z;
  target_schema : option ByteString;
  contract_name : option ByteString;
  event_details : option (list EventDetails);
  ddl_statement : option CreateStatement;
}.

Record NormalContract := mkNormalContract { normal_details : ContractDetails }.
Record ImplementationContract := mkImplementationContract { implementation_details : ContractDetails }.
Record ProxyContract := mkProxyContract {
  proxy_details : ContractDetails;
  implementation : ImplementationContract;
}.

Inductive Contract :=
| Normal (c : NormalContract)
| Proxy (c : ProxyContract).

Record ContractInfo := mkContractInfo { chain_id : Z; info_address : bytes }.
Definition ContractInfo_default : ContractInfo := mkContractInfo 0 (replicate 20 x00).

(** ** sxt-core/src/native.rs *)

Inductive NativeError :=
| DeserializationError
| EmptyRecordBatchError
| BatchReadError
| RecordBatchUnsupportedType
| RecordBatchContainsNulls
| RecordBatchInvalidTimezone
| RecordBatchUnexpectedSchemaDataMismatch
| RecordBatchDuplicateIdentifiers
| SerializationError.

Inductive NativeCommitmentError :=
| CommitmentDeserialization
| TableDeserialization
| OutOfScalarBounds
| ColumnCommitmentsMismatch
| TableCommitmentRangeMismatch
| TableCommitmentColumnOrderMismatch
| NoCommitments
| CommitmentSerialization
| TableSerialization.
