(* ===== verification/IgniteConversion.v ===== *)
(** * The WITH clauses of Ignite

    [convert_sql_to_ignite_create_statement] and [convert_ignite_create_statement] of
    sxt-core/src/tables.rs, which rewrite [WITH (options)] to [WITH "options"] and back by
    regular expressions.  The theorem is that the two are inverse on a statement with one
    clause; an example shows that the text of a parenthesis inside the options is cut. *)

From stdpp Require Import base tactics option gmap strings numbers list.
From Stdlib Require Import ZArith Lia.
From Stdlib Require Import Strings.Byte.
From S2P Require Import Prelude Bytes Text.

(** The longest prefix without a byte, and the rest. *)
Fixpoint span_not (c : byte) (s : bytes) : bytes * bytes :=
  match s with
  | [] => ([], [])
  | b :: r =>
      if decide (b = c) then ([], s)
      else let '(p, q) := span_not c r in (b :: p, q)
  end.

(** A match of the expression WITH, white space, [open], options, [close] at the start of
    the text: the options and what follows. *)
Definition match_with (open close : byte) (s : bytes) : option (bytes * bytes) :=
  if str_starts_with s (bs "WITH") then
    let after := drop 4 s in
    let clause := trim_start after in
    match clause with
    | b :: r =>
        if bool_decide (b = open) && negb (length clause =? length after)%nat then
          match span_not close r with
          | ([], _) => None
          | (kv, _ :: rest) => Some (kv, rest)
          | (_, []) => None
          end
        else None
    | [] => None
    end
  else None.

(** [Regex::replace_all]: matches are replaced from left to right. *)
Fixpoint replace_with (fuel : nat) (open close open' close' : byte) (s : bytes) : bytes :=
  match fuel with
  | O => s
  | S fuel =>
      match match_with open close s with
      | Some (kv, rest) => bs "WITH " ++ open' :: kv ++ close' :: replace_with fuel open close open' close' rest
      | None =>
          match s with
          | [] => []
          | b :: r => b :: replace_with fuel open close open' close' r
          end
      end
  end.

Definition quote : byte := x22.
Definition convert_sql_to_ignite_create_statement (statement : bytes) : bytes :=
  replace_with (S (length statement)) "("%byte ")"%byte quote quote statement.
Definition convert_ignite_create_statement (statement : bytes) : bytes :=
  replace_with (S (length statement)) quote quote "("%byte ")"%byte statement.

(** ** Lemmas *)

Lemma match_with_starts open close s :
  str_starts_with s (bs "WITH") = false -> match_with open close s = None.
Proof. intros Hs. unfold match_with. by rewrite Hs. Qed.

Lemma replace_without fuel open close open' close' s :
  str_find s (bs "WITH") = None -> replace_with fuel open close open' close' s = s.
Proof.
  revert s. induction fuel as [|fuel IH]; intros s; [done|]. cbn [replace_with].
  destruct s as [|b s]; [done|]. cbn [str_find]. destruct (str_starts_with (b :: s) (bs "WITH")) eqn:Hs; [done|].
  rewrite match_with_starts by done. destruct (str_find s (bs "WITH")) eqn:Hf; [done|]. intros _. by rewrite IH.
Qed.

Lemma span_not_app c kv rest : c ∉ kv -> span_not c (kv ++ c :: rest) = (kv, c :: rest).
Proof.
  induction kv as [|b kv IH]; cbn; [by rewrite decide_True|]. intros [Hb Hkv]%not_elem_of_cons.
  rewrite decide_False by congruence. by rewrite IH.
Qed.

(** A byte that starts no white space and continues no character. *)
Definition delimiter (b : byte) : bool :=
  negb (utf8_cont b) && forallb (fun w => negb (bool_decide (head w = Some b))) WHITE_SPACE.

Lemma utf8_chars_nonempty b r : exists cs c, utf8_chars (b :: r) = (b :: c) :: cs.
Proof.
  cbn [utf8_chars]. destruct (utf8_chars r) as [|c cs]; [by eauto|]. destruct (starts_with_cont c); by eauto.
Qed.

Lemma trim_start_space b r : delimiter b = true -> trim_start (x20 :: b :: r) = b :: r.
Proof.
  unfold delimiter. intros [Hc Hw]%andb_prop. unfold trim_start.
  destruct (utf8_chars_nonempty b r) as (cs & c & Hcs).
  assert (utf8_chars (x20 :: b :: r) = [x20] :: (b :: c) :: cs) as ->.
  { change (utf8_chars (x20 :: b :: r)) with
      (match utf8_chars (b :: r) with [] => [[x20]] | c :: cs => if starts_with_cont c then (x20 :: c) :: cs else [x20] :: c :: cs end).
    rewrite Hcs. cbn [starts_with_cont]. by destruct (utf8_cont b). }
  cbn [drop_while]. change (is_whitespace [x20]) with true. cbn [drop_while].
  assert (is_whitespace (b :: c) = false) as ->.
  { unfold is_whitespace. apply bool_decide_false. intros Hin. rewrite forallb_forall in Hw.
    apply list_elem_of_In in Hin. specialize (Hw _ Hin). by rewrite bool_decide_true in Hw. }
  rewrite <- Hcs. apply utf8_chars_join.
Qed.

(** The clause that the expression is for. *)
Lemma match_with_clause open close kv rest :
  delimiter open = true -> close ∉ kv -> kv <> [] ->
  match_with open close (bs "WITH " ++ open :: kv ++ close :: rest) = Some (kv, rest).
Proof.
  intros Ho Hc Hne. unfold match_with.
  assert (str_starts_with (bs "WITH " ++ open :: kv ++ close :: rest) (bs "WITH") = true) as -> by done.
  change (drop 4 (bs "WITH " ++ open :: kv ++ close :: rest)) with (x20 :: open :: kv ++ close :: rest).
  cbv zeta. rewrite trim_start_space by done. rewrite bool_decide_true by done.
  rewrite (proj2 (Nat.eqb_neq _ _)) by (cbn [length]; lia). cbn [andb negb].
  rewrite span_not_app by done. by destruct kv.
Qed.

Lemma starts_with_app s t x : (length x <= length s)%nat -> str_starts_with (s ++ t) x = str_starts_with s x.
Proof. intros Hl. unfold str_starts_with. by rewrite take_app_le. Qed.

(** A clause after a text in which WITH does not start. *)
Lemma replace_clause fuel open close open' close' p kv rest :
  delimiter open = true -> close ∉ kv -> kv <> [] ->
  str_find (p ++ bs "WIT") (bs "WITH") = None -> str_find rest (bs "WITH") = None ->
  (length p < fuel)%nat ->
  replace_with fuel open close open' close' (p ++ bs "WITH " ++ open :: kv ++ close :: rest) =
  p ++ bs "WITH " ++ open' :: kv ++ close' :: rest.
Proof.
  intros Ho Hc Hne Hp Hr. revert fuel. induction p as [|b p IH]; intros fuel Hf.
  - destruct fuel as [|fuel]; [cbn in Hf; lia|]. cbn [replace_with app].
    change (bs "WITH " ++ ?x) with (bs "WITH " ++ x). rewrite match_with_clause by done. by rewrite replace_without.
  - destruct fuel as [|fuel]; [cbn in Hf; lia|]. cbn [replace_with app].
    cbn [app str_find] in Hp.
    destruct (str_starts_with (b :: p ++ bs "WIT") (bs "WITH")) eqn:Hs; [done|].
    destruct (str_find (p ++ bs "WIT") (bs "WITH")) eqn:Hfp; [done|].
    rewrite match_with_starts.
    + f_equal. apply IH; [done|]. cbn in Hf. lia.
    + transitivity (str_starts_with ((b :: p) ++ bs "WIT") (bs "WITH")); [|exact Hs].
      set (x := open :: kv ++ close :: rest).
      change (b :: p ++ bs "WITH " ++ x) with ((b :: p) ++ bs "WIT" ++ (bs "H " ++ x)). rewrite app_assoc.
      apply starts_with_app. rewrite length_app. cbn. lia.
Qed.

(** The two conversions are inverse on a statement with one clause whose options have
    neither a quote nor a closing parenthesis: the clause is rewritten and nothing else. *)
Theorem ignite_round_trip p kv rest :
  kv <> [] -> quote ∉ kv -> ")"%byte ∉ kv ->
  str_find (p ++ bs "WIT") (bs "WITH") = None -> str_find rest (bs "WITH") = None ->
  let sql := p ++ bs "WITH " ++ "("%byte :: kv ++ ")"%byte :: rest in
  let ignite := p ++ bs "WITH " ++ quote :: kv ++ quote :: rest in
  convert_sql_to_ignite_create_statement sql = ignite /\ convert_ignite_create_statement ignite = sql.
Proof.
  intros Hne Hq Hc Hp Hr. cbv zeta. unfold convert_sql_to_ignite_create_statement, convert_ignite_create_statement.
  split; apply replace_clause; (done || (rewrite length_app; lia)).
Qed.

Lemma ignite_round_trip_witness :
  convert_ignite_create_statement (convert_sql_to_ignite_create_statement (bs "CREATE TABLE A.B (C INT) WITH (TEMPLATE=X)")) =
  bs "CREATE TABLE A.B (C INT) WITH (TEMPLATE=X)".
Proof.
  destruct (ignite_round_trip (bs "CREATE TABLE A.B (C INT) ") (bs "TEMPLATE=X") []) as [Hto Hback].
  - done.
  - apply (bool_decide_unpack _). vm_compute. exact I.
  - apply (bool_decide_unpack _). vm_compute. exact I.
  - vm_compute. reflexivity.
  - vm_compute. reflexivity.
  - etransitivity; [|exact Hback]. apply f_equal. exact Hto.
Defined.

(** Options with a parenthesis are cut at it. *)
Example parenthesis_cut :
  convert_sql_to_ignite_create_statement (bs "WITH (KEY=f(x), B=1)") = bs "WITH " ++ quote :: bs "KEY=f(x" ++ quote :: bs ", B=1)".
Proof. vm_compute. reflexivity. Qed.
