(* ===== verification/CommitmentScheme.v ===== *)
(** * Commitment schemes and commitment-generic data

    proof-of-sql/commitment-map/src/{generic_over_commitment,
    generic_over_commitment_fn, commitment_scheme}.rs.  A commitment type [C:
    CommitmentId] is determined by its [COMMITMENT_SCHEME], so a type that is
    generic over commitments is a family of types indexed by the scheme. *)

From stdpp Require Import base tactics list option countable.
From S2P Require Import Prelude.

Inductive CommitmentScheme := HyperKzg | DynamicDory.

#[global] Instance CommitmentScheme_eq_dec : EqDecision CommitmentScheme.
Proof. solve_decision. Defined.
#[global] Instance CommitmentScheme_countable : Countable CommitmentScheme.
Proof.
  refine (inj_countable'
    (fun s => match s with HyperKzg => false | DynamicDory => true end)
    (fun b : bool => if b then DynamicDory else HyperKzg) _).
  by intros [].
Defined.

(** ** Types generic over the commitment *)

Definition GenericOverCommitment : Type := CommitmentScheme -> Type.

Definition OptionType (G : GenericOverCommitment) : GenericOverCommitment :=
  fun C => option (G C).
Definition ResultOkType (G : GenericOverCommitment) (E : Type) : GenericOverCommitment :=
  fun C => outcome E (G C).
Definition PairType (G0 G1 : GenericOverCommitment) : GenericOverCommitment :=
  fun C => (G0 C * G1 C)%type.
Definition ConcreteType (T : Type) : GenericOverCommitment := fun _ => T.

(** [GenericOverCommitmentFn]: a function for each commitment type. *)
Definition GenericOverCommitmentFn (In Out : GenericOverCommitment) : Type :=
  forall C, In C -> Out C.

(** ** Flags *)

Record CommitmentSchemeFlags := mkFlags { flag_hyper_kzg : bool; flag_dynamic_dory : bool }.

#[global] Instance CommitmentSchemeFlags_eq_dec : EqDecision CommitmentSchemeFlags.
Proof. solve_decision. Defined.

Definition flags_default : CommitmentSchemeFlags := mkFlags false false.
Definition flags_all : CommitmentSchemeFlags := mkFlags true true.

(** [FromIterator<CommitmentScheme>]. *)
Definition flags_from_iter (iter : list CommitmentScheme) : CommitmentSchemeFlags :=
  foldl (fun acc scheme =>
    match scheme with
    | HyperKzg => mkFlags true (flag_dynamic_dory acc)
    | DynamicDory => mkFlags (flag_hyper_kzg acc) true
    end) flags_default iter.

(** [IntoIterator for CommitmentSchemeFlags]. *)
Definition flags_into_iter (self : CommitmentSchemeFlags) : list CommitmentScheme :=
  (if flag_hyper_kzg self then [HyperKzg] else []) ++
  (if flag_dynamic_dory self then [DynamicDory] else []).

Definition has_flag (f : CommitmentSchemeFlags) (s : CommitmentScheme) : bool :=
  match s with
  | HyperKzg => flag_hyper_kzg f
  | DynamicDory => flag_dynamic_dory f
  end.

(** ** Data of any scheme and of every scheme *)

Inductive AnyCommitmentScheme (T : GenericOverCommitment) :=
| AnyHyperKzg (data : T HyperKzg)
| AnyDynamicDory (data : T DynamicDory).
Arguments AnyHyperKzg {T} data.
Arguments AnyDynamicDory {T} data.

Record PerCommitmentScheme (T : GenericOverCommitment) := mkPer {
  hyper_kzg : T HyperKzg;
  dynamic_dory : T DynamicDory;
}.
Arguments mkPer {T} _ _.
Arguments hyper_kzg {T} _.
Arguments dynamic_dory {T} _.

Definition into_any_concrete {T} (self : CommitmentScheme) (value : T)
    : AnyCommitmentScheme (ConcreteType T) :=
  match self with
  | HyperKzg => @AnyHyperKzg (ConcreteType T) value
  | DynamicDory => @AnyDynamicDory (ConcreteType T) value
  end.

Section generic.
Context {T U : GenericOverCommitment}.

Definition to_scheme (self : AnyCommitmentScheme T) : CommitmentScheme :=
  match self with
  | AnyHyperKzg _ => HyperKzg
  | AnyDynamicDory _ => DynamicDory
  end.

Definition any_map (self : AnyCommitmentScheme T) (mapper : GenericOverCommitmentFn T U)
    : AnyCommitmentScheme U :=
  match self with
  | AnyHyperKzg data => AnyHyperKzg (mapper _ data)
  | AnyDynamicDory data => AnyDynamicDory (mapper _ data)
  end.

Definition transpose_option (self : AnyCommitmentScheme (OptionType T))
    : option (AnyCommitmentScheme T) :=
  match self with
  | AnyHyperKzg (Some data) => Some (AnyHyperKzg data)
  | AnyDynamicDory (Some data) => Some (AnyDynamicDory data)
  | AnyHyperKzg None | AnyDynamicDory None => None
  end.

Definition transpose_result {E} (self : AnyCommitmentScheme (ResultOkType T E))
    : outcome E (AnyCommitmentScheme T) :=
  match self with
  | AnyHyperKzg r => omap_ok AnyHyperKzg r
  | AnyDynamicDory r => omap_ok AnyDynamicDory r
  end.

Definition any_unzip (self : AnyCommitmentScheme (PairType T U))
    : AnyCommitmentScheme T * AnyCommitmentScheme U :=
  match self with
  | AnyHyperKzg (l, r) => (AnyHyperKzg l, AnyHyperKzg r)
  | AnyDynamicDory (l, r) => (AnyDynamicDory l, AnyDynamicDory r)
  end.

Definition per_map (self : PerCommitmentScheme T) (mapper : GenericOverCommitmentFn T U)
    : PerCommitmentScheme U :=
  mkPer (mapper _ (hyper_kzg self)) (mapper _ (dynamic_dory self)).

Definition select (self : PerCommitmentScheme T) (flags : CommitmentSchemeFlags)
    : PerCommitmentScheme (OptionType T) :=
  @mkPer (OptionType T)
    (if flag_hyper_kzg flags then Some (hyper_kzg self) else None)
    (if flag_dynamic_dory flags then Some (dynamic_dory self) else None).

Definition zip (self : PerCommitmentScheme T) (other : PerCommitmentScheme U)
    : PerCommitmentScheme (PairType T U) :=
  @mkPer (PairType T U) (hyper_kzg self, hyper_kzg other) (dynamic_dory self, dynamic_dory other).

Definition per_unzip (self : PerCommitmentScheme (PairType T U))
    : PerCommitmentScheme T * PerCommitmentScheme U :=
  (mkPer (hyper_kzg self).1 (dynamic_dory self).1, mkPer (hyper_kzg self).2 (dynamic_dory self).2).

Definition to_flags (self : PerCommitmentScheme (OptionType T)) : CommitmentSchemeFlags :=
  mkFlags (bool_decide (is_Some (hyper_kzg self))) (bool_decide (is_Some (dynamic_dory self))).

(** [IntoIterator for PerCommitmentScheme]. *)
Definition per_into_iter (self : PerCommitmentScheme T) : list (AnyCommitmentScheme T) :=
  [AnyHyperKzg (hyper_kzg self); AnyDynamicDory (dynamic_dory self)].

Definition per_default : PerCommitmentScheme (OptionType T) :=
  @mkPer (OptionType T) None None.

(** [FromIterator<AnyCommitmentScheme>]: a later element of the same scheme
    replaces an earlier one. *)
Definition per_from_iter (iter : list (AnyCommitmentScheme T))
    : PerCommitmentScheme (OptionType T) :=
  foldl (fun acc scheme =>
    match scheme with
    | AnyHyperKzg data => @mkPer (OptionType T) (Some data) (dynamic_dory acc)
    | AnyDynamicDory data => @mkPer (OptionType T) (hyper_kzg acc) (Some data)
    end) per_default iter.
End generic.

(** [AnyCommitmentScheme<ConcreteType<T>>::unwrap]. *)
Definition any_unwrap {T} (self : AnyCommitmentScheme (ConcreteType T)) : T :=
  match self with
  | AnyHyperKzg data => data
  | AnyDynamicDory data => data
  end.

(** The elements that are present. *)
Definition into_flat_iter {T} (self : PerCommitmentScheme (OptionType T))
    : list (AnyCommitmentScheme T) :=
  omap transpose_option (per_into_iter self).

(** The element of one scheme. *)
Definition per_get {T : GenericOverCommitment} (self : PerCommitmentScheme T) (C : CommitmentScheme)
    : T C :=
  match C with
  | HyperKzg => hyper_kzg self
  | DynamicDory => dynamic_dory self
  end.

Definition per_build {T : GenericOverCommitment} (f : forall C, T C) : PerCommitmentScheme T :=
  mkPer (f HyperKzg) (f DynamicDory).

Definition any_build {T : GenericOverCommitment} (C : CommitmentScheme) (x : T C)
    : AnyCommitmentScheme T :=
  match C return T C -> AnyCommitmentScheme T with
  | HyperKzg => fun x => AnyHyperKzg x
  | DynamicDory => fun x => AnyDynamicDory x
  end x.

(** ** Lemmas *)

Lemma per_ext {T} (p q : PerCommitmentScheme T) :
  (forall C, per_get p C = per_get q C) -> p = q.
Proof.
  intros H. pose proof (H HyperKzg). pose proof (H DynamicDory).
  destruct p, q; simpl in *; congruence.
Qed.

Lemma flags_from_into_iter f : flags_from_iter (flags_into_iter f) = f.
Proof. by destruct f as [[] []]. Qed.

Lemma flags_ext f g : (forall C, has_flag f C = has_flag g C) -> f = g.
Proof.
  intros H. pose proof (H HyperKzg). pose proof (H DynamicDory).
  destruct f, g; simpl in *; congruence.
Qed.

Lemma to_flags_spec {T} (p : PerCommitmentScheme (OptionType T)) C :
  has_flag (to_flags p) C = true <-> is_Some (per_get p C).
Proof. destruct C; simpl; apply bool_decide_eq_true. Qed.

(** Dismantling a collection and collecting it again gives it back. *)
Lemma per_from_into_flat_iter {T} (p : PerCommitmentScheme (OptionType T)) :
  per_from_iter (into_flat_iter p) = p.
Proof. by destruct p as [[] []]. Qed.

Lemma per_unzip_zip {T U} (p : PerCommitmentScheme T) (q : PerCommitmentScheme U) :
  per_unzip (zip p q) = (p, q).
Proof. by destruct p, q. Qed.

Lemma to_flags_select {T} (p : PerCommitmentScheme T) f : to_flags (select p f) = f.
Proof. by destruct f as [[] []]. Qed.
