(* ===== verification/CommitmentMap.v ===== *)
(** * Commitment maps

    proof-of-sql/commitment-map/src/{commitment_map, commitment_map_implementor,
    commitment_storage_map, memory_commitment_map}.rs.

    [CommitmentMapImplementor] is the crate-private trait with the per-scheme
    operations, [CommitmentMap] the key-atomic operations built from them.  The
    two implementors are the substrate double map and the in-memory map.  The
    abstract view of either is a function from keys to what is stored per
    scheme; the last section shows that the built operations implement the
    key-atomic specification on that view for every lawful implementor. *)

From stdpp Require Import base tactics list option gmap.
From S2P Require Import Prelude Bytes Types CommitmentScheme.

(** ** The implementor trait and its laws *)

Class CommitmentMapImplementor (M K : Type) (V : GenericOverCommitment) := {
  has_key_and_scheme_impl : M -> K -> CommitmentScheme -> bool;
  get_commitment_for_any_scheme_impl :
    M -> K -> CommitmentScheme -> AnyCommitmentScheme (OptionType V);
  set_commitment_for_any_scheme_impl : M -> K -> AnyCommitmentScheme V -> M;
  delete_commitment_for_any_scheme_impl : M -> K -> CommitmentScheme -> M;
}.

Record CommitmentSchemesMismatchError := mkSchemesMismatch {
  original_schemes : CommitmentSchemeFlags;
  new_schemes : CommitmentSchemeFlags;
}.

Record KeyExistsError (K : Type) := mkKeyExists { existing_key : K }.
Arguments mkKeyExists {K} _.
Arguments existing_key {K} _.

(** ** The key-atomic operations ([impl CommitmentMap for M]) *)

Section commitment_map.
Context {M K : Type} {V : GenericOverCommitment} `{!CommitmentMapImplementor M K V}.
Implicit Types (self : M) (key : K).

Definition has_key_and_scheme self key (scheme : CommitmentScheme) : bool :=
  has_key_and_scheme_impl self key scheme.

Definition schemes_for_key self key : CommitmentSchemeFlags :=
  flags_from_iter (List.filter (has_key_and_scheme_impl self key) (flags_into_iter flags_all)).

Definition has_key self key : bool :=
  (0 <? length (flags_into_iter (schemes_for_key self key)))%nat.

Definition get_commitments self key : PerCommitmentScheme (OptionType V) :=
  per_from_iter
    (omap (fun scheme => transpose_option (get_commitment_for_any_scheme_impl self key scheme))
      (flags_into_iter flags_all)).

Definition set_commitments self key (commitments : list (AnyCommitmentScheme V)) : M :=
  foldl (fun self c => set_commitment_for_any_scheme_impl self key c) self commitments.

Definition update_commitments self key (commitments : PerCommitmentScheme (OptionType V))
    : outcome CommitmentSchemesMismatchError M :=
  let original_schemes := schemes_for_key self key in
  let new_schemes := to_flags commitments in
  if bool_decide (original_schemes = new_schemes)
  then Ok (set_commitments self key (into_flat_iter commitments))
  else Err (mkSchemesMismatch original_schemes new_schemes).

Definition create_commitments self key (commitments : PerCommitmentScheme (OptionType V))
    : outcome (KeyExistsError K) M :=
  if has_key self key then Err (mkKeyExists key)
  else Ok (set_commitments self key (into_flat_iter commitments)).

Definition delete_commitments self key : M :=
  foldl (fun self c => delete_commitment_for_any_scheme_impl self key c) self
    (flags_into_iter flags_all).
End commitment_map.

(** ** The substrate double map ([CommitmentStorageMapHandler]) *)

Record TableCommitmentBytes := mkTableCommitmentBytes { commitment_data : bytes }.

#[global] Instance TableCommitmentBytes_eq_dec : EqDecision TableCommitmentBytes.
Proof. solve_decision. Defined.

Notation TableCommitmentBytesPerCommitmentScheme :=
  (PerCommitmentScheme (OptionType (ConcreteType TableCommitmentBytes))) (only parsing).

Notation commitment_storage := (gmap (TableIdentifier * CommitmentScheme) TableCommitmentBytes).

Section storage_map.
Implicit Types (self : commitment_storage) (key : TableIdentifier).

Definition storage_has_key_and_scheme self key (scheme : CommitmentScheme) : bool :=
  bool_decide (is_Some (self !! (key, scheme))).

Definition storage_get_commitment_for_any_scheme self key (scheme : CommitmentScheme)
    : AnyCommitmentScheme (OptionType (ConcreteType TableCommitmentBytes)) :=
  match scheme with
  | HyperKzg => @AnyHyperKzg (OptionType (ConcreteType _)) (self !! (key, scheme))
  | DynamicDory => @AnyDynamicDory (OptionType (ConcreteType _)) (self !! (key, scheme))
  end.

Definition storage_set_commitment_for_any_scheme self key
    (commitment : AnyCommitmentScheme (ConcreteType TableCommitmentBytes)) : commitment_storage :=
  <[(key, to_scheme commitment) := any_unwrap commitment]> self.

Definition storage_delete_commitment_for_any_scheme self key (scheme : CommitmentScheme)
    : commitment_storage :=
  delete (key, scheme) self.
End storage_map.

#[global] Instance CommitmentStorageMapHandler :
  CommitmentMapImplementor commitment_storage TableIdentifier (ConcreteType TableCommitmentBytes) := {|
  has_key_and_scheme_impl := storage_has_key_and_scheme;
  get_commitment_for_any_scheme_impl := storage_get_commitment_for_any_scheme;
  set_commitment_for_any_scheme_impl := storage_set_commitment_for_any_scheme;
  delete_commitment_for_any_scheme_impl := storage_delete_commitment_for_any_scheme;
|}.

(** ** The in-memory map ([MemoryCommitmentMap]) *)

Record MemoryCommitmentMap (TableRef : Type) `{Countable TableRef} (V : GenericOverCommitment) :=
  mkMemoryCommitmentMap {
    hyper_kzg_map : gmap TableRef (V HyperKzg);
    dory_map : gmap TableRef (V DynamicDory);
  }.
Arguments mkMemoryCommitmentMap {TableRef _ _ V} _ _.
Arguments hyper_kzg_map {TableRef _ _ V} _.
Arguments dory_map {TableRef _ _ V} _.

Section memory_map.
Context {TableRef : Type} `{Countable TableRef} {V : GenericOverCommitment}.
Implicit Types (self : MemoryCommitmentMap TableRef V) (key : TableRef).

Definition memory_has_key_and_scheme self key (scheme : CommitmentScheme) : bool :=
  match scheme with
  | HyperKzg => bool_decide (is_Some (hyper_kzg_map self !! key))
  | DynamicDory => bool_decide (is_Some (dory_map self !! key))
  end.

Definition memory_get_commitment_for_any_scheme self key (scheme : CommitmentScheme)
    : AnyCommitmentScheme (OptionType V) :=
  match scheme with
  | HyperKzg => @AnyHyperKzg (OptionType V) (hyper_kzg_map self !! key)
  | DynamicDory => @AnyDynamicDory (OptionType V) (dory_map self !! key)
  end.

Definition memory_set_commitment_for_any_scheme self key (commitment : AnyCommitmentScheme V)
    : MemoryCommitmentMap TableRef V :=
  match commitment with
  | AnyHyperKzg c => mkMemoryCommitmentMap (<[key := c]> (hyper_kzg_map self)) (dory_map self)
  | AnyDynamicDory c => mkMemoryCommitmentMap (hyper_kzg_map self) (<[key := c]> (dory_map self))
  end.

Definition memory_delete_commitment_for_any_scheme self key (scheme : CommitmentScheme)
    : MemoryCommitmentMap TableRef V :=
  match scheme with
  | HyperKzg => mkMemoryCommitmentMap (delete key (hyper_kzg_map self)) (dory_map self)
  | DynamicDory => mkMemoryCommitmentMap (hyper_kzg_map self) (delete key (dory_map self))
  end.

#[global] Instance MemoryCommitmentMapImplementor :
  CommitmentMapImplementor (MemoryCommitmentMap TableRef V) TableRef V := {|
  has_key_and_scheme_impl := memory_has_key_and_scheme;
  get_commitment_for_any_scheme_impl := memory_get_commitment_for_any_scheme;
  set_commitment_for_any_scheme_impl := memory_set_commitment_for_any_scheme;
  delete_commitment_for_any_scheme_impl := memory_delete_commitment_for_any_scheme;
|}.
End memory_map.

(** ** The abstract view and what the per-scheme operations promise *)

Definition per_set {V} (p : PerCommitmentScheme (OptionType V)) (c : AnyCommitmentScheme V)
    : PerCommitmentScheme (OptionType V) :=
  match c with
  | AnyHyperKzg d => @mkPer (OptionType V) (Some d) (dynamic_dory p)
  | AnyDynamicDory d => @mkPer (OptionType V) (hyper_kzg p) (Some d)
  end.

Definition per_clear {V} (p : PerCommitmentScheme (OptionType V)) (C : CommitmentScheme)
    : PerCommitmentScheme (OptionType V) :=
  match C with
  | HyperKzg => @mkPer (OptionType V) None (dynamic_dory p)
  | DynamicDory => @mkPer (OptionType V) (hyper_kzg p) None
  end.

Class CommitmentMapLaws (M K : Type) `{EqDecision K} (V : GenericOverCommitment)
    `{!CommitmentMapImplementor M K V} := {
  view : M -> K -> PerCommitmentScheme (OptionType V);
  view_has m k C :
    has_key_and_scheme_impl m k C = bool_decide (is_Some (per_get (view m k) C));
  view_get m k C :
    get_commitment_for_any_scheme_impl m k C = any_build C (per_get (view m k) C);
  view_set m k c k' :
    view (set_commitment_for_any_scheme_impl m k c) k' =
    if decide (k = k') then per_set (view m k) c else view m k';
  view_delete m k C k' :
    view (delete_commitment_for_any_scheme_impl m k C) k' =
    if decide (k = k') then per_clear (view m k) C else view m k';
}.

(** Both implementors keep the promise. *)

#[global] Program Instance storage_laws :
  CommitmentMapLaws commitment_storage TableIdentifier (ConcreteType TableCommitmentBytes) := {|
  view m k := @mkPer (OptionType (ConcreteType TableCommitmentBytes))
    (m !! (k, HyperKzg)) (m !! (k, DynamicDory));
|}.
Next Obligation. by intros m k []. Qed.
Next Obligation. by intros m k []. Qed.
Next Obligation.
  intros m k c k'. simpl. unfold storage_set_commitment_for_any_scheme.
  case_decide; subst; destruct c; simpl; apply per_ext; intros []; simpl;
    by rewrite ?lookup_insert_eq, ?lookup_insert_ne by congruence.
Qed.
Next Obligation.
  intros m k C k'. simpl. unfold storage_delete_commitment_for_any_scheme.
  case_decide; subst; destruct C; simpl; apply per_ext; intros []; simpl;
    by rewrite ?lookup_delete_eq, ?lookup_delete_ne by congruence.
Qed.

#[global] Program Instance memory_laws `{Countable TableRef} V :
  CommitmentMapLaws (MemoryCommitmentMap TableRef V) TableRef V := {|
  view m k := @mkPer (OptionType V) (hyper_kzg_map m !! k) (dory_map m !! k);
|}.
Next Obligation. by intros ???? m k []. Qed.
Next Obligation. by intros ???? m k []. Qed.
Next Obligation.
  intros ???? m k c k'. simpl. unfold memory_set_commitment_for_any_scheme.
  case_decide; subst; destruct c; simpl; apply per_ext; intros []; simpl;
    by rewrite ?lookup_insert_eq, ?lookup_insert_ne by congruence.
Qed.
Next Obligation.
  intros ???? m k C k'. simpl. unfold memory_delete_commitment_for_any_scheme.
  case_decide; subst; destruct C; simpl; apply per_ext; intros []; simpl;
    by rewrite ?lookup_delete_eq, ?lookup_delete_ne by congruence.
Qed.

(** ** The key-atomic specification *)

Section spec.
Context {K : Type} `{EqDecision K} {V : GenericOverCommitment}.

Definition spec_map : Type := K -> PerCommitmentScheme (OptionType V).
Implicit Types (f : spec_map) (c : PerCommitmentScheme (OptionType V)).

Definition spec_put f key c : spec_map := fun k => if decide (key = k) then c else f k.

Definition spec_update f key c : outcome CommitmentSchemesMismatchError spec_map :=
  if bool_decide (to_flags (f key) = to_flags c) then Ok (spec_put f key c)
  else Err (mkSchemesMismatch (to_flags (f key)) (to_flags c)).

Definition spec_create f key c : outcome (KeyExistsError K) spec_map :=
  if bool_decide (to_flags (f key) = flags_default) then Ok (spec_put f key c)
  else Err (mkKeyExists key).

Definition spec_delete f key : spec_map := spec_put f key per_default.
End spec.
Arguments spec_map K V : clear implicits.

(** ** The operations on the view *)

Section refinement.
Context {M K : Type} `{EqDecision K} {V : GenericOverCommitment}
  `{!CommitmentMapImplementor M K V, !CommitmentMapLaws M K V}.
Implicit Types (m : M) (key : K) (c : PerCommitmentScheme (OptionType V)).

Lemma schemes_for_key_view m key : schemes_for_key m key = to_flags (view m key).
Proof.
  unfold schemes_for_key. simpl. rewrite !view_has. simpl. unfold to_flags.
  by destruct (bool_decide _), (bool_decide _).
Qed.

Lemma has_key_view m key : has_key m key = negb (bool_decide (to_flags (view m key) = flags_default)).
Proof.
  unfold has_key. rewrite schemes_for_key_view. by destruct (to_flags (view m key)) as [[] []].
Qed.

Lemma get_commitments_view m key : get_commitments m key = view m key.
Proof.
  unfold get_commitments. simpl. rewrite !view_get. simpl. by destruct (view m key) as [[] []].
Qed.

Lemma set_commitments_view m key c k :
  view (set_commitments m key (into_flat_iter c)) k =
  if decide (key = k)
  then mkPer (T := OptionType V) (from_option Some (hyper_kzg (view m key)) (hyper_kzg c))
         (from_option Some (dynamic_dory (view m key)) (dynamic_dory c))
  else view m k.
Proof.
  unfold set_commitments. destruct c as [[] []]; simpl;
    rewrite ?view_set; repeat case_decide; simplify_eq; simpl; try done;
    by destruct (view m _).
Qed.

Lemma update_commitments_view m key c :
  match update_commitments m key c, spec_update (view m) key c with
  | Ok m', Ok f' => forall k, view m' k = f' k
  | Err e, Err e' => e = e'
  | _, _ => False
  end.
Proof.
  unfold update_commitments, spec_update. rewrite schemes_for_key_view.
  case_bool_decide as Hf; [|done]. intros k. rewrite set_commitments_view.
  unfold spec_put. case_decide; [subst|done].
  revert Hf. unfold to_flags.
  by destruct (view m k) as [[] []], c as [[] []].
Qed.

Lemma create_commitments_view m key c :
  match create_commitments m key c, spec_create (view m) key c with
  | Ok m', Ok f' => forall k, view m' k = f' k
  | Err e, Err e' => e = e'
  | _, _ => False
  end.
Proof.
  unfold create_commitments, spec_create. rewrite has_key_view.
  case_bool_decide as Hf; [|done]. intros k. rewrite set_commitments_view.
  unfold spec_put. case_decide; [subst|done].
  revert Hf. unfold to_flags.
  by destruct (view m k) as [[] []], c as [[] []].
Qed.

Lemma delete_commitments_view m key k :
  view (delete_commitments m key) k = spec_delete (view m) key k.
Proof.
  unfold delete_commitments, spec_delete, spec_put. simpl.
  rewrite !view_delete. by repeat case_decide; simplify_eq.
Qed.
End refinement.

(** ** Sequences of operations

    What a client of a commitment map can observe: the response to each
    operation of a sequence.  A failed operation leaves the map as it was. *)

Inductive map_op (K : Type) (V : GenericOverCommitment) :=
| OpSchemesForKey (key : K)
| OpHasKey (key : K)
| OpGet (key : K)
| OpUpdate (key : K) (c : PerCommitmentScheme (OptionType V))
| OpCreate (key : K) (c : PerCommitmentScheme (OptionType V))
| OpDelete (key : K).
Arguments OpSchemesForKey {K V} _.
Arguments OpHasKey {K V} _.
Arguments OpGet {K V} _.
Arguments OpUpdate {K V} _ _.
Arguments OpCreate {K V} _ _.
Arguments OpDelete {K V} _.

Inductive map_response (K : Type) (V : GenericOverCommitment) :=
| RSchemes (f : CommitmentSchemeFlags)
| RHas (b : bool)
| RCommitments (c : PerCommitmentScheme (OptionType V))
| RUpdated
| RMismatch (e : CommitmentSchemesMismatchError)
| RCreated
| RExists (e : KeyExistsError K)
| RDeleted
| RPanic.
Arguments RSchemes {K V} _.
Arguments RHas {K V} _.
Arguments RCommitments {K V} _.
Arguments RUpdated {K V}.
Arguments RMismatch {K V} _.
Arguments RCreated {K V}.
Arguments RExists {K V} _.
Arguments RDeleted {K V}.
Arguments RPanic {K V}.

Definition step_map {M K : Type} {V} `{!CommitmentMapImplementor M K V} (m : M) (o : map_op K V)
    : M * map_response K V :=
  match o with
  | OpSchemesForKey key => (m, RSchemes (schemes_for_key m key))
  | OpHasKey key => (m, RHas (has_key m key))
  | OpGet key => (m, RCommitments (get_commitments m key))
  | OpUpdate key c =>
      match update_commitments m key c with
      | Ok m' => (m', RUpdated)
      | Err e => (m, RMismatch e)
      | Panic => (m, RPanic)
      end
  | OpCreate key c =>
      match create_commitments m key c with
      | Ok m' => (m', RCreated)
      | Err e => (m, RExists e)
      | Panic => (m, RPanic)
      end
  | OpDelete key => (delete_commitments m key, RDeleted)
  end.

Definition step_spec `{EqDecision K} {V} (f : spec_map K V) (o : map_op K V)
    : spec_map K V * map_response K V :=
  match o with
  | OpSchemesForKey key => (f, RSchemes (to_flags (f key)))
  | OpHasKey key => (f, RHas (negb (bool_decide (to_flags (f key) = flags_default))))
  | OpGet key => (f, RCommitments (f key))
  | OpUpdate key c =>
      match spec_update f key c with
      | Ok f' => (f', RUpdated)
      | Err e => (f, RMismatch e)
      | Panic => (f, RPanic)
      end
  | OpCreate key c =>
      match spec_create f key c with
      | Ok f' => (f', RCreated)
      | Err e => (f, RExists e)
      | Panic => (f, RPanic)
      end
  | OpDelete key => (spec_delete f key, RDeleted)
  end.

(** The responses of a run of [step] from a state. *)
Fixpoint run {S O R : Type} (step : S -> O -> S * R) (s : S) (ops : list O) : list R :=
  match ops with
  | [] => []
  | o :: ops => let '(s', r) := step s o in r :: run step s' ops
  end.

Section simulation.
Context {M K : Type} `{EqDecision K} {V : GenericOverCommitment}
  `{!CommitmentMapImplementor M K V, !CommitmentMapLaws M K V}.

Definition simulates (m : M) (f : spec_map K V) : Prop := forall k, view m k = f k.

Lemma step_simulates m f o :
  simulates m f ->
  simulates (step_map m o).1 (step_spec f o).1 /\ (step_map m o).2 = (step_spec f o).2.
Proof.
  intros Hs. pose proof (fun key c => update_commitments_view m key c) as Hu.
  pose proof (fun key c => create_commitments_view m key c) as Hc.
  destruct o as [key|key|key|key c|key c|key]; simpl.
  - by rewrite schemes_for_key_view, Hs.
  - by rewrite has_key_view, Hs.
  - by rewrite get_commitments_view, Hs.
  - specialize (Hu key c). unfold spec_update in *. rewrite Hs in Hu.
    destruct (update_commitments m key c); case_bool_decide; simplify_eq; try done.
    split; [|done]. intros k. simpl. rewrite Hu. unfold spec_put. by rewrite Hs.
  - specialize (Hc key c). unfold spec_create in *. rewrite Hs in Hc.
    destruct (create_commitments m key c); case_bool_decide; simplify_eq; try done.
    split; [|done]. intros k. simpl. rewrite Hc. unfold spec_put. by rewrite Hs.
  - split; [|done]. intros k. simpl. rewrite delete_commitments_view.
    unfold spec_delete, spec_put. by rewrite Hs.
Qed.

Lemma run_simulates ops m f :
  simulates m f -> run step_map m ops = run step_spec f ops.
Proof.
  revert m f. induction ops as [|o ops IH]; intros m f Hs; [done|]. simpl.
  destruct (step_simulates m f o Hs) as [Hs' Hr].
  destruct (step_map m o), (step_spec f o); simpl in *. subst. f_equal. by apply IH.
Qed.
End simulation.

(** C3: a commitment map with any implementor that keeps the per-scheme laws
    answers every sequence of operations exactly as the key-atomic
    specification does: [get_commitments] returns what was created or last
    updated, [create_commitments] fails exactly on a key with some scheme,
    [update_commitments] fails exactly when the schemes differ and otherwise
    replaces all of them at once, and [delete_commitments] removes every scheme. *)
Theorem commitment_map_refines_spec {M K : Type} `{EqDecision K} {V : GenericOverCommitment}
    `{!CommitmentMapImplementor M K V, !CommitmentMapLaws M K V} (m : M) (ops : list (map_op K V)) :
  run step_map m ops = run step_spec (view m) ops.
Proof. by apply run_simulates. Qed.

Lemma commitment_map_refines_spec_witness :
  let table := mkTableIdentifier [] [] in
  let c : PerCommitmentScheme (OptionType (ConcreteType TableCommitmentBytes)) :=
    @mkPer (OptionType (ConcreteType TableCommitmentBytes)) None (Some (mkTableCommitmentBytes [])) in
  let ops := [OpCreate table c; OpUpdate table c; OpCreate table c; OpGet table;
    OpDelete table; OpHasKey table] in
  run step_spec (view (∅ : commitment_storage)) ops =
    [RCreated; RUpdated; RExists (mkKeyExists table); RCommitments c; RDeleted; RHas false].
Proof.
  intros table c ops.
  rewrite <- (commitment_map_refines_spec (∅ : commitment_storage) ops). vm_compute. reflexivity.
Defined.

(** C28: the in-memory map is an accurate stand-in for the storage map: from
    empty maps, the two give the same responses to every sequence of
    operations. *)
Theorem memory_map_accurate
    (ops : list (map_op TableIdentifier (ConcreteType TableCommitmentBytes))) :
  run step_map (mkMemoryCommitmentMap (TableRef := TableIdentifier)
    (V := ConcreteType TableCommitmentBytes) ∅ ∅) ops =
  run step_map (∅ : commitment_storage) ops.
Proof.
  rewrite (run_simulates _ _ (fun _ => per_default)), (run_simulates _ _ (fun _ => per_default));
    [done|intros k; apply per_ext; by intros []..].
Qed.
