(* ===== verification/IndexMap.v ===== *)
(** * Insertion-ordered maps

    [IndexMap] and [IndexSet] of the [indexmap] crate as the code uses them: an
    association list without duplicate keys.  [insert] on a present key
    replaces its value in place, [shift_remove_entry] keeps the order of the
    rest, and collecting an iterator inserts its pairs one after the other. *)

From stdpp Require Import base tactics list option sets.
From Stdlib Require Import Lia.
From S2P Require Import Prelude.

Section index_map.
Context {K A : Type} `{EqDecision K}.
Notation imap := (list (K * A)).
Implicit Types (m : imap) (k : K).

Fixpoint imap_get m k : option A :=
  match m with
  | [] => None
  | (k', v) :: m => if decide (k = k') then Some v else imap_get m k
  end.

Fixpoint imap_insert m k (v : A) : imap :=
  match m with
  | [] => [(k, v)]
  | (k', v') :: m => if decide (k = k') then (k', v) :: m else (k', v') :: imap_insert m k v
  end.

Definition imap_extend m (l : list (K * A)) : imap :=
  foldl (fun m p => imap_insert m p.1 p.2) m l.

(** [collect::<IndexMap<_, _>>()]. *)
Definition imap_from_iter (l : list (K * A)) : imap := imap_extend [] l.

Fixpoint imap_shift_remove_entry m k : option (K * A) * imap :=
  match m with
  | [] => (None, [])
  | (k', v) :: m =>
      if decide (k = k') then (Some (k', v), m)
      else let '(r, m') := imap_shift_remove_entry m k in (r, (k', v) :: m')
  end.

Definition imap_keys m : list K := fst <$> m.

(** ** Lemmas *)

Lemma imap_get_none m k : imap_get m k = None <-> k ∉ imap_keys m.
Proof.
  induction m as [|[k' v] m IH]; simpl; [split; [intros _; apply not_elem_of_nil|done]|].
  rewrite not_elem_of_cons. case_decide; naive_solver.
Qed.

Lemma imap_get_elem m k v : NoDup (imap_keys m) -> imap_get m k = Some v <-> (k, v) ∈ m.
Proof.
  induction m as [|[k' v'] m IH]; simpl; [intros; split; [done|by intros ?%not_elem_of_nil]|].
  intros [Hk Hnd]%NoDup_cons. rewrite elem_of_cons. case_decide as Hd; subst.
  - split; [intros [= ->]; auto|]. intros [[= ->]|Hin]; [done|].
    destruct Hk. apply list_elem_of_fmap. by exists (k', v).
  - rewrite IH by done. naive_solver.
Qed.

Lemma imap_get_insert m k v k' :
  imap_get (imap_insert m k v) k' = if decide (k' = k) then Some v else imap_get m k'.
Proof.
  induction m as [|[k0 v0] m IH]; simpl; [done|].
  repeat case_decide; simplify_eq/=; repeat case_decide; simplify_eq/=; auto; congruence.
Qed.

Lemma imap_insert_keys m k v :
  imap_keys (imap_insert m k v) = if decide (k ∈ imap_keys m) then imap_keys m else imap_keys m ++ [k].
Proof.
  induction m as [|[k' v'] m IH]; simpl; [done|].
  destruct (decide (k = k')) as [->|Hne].
  - rewrite decide_True by left. done.
  - simpl. rewrite IH. destruct (decide (k ∈ imap_keys m)).
    + rewrite decide_True by (by right). done.
    + rewrite decide_False by (rewrite elem_of_cons; naive_solver). done.
Qed.

Lemma imap_insert_new m k v : k ∉ imap_keys m -> imap_insert m k v = m ++ [(k, v)].
Proof.
  induction m as [|[k' v'] m IH]; simpl; [done|]. rewrite not_elem_of_cons.
  intros [Hne Hk]. rewrite decide_False by done. by rewrite IH.
Qed.

Lemma imap_insert_nodup m k v : NoDup (imap_keys m) -> NoDup (imap_keys (imap_insert m k v)).
Proof.
  intros Hm. rewrite imap_insert_keys. case_decide; [done|].
  apply NoDup_app. split_and!; [done| |apply NoDup_singleton].
  intros x Hx ->%list_elem_of_singleton. done.
Qed.

Lemma imap_extend_nodup m l : NoDup (imap_keys m) -> NoDup (imap_keys (imap_extend m l)).
Proof. revert m; induction l; simpl; auto using imap_insert_nodup. Qed.

Lemma imap_from_iter_nodup l : NoDup (imap_keys (imap_from_iter l)).
Proof. apply imap_extend_nodup. constructor. Qed.

Lemma imap_extend_app m l :
  NoDup (imap_keys m ++ imap_keys l) -> imap_extend m l = m ++ l.
Proof.
  revert m; induction l as [|[k v] l IH]; intros m Hnd; simpl; [by rewrite app_nil_r|].
  assert (k ∉ imap_keys m) as Hk.
  { intros Hk. apply NoDup_app in Hnd as (_ & Hd & _). apply (Hd k Hk). left. }
  unfold imap_extend in *. rewrite imap_insert_new by done.
  rewrite IH; [by rewrite <- app_assoc|].
  unfold imap_keys. rewrite fmap_app. simpl. by rewrite <- app_assoc.
Qed.

Lemma imap_insert_length m k v :
  length (imap_insert m k v) = if decide (k ∈ imap_keys m) then length m else S (length m).
Proof.
  rewrite <- !(length_fmap fst). fold (imap_keys (imap_insert m k v)). fold (imap_keys m).
  rewrite imap_insert_keys. case_decide; [done|]. rewrite length_app. simpl. lia.
Qed.

Lemma imap_extend_length_le m l : (length (imap_extend m l) <= length m + length l)%nat.
Proof.
  revert m; induction l as [|[k v] l IH]; intros m; simpl; [lia|].
  etrans; [apply IH|]. rewrite imap_insert_length. case_decide; lia.
Qed.

(** Nothing is dropped only if the keys are distinct. *)
Lemma imap_extend_length_nodup m l :
  NoDup (imap_keys m) -> (length m + length l <= length (imap_extend m l))%nat ->
  NoDup (imap_keys m ++ imap_keys l).
Proof.
  revert m; induction l as [|[k v] l IH]; intros m Hm; simpl; [by rewrite app_nil_r|].
  intros Hlen. pose proof (imap_extend_length_le (imap_insert m k v) l) as Hle.
  unfold imap_extend in *. rewrite imap_insert_length in Hle. case_decide as Hk; [lia|].
  assert (NoDup (imap_keys (imap_insert m k v) ++ imap_keys l)) as Hnd.
  { apply IH; [by apply imap_insert_nodup|].
    rewrite imap_insert_length, decide_False by done. lia. }
  rewrite imap_insert_keys, decide_False, <- app_assoc in Hnd by done. done.
Qed.

Lemma imap_from_iter_length_nodup l :
  (length l <= length (imap_from_iter l))%nat -> NoDup (imap_keys l).
Proof. apply (imap_extend_length_nodup []). constructor. Qed.

(** Collecting pairs with distinct keys keeps them as they are. *)
Lemma imap_from_iter_id l : NoDup (imap_keys l) -> imap_from_iter l = l.
Proof. intros. by apply (imap_extend_app []). Qed.

Lemma imap_extend_keys m l k :
  k ∈ imap_keys (imap_extend m l) <-> k ∈ imap_keys m \/ k ∈ imap_keys l.
Proof.
  revert m; induction l as [|[k' v] l IH]; intros m; simpl.
  - rewrite elem_of_nil. naive_solver.
  - unfold imap_extend in *. rewrite IH, imap_insert_keys, elem_of_cons.
    case_decide; rewrite ?elem_of_app, ?list_elem_of_singleton; naive_solver.
Qed.

Lemma imap_extend_forall (P : K * A -> Prop) m l :
  (forall k k' v, P (k', v) -> k = k' -> P (k, v)) ->
  Forall P m -> Forall P l -> Forall P (imap_extend m l).
Proof.
  intros Hext. revert m; induction l as [|[k v] l IH]; intros m Hm; simpl; [done|].
  intros [Hp Hl]%Forall_cons. apply IH; [|done].
  induction m as [|[k' v'] m IHm]; simpl; [by constructor|].
  apply Forall_cons in Hm as [Hp' Hm]. case_decide; subst; constructor; eauto.
Qed.

Lemma imap_shift_remove_spec m k :
  NoDup (imap_keys m) ->
  imap_shift_remove_entry m k =
  ((fun v => (k, v)) <$> imap_get m k, filter (fun p => p.1 <> k) m).
Proof.
  induction m as [|[k' v] m IH]; simpl; [done|]. intros [Hk Hnd]%NoDup_cons.
  case_decide as Hd; subst.
  - rewrite filter_cons_False by (simpl; auto). simpl. f_equal.
    symmetry. apply list_filter_keep. apply Forall_forall. intros [k v0] Hin Heq. simpl in *. subst.
    apply Hk. apply list_elem_of_fmap. by exists (k', v0).
  - rewrite IH by done. rewrite filter_cons_True by (simpl; auto). done.
Qed.

Lemma imap_filter_nodup (P : K * A -> Prop) `{forall x, Decision (P x)} m :
  NoDup (imap_keys m) -> NoDup (imap_keys (filter P m)).
Proof.
  induction m as [|[k v] m IH]; [done|]. intros [Hk Hnd]%NoDup_cons.
  rewrite filter_cons. case_decide; [|by apply IH]. apply NoDup_cons. split; [|by apply IH].
  intros ([k' v'] & Heq & Hin)%list_elem_of_fmap. simpl in *. subst.
  apply list_elem_of_filter in Hin as [_ Hin]. apply Hk, list_elem_of_fmap. by exists (k', v').
Qed.

(** Removing an entry and putting it in front permutes the map. *)
Lemma imap_remove_perm m k :
  NoDup (imap_keys m) ->
  option_list ((fun v => (k, v)) <$> imap_get m k) ++ filter (fun p => p.1 <> k) m ≡ₚ m.
Proof.
  induction m as [|[k' v] m IH]; [done|]. intros [Hk Hnd]%NoDup_cons. cbn [imap_get].
  destruct (decide (k = k')) as [->|Hne].
  - rewrite filter_cons_False by (simpl; auto). simpl.
    rewrite list_filter_keep; [done|]. apply Forall_forall. intros [k v'] Hin Heq.
    simpl in *. subst. apply Hk, list_elem_of_fmap. by exists (k', v').
  - rewrite filter_cons_True by (simpl; auto). rewrite <- Permutation_middle. by rewrite IH.
Qed.

Lemma imap_get_perm m m' k :
  NoDup (imap_keys m) -> m' ≡ₚ m -> imap_get m' k = imap_get m k.
Proof.
  intros Hnd Hp. assert (NoDup (imap_keys m')) as Hnd' by (unfold imap_keys; by rewrite Hp).
  apply option_eq. intros v. rewrite !imap_get_elem by done. by rewrite Hp.
Qed.
End index_map.
Arguments imap_keys {K A} m.
