(* ===== verification/OnChainTable.v ===== *)
(** * proof-of-sql/on-chain-table

    Columns and tables of the chain, and the conversion of their decimals to
    the scalar fields of the commitment schemes.  Theorems: the guarantees of
    [OnChainTable] (at least one column, equal lengths, upper-case and distinct
    identifiers) hold for everything [try_from_iter] builds and make it the
    identity on tables (which is how deserialization re-validates them);
    [with_column_order] permutes the columns; [u256_to_scalar] maps a two's
    complement number to its residue exactly when it fits the signed range. *)

From stdpp Require Import base tactics list option strings numbers sorting.
From Stdlib Require Import ZArith Lia.
From Stdlib Require Import Strings.Byte.
From S2P Require Import Prelude Bytes IndexMap.

(** ** Identifiers and types of the libraries *)

(** [sqlparser::ast::Ident]; the quote style is a character. *)
Record Ident := mkIdent { ident_value : bytes; quote_style : option Z }.

#[global] Instance Ident_eq_dec : EqDecision Ident.
Proof. solve_decision. Defined.

Definition Ident_new (value : bytes) : Ident := mkIdent value None.

Inductive PoSQLTimeUnit := Second | Millisecond | Microsecond | Nanosecond.
#[global] Instance PoSQLTimeUnit_eq_dec : EqDecision PoSQLTimeUnit.
Proof. solve_decision. Defined.

(** [PoSQLTimeZone] is an offset from UTC in seconds. *)
Notation PoSQLTimeZone := Z (only parsing).
Definition PoSQLTimeZone_utc : PoSQLTimeZone := 0.

(** [Precision] is a number of digits from 1 to 75. *)
Notation Precision := Z (only parsing).
Definition Precision_new (n : Z) : option Precision :=
  if (1 <=? n) && (n <=? 75) then Some n else None.

Inductive ColumnType :=
| CtBoolean
| CtUint8
| CtTinyInt
| CtSmallInt
| CtInt
| CtBigInt
| CtInt128
| CtVarChar
| CtVarBinary
| CtDecimal75 (precision : Precision) (scale : Z)
| CtTimestampTZ (time_unit : PoSQLTimeUnit) (time_zone : PoSQLTimeZone)
| CtScalar.

#[global] Instance ColumnType_eq_dec : EqDecision ColumnType.
Proof. solve_decision. Defined.

(** ** column.rs *)

Inductive OnChainColumn :=
| Boolean (bools : list bool)
| UnsignedTinyInt (ints : list Z)
| TinyInt (ints : list Z)
| SmallInt (ints : list Z)
| Int (ints : list Z)
| BigInt (ints : list Z)
| Int128 (ints : list Z)
| VarChar (strings : list bytes)
| Decimal75 (precision : Precision) (scale : Z) (ints : list Z)
| TimestampTZ (time_unit : PoSQLTimeUnit) (time_zone : option PoSQLTimeZone) (ints : list Z)
| VarBinary (words : list bytes).

#[global] Instance OnChainColumn_eq_dec : EqDecision OnChainColumn.
Proof. solve_decision. Defined.

Definition column_len (self : OnChainColumn) : nat :=
  match self with
  | Boolean bools => length bools
  | UnsignedTinyInt ints | TinyInt ints | SmallInt ints | Int ints | BigInt ints
  | Int128 ints => length ints
  | VarChar strings => length strings
  | VarBinary words => length words
  | Decimal75 _ _ ints => length ints
  | TimestampTZ _ _ ints => length ints
  end.

Definition column_is_empty (self : OnChainColumn) : bool := (column_len self =? 0)%nat.

(** [unimplemented!()] on the scalar type. *)
Definition empty_with_type {E} (column_type : ColumnType) : outcome E OnChainColumn :=
  match column_type with
  | CtBoolean => Ok (Boolean [])
  | CtVarChar => Ok (VarChar [])
  | CtVarBinary => Ok (VarBinary [])
  | CtUint8 => Ok (UnsignedTinyInt [])
  | CtTinyInt => Ok (TinyInt [])
  | CtSmallInt => Ok (SmallInt [])
  | CtInt => Ok (Int [])
  | CtBigInt => Ok (BigInt [])
  | CtInt128 => Ok (Int128 [])
  | CtDecimal75 precision scale => Ok (Decimal75 precision scale [])
  | CtTimestampTZ time_unit time_zone => Ok (TimestampTZ time_unit (Some time_zone) [])
  | CtScalar => Panic
  end.

(** ** u256_scalar_conversion.rs *)

Definition U256_MAX : Z := 2 ^ 256 - 1.

Inductive OutOfScalarBounds : Set := mkOutOfScalarBounds.

(** The [Scalar] trait of proof-of-sql: a prime field element, its limbs as one
    number below 2^256. *)
Class Scalar := {
  scalar : Type;
  MAX_SIGNED : scalar;
  scalar_into_limbs : scalar -> Z;
  scalar_from_limbs : Z -> scalar;
  scalar_neg : scalar -> scalar;
  scalar_from_string : bytes -> scalar;
  from_byte_slice_via_hash : bytes -> scalar;
}.

Class ScalarLaws `{Scalar} := {
  modulus : Z;
  modulus_odd : modulus mod 2 = 1;
  modulus_range : 2 < modulus < 2 ^ 256;
  into_limbs_range x : 0 <= scalar_into_limbs x < modulus;
  from_limbs_val z : 0 <= z < 2 ^ 256 -> scalar_into_limbs (scalar_from_limbs z) = z mod modulus;
  neg_val x : scalar_into_limbs (scalar_neg x) = (- scalar_into_limbs x) mod modulus;
  max_signed_val : scalar_into_limbs MAX_SIGNED = (modulus - 1) / 2;
}.

Definition u256_to_scalar `{Scalar} (value : Z) : outcome OutOfScalarBounds scalar :=
  let is_negative := U256_MAX / 2 <? value in
  let abs_value := if is_negative then U256_MAX - value + 1 else value in
  if scalar_into_limbs MAX_SIGNED <? abs_value then Err mkOutOfScalarBounds
  else
    let scalar := scalar_from_limbs abs_value in
    Ok (if is_negative then scalar_neg scalar else scalar).

(** ** Committable columns *)

Inductive CommittableColumn :=
| CcBoolean (bools : list bool)
| CcUint8 (ints : list Z)
| CcTinyInt (ints : list Z)
| CcSmallInt (ints : list Z)
| CcInt (ints : list Z)
| CcBigInt (ints : list Z)
| CcInt128 (ints : list Z)
| CcVarChar (limbs : list Z)
| CcDecimal75 (precision : Precision) (scale : Z) (limbs : list Z)
| CcTimestampTZ (time_unit : PoSQLTimeUnit) (time_zone : PoSQLTimeZone) (ints : list Z)
| CcVarBinary (limbs : list Z).

Definition try_to_committable_column `{Scalar} (self : OnChainColumn)
    : outcome OutOfScalarBounds CommittableColumn :=
  match self with
  | Boolean bools => Ok (CcBoolean bools)
  | UnsignedTinyInt ints => Ok (CcUint8 ints)
  | TinyInt ints => Ok (CcTinyInt ints)
  | SmallInt ints => Ok (CcSmallInt ints)
  | Int ints => Ok (CcInt ints)
  | BigInt ints => Ok (CcBigInt ints)
  | Int128 ints => Ok (CcInt128 ints)
  | VarChar strings =>
      Ok (CcVarChar ((fun s => scalar_into_limbs (scalar_from_string s)) <$> strings))
  | Decimal75 precision scale ints =>
      let? limbs := collect (fun int => omap_ok scalar_into_limbs (u256_to_scalar int)) ints in
      Ok (CcDecimal75 precision scale limbs)
  | TimestampTZ time_unit timezone ints =>
      Ok (CcTimestampTZ time_unit (default PoSQLTimeZone_utc timezone) ints)
  | VarBinary words =>
      Ok (CcVarBinary ((fun b => scalar_into_limbs (from_byte_slice_via_hash b)) <$> words))
  end.

(** ** table.rs *)

Notation OnChainTable := (list (Ident * OnChainColumn)) (only parsing).

Inductive OnChainTableError := NoColumns | ColumnLengthMismatch.

Definition uppercase_ident `{UnicodeData} (i : Ident) : Ident :=
  mkIdent (to_uppercase (ident_value i)) (quote_style i).

Definition try_from_iter `{UnicodeData} (iter : list (Ident * OnChainColumn))
    : outcome OnChainTableError OnChainTable :=
  match iter with
  | [] => Err NoColumns
  | (_, column) :: _ =>
      let length := column_len column in
      let? pairs := collect (fun '(identifier, column) =>
          let identifier := uppercase_ident identifier in
          if negb (column_len column =? length)%nat then Err ColumnLengthMismatch
          else Ok (identifier, column)) iter in
      Ok (imap_from_iter pairs)
  end.

Section table.
Context `{UnicodeData}.
Implicit Types (self : OnChainTable).

Definition num_columns self : nat := length self.

(** Indexing the first column panics on an empty map. *)
Definition num_rows {E} self : outcome E nat :=
  match self with
  | [] => Panic
  | (_, column) :: _ => Ok (column_len column)
  end.

(** The items of [iter_committable], as one result. *)
Definition iter_committable `{Scalar} self
    : outcome OutOfScalarBounds (list (Ident * CommittableColumn)) :=
  collect (fun '(id, column) =>
    omap_ok (fun column => (id, column)) (try_to_committable_column column)) self.

(** Takes the columns of [order] out of the map, then the rest. *)
Fixpoint take_in_order self (order : list Ident) : list (Ident * OnChainColumn) * OnChainTable :=
  match order with
  | [] => ([], self)
  | identifier :: order =>
      let '(entry, self) := imap_shift_remove_entry self identifier in
      let '(taken, rest) := take_in_order self order in
      (option_list entry ++ taken, rest)
  end.

Definition with_column_order self (order : list Ident) : OnChainTable :=
  let '(taken, rest) := take_in_order self order in imap_from_iter (taken ++ rest).

Definition get_decimal_by_column self (column_name : bytes) : option (list Z) :=
  column ← imap_get self (Ident_new (to_uppercase column_name));
  match column with
  | Decimal75 _ _ values => Some values
  | _ => None
  end.

Definition get_bytes_by_column self (column_name : bytes) : option (list bytes) :=
  column ← imap_get self (Ident_new (to_uppercase column_name));
  match column with
  | VarBinary values => Some values
  | _ => None
  end.

Definition get_varchars_by_column self (column_name : bytes) : option (list bytes) :=
  column ← imap_get self (Ident_new (to_uppercase column_name));
  match column with
  | VarChar values => Some values
  | _ => None
  end.

(** [Iterator::max]. *)
Definition iter_max (l : list Z) : option Z :=
  match l with
  | [] => None
  | x :: l => Some (foldl Z.max x l)
  end.

Definition max_block_number self : option Z :=
  column ← imap_get self (Ident_new (bs "BLOCK_NUMBER"));
  match column with
  | BigInt values => iter_max values
  | _ => None
  end.

(** What the type guarantees. *)
Definition table_wf self : Prop :=
  self <> [] /\ NoDup (imap_keys self) /\
  (exists n, Forall (fun p => column_len p.2 = n) self) /\
  Forall (fun p => to_uppercase (ident_value p.1) = ident_value p.1) self.
End table.

(** ** Lemmas *)

Section table_lemmas.
Context `{UnicodeData}.
Implicit Types (t : OnChainTable).

Definition upper_pair (p : Ident * OnChainColumn) : Ident * OnChainColumn :=
  (uppercase_ident p.1, p.2).

Lemma try_from_iter_ok p l :
  Forall (fun q => column_len q.2 = column_len p.2) l ->
  try_from_iter (p :: l) = Ok (imap_from_iter (upper_pair <$> p :: l)).
Proof.
  intros Hl. unfold try_from_iter. destruct p as [id c].
  rewrite (collect_total _ upper_pair); [done|].
  intros [id' c'] [[= -> ->]|Hin]%elem_of_cons; simpl.
  - by rewrite Nat.eqb_refl.
  - rewrite Forall_forall in Hl. specialize (Hl _ Hin). simpl in Hl.
    by rewrite Hl, Nat.eqb_refl.
Qed.

Lemma try_from_iter_mismatch p l :
  ~ Forall (fun q => column_len q.2 = column_len p.2) l ->
  try_from_iter (p :: l) = Err ColumnLengthMismatch.
Proof.
  intros Hl. unfold try_from_iter. destruct p as [id c]. simpl in *.
  rewrite Nat.eqb_refl. simpl.
  match goal with |- context [collect ?f l] => assert (collect f l = Err ColumnLengthMismatch) as ->;
    [|done] end.
  induction l as [|[id' c'] l IH]; [by destruct Hl|]. simpl.
  destruct (Nat.eqb_spec (column_len c') (column_len c)) as [He|He]; simpl; [|done].
  rewrite IH; [done|]. intros Hall. apply Hl. by constructor.
Qed.

Lemma upper_pair_keys (l : list (Ident * OnChainColumn)) :
  imap_keys (upper_pair <$> l) = uppercase_ident <$> imap_keys l.
Proof. unfold imap_keys. rewrite <- !list_fmap_compose. done. Qed.

Lemma try_from_iter_wf `{!UnicodeLaws} p l :
  Forall (fun q => column_len q.2 = column_len p.2) l ->
  table_wf (imap_from_iter (upper_pair <$> p :: l)).
Proof.
  intros Hl. split_and!.
  - intros Hnil. assert (uppercase_ident p.1 ∈ imap_keys (imap_from_iter (upper_pair <$> p :: l))).
    { apply imap_extend_keys. right. rewrite upper_pair_keys. left. }
    rewrite Hnil in *. by eapply not_elem_of_nil.
  - apply imap_from_iter_nodup.
  - exists (column_len p.2). apply imap_extend_forall; [by intros; simplify_eq/=|constructor|].
    rewrite Forall_fmap. constructor; [done|]. by eapply Forall_impl; [exact Hl|].
  - apply imap_extend_forall; [by intros; simplify_eq/=|constructor|].
    rewrite Forall_fmap. apply Forall_true. intros [id c]. apply to_uppercase_idemp.
Qed.

Lemma upper_pair_id t :
  Forall (fun p => to_uppercase (ident_value p.1) = ident_value p.1) t -> upper_pair <$> t = t.
Proof.
  intros Ht. induction Ht as [|[[v q] c] t Hp Ht IH]; [done|].
  rewrite fmap_cons, IH. simpl in Hp. unfold upper_pair, uppercase_ident. simpl. by rewrite Hp.
Qed.

(** Removing the columns of an order one after the other loses none. *)
Lemma take_in_order_perm t order taken rest :
  NoDup (imap_keys t) -> take_in_order t order = (taken, rest) -> taken ++ rest ≡ₚ t.
Proof.
  revert t taken. induction order as [|k order IH]; intros t taken Hnd; simpl.
  { by intros [= <- <-]. }
  rewrite imap_shift_remove_spec by done.
  destruct (take_in_order (filter _ t) order) as [taken' rest'] eqn:Ht.
  intros [= <- <-]. apply IH in Ht; [|by apply imap_filter_nodup].
  by rewrite <- app_assoc, Ht, imap_remove_perm.
Qed.

Lemma with_column_order_app t order taken rest :
  NoDup (imap_keys t) -> take_in_order t order = (taken, rest) ->
  with_column_order t order = taken ++ rest.
Proof.
  intros Hnd Ht. unfold with_column_order. rewrite Ht. apply imap_from_iter_id.
  unfold imap_keys. rewrite (take_in_order_perm _ _ _ _ Hnd Ht). done.
Qed.

Lemma imap_keys_filter_ne t k k' :
  k' <> k -> k' ∈ imap_keys (filter (fun p => p.1 <> k) t) <-> k' ∈ imap_keys t.
Proof.
  intros Hne. unfold imap_keys. rewrite !list_elem_of_fmap.
  setoid_rewrite list_elem_of_filter. split.
  - intros (p & -> & _ & ?). eauto.
  - intros (p & -> & ?). eauto.
Qed.

Lemma take_in_order_spec t order taken rest :
  NoDup (imap_keys t) -> NoDup order -> take_in_order t order = (taken, rest) ->
  imap_keys taken = filter (fun k => k ∈ imap_keys t) order /\
  rest = filter (fun p => p.1 ∉ order) t.
Proof.
  revert t taken. induction order as [|k order IH]; intros t taken Hnd; simpl.
  { intros _ [= <- <-]. split; [done|]. symmetry. apply list_filter_keep.
    apply Forall_true. intros p. apply not_elem_of_nil. }
  intros [Hk Ho]%NoDup_cons. rewrite imap_shift_remove_spec by done.
  destruct (take_in_order (filter _ t) order) as [taken' rest'] eqn:Ht.
  intros [= <- <-]. apply IH in Ht as [Hkeys ->]; [|by apply imap_filter_nodup|done]. split.
  - rewrite (list_filter_ext_in _ (fun k => k ∈ imap_keys t)) in Hkeys
      by (intros k' Hk'; apply imap_keys_filter_ne; congruence).
    unfold imap_keys at 1. rewrite fmap_app. fold (imap_keys taken'). rewrite Hkeys, filter_cons.
    destruct (imap_get t k) as [v|] eqn:Hg; simpl.
    + rewrite decide_True; [done|]. apply imap_get_elem in Hg; [|done].
      apply list_elem_of_fmap. by exists (k, v).
    + by rewrite decide_False by (by apply imap_get_none).
  - rewrite list_filter_filter. apply list_filter_ext_in. intros p Hp.
    rewrite elem_of_cons. naive_solver.
Qed.

Lemma with_column_order_perm t order :
  NoDup (imap_keys t) -> with_column_order t order ≡ₚ t.
Proof.
  intros Hnd. destruct (take_in_order t order) as [taken rest] eqn:Ht.
  rewrite (with_column_order_app _ _ _ _ Hnd Ht). by apply (take_in_order_perm _ order).
Qed.

Lemma table_wf_perm t t' : t' ≡ₚ t -> table_wf t -> table_wf t'.
Proof.
  intros Hp (Hne & Hnd & (n & Hn) & Hup). split_and!.
  - intros Heq. rewrite Heq in Hp. by apply Permutation_nil_l in Hp.
  - unfold imap_keys. by rewrite Hp.
  - exists n. by rewrite Hp.
  - by rewrite Hp.
Qed.

Lemma with_column_order_wf t order : table_wf t -> table_wf (with_column_order t order).
Proof. intros Ht. apply (table_wf_perm t); [|done]. apply with_column_order_perm, Ht. Qed.

Lemma try_from_iter_ok_wf `{!UnicodeLaws} l t : try_from_iter l = Ok t -> table_wf t.
Proof.
  destruct l as [|p l]; [done|].
  destruct (decide (Forall (fun q => column_len q.2 = column_len p.2) l)) as [Hl|Hl].
  - rewrite try_from_iter_ok by done. intros [= <-]. by apply try_from_iter_wf.
  - by rewrite try_from_iter_mismatch by done.
Qed.

Lemma try_from_iter_id t : table_wf t -> try_from_iter t = Ok t.
Proof.
  intros (Hne & Hnd & (n & Hn) & Hup). destruct t as [|p l]; [done|].
  apply Forall_cons in Hn as Hn'. destruct Hn' as [Hp Hl].
  rewrite try_from_iter_ok by (eapply Forall_impl; [exact Hl|]; simpl; congruence).
  by rewrite upper_pair_id, imap_from_iter_id.
Qed.

Lemma num_rows_wf {E} t n :
  t <> [] -> Forall (fun p => column_len p.2 = n) t -> num_rows (E:=E) t = Ok n.
Proof. intros Ht Hn. destruct t as [|[] t]; [done|]. by apply Forall_cons_1 in Hn as [<- _]. Qed.
End table_lemmas.

(** [try_from_iter] refuses exactly the empty input and inputs with
    columns of different lengths, never panics, and what it builds has the
    guarantees of the type: at least one column, distinct upper-case
    identifiers, one length. *)
Theorem try_from_iter_guarantees `{UnicodeLaws} iter :
  match try_from_iter iter with
  | Ok t => table_wf t /\ iter <> [] /\ exists n, Forall (fun p => column_len p.2 = n) iter
  | Err NoColumns => iter = []
  | Err ColumnLengthMismatch => forall n, ~ Forall (fun p => column_len p.2 = n) iter
  | Panic => False
  end.
Proof.
  destruct iter as [|p l]; [done|].
  destruct (decide (Forall (fun q => column_len q.2 = column_len p.2) l)) as [Hl|Hl].
  - rewrite try_from_iter_ok by done. split_and!; [by apply try_from_iter_wf|done|].
    exists (column_len p.2). by constructor.
  - rewrite try_from_iter_mismatch by done. intros n [Hp Hall]%Forall_cons.
    apply Hl. eapply Forall_impl; [exact Hall|]. simpl. congruence.
Qed.

(** Re-validating a table, which is what its deserialization does with the
    map it has read, gives the table back unchanged. *)
Theorem try_from_iter_round_trip `{UnicodeData} t : table_wf t -> try_from_iter t = Ok t.
Proof. apply try_from_iter_id. Qed.

(** [with_column_order] only reorders: the result is a permutation with the
    same column under every identifier and keeps the guarantees; the columns
    of the order come first, in that order and without the identifiers the
    table does not have, then the others in their previous order. *)
Theorem with_column_order_spec `{UnicodeData} t order :
  table_wf t -> NoDup order ->
  let t' := with_column_order t order in
  t' ≡ₚ t /\ table_wf t' /\ (forall k, imap_get t' k = imap_get t k) /\
  imap_keys t' =
    filter (fun k => k ∈ imap_keys t) order ++ imap_keys (filter (fun p => p.1 ∉ order) t).
Proof.
  intros Hwf Ho. simpl. assert (NoDup (imap_keys t)) as Hnd by apply Hwf.
  split_and!; [by apply with_column_order_perm|by apply with_column_order_wf| |].
  { intros k. apply imap_get_perm; [done|]. by apply with_column_order_perm. }
  destruct (take_in_order t order) as [taken rest] eqn:Ht.
  rewrite (with_column_order_app _ _ _ _ Hnd Ht).
  destruct (take_in_order_spec _ _ _ _ Hnd Ho Ht) as [Hk ->].
  unfold imap_keys at 1. rewrite fmap_app. by f_equal.
Qed.


(** ** Scalars *)

(** The two's complement reading of 256 bits. *)
Definition signed256 (u : Z) : Z := if u <? 2 ^ 255 then u else u - 2 ^ 256.

(** C39: [u256_to_scalar] reads its argument as a two's complement number and
    succeeds exactly when that number is within the signed range of the field;
    the scalar is then its residue, so distinct decimals get distinct scalars. *)
Theorem u256_to_scalar_spec `{ScalarLaws} u :
  0 <= u <= U256_MAX ->
  match u256_to_scalar u with
  | Ok x => Z.abs (signed256 u) <= (modulus - 1) / 2 /\
            scalar_into_limbs x = signed256 u mod modulus
  | Err _ => (modulus - 1) / 2 < Z.abs (signed256 u)
  | Panic => False
  end.
Proof.
  intros Hu. unfold u256_to_scalar, signed256. rewrite max_signed_val.
  pose proof modulus_range as Hm.
  assert ((modulus - 1) / 2 < modulus) as Hhalf by (apply Z.div_lt_upper_bound; lia).
  assert (U256_MAX = 2 ^ 256 - 1) as Hmax by reflexivity.
  assert (U256_MAX / 2 = 2 ^ 255 - 1) as -> by reflexivity.
  assert (2 ^ 256 = 2 * 2 ^ 255) as Hp by reflexivity.
  destruct (Z.ltb_spec (2 ^ 255 - 1) u), (Z.ltb_spec u (2 ^ 255)); try lia.
  - assert (Z.abs (u - 2 ^ 256) = U256_MAX - u + 1) as -> by lia.
    destruct (Z.ltb_spec ((modulus - 1) / 2) (U256_MAX - u + 1)); [lia|]. split; [done|].
    rewrite neg_val, from_limbs_val by lia.
    rewrite <- (Z.sub_0_l (_ mod _)), Zminus_mod_idemp_r. f_equal. lia.
  - rewrite Z.abs_eq by lia.
    destruct (Z.ltb_spec ((modulus - 1) / 2) u); [lia|]. split; [done|].
    apply from_limbs_val. lia.
Qed.

(** ** Instances and examples *)

(** Residues modulo the order of the BN254 group. *)
Definition bn254_order : Z :=
  21888242871839275222246405745257275088548364400416034343698204186575808495617.

Definition bn254_scalar : Scalar := {|
  scalar := Z;
  MAX_SIGNED := (bn254_order - 1) / 2;
  scalar_into_limbs z := z mod bn254_order;
  scalar_from_limbs z := z;
  scalar_neg z := - z;
  scalar_from_string b := le_val b;
  from_byte_slice_via_hash b := le_val b;
|}.

Program Definition bn254_laws : @ScalarLaws bn254_scalar := {| modulus := bn254_order |}.
Next Obligation. reflexivity. Qed.
Next Obligation. split; reflexivity. Qed.
Next Obligation. intros x. apply Z.mod_pos_bound. reflexivity. Qed.
Next Obligation. done. Qed.
Next Obligation.
  intros x. pose proof (Zminus_mod_idemp_r 0 x bn254_order) as Hx.
  by rewrite !Z.sub_0_l in Hx.
Qed.
Next Obligation. reflexivity. Qed.

Section examples.
#[local] Existing Instance ascii_unicode.
#[local] Existing Instance ascii_unicode_laws.
#[local] Existing Instance bn254_scalar.

Definition sample_table : OnChainTable :=
  [(Ident_new (bs "BLOCK_NUMBER"), BigInt [5; 7]); (Ident_new (bs "NAME"), VarChar [bs "a"; bs "b"])].

Lemma sample_table_wf : table_wf sample_table.
Proof.
  split_and!; [done| |by exists 2%nat; repeat constructor|].
  - apply (bool_decide_unpack _). vm_compute. exact I.
  - repeat constructor.
Qed.

Lemma try_from_iter_guarantees_witness :
  table_wf sample_table /\ sample_table <> [] /\
  exists n, Forall (fun p => column_len p.2 = n) sample_table.
Proof.
  assert (try_from_iter sample_table = Ok sample_table) as Ht by (vm_compute; reflexivity).
  pose proof (try_from_iter_guarantees sample_table) as Hg. rewrite Ht in Hg. exact Hg.
Defined.

Lemma try_from_iter_round_trip_witness : try_from_iter sample_table = Ok sample_table.
Proof. apply try_from_iter_round_trip. apply sample_table_wf. Defined.

Lemma with_column_order_spec_witness :
  with_column_order sample_table [Ident_new (bs "NAME")] ≡ₚ sample_table.
Proof.
  apply (with_column_order_spec sample_table [Ident_new (bs "NAME")]).
  - apply sample_table_wf.
  - apply NoDup_singleton.
Defined.

Lemma u256_to_scalar_spec_witness :
  match @u256_to_scalar bn254_scalar (2 ^ 256 - 5) with
  | Ok x => 5 <= (bn254_order - 1) / 2 /\
            scalar_into_limbs x = (-5) mod bn254_order
  | _ => False
  end.
Proof.
  pose proof (@u256_to_scalar_spec bn254_scalar bn254_laws (2 ^ 256 - 5)
    ltac:(split; vm_compute; discriminate)) as Hs.
  destruct (@u256_to_scalar bn254_scalar (2 ^ 256 - 5)) eqn:He; [|vm_compute in He; discriminate..].
  destruct Hs as [_ Hs]. split; [vm_compute; discriminate|exact Hs].
Defined.

(** Columns whose names differ in case only are merged: the second one's data
    replaces the first one's. *)
Example case_variants_merged :
  try_from_iter [(Ident_new (bs "a"), BigInt [1]); (Ident_new (bs "A"), BigInt [2])] =
  Ok [(Ident_new (bs "A"), BigInt [2])].
Proof. vm_compute. reflexivity. Qed.
End examples.
