(* ===== verification/ArrowConversion.v ===== *)
(** * on-chain-table: arrow_column_conversion.rs, arrow_table_conversion.rs,
      i256_conversion.rs

    Conversion between arrow arrays and record batches and the tables of the
    chain.  An arrow array has a data type, a null flag and values of one of
    arrow's array classes; [downcast_ref] is the match on the class. *)

From stdpp Require Import base tactics option strings numbers list.
From Stdlib Require Import ZArith Lia.
From Stdlib Require Import Strings.Byte.
From S2P Require Import Prelude Bytes IndexMap OnChainTable.

(** ** Arrow *)

Inductive ArrowDataType :=
| AdtBoolean
| AdtInt8
| AdtInt16
| AdtInt32
| AdtInt64
| AdtUInt8
| AdtDecimal128 (precision scale : Z)
| AdtDecimal256 (precision scale : Z)
| AdtUtf8
| AdtBinary
| AdtTimestamp (time_unit : PoSQLTimeUnit) (timezone : option bytes)
| AdtOther (name : bytes).

(** The array classes the code names; an [i256] is a number of 256 bits with its
    sign. *)
Inductive ArrowValues :=
| BooleanArray (values : list (option bool))
| Int8Array (values : list Z)
| Int16Array (values : list Z)
| Int32Array (values : list Z)
| Int64Array (values : list Z)
| UInt8Array (values : list Z)
| Decimal128Array (values : list Z)
| Decimal256Array (values : list Z)
| StringArray (values : list (option bytes))
| BinaryArray (values : list (option bytes))
| TimestampArray (time_unit : PoSQLTimeUnit) (values : list Z)
| OtherArray (name : bytes) (length : nat).

Record ArrayRef := mkArrayRef {
  array_is_nullable : bool;
  array_data_type : ArrowDataType;
  array_values : ArrowValues;
}.

Definition array_len (a : ArrayRef) : nat :=
  match array_values a with
  | BooleanArray l => length l
  | Int8Array l | Int16Array l | Int32Array l | Int64Array l | UInt8Array l
  | Decimal128Array l | Decimal256Array l | TimestampArray _ l => length l
  | StringArray l | BinaryArray l => length l
  | OtherArray _ n => n
  end.

(** The fields of the schema with their columns. *)
Notation RecordBatch := (list (bytes * ArrayRef)) (only parsing).

(** Time zones of proof-of-sql as text, and arrow's check of a decimal type. *)
Class ArrowLibrary := {
  timezone_try_from : bytes -> option PoSQLTimeZone;
  timezone_to_string : PoSQLTimeZone -> bytes;
  decimal256_type_valid : Z -> Z -> bool;
}.

Class ArrowLibraryLaws `{ArrowLibrary} := {
  (** A time zone is printed as hours and minutes. *)
  timezone_round_trip tz :
    tz mod 60 = 0 -> -360000 < tz < 360000 -> timezone_try_from (timezone_to_string tz) = Some tz;
  decimal256_valid p s : 1 <= p <= 76 -> -128 <= s <= p -> decimal256_type_valid p s = true;
}.

(** ** i256_conversion.rs *)

(** [to_le_bytes] of a signed number and [from_little_endian] of an unsigned
    one, and back. *)
Definition arrow_i256_to_u256 (value : Z) : Z := le_val (le_bytes 32 (value mod 2 ^ 256)).

Definition i256_from_le_bytes (b : bytes) : Z :=
  let z := le_val b in if z <? 2 ^ 255 then z else z - 2 ^ 256.

Definition u256_to_arrow_i256 (value : Z) : Z := i256_from_le_bytes (le_bytes 32 value).

(** ** arrow_column_conversion.rs *)

Inductive ArrowToOnChainColumnError :=
| UnsupportedType (data_type : ArrowDataType)
| UnsupportedNull
| InvalidTimestamp
| UnexpectedSchemaDataMismatch.

(** [collect] of options into one. *)
Fixpoint collect_some {A} (l : list (option A)) : option (list A) :=
  match l with
  | [] => Some []
  | None :: _ => None
  | Some x :: l => (fun r => x :: r) <$> collect_some l
  end.

Section column.
Context `{ArrowLibrary}.

Definition column_try_from_array (value : ArrayRef)
    : outcome ArrowToOnChainColumnError OnChainColumn :=
  if array_is_nullable value then Err UnsupportedNull
  else
    match array_data_type value with
    | AdtBoolean =>
        match array_values value with
        | BooleanArray l => omap_ok Boolean (ok_or (collect_some l) UnsupportedNull)
        | _ => Err UnexpectedSchemaDataMismatch
        end
    | AdtInt8 =>
        match array_values value with
        | Int8Array l => Ok (TinyInt l)
        | _ => Err UnexpectedSchemaDataMismatch
        end
    | AdtInt16 =>
        match array_values value with
        | Int16Array l => Ok (SmallInt l)
        | _ => Err UnexpectedSchemaDataMismatch
        end
    | AdtInt32 =>
        match array_values value with
        | Int32Array l => Ok (Int l)
        | _ => Err UnexpectedSchemaDataMismatch
        end
    | AdtInt64 =>
        match array_values value with
        | Int64Array l => Ok (BigInt l)
        | _ => Err UnexpectedSchemaDataMismatch
        end
    | AdtDecimal128 38 0 =>
        match array_values value with
        | Decimal128Array l => Ok (Int128 l)
        | _ => Err UnexpectedSchemaDataMismatch
        end
    | AdtDecimal256 precision scale =>
        if precision <=? 75 then
          let? p := unwrap_option (Precision_new precision) in
          match array_values value with
          | Decimal256Array l => Ok (Decimal75 p scale (arrow_i256_to_u256 <$> l))
          | _ => Err UnexpectedSchemaDataMismatch
          end
        else Err (UnsupportedType (array_data_type value))
    | AdtUtf8 =>
        match array_values value with
        | StringArray l => omap_ok VarChar (ok_or (collect_some l) UnsupportedNull)
        | _ => Err UnexpectedSchemaDataMismatch
        end
    | AdtBinary =>
        match array_values value with
        | BinaryArray l => omap_ok VarBinary (ok_or (collect_some l) UnsupportedNull)
        | _ => Err UnexpectedSchemaDataMismatch
        end
    | AdtTimestamp time_unit timezone =>
        let? timestamps :=
          match array_values value with
          | TimestampArray u l =>
              if decide (u = time_unit) then Ok l else Err UnexpectedSchemaDataMismatch
          | _ => Err UnexpectedSchemaDataMismatch
          end in
        let? tz :=
          match timezone with
          | None => Ok None
          | Some tz => omap_ok Some (ok_or (timezone_try_from tz) InvalidTimestamp)
          end in
        Ok (TimestampTZ time_unit tz timestamps)
    | data_type => Err (UnsupportedType data_type)
    end.

Definition column_into_array {E} (value : OnChainColumn) : outcome E ArrayRef :=
  match value with
  | Boolean col => Ok (mkArrayRef false AdtBoolean (BooleanArray (Some <$> col)))
  | UnsignedTinyInt col => Ok (mkArrayRef false AdtUInt8 (UInt8Array col))
  | TinyInt col => Ok (mkArrayRef false AdtInt8 (Int8Array col))
  | SmallInt col => Ok (mkArrayRef false AdtInt16 (Int16Array col))
  | Int col => Ok (mkArrayRef false AdtInt32 (Int32Array col))
  | BigInt col => Ok (mkArrayRef false AdtInt64 (Int64Array col))
  | Int128 col => Ok (mkArrayRef false (AdtDecimal128 38 0) (Decimal128Array col))
  | Decimal75 precision scale col =>
      let converted_col := u256_to_arrow_i256 <$> col in
      if decimal256_type_valid precision scale
      then Ok (mkArrayRef false (AdtDecimal256 precision scale) (Decimal256Array converted_col))
      else Panic
  | VarChar col => Ok (mkArrayRef false AdtUtf8 (StringArray (Some <$> col)))
  | VarBinary col => Ok (mkArrayRef false AdtBinary (BinaryArray (Some <$> col)))
  | TimestampTZ time_unit timezone col =>
      Ok (mkArrayRef false (AdtTimestamp time_unit (timezone_to_string <$> timezone))
            (TimestampArray time_unit col))
  end.
End column.

(** ** arrow_table_conversion.rs *)

Inductive ArrowToOnChainTableError :=
| ArrowColumn (error : ArrowToOnChainColumnError)
| DuplicateIdentifier.

Section table.
Context `{UnicodeData} `{ArrowLibrary}.

(** The identifiers go through an [IndexSet], which keeps the first of equal
    ones. *)
Definition table_try_from_batch (batch : RecordBatch)
    : outcome ArrowToOnChainTableError OnChainTable :=
  let? columns := map_err ArrowColumn (collect (fun c => column_try_from_array c) (snd <$> batch)) in
  let identifiers := imap_keys (imap_from_iter ((fun p => (Ident_new p.1, tt)) <$> batch)) in
  if negb (length columns =? length identifiers)%nat then Err DuplicateIdentifier
  else unwrap (try_from_iter (combine identifiers columns)).

(** [RecordBatch::try_from_iter] rejects an empty list of columns and columns
    of different lengths. *)
Definition batch_try_from_iter (cols : RecordBatch) : option RecordBatch :=
  match cols with
  | [] => None
  | (_, a) :: _ =>
      if forallb (fun p => (array_len p.2 =? array_len a)%nat) cols then Some cols else None
  end.

Definition table_into_batch {E} (value : OnChainTable) : outcome E RecordBatch :=
  let? cols := collect (fun '(identifier, column) =>
      let? a := column_into_array column in Ok (ident_value identifier, a)) value in
  unwrap_option (batch_try_from_iter cols).
End table.

(** ** Lemmas *)

Lemma collect_some_fmap {A} (l : list A) : collect_some (Some <$> l) = Some l.
Proof. induction l as [|x l IH]; [done|]. rewrite fmap_cons. cbn [collect_some]. by rewrite IH. Qed.

Lemma collect_some_length {A} (l : list (option A)) l' :
  collect_some l = Some l' -> length l' = length l.
Proof.
  revert l'. induction l as [|[x|] l IH]; simpl; intros l' Hl; simplify_eq/=; [done|].
  apply fmap_Some in Hl as (r & Hr & ->). simpl. by rewrite (IH r).
Qed.

Lemma i256_round_trip z : 0 <= z < 2 ^ 256 -> arrow_i256_to_u256 (u256_to_arrow_i256 z) = z.
Proof.
  intros Hz. unfold arrow_i256_to_u256, u256_to_arrow_i256, i256_from_le_bytes.
  rewrite !le_val_bytes by lia. rewrite (Z.mod_small z) by done.
  destruct (Z.ltb_spec z (2 ^ 255)).
  - rewrite (Z.mod_small z), Z.mod_small by done. done.
  - replace (z - 2 ^ 256) with (z + (-1) * 2 ^ 256) by lia. rewrite Z.mod_add by done.
    rewrite (Z.mod_small z), Z.mod_small by done. done.
Qed.

(** The columns that survive a round trip through arrow. *)
Definition column_exportable (c : OnChainColumn) : Prop :=
  match c with
  | UnsignedTinyInt _ => False
  | Decimal75 p s l => 1 <= p <= 75 /\ -128 <= s <= p /\ Forall (fun z => 0 <= z < 2 ^ 256) l
  | TimestampTZ _ (Some tz) _ => tz mod 60 = 0 /\ -360000 < tz < 360000
  | _ => True
  end.

Section lemmas.
Context `{UnicodeData} `{ArrowLibrary}.

Lemma column_into_array_spec {E} `{!ArrowLibraryLaws} c :
  column_exportable c ->
  exists a, column_into_array (E:=E) c = Ok a /\ column_try_from_array a = Ok c /\
            array_len a = column_len c.
Proof.
  destruct c as [l|l|l|l|l|l|l|l|p s l|u tz l|l]; intros Hc; try done;
    try (eexists; split_and!; [done| |by cbn; rewrite ?length_fmap];
         unfold column_try_from_array; cbn -[fmap]; by rewrite ?collect_some_fmap).
  - destruct Hc as (Hp & Hs & Hl). cbn -[fmap]. rewrite decimal256_valid by lia.
    eexists; split_and!; [done| |by cbn; rewrite length_fmap].
    unfold column_try_from_array; cbn -[fmap Z.leb].
    rewrite (proj2 (Z.leb_le p 75)) by lia. unfold Precision_new.
    rewrite (proj2 (Z.leb_le 1 p)), (proj2 (Z.leb_le p 75)) by lia. cbn -[fmap]. f_equal. f_equal.
    rewrite <- list_fmap_compose. induction Hl as [|z l Hz Hl IH]; [done|].
    rewrite fmap_cons, IH. unfold compose. by rewrite i256_round_trip.
  - eexists; split_and!; [done| |done]. unfold column_try_from_array; cbn.
    rewrite decide_True by done. simpl. destruct tz as [tz|]; simpl; [|done].
    by rewrite timezone_round_trip by (simpl in Hc; lia).
Qed.

Lemma column_try_from_array_len a c : column_try_from_array a = Ok c -> column_len c = array_len a.
Proof.
  unfold column_try_from_array, array_len. destruct a as [[] dt v]; [done|]; simpl.
  destruct dt as [| | | | | |p s|p s| | |u tz|]; try done; destruct v; simpl; intros Hc;
    repeat case_match; simplify_eq/=; try done;
    repeat match goal with
    | H : omap_ok _ (ok_or ?o _) = Ok _ |- _ => destruct o eqn:?; simplify_eq/=
    | H : obind _ _ = Ok _ |- _ => apply obind_ok in H as (? & ? & H); simplify_eq/=
    end; rewrite ?length_fmap; eauto using collect_some_length.
Qed.

(** A decimal type of precision 0 passes the guard and fails in [Precision]. *)
Definition array_no_zero_precision (a : ArrayRef) : Prop :=
  match array_data_type a with
  | AdtDecimal256 p _ => 1 <= p
  | _ => True
  end.

Lemma column_try_from_array_no_panic a :
  array_no_zero_precision a -> column_try_from_array a <> Panic.
Proof.
  unfold column_try_from_array, array_no_zero_precision. destruct a as [[] dt v]; [done|]; simpl.
  destruct dt as [| | | | | |p s|p s| | |u tz|]; try done; intros Hp; try by repeat case_match.
  - destruct v; try done. by destruct (collect_some _).
  - unfold Precision_new. destruct (Z.leb_spec p 75); [|done].
    rewrite (proj2 (Z.leb_le 1 p)) by lia. simpl. by destruct v.
  - destruct v; try done. by destruct (collect_some _).
  - destruct v; try done. by destruct (collect_some _).
  - apply obind_not_panic; [destruct v; try done; by case_decide|]. intros l _.
    apply obind_not_panic; [|done]. destruct tz; [|done]. by destruct (timezone_try_from _).
Qed.
End lemmas.

#[global] Instance Ident_new_inj : Inj (=) (=) Ident_new.
Proof. by intros ?? [= ->]. Qed.

(** What the conversion of a batch computes, when no column panics. *)
Lemma batch_identifiers (batch : RecordBatch) :
  let ids := imap_keys (imap_from_iter ((fun p => (Ident_new p.1, tt)) <$> batch)) in
  if decide (NoDup batch.*1) then ids = Ident_new <$> batch.*1 else length ids <> length batch.
Proof.
  cbn zeta. set (l := (fun p => (Ident_new p.1, tt)) <$> batch). assert (imap_keys l = Ident_new <$> batch.*1) as Hl.
  { unfold l, imap_keys. by rewrite <- !list_fmap_compose. }
  case_decide as Hnd.
  - rewrite imap_from_iter_id; [done|]. rewrite Hl. by apply (NoDup_fmap_2 Ident_new).
  - intros Hlen. apply Hnd. apply (NoDup_fmap_1 Ident_new). rewrite <- Hl.
    apply imap_from_iter_length_nodup. unfold imap_keys in Hlen. rewrite length_fmap in Hlen.
    rewrite Hlen. unfold l. by rewrite length_fmap.
Qed.

Lemma columns_of_batch `{ArrowLibrary} (batch : RecordBatch) columns :
  collect (fun c => column_try_from_array c) batch.*2 = Ok columns ->
  Forall2 (fun p c => column_try_from_array p.2 = Ok c) batch columns.
Proof. intros Hc%collect_ok. by rewrite Forall2_fmap_l in Hc. Qed.

Lemma zip_columns_lengths `{ArrowLibrary} n (batch : RecordBatch) columns :
  Forall2 (fun p c => column_try_from_array p.2 = Ok c) batch columns ->
  Forall (fun p => array_len p.2 = n) batch ->
  Forall (fun q => column_len q.2 = n) (combine (Ident_new <$> batch.*1) columns).
Proof.
  induction 1 as [|[k a] c batch columns Hc _ IH]; intros Hn; [constructor|].
  apply Forall_cons_1 in Hn as [Ha Hn]. constructor; [|by apply IH].
  simpl in *. by rewrite (column_try_from_array_len _ _ Hc).
Qed.

(** A record batch with at least one column, columns of one length and no
    decimal type of precision 0 never makes the conversion panic: it yields a
    well-formed table whose columns are those of the batch under upper-cased
    names, or reports a column that does not convert or a repeated name. *)
Theorem table_try_from_batch_spec `{UnicodeLaws} `{ArrowLibrary} batch n :
  batch <> [] -> Forall (fun p => array_len p.2 = n) batch ->
  Forall (fun p => array_no_zero_precision p.2) batch ->
  match table_try_from_batch batch with
  | Panic => False
  | Ok t => table_wf t /\ NoDup batch.*1 /\
      exists columns, Forall2 (fun p c => column_try_from_array p.2 = Ok c) batch columns /\
        t = imap_from_iter (combine (uppercase_ident ∘ Ident_new <$> batch.*1) columns)
  | Err (ArrowColumn e) => exists p, p ∈ batch /\ column_try_from_array p.2 = Err e
  | Err DuplicateIdentifier => ~ NoDup batch.*1
  end.
Proof.
  intros Hne Hn Hp. unfold table_try_from_batch.
  destruct (collect (fun c => column_try_from_array c) batch.*2) as [columns|e|] eqn:Hc.
  - apply columns_of_batch in Hc. simpl. pose proof (batch_identifiers batch) as Hids.
    cbn zeta in Hids. rewrite <- (Forall2_length _ _ _ Hc). destruct (decide (NoDup batch.*1)).
    + rewrite Hids, !length_fmap, Nat.eqb_refl. simpl.
      pose proof (zip_columns_lengths n batch columns Hc Hn) as Hl.
      destruct Hc as [|[k a] c batch columns Ha Hc]; [done|].
      rewrite !fmap_cons in Hl |- *. cbn [combine fst] in Hl |- *.
      apply Forall_cons_1 in Hl as [Hl0 Hl]. simpl in Hl0.
      assert (Forall (fun q => column_len q.2 = column_len c)
        (combine (Ident_new <$> batch.*1) columns)) as Hl'.
      { eapply Forall_impl; [exact Hl|]. simpl. congruence. }
      rewrite (try_from_iter_ok (Ident_new k, c)) by done. cbn [unwrap].
      split_and!; [by apply (try_from_iter_wf (Ident_new k, c))|done|].
      exists (c :: columns). split; [by constructor|]. unfold imap_from_iter. simpl. f_equal.
      clear. revert columns. induction batch as [|[k' a'] batch IH]; intros [|c' columns]; try done.
      simpl. f_equal. apply IH.
    + rewrite (proj2 (Nat.eqb_neq _ _)) by (intros Heq; by apply Hids). done.
  - simpl. apply collect_err in Hc as (c & Hin & Hc).
    apply list_elem_of_fmap in Hin as (p & -> & Hin). eauto.
  - revert Hc. apply collect_no_panic. intros c Hin.
    apply list_elem_of_fmap in Hin as (p & -> & Hin).
    rewrite Forall_forall in Hp. by apply column_try_from_array_no_panic, Hp.
Qed.

(** Exporting the columns one by one. *)
Lemma export_columns `{ArrowLibraryLaws} {E} n (t : OnChainTable) :
  Forall (fun p => column_len p.2 = n) t -> Forall (fun p => column_exportable p.2) t ->
  exists batch, collect (fun '(identifier, column) =>
      let? a := column_into_array (E:=E) column in Ok (ident_value identifier, a)) t = Ok batch /\
    batch.*1 = ident_value ∘ fst <$> t /\ Forall (fun p => array_len p.2 = n) batch /\
    collect (fun c => column_try_from_array c) batch.*2 = Ok t.*2.
Proof.
  induction t as [|[i c] t IH]; intros Hn Hex; [by exists []; split_and!|].
  apply Forall_cons_1 in Hn as [Hcn Hn]. apply Forall_cons_1 in Hex as [Hce Hex].
  destruct (IH Hn Hex) as (batch & Hb & Hk & Hl & Hcol).
  destruct (column_into_array_spec (E:=E) c Hce) as (a & Ha & Hback & Hlen).
  exists ((ident_value i, a) :: batch). cbn [collect]. rewrite Ha. cbn [obind]. rewrite Hb.
  split_and!; [done| | |].
  - rewrite !fmap_cons. by rewrite Hk.
  - constructor; [|done]. simpl in *. congruence.
  - rewrite !fmap_cons. cbn [collect]. cbn [snd]. rewrite Hback. cbn [obind]. by rewrite Hcol.
Qed.

Lemma unquoted_identifiers (t : OnChainTable) :
  Forall (fun p => quote_style p.1 = None) t -> Ident_new <$> (ident_value ∘ fst <$> t) = t.*1.
Proof.
  induction 1 as [|[[v q] c] t Hq Ht IH]; [done|]. rewrite !fmap_cons, IH.
  simpl in Hq. by subst q.
Qed.

Lemma table_batch_round_trip `{UnicodeLaws} `{ArrowLibraryLaws} {E} t :
  table_wf t ->
  Forall (fun p => column_exportable p.2) t -> Forall (fun p => quote_style p.1 = None) t ->
  exists batch, table_into_batch (E:=E) t = Ok batch /\ table_try_from_batch batch = Ok t.
Proof.
  intros Hwf Hex Hq. pose proof Hwf as (Hne & Hnd & [n Hn] & Hup).
  destruct (export_columns (E:=E) n t Hn Hex) as (batch & Hb & Hk & Hl & Hc).
  pose proof (unquoted_identifiers t Hq) as Hids. rewrite <- Hk in Hids.
  exists batch. split.
  - unfold table_into_batch. rewrite Hb. cbn [obind]. destruct batch as [|[k a] batch].
    { destruct t; [done|discriminate Hk]. }
    unfold batch_try_from_iter. rewrite (proj2 (forallb_forall _ _)); [done|].
    intros p Hp%list_elem_of_In. rewrite Forall_forall in Hl. apply Nat.eqb_eq.
    rewrite (Hl p Hp). symmetry. apply (Hl (k, a)). left.
  - unfold table_try_from_batch. rewrite Hc. cbn [map_err obind].
    pose proof (batch_identifiers batch) as Hid. cbn zeta in Hid.
    rewrite decide_True in Hid by (apply (NoDup_fmap_1 Ident_new); by rewrite Hids).
    rewrite Hid, Hids, !length_fmap, Nat.eqb_refl. cbn [negb].
    rewrite combine_fst_snd. by rewrite try_from_iter_id.
Qed.


(** ** Examples *)

(** Time zones as proof-of-sql prints them, [+HH:MM] or [-HH:MM]. *)
Definition digit (d : Z) : byte := byte_of (48 + d).
Definition undigit (b : byte) : option Z :=
  if is_ascii_digit b then Some (byte_val b - 48) else None.

Definition print_timezone (tz : Z) : bytes :=
  let m := Z.abs tz / 60 in
  [if tz <? 0 then "-"%byte else "+"%byte; digit (m / 60 / 10); digit (m / 60 mod 10); ":"%byte;
   digit (m mod 60 / 10); digit (m mod 60 mod 10)].

Definition parse_timezone (b : bytes) : option Z :=
  match b with
  | [sign; h1; h0; colon; m1; m0] =>
      h1 ← undigit h1; h0 ← undigit h0; m1 ← undigit m1; m0 ← undigit m0;
      let secs := ((h1 * 10 + h0) * 60 + (m1 * 10 + m0)) * 60 in
      if bool_decide (colon = ":"%byte) then
        if bool_decide (sign = "+"%byte) then Some secs
        else if bool_decide (sign = "-"%byte) then Some (- secs) else None
      else None
  | _ => None
  end.

Lemma undigit_digit d : 0 <= d < 10 -> undigit (digit d) = Some d.
Proof.
  intros Hd. assert (d = 0 \/ d = 1 \/ d = 2 \/ d = 3 \/ d = 4 \/ d = 5 \/ d = 6 \/ d = 7 \/ d = 8
    \/ d = 9) as Hcases by lia. by repeat destruct Hcases as [->|Hcases]; subst.
Qed.

Definition plain_arrow : ArrowLibrary := {|
  timezone_try_from := parse_timezone;
  timezone_to_string := print_timezone;
  decimal256_type_valid p s := (1 <=? p) && (p <=? 76) && (s <=? 76) && (s <=? p);
|}.

#[local] Existing Instance plain_arrow.

Lemma plain_arrow_laws : ArrowLibraryLaws.
Proof.
  split.
  - intros tz Hm Hr. simpl. unfold print_timezone, parse_timezone.
    pose proof (Z.div_mod (Z.abs tz) 60 ltac:(lia)).
    assert (Z.abs tz mod 60 = 0) as Habs.
    { destruct (Z.abs_spec tz) as [[_ ->]|[_ ->]]; [done|]. by rewrite Z.mod_opp_l_z. }
    set (m := Z.abs tz / 60) in *.
    pose proof (Z.div_mod m 60 ltac:(lia)). pose proof (Z.mod_pos_bound m 60 ltac:(lia)).
    pose proof (Z.div_mod (m / 60) 10 ltac:(lia)). pose proof (Z.mod_pos_bound (m / 60) 10 ltac:(lia)).
    pose proof (Z.div_mod (m mod 60) 10 ltac:(lia)).
    pose proof (Z.mod_pos_bound (m mod 60) 10 ltac:(lia)).
    rewrite !undigit_digit by lia. cbn [mbind option_bind].
    destruct (Z.ltb_spec tz 0); repeat case_bool_decide; try done;
      cbn -[Z.mul Z.add Z.modulo Z.div]; f_equal; lia.
  - intros p s Hp Hs. simpl. rewrite !andb_true_iff, !Z.leb_le. lia.
Qed.

#[local] Existing Instance plain_arrow_laws.
#[local] Existing Instance ascii_unicode.
#[local] Existing Instance ascii_unicode_laws.

Definition arrow_table : OnChainTable :=
  [(Ident_new (bs "AMOUNT"), Decimal75 75 0 [2 ^ 256 - 5; 7]);
   (Ident_new (bs "SEEN"), TimestampTZ Millisecond (Some (-19800)) [10; 20])].

Lemma arrow_table_wf : table_wf arrow_table.
Proof.
  split_and!; [done| |by exists 2%nat; repeat constructor|repeat constructor].
  apply (bool_decide_unpack _). vm_compute. exact I.
Qed.


Definition arrow_batch : list (bytes * ArrayRef) :=
  [(bs "seen", mkArrayRef false AdtInt64 (Int64Array [1; 2]));
   (bs "Name", mkArrayRef false AdtUtf8 (StringArray [Some (bs "a"); Some (bs "b")]))].

Lemma table_try_from_batch_spec_witness :
  match table_try_from_batch arrow_batch with
  | Ok t => table_wf t /\ length t = 2%nat
  | _ => False
  end.
Proof.
  pose proof (table_try_from_batch_spec arrow_batch 2 ltac:(done)
    ltac:(by repeat constructor) ltac:(by repeat constructor)) as Hs.
  destruct (table_try_from_batch arrow_batch) as [t|e|] eqn:Ht; [|vm_compute in Ht; discriminate..].
  split; [apply Hs|]. vm_compute in Ht. by injection Ht as <-.
Defined.

(** A batch without columns passes every check before the [expect] and panics,
    and so does a decimal type of precision 0, which the guard lets through. *)
Example empty_batch_panics : table_try_from_batch [] = Panic.
Proof. reflexivity. Qed.

Example zero_precision_panics :
  column_try_from_array (mkArrayRef false (AdtDecimal256 0 0) (Decimal256Array [])) = Panic.
Proof. reflexivity. Qed.

(** An exported unsigned column is not accepted back. *)
Example unsigned_tiny_int_not_imported :
  (let? a := column_into_array (UnsignedTinyInt [1]) in column_try_from_array a)
  = Err (UnsupportedType AdtUInt8).
Proof. reflexivity. Qed.
