(* ===== verification/SqlAst.v ===== *)
(** * Table definitions

    The part of the syntax tree of the [sqlparser] crate that the code reads
    and writes.  Clauses that the code only carries along are one opaque field;
    the parser and the printer are operations of a class. *)

From stdpp Require Import base tactics list option strings numbers.
From Stdlib Require Import ZArith.
From S2P Require Import Prelude Bytes OnChainTable.

(** [ExactNumberInfo]; precision and scale are [u64]. *)
Inductive ExactNumberInfo :=
| NumberInfoNone
| NumberInfoPrecision (p : Z)
| NumberInfoPrecisionAndScale (p s : Z).

(** [TimezoneInfo]. *)
Inductive TimezoneInfo := TzNone | TzWithTimeZone | TzWithoutTimeZone | TzTz.

(** [DataType]: a length or display width is [option Z]; other parameters that
    the code does not look at are the text of the parameter. *)
Inductive DataType :=
| DtBoolean
| DtTinyInt (width : option Z)
| DtSmallInt (width : option Z)
| DtInt (width : option Z)
| DtInteger (width : option Z)
| DtBigInt (width : option Z)
| DtVarchar (length : option Z)
| DtDecimal (info : ExactNumberInfo)
| DtTimestamp (precision : option Z) (zone : TimezoneInfo)
| DtBinary (length : option Z)
| DtBool | DtUuid | DtFloat (p : option Z) | DtUnsignedTinyInt (width : option Z)
| DtMediumInt (width : option Z) | DtInt2 (width : option Z) | DtUnsignedInt2 (width : option Z)
| DtUnsignedSmallInt (width : option Z) | DtUnsignedMediumInt (width : option Z)
| DtUnsignedInt (width : option Z) | DtInt4 (width : option Z) | DtUnsignedInt4 (width : option Z)
| DtUnsignedInteger (width : option Z) | DtInt8 (width : option Z) | DtInt64
| DtUnsignedBigInt (width : option Z) | DtUnsignedInt8 (width : option Z)
| DtFloat4 | DtFloat64 | DtReal | DtFloat8 | DtDouble | DtDoublePrecision
| DtCharacter (length : option Z) | DtChar (length : option Z)
| DtCharacterVarying (length : option Z) | DtCharVarying (length : option Z)
| DtNvarchar (length : option Z) | DtCharacterLargeObject (length : option Z)
| DtCharLargeObject (length : option Z) | DtClob (length : option Z) | DtString (length : option Z)
| DtText | DtNumeric (info : ExactNumberInfo) | DtBigNumeric (info : ExactNumberInfo)
| DtBigDecimal (info : ExactNumberInfo) | DtDec (info : ExactNumberInfo) | DtDate
| DtTime (precision : option Z) (zone : TimezoneInfo) | DtDatetime (precision : option Z)
| DtVarbinary (length : option Z) | DtBlob (length : option Z) | DtBytes (length : option Z)
| DtInterval | DtJSON | DtJSONB | DtRegclass | DtBytea | DtCustom (text : bytes)
| DtArray (text : bytes) | DtEnum (text : bytes) | DtSet (text : bytes) | DtStruct (text : bytes)
| DtUnspecified.

(** [ColumnOption]: the two the code distinguishes and the text of any other. *)
Inductive ColumnOption :=
| NotNull
| Comment (text : bytes)
| OtherOption (text : bytes).

#[global] Instance ColumnOption_eq_dec : EqDecision ColumnOption.
Proof. solve_decision. Defined.

Record ColumnOptionDef := mkColumnOptionDef {
  option_name : option Ident;
  column_option : ColumnOption;
}.

Record ColumnDef := mkColumnDef {
  column_def_name : Ident;
  column_data_type : DataType;
  collation : option bytes;
  column_options : list ColumnOptionDef;
}.

(** [SqlOption]: a name and the text of its value expression; an unquoted
    string is its own text. *)
Record SqlOption := mkSqlOption {
  sql_option_name : Ident;
  sql_option_value : bytes;
}.

(** [CreateTableBuilder]: name, columns and options, and the remaining clauses
    as one opaque value. *)
Record CreateTableBuilder := mkCreateTable {
  table_name : list Ident;
  table_columns : list ColumnDef;
  with_options : list SqlOption;
  table_rest : bytes;
}.

Definition set_table_columns (cols : list ColumnDef) (t : CreateTableBuilder) : CreateTableBuilder :=
  mkCreateTable (table_name t) cols (with_options t) (table_rest t).
Definition set_with_options (opts : list SqlOption) (t : CreateTableBuilder) : CreateTableBuilder :=
  mkCreateTable (table_name t) (table_columns t) opts (table_rest t).

(** Parsing one [CREATE TABLE] statement with the PostgreSQL dialect, and
    printing it ([build().to_string()]). *)
Class SqlParser := {
  parse_create_table : bytes -> option CreateTableBuilder;
  print_create_table : CreateTableBuilder -> bytes;
}.
