(* ===== verification/TablesSql.v ===== *)
(** * sxt-core/tables.rs: create statements and UUIDs

    Statements as bytes and as syntax trees, the UUID options of their WITH
    clause, and the generation of UUIDs.  Theorems: what
    [update_uuid_in_create_table_statement] does to the options, the form of
    generated UUIDs, and what [strip_with_clause] leaves. *)

From stdpp Require Import base tactics option sorting strings numbers list.
From Stdlib Require Import ZArith Lia.
From Stdlib Require Import Strings.Byte.
From S2P Require Import Prelude Bytes Text Types OnChainTable SqlAst.

Inductive CreateStatementParseError := StatementTooLarge | Utf8 | Sqlparser.

Definition strip_with_clause (sql : bytes) : bytes * option bytes :=
  match str_rfind sql (bs "WITH") with
  | Some idx =>
      let before_with := take idx sql in
      let with_and_rest := drop idx sql in
      let with_clause := trim (trim_end_byte ";"%byte with_and_rest) in
      (trim_end before_with, Some with_clause)
  | None => (trim_end (trim_end_byte ";"%byte sql), None)
  end.

Section sql.
Context `{UnicodeData} `{SqlParser}.

Definition sqlparser_to_create_statement (create_table : CreateTableBuilder)
    : outcome CreateStatementParseError CreateStatement :=
  ok_or (CreateStatement_try_from (print_create_table create_table)) StatementTooLarge.

Definition create_statement_to_sqlparser (create_statement : CreateStatement)
    : outcome CreateStatementParseError CreateTableBuilder :=
  let? raw_sql := ok_or (from_utf8 create_statement) Utf8 in
  ok_or (parse_create_table raw_sql) Sqlparser.

Definition create_statement_to_sqlparser_remove_with (create_statement : CreateStatement)
    : outcome CreateStatementParseError (CreateTableBuilder * option bytes) :=
  let? raw_sql := ok_or (from_utf8 create_statement) Utf8 in
  let '(stripped_sql, with_options) := strip_with_clause raw_sql in
  let? builder := ok_or (parse_create_table stripped_sql) Sqlparser in
  Ok (builder, with_options).

(** ** UUIDs in the WITH clause *)

Inductive UpdateUuidError := InvalidUuid | UuidParseError (error : CreateStatementParseError).

(** [Vec::sort_by], which is stable, and [Vec::dedup_by], which keeps the first
    element of a run. *)
Fixpoint sort_insert {A} (le : A -> A -> bool) (x : A) (l : list A) : list A :=
  match l with
  | [] => [x]
  | y :: r => if le x y then x :: l else y :: sort_insert le x r
  end.
Definition sort_by {A} (le : A -> A -> bool) (l : list A) : list A := foldr (sort_insert le) [] l.

Fixpoint dedup_from {A} (same : A -> A -> bool) (prev : A) (l : list A) : list A :=
  match l with
  | [] => []
  | x :: r => if same x prev then dedup_from same prev r else x :: dedup_from same x r
  end.
Definition dedup_by {A} (same : A -> A -> bool) (l : list A) : list A :=
  match l with
  | [] => []
  | x :: r => x :: dedup_from same x r
  end.

Definition option_key (o : SqlOption) : bytes := to_uppercase (ident_value (sql_option_name o)).

Definition uuid_entry (entry : ColumnUuid) : option SqlOption :=
  match from_utf8 (column_name entry), from_utf8 (column_uuid entry) with
  | Some name, Some val => Some (mkSqlOption (Ident_new name) val)
  | _, _ => None
  end.

Definition TABLE_UUID_OPTION : bytes := bs "TABLE_UUID".

Definition update_uuid_in_create_table_statement (uuid : TableUuid) (column_uuids : ColumnUuidList)
    (statement : CreateStatement) : outcome UpdateUuidError CreateStatement :=
  let? table := map_err UuidParseError (create_statement_to_sqlparser statement) in
  let? table_uuid_str := ok_or (from_utf8 uuid) InvalidUuid in
  let table_entry := mkSqlOption (Ident_new TABLE_UUID_OPTION) table_uuid_str in
  let entries := omap uuid_entry column_uuids ++ [table_entry] ++ with_options table in
  let entries := sort_by (fun a b => bytes_le (option_key a) (option_key b)) entries in
  let entries := dedup_by (fun a b => bool_decide (option_key a = option_key b)) entries in
  let table := set_with_options entries table in
  map_err UuidParseError (sqlparser_to_create_statement table).

(** The slice [7 .. len - 5] of [column_uuid], which begins with one pattern and
    ends with the other, has its end before its start. *)
Definition extract_column_name {E} (input : bytes) : outcome E (option bytes) :=
  if str_starts_with input (bs "column_") && str_ends_with input (bs "_uuid") then
    let start := 7%nat in
    let end_ := (length input - 5)%nat in
    if (end_ <? start)%nat then Panic else Ok (Some (take (end_ - start) (drop start input)))
  else Ok None.

(** The value of the option is its text. *)
Definition column_uuid_of_option {E} (opt : SqlOption) : outcome E (option ColumnUuid) :=
  let? name := extract_column_name (ident_value (sql_option_name opt)) in
  match name with
  | None => Ok None
  | Some name =>
      let? name := unwrap_option (ByteString_try_from name) in
      let? uuid := unwrap_option (TableUuid_try_from (sql_option_value opt)) in
      Ok (Some (mkColumnUuid name uuid))
  end.

Definition uuids_from_sqlparser {E} (create_table : CreateTableBuilder)
    : outcome E (TableUuid * ColumnUuidList) :=
  let options := with_options create_table in
  let? column_ids := collect column_uuid_of_option options in
  let? column_id_list := unwrap_option (try_from_bounded MAX_COLS_PER_TABLE (omap id column_ids)) in
  let? table_uuids := collect (fun opt =>
      if bool_decide (to_lowercase (ident_value (sql_option_name opt)) = bs "table_uuid")
      then omap_ok Some (unwrap_option (TableUuid_try_from (sql_option_value opt)))
      else Ok None) options in
  Ok (default [] (last (omap id table_uuids)), column_id_list).

Definition uuids_from_create_statement {E} (create_statement : CreateStatement)
    : outcome E (option (TableUuid * ColumnUuidList)) :=
  match create_statement_to_sqlparser create_statement with
  | Ok create_table => omap_ok Some (uuids_from_sqlparser create_table)
  | Err _ => Ok None
  | Panic => Panic
  end.
End sql.

Definition extract_schema_uuid (sql : bytes) : option bytes :=
  with_start ← str_find sql (bs "WITH (");
  let with_part := drop (with_start + 6) sql in
  end_index ← str_find with_part (bs ")");
  let options_str := take end_index with_part in
  head (omap (fun option =>
    match str_splitn2 "="%byte option with
    | (key, Some value) =>
        if eq_ignore_ascii_case (trim key) (bs "SCHEMA_UUID") then Some (trim value) else None
    | (_, None) => None
    end) (str_split ","%byte options_str)).

(** ** Generated UUIDs *)

(** The hash of the source and the first two words of the ChaCha20 stream it
    seeds. *)
Class UuidRng := {
  blake2_256 : bytes -> bytes;
  chacha20_words : bytes -> Z * Z;
}.

Class UuidRngLaws `{UuidRng} := {
  chacha20_u64 seed : 0 <= (chacha20_words seed).1 < 2 ^ 64 /\ 0 <= (chacha20_words seed).2 < 2 ^ 64;
}.

Section uuid.
Context `{UuidRng} `{SqlParser}.

Definition generate_uuid (source : bytes) : option TableUuid :=
  let seed := blake2_256 source in
  let '(word1, word2) := chacha20_words seed in
  let part1 := Z.lor (Z.shiftl 12 60) word1 in
  let part2 := word2 in
  let hex := hex_upper 16 part1 ++ hex_upper 16 part2 in
  let hex :=
    match hex with
    | c :: r => if is_ascii_digit c then "A"%byte :: r else hex
    | [] => hex
    end in
  let hex := take 32 hex in
  TableUuid_try_from hex.

Definition generate_table_uuid (block_number : Z) (namespace name : bytes) : option TableUuid :=
  generate_uuid (dec_bytes block_number ++ namespace ++ name).

Definition generate_namespace_uuid (block_number : Z) (namespace : bytes) : option TableUuid :=
  generate_uuid (dec_bytes block_number ++ namespace).

(** [DispatchError::Other] with its message. *)
Definition generate_column_uuid_list (create_statement : CreateStatement)
    : outcome bytes ColumnUuidList :=
  let? builder := map_err (fun _ => bs "Failed to parse CreateStatement")
    (create_statement_to_sqlparser create_statement) in
  let? uuids := collect (fun col =>
      let value := ident_value (column_def_name col) in
      let? name := ok_or (ByteString_try_from value) (bs "Invalid ByteString") in
      let? uuid := ok_or (TableUuid_try_from value) (bs "Invalid TableUuid") in
      Ok (mkColumnUuid name uuid)) (table_columns builder) in
  ok_or (try_from_bounded MAX_COLS_PER_TABLE uuids) (bs "Too many columns").
End uuid.

(** ** Sorting and removing duplicates by a key *)

Section keyed.
Context {A : Type} (key : A -> bytes).

Notation key_le := (fun a b => bytes_le (key a) (key b)).
Notation key_eq := (fun a b => bool_decide (key a = key b)).

(** The first element with a key. *)
Definition first_with (k : bytes) (l : list A) : option A := List.find (fun x => bool_decide (key x = k)) l.

Lemma first_with_cons k x l :
  first_with k (x :: l) = if decide (key x = k) then Some x else first_with k l.
Proof. unfold first_with. simpl. by rewrite decide_bool_decide. Qed.

Lemma first_with_insert k x l :
  first_with k (sort_insert key_le x l) = first_with k (x :: l).
Proof.
  induction l as [|y l IH]; [done|]. cbn [sort_insert].
  destruct (bytes_le (key x) (key y)) eqn:Hle; [done|].
  rewrite first_with_cons, IH, !first_with_cons. repeat case_decide; try done.
  exfalso. assert (key x = key y) as Heq by congruence. by rewrite Heq, bytes_le_refl in Hle.
Qed.

Lemma first_with_sort k l : first_with k (sort_by key_le l) = first_with k l.
Proof.
  induction l as [|x l IH]; [done|]. unfold sort_by in *. cbn [foldr].
  rewrite first_with_insert, !first_with_cons. by case_decide.
Qed.

Lemma first_with_dedup_from k prev l :
  first_with k (prev :: dedup_from key_eq prev l) = first_with k (prev :: l).
Proof.
  revert prev. induction l as [|x l IH]; intros prev; [done|]. cbn [dedup_from].
  case_bool_decide as Hx.
  - rewrite IH, !first_with_cons. repeat case_decide; congruence.
  - rewrite first_with_cons, (IH x). by rewrite (first_with_cons k prev (x :: l)).
Qed.

Lemma first_with_dedup k l : first_with k (dedup_by key_eq l) = first_with k l.
Proof. destruct l; [done|]. apply first_with_dedup_from. Qed.

Definition keys_sorted (l : list A) : Prop :=
  StronglySorted (fun a b => bytes_le (key a) (key b) = true) l.

Lemma sort_insert_forall (P : A -> Prop) x l :
  P x -> Forall P l -> Forall P (sort_insert key_le x l).
Proof.
  intros Hx Hl. induction Hl as [|y l Hy Hl IH]; [by repeat constructor|]. cbn [sort_insert].
  by destruct (bytes_le (key x) (key y)); repeat constructor.
Qed.

Lemma sort_by_sorted l : keys_sorted (sort_by key_le l).
Proof.
  induction l as [|x l IH]; [constructor|]. unfold sort_by in *. cbn [foldr].
  generalize dependent (foldr (sort_insert key_le) [] l). clear l. intros l Hl.
  induction Hl as [|y l Hl IH Hy]; [by repeat constructor|]. cbn [sort_insert].
  destruct (bytes_le (key x) (key y)) eqn:Hle.
  - constructor; [by constructor|]. constructor; [done|]. eapply Forall_impl; [exact Hy|].
    intros z Hz. by eapply bytes_le_trans.
  - constructor; [done|]. apply sort_insert_forall; [|done].
    destruct (bytes_le_total (key x) (key y)); congruence.
Qed.

(** After the removal of duplicates the keys grow strictly. *)
Lemma dedup_from_nodup prev l :
  keys_sorted (prev :: l) -> NoDup (key <$> prev :: dedup_from key_eq prev l).
Proof.
  revert prev. induction l as [|x l IH]; intros prev Hs.
  { cbn. apply NoDup_singleton. }
  apply StronglySorted_inv in Hs as [Hs Hp]. apply Forall_cons_1 in Hp as [Hpx Hp].
  cbn [dedup_from]. case_bool_decide as Hx.
  - apply IH. apply StronglySorted_inv in Hs as [Hs _]. by constructor.
  - specialize (IH x Hs). rewrite fmap_cons. apply NoDup_cons. split; [|done].
    intros Hin. apply list_elem_of_fmap in Hin as (z & Hz & Hin).
    assert (bytes_le (key x) (key z) = true) as Hxz.
    { apply elem_of_cons in Hin as [->|Hin]; [apply bytes_le_refl|].
      assert (z ∈ l) as Hzl.
      { clear -Hin. revert x Hin. induction l as [|y l IH]; intros x Hin; [done|]. cbn in Hin.
        case_bool_decide; [right; by eapply IH|]. apply elem_of_cons in Hin as [->|Hin]; [left|].
        right. by eapply IH. }
      apply StronglySorted_inv in Hs as [_ Hs]. rewrite Forall_forall in Hs. by apply Hs. }
    apply Hx. apply bytes_le_antisymm; [|done]. by rewrite Hz.
Qed.

Lemma dedup_sort_nodup l : NoDup (key <$> dedup_by key_eq (sort_by key_le l)).
Proof.
  pose proof (sort_by_sorted l) as Hs. destruct (sort_by key_le l) as [|x r]; [constructor|].
  by apply dedup_from_nodup.
Qed.
End keyed.

Lemma first_with_app {A} (key : A -> bytes) k l1 l2 :
  first_with key k (l1 ++ l2) =
  match first_with key k l1 with Some x => Some x | None => first_with key k l2 end.
Proof.
  induction l1 as [|x l1 IH]; [done|]. rewrite <- app_comm_cons, !first_with_cons.
  by case_decide.
Qed.

(** Updating the UUIDs of a statement re-prints the parsed statement with
    other options only: no option name repeats up to case, a name that a column
    entry gives has the entry's value, otherwise [TABLE_UUID] has the new UUID,
    and every other option keeps its value. *)
Theorem update_uuid_options `{UnicodeData} `{SqlParser} uuid column_uuids stmt stmt' :
  update_uuid_in_create_table_statement uuid column_uuids stmt = Ok stmt' ->
  exists table opts,
    parse_create_table stmt = Some table /\
    stmt' = print_create_table (set_with_options opts table) /\
    (length stmt' <= CREATE_STMNT_LENGTH)%nat /\
    NoDup (option_key <$> opts) /\
    forall k, first_with option_key k opts =
      match first_with option_key k (omap uuid_entry column_uuids) with
      | Some entry => Some entry
      | None =>
          if decide (k = TABLE_UUID_OPTION)
          then Some (mkSqlOption (Ident_new TABLE_UUID_OPTION) uuid)
          else first_with option_key k (with_options table)
      end.
Proof.
  unfold update_uuid_in_create_table_statement.
  intros (table & Hparse%map_err_ok & (u & Hu%ok_or_ok & Hprint%map_err_ok)%obind_ok)%obind_ok.
  apply from_utf8_some in Hu as [-> _].
  apply obind_ok in Hparse as (raw & Hraw%ok_or_ok & Hp%ok_or_ok).
  apply from_utf8_some in Hraw as [-> _]. apply ok_or_ok, try_from_bounded_some in Hprint as [-> Hlen].
  exists table. eexists. split_and!; [done|done|done|apply dedup_sort_nodup|].
  intros k. rewrite first_with_dedup, first_with_sort, !first_with_app.
  destruct (first_with option_key k (omap uuid_entry column_uuids)); [done|].
  rewrite first_with_cons.
  assert (option_key (mkSqlOption (Ident_new TABLE_UUID_OPTION) uuid) = TABLE_UUID_OPTION) as ->
    by (change (to_uppercase TABLE_UUID_OPTION = TABLE_UUID_OPTION); by rewrite to_uppercase_ascii).
  destruct (decide (k = TABLE_UUID_OPTION)) as [->|Hk].
  - by rewrite decide_True by done.
  - by rewrite decide_False by done.
Qed.

(** ** Generated UUIDs *)

Definition is_hex_upper (b : byte) : bool := is_ascii_digit b || in_range 65 70 b.

Lemma hex_digit_upper_spec n : 0 <= n < 16 -> is_hex_upper (hex_digit_upper n) = true.
Proof.
  intros Hn. assert (Z.of_nat (Z.to_nat n) = n) as <- by lia.
  assert (Z.to_nat n < 16)%nat as Hl by lia. revert Hl. generalize (Z.to_nat n).
  intros m Hl. do 16 (destruct m as [|m]; [done|]). lia.
Qed.

Lemma hex_upper_digits n z : Forall (fun b => is_hex_upper b = true) (hex_upper n z).
Proof.
  revert z; induction n as [|n IH]; intros z; [constructor|]. cbn [hex_upper].
  apply Forall_app. split; [done|]. constructor; [|done].
  apply hex_digit_upper_spec, Z.mod_pos_bound. lia.
Qed.

Lemma hex_upper_head n z :
  head (hex_upper (S n) z) = Some (hex_digit_upper (z / 16 ^ Z.of_nat n mod 16)).
Proof.
  revert z; induction n as [|n IH]; intros z.
  { cbn. by rewrite Z.div_1_r. }
  change (hex_upper (S (S n)) z) with (hex_upper (S n) (z / 16) ++ [hex_digit_upper (z mod 16)]).
  assert (forall l r : bytes, l <> [] -> head (l ++ r) = head l) as Hhead by (by intros []).
  rewrite Hhead by (intros Hn; apply (f_equal length) in Hn; by rewrite hex_upper_length in Hn).
  rewrite IH. f_equal. f_equal. f_equal. rewrite Z.div_div by lia. f_equal.
  rewrite <- Z.pow_succ_r by lia. f_equal. lia.
Qed.

(** The four leading bits of the first word are 11xx. *)
Lemma uuid_leading_digit w :
  0 <= w < 2 ^ 64 -> 12 <= Z.lor (Z.shiftl 12 60) w / 16 ^ Z.of_nat 15 mod 16 < 16.
Proof.
  intros Hw. change (16 ^ Z.of_nat 15) with (2 ^ 60). rewrite <- Z.shiftr_div_pow2 by lia.
  rewrite Z.shiftr_lor, Z.shiftr_shiftl_l, Z.shiftr_div_pow2 by lia. cbn [Z.sub].
  assert (0 <= w / 2 ^ 60 < 16) as Hd by
    (split; [apply Z.div_pos; lia|apply Z.div_lt_upper_bound; lia]).
  generalize dependent (w / 2 ^ 60). intros d Hd.
  assert (d = 0 \/ d = 1 \/ d = 2 \/ d = 3 \/ d = 4 \/ d = 5 \/ d = 6 \/ d = 7 \/ d = 8 \/ d = 9
    \/ d = 10 \/ d = 11 \/ d = 12 \/ d = 13 \/ d = 14 \/ d = 15) as Hc by lia.
  by repeat destruct Hc as [->|Hc]; subst.
Qed.

Lemma hex_digit_upper_letter d :
  12 <= d < 16 -> hex_digit_upper d ∈ bs "CDEF" /\ is_ascii_digit (hex_digit_upper d) = false.
Proof.
  intros Hd. assert (d = 12 \/ d = 13 \/ d = 14 \/ d = 15) as Hc by lia.
  repeat destruct Hc as [->|Hc]; subst; (split; [|done]); apply (bool_decide_unpack _); done.
Qed.

(** A generated UUID always exists and is 32 upper-case hex characters that
    begin with a letter from C to F; the replacement of a leading digit never
    applies. *)
Theorem generate_uuid_form `{UuidRngLaws} source :
  exists c rest, generate_uuid source = Some (c :: rest) /\
    c ∈ bs "CDEF" /\ length rest = 31%nat /\ Forall (fun b => is_hex_upper b = true) rest.
Proof.
  unfold generate_uuid. pose proof (chacha20_u64 (blake2_256 source)) as [Hw _].
  destruct (chacha20_words (blake2_256 source)) as [w1 w2]. cbn [fst] in Hw.
  pose proof (hex_digit_upper_letter _ (uuid_leading_digit w1 Hw)) as [Hin Hdigit].
  set (part1 := Z.lor (Z.shiftl 12 60) w1) in *.
  pose proof (hex_upper_head 15 part1) as Hh.
  pose proof (hex_upper_length 16 part1) as Hl. pose proof (hex_upper_digits 16 part1) as Hx.
  destruct (hex_upper 16 part1) as [|c r]; [done|]. cbn [head] in Hh. injection Hh as ->.
  apply Forall_cons_1 in Hx as [_ Hx]. simpl in Hl. rewrite <- app_comm_cons, Hdigit.
  pose proof (hex_upper_length 16 w2) as Hl2.
  assert (length (r ++ hex_upper 16 w2) = 31%nat) as Hlen by (rewrite length_app; lia).
  rewrite take_ge by (cbn [length]; lia). eexists _, _. split_and!; [|exact Hin|exact Hlen|].
  - apply try_from_bounded_some. split; [done|]. cbn [length]. rewrite Hlen.
    unfold IDENT_LENGTH. lia.
  - apply Forall_app. split; [done|]. apply hex_upper_digits.
Qed.

(** ** Examples *)

Definition plain_rng : UuidRng := {|
  blake2_256 b := b;
  chacha20_words seed := (le_val (take 8 seed), le_val (take 8 (drop 8 seed)));
|}.

Lemma plain_rng_laws : @UuidRngLaws plain_rng.
Proof.
  split. intros seed. simpl.
  assert (forall l : bytes, 0 <= le_val (take 8 l) < 2 ^ 64) as Hl; [|by split; apply Hl].
  intros l. pose proof (le_val_range (take 8 l)) as Hr. rewrite length_take in Hr.
  split; [lia|]. eapply Z.lt_le_trans; [apply Hr|].
  change (2 ^ 64) with (256 ^ 8). apply Z.pow_le_mono_r; lia.
Qed.

Lemma generate_uuid_form_witness :
  exists c rest, @generate_uuid plain_rng (bs "7ETHEREUMBLOCKS") = Some (c :: rest) /\
    c ∈ bs "CDEF" /\ length rest = 31%nat /\ Forall (fun b => is_hex_upper b = true) rest.
Proof. apply (@generate_uuid_form plain_rng plain_rng_laws). Defined.

(** The last occurrence of WITH is searched for as text: an option or a column
    that contains these letters is taken for the clause. *)
Example strip_with_clause_inside_option :
  strip_with_clause
    (bs "CREATE TABLE E.W (WITHDRAWAL BIGINT NOT NULL) WITH (TABLE_UUID = X, WITHDRAWAL = WITHDRAWAL)")
  = (bs "CREATE TABLE E.W (WITHDRAWAL BIGINT NOT NULL) WITH (TABLE_UUID = X, WITHDRAWAL =",
     Some (bs "WITHDRAWAL)")).
Proof. vm_compute. reflexivity. Qed.

(** An option named [column_uuid] matches both patterns and makes the slice
    panic. *)
Example column_uuid_option_panics : @extract_column_name unit (bs "column_uuid") = Panic.
Proof. vm_compute. reflexivity. Qed.

(** A parser and a printer for statements with BIGINT columns only. *)
Definition mini_column (name : bytes) : ColumnDef :=
  mkColumnDef (Ident_new name) (DtBigInt None) None [mkColumnOptionDef None NotNull].

Definition join (sep : bytes) (l : list bytes) : bytes :=
  match l with
  | [] => []
  | x :: r => x ++ concat ((fun y => sep ++ y) <$> r)
  end.

(** What stands between an opening text and a closing parenthesis. *)
Definition between (opening : bytes) (s : bytes) : option (bytes * bytes) :=
  if str_starts_with s opening then
    let s := drop (length opening) s in
    i ← str_find s (bs ")"); Some (take i s, drop (S i) s)
  else None.

Definition mini_parse (s : bytes) : option CreateTableBuilder :=
  if str_starts_with s (bs "CREATE TABLE ") then
    let s := drop 13 s in
    i ← str_find s (bs " (");
    '(cols, rest) ← between (bs " (") (drop i s);
    let opts :=
      match between (bs " WITH (") rest with
      | Some (opts, _) => str_split ","%byte opts
      | None => []
      end in
    Some (mkCreateTable (Ident_new <$> str_split "."%byte (take i s))
      (mini_column <$> str_split ","%byte cols)
      ((fun o => let '(k, v) := str_splitn2 "="%byte o in
                 mkSqlOption (Ident_new k) (default [] v)) <$> opts) [])
  else None.

Definition mini_print (t : CreateTableBuilder) : bytes :=
  bs "CREATE TABLE " ++ join (bs ".") (ident_value <$> table_name t) ++ bs " (" ++
  join (bs ",") ((fun c => ident_value (column_def_name c)) <$> table_columns t) ++ bs ")" ++
  match with_options t with
  | [] => []
  | opts => bs " WITH (" ++
      join (bs ",") ((fun o => ident_value (sql_option_name o) ++ bs "=" ++ sql_option_value o) <$> opts)
      ++ bs ")"
  end.

Definition mini_sql : SqlParser := {|
  parse_create_table := mini_parse;
  print_create_table := mini_print;
|}.

Definition mini_statement : bytes := bs "CREATE TABLE ETHEREUM.BLOCKS (BLOCK_NUMBER,SIZE) WITH (public_key=7,table_uuid=OLD)".

Definition mini_updated : outcome UpdateUuidError CreateStatement :=
  @update_uuid_in_create_table_statement ascii_unicode mini_sql (bs "NEW")
    [mkColumnUuid (bs "SIZE") (bs "SIZE")] mini_statement.

Lemma update_uuid_options_witness :
  mini_updated = Ok (bs "CREATE TABLE ETHEREUM.BLOCKS (BLOCK_NUMBER,SIZE) WITH (public_key=7,SIZE=SIZE,TABLE_UUID=NEW)") /\
  exists opts, NoDup (@option_key ascii_unicode <$> opts) /\
    sql_option_value <$> first_with (@option_key ascii_unicode) TABLE_UUID_OPTION opts = Some (bs "NEW").
Proof.
  assert (exists s, mini_updated = Ok s) as [s Hs] by (eexists; vm_compute; reflexivity).
  destruct (@update_uuid_options ascii_unicode mini_sql _ _ _ _ Hs)
    as (table & opts & _ & _ & _ & Hnd & Hfirst).
  split; [vm_compute; reflexivity|]. exists opts. split; [exact Hnd|]. rewrite Hfirst.
  vm_compute. reflexivity.
Defined.

(** The column entries that the update writes are not read back as column
    UUIDs, which are looked for under other names. *)
Example column_uuids_not_read_back :
  match mini_updated with
  | Ok s => @uuids_from_create_statement ascii_unicode mini_sql unit s = Ok (Some (bs "NEW", []))
  | _ => False
  end.
Proof. vm_compute. reflexivity. Qed.
