(* ===== verification/ProofOfSql.v ===== *)
(** * The proof-of-sql library

    Table commitments of each scheme and the operations on them that the code
    calls.  What is committed to is a list of committable columns starting at a
    row offset; the laws say, as the library documents, when an operation
    succeeds and that appending and adding commitments commits to the appended
    data. *)

From stdpp Require Import base tactics list option.
From Stdlib Require Import ZArith Lia.
From S2P Require Import Prelude Bytes CommitmentScheme OnChainTable.

(** [AppendTableCommitmentError] with its nested causes. *)
Inductive AppendTableCommitmentError :=
| AppendMismatch
| AppendDuplicateIdents
| AppendMixedLengthColumns.

(** [TableCommitmentArithmeticError]. *)
Inductive TableCommitmentArithmeticError :=
| ArithmeticColumnMismatch
| ArithmeticNegativeRange
| ArithmeticNonContiguous.

Notation committable_table := (list (Ident * CommittableColumn)) (only parsing).

Definition committable_len (c : CommittableColumn) : nat :=
  match c with
  | CcBoolean l => length l
  | CcUint8 l | CcTinyInt l | CcSmallInt l | CcInt l | CcBigInt l | CcInt128 l
  | CcVarChar l | CcDecimal75 _ _ l | CcTimestampTZ _ _ l | CcVarBinary l => length l
  end.

Class ProofOfSql := {
  commitment_scalar : CommitmentScheme -> Scalar;
  PublicSetup : GenericOverCommitment;
  TableCommitment : GenericOverCommitment;
  (** The identifiers of [column_commitments().column_metadata()]. *)
  commitment_columns : forall C, TableCommitment C -> list Ident;
  (** [range().end]. *)
  range_end : forall C, TableCommitment C -> Z;
  (** [TableCommitment::try_from_columns_with_offset]. *)
  try_from_columns_with_offset :
    forall C, committable_table -> Z -> PublicSetup C -> option (TableCommitment C);
  try_append_rows :
    forall C, TableCommitment C -> committable_table -> PublicSetup C ->
    outcome AppendTableCommitmentError (TableCommitment C);
  try_add :
    forall C, TableCommitment C -> TableCommitment C ->
    outcome TableCommitmentArithmeticError (TableCommitment C);
  (** bincode with the legacy, fixed-width, big-endian configuration. *)
  bincode_encode : forall C, TableCommitment C -> option bytes;
  bincode_decode : forall C, bytes -> option (TableCommitment C);
}.

Arguments commitment_columns {_} C _.
Arguments range_end {_} C _.
Arguments try_from_columns_with_offset {_} C _ _ _.
Arguments try_append_rows {_} C _ _ _.
Arguments try_add {_} C _ _.
Arguments bincode_encode {_} C _.
Arguments bincode_decode {_} C _.

(** Columns of one length, at distinct identifiers. *)
Definition columns_wf (cols : committable_table) : Prop :=
  NoDup (fst <$> cols) /\ exists n, Forall (fun p => committable_len p.2 = n) cols.

(** The rows of a table with at least one column. *)
Definition rows_of (cols : committable_table) : Z :=
  match cols with
  | [] => 0
  | (_, c) :: _ => Z.of_nat (committable_len c)
  end.

(** Appending the rows of one column to another of the same type. *)
Definition append_column (c1 c2 : CommittableColumn) : option CommittableColumn :=
  match c1, c2 with
  | CcBoolean l1, CcBoolean l2 => Some (CcBoolean (l1 ++ l2))
  | CcUint8 l1, CcUint8 l2 => Some (CcUint8 (l1 ++ l2))
  | CcTinyInt l1, CcTinyInt l2 => Some (CcTinyInt (l1 ++ l2))
  | CcSmallInt l1, CcSmallInt l2 => Some (CcSmallInt (l1 ++ l2))
  | CcInt l1, CcInt l2 => Some (CcInt (l1 ++ l2))
  | CcBigInt l1, CcBigInt l2 => Some (CcBigInt (l1 ++ l2))
  | CcInt128 l1, CcInt128 l2 => Some (CcInt128 (l1 ++ l2))
  | CcVarChar l1, CcVarChar l2 => Some (CcVarChar (l1 ++ l2))
  | CcDecimal75 p1 s1 l1, CcDecimal75 p2 s2 l2 =>
      if bool_decide (p1 = p2 /\ s1 = s2) then Some (CcDecimal75 p1 s1 (l1 ++ l2)) else None
  | CcTimestampTZ u1 z1 l1, CcTimestampTZ u2 z2 l2 =>
      if bool_decide (u1 = u2 /\ z1 = z2) then Some (CcTimestampTZ u1 z1 (l1 ++ l2)) else None
  | CcVarBinary l1, CcVarBinary l2 => Some (CcVarBinary (l1 ++ l2))
  | _, _ => None
  end.

(** Appending a table to another with the same columns in the same order. *)
Fixpoint append_tables (t1 t2 : committable_table) : option committable_table :=
  match t1, t2 with
  | [], [] => Some []
  | (i1, c1) :: t1, (i2, c2) :: t2 =>
      if bool_decide (i1 = i2) then
        c ← append_column c1 c2; t ← append_tables t1 t2; Some ((i1, c) :: t)
      else None
  | _, _ => None
  end.

(** The commitment of a scheme to some columns from row 0 on. *)
Definition commits_to `{ProofOfSql} (C : CommitmentScheme) (setup : PublicSetup C)
    (c : TableCommitment C) (cols : committable_table) : Prop :=
  columns_wf cols /\ try_from_columns_with_offset C cols 0 setup = Some c.

Class ProofOfSqlLaws `{ProofOfSql} := {
  (** Committing to columns of one length at distinct identifiers succeeds. *)
  from_columns_total C cols o setup :
    columns_wf cols -> is_Some (try_from_columns_with_offset C cols o setup);
  from_columns_order C cols o setup c :
    try_from_columns_with_offset C cols o setup = Some c -> commitment_columns C c = fst <$> cols;
  from_columns_range C cols o setup c :
    try_from_columns_with_offset C cols o setup = Some c -> range_end C c = o + rows_of cols;
  (** Appending fails for columns of mixed lengths, for duplicate identifiers
      and for columns that do not match, and otherwise commits to the appended
      data. *)
  append_no_panic C c cols setup : try_append_rows C c cols setup <> Panic;
  append_wf C c cols setup e :
    columns_wf cols -> try_append_rows C c cols setup = Err e -> e = AppendMismatch;
  append_commits C c cols setup c' rows :
    commits_to C setup c cols -> columns_wf rows ->
    try_append_rows C c rows setup = Ok c' ->
    exists cols', append_tables cols rows = Some cols' /\ commits_to C setup c' cols';
  append_matching C c cols setup rows cols' :
    commits_to C setup c cols -> columns_wf rows -> append_tables cols rows = Some cols' ->
    is_ok (try_append_rows C c rows setup) = true;
  add_no_panic C c1 c2 : try_add C c1 c2 <> Panic;
  (** Adding a commitment to the empty columns gives the other one. *)
  add_empty C cols setup c1 c2 c :
    try_from_columns_with_offset C cols 0 setup = Some c1 -> rows_of cols = 0 ->
    try_add C c1 c2 = Ok c -> c = c2 /\ commitment_columns C c2 = fst <$> cols;
  bincode_round_trip C c b : bincode_encode C c = Some b -> bincode_decode C b = Some c;
}.
