(* ===== verification/PlainCommitment.v ===== *)
(** * A transparent commitment scheme

    An instance of the proof-of-sql interface in which a commitment carries the
    columns it commits to and the row they start at.  It satisfies every law of
    [ProofOfSqlLaws], and the examples of the development run on it. *)

From stdpp Require Import base tactics countable option list.
From Stdlib Require Import ZArith Lia.
From S2P Require Import Prelude Bytes CommitmentScheme OnChainTable ProofOfSql.

#[global] Instance CommittableColumn_eq_dec : EqDecision CommittableColumn.
Proof. solve_decision. Defined.

#[global] Instance PoSQLTimeUnit_countable : Countable PoSQLTimeUnit.
Proof.
  refine (inj_countable'
    (fun u => match u with Second => 0 | Millisecond => 1 | Microsecond => 2 | Nanosecond => 3 end)
    (fun z => if decide (z = 0) then Second else if decide (z = 1) then Millisecond
              else if decide (z = 2) then Microsecond else Nanosecond) _).
  by intros [].
Defined.

#[global] Instance Ident_countable : Countable Ident.
Proof.
  refine (inj_countable' (fun i => (ident_value i, quote_style i)) (fun p => mkIdent p.1 p.2) _).
  by intros [].
Defined.

Definition column_code (c : CommittableColumn) : Z * PoSQLTimeUnit * Z * Z * list bool * list Z :=
  match c with
  | CcBoolean l => (0, Second, 0, 0, l, [])
  | CcUint8 l => (1, Second, 0, 0, [], l)
  | CcTinyInt l => (2, Second, 0, 0, [], l)
  | CcSmallInt l => (3, Second, 0, 0, [], l)
  | CcInt l => (4, Second, 0, 0, [], l)
  | CcBigInt l => (5, Second, 0, 0, [], l)
  | CcInt128 l => (6, Second, 0, 0, [], l)
  | CcVarChar l => (7, Second, 0, 0, [], l)
  | CcDecimal75 p s l => (8, Second, p, s, [], l)
  | CcTimestampTZ u z l => (9, u, z, 0, [], l)
  | CcVarBinary l => (10, Second, 0, 0, [], l)
  end.

Definition column_of_code (p : Z * PoSQLTimeUnit * Z * Z * list bool * list Z) : CommittableColumn :=
  let '(k, u, a, b, bools, l) := p in
  match k with
  | 0 => CcBoolean bools
  | 1 => CcUint8 l
  | 2 => CcTinyInt l
  | 3 => CcSmallInt l
  | 4 => CcInt l
  | 5 => CcBigInt l
  | 6 => CcInt128 l
  | 7 => CcVarChar l
  | 8 => CcDecimal75 a b l
  | 9 => CcTimestampTZ u a l
  | _ => CcVarBinary l
  end.

#[global] Instance CommittableColumn_countable : Countable CommittableColumn.
Proof. refine (inj_countable' column_code column_of_code _). by intros []. Defined.

(** ** Appending columns *)

Lemma append_column_len c1 c2 c :
  append_column c1 c2 = Some c -> committable_len c = (committable_len c1 + committable_len c2)%nat.
Proof.
  destruct c1, c2; simpl; intros; try done; repeat case_bool_decide; simplify_eq/=;
    apply length_app.
Qed.

Lemma append_column_empty c1 c2 c :
  committable_len c1 = 0%nat -> append_column c1 c2 = Some c -> c = c2.
Proof.
  destruct c1, c2; simpl; intros Hl%nil_length_inv ?; subst; try done;
    repeat case_bool_decide; naive_solver.
Qed.

Lemma append_tables_fst t1 t2 t : append_tables t1 t2 = Some t -> t.*1 = t1.*1.
Proof.
  revert t2 t. induction t1 as [|[i1 c1] t1 IH]; intros [|[i2 c2] t2] t Ht; simplify_eq/=; [done|].
  case_bool_decide; [|done]. simplify_option_eq. f_equal. by eapply IH.
Qed.

Lemma append_tables_len n1 n2 t1 t2 t :
  Forall (fun p => committable_len p.2 = n1) t1 -> Forall (fun p => committable_len p.2 = n2) t2 ->
  append_tables t1 t2 = Some t -> Forall (fun p => committable_len p.2 = (n1 + n2)%nat) t.
Proof.
  intros H1. revert t2 t. induction H1 as [|[i1 c1] t1 Hc1 H1 IH]; intros [|[i2 c2] t2] t H2 Ht;
    simplify_eq/=; [done|].
  case_bool_decide; [|done]. apply Forall_cons_1 in H2 as [Hc2 H2]. simplify_option_eq.
  constructor; [|by eapply IH]. by apply append_column_len.
Qed.

Lemma append_tables_wf t1 t2 t :
  columns_wf t1 -> columns_wf t2 -> append_tables t1 t2 = Some t -> columns_wf t.
Proof.
  intros [Hnd1 [n1 H1]] [_ [n2 H2]] Ht. split; [by rewrite (append_tables_fst _ _ _ Ht)|].
  exists (n1 + n2)%nat. by eapply append_tables_len.
Qed.

Lemma append_tables_empty t1 t2 t :
  Forall (fun p => committable_len p.2 = 0%nat) t1 -> append_tables t1 t2 = Some t -> t = t2.
Proof.
  intros H1. revert t2 t. induction H1 as [|[i1 c1] t1 Hc1 H1 IH]; intros [|[i2 c2] t2] t Ht;
    simplify_eq/=; [done|].
  case_bool_decide; [|done]. simplify_option_eq.
  f_equal; [f_equal; by eapply append_column_empty|by eapply IH].
Qed.

(** ** The instance *)

Definition columns_wfb (cols : committable_table) : bool :=
  bool_decide (NoDup (fst <$> cols)) &&
  forallb (fun p => Z.of_nat (committable_len p.2) =? rows_of cols) cols.

Lemma columns_wfb_spec cols : columns_wfb cols = true <-> columns_wf cols.
Proof.
  unfold columns_wfb, columns_wf. rewrite andb_true_iff, bool_decide_eq_true, forallb_forall.
  split; intros [Hnd Hl]; (split; [done|]).
  - exists (Z.to_nat (rows_of cols)). apply Forall_forall. intros p Hp%list_elem_of_In.
    apply Hl, Z.eqb_eq in Hp. lia.
  - destruct Hl as [n Hl]. intros p Hp%list_elem_of_In. rewrite Forall_forall in Hl.
    apply Z.eqb_eq. destruct cols as [|[i c] cols]; [by apply not_elem_of_nil in Hp|].
    simpl. rewrite (Hl p Hp). specialize (Hl (i, c) ltac:(left)). simpl in Hl. lia.
Qed.

Definition plain_commitment : Type := list (Ident * CommittableColumn) * Z.

Definition plain_from (cols : committable_table) (offset : Z) : option plain_commitment :=
  if columns_wfb cols then Some (cols, offset) else None.

Definition plain_append (c : plain_commitment) (rows : committable_table)
    : outcome AppendTableCommitmentError plain_commitment :=
  if bool_decide (NoDup (fst <$> rows)) then
    if columns_wfb rows then
      match append_tables c.1 rows with
      | Some cols => Ok (cols, c.2)
      | None => Err AppendMismatch
      end
    else Err AppendMixedLengthColumns
  else Err AppendDuplicateIdents.

Definition plain_add (c1 c2 : plain_commitment)
    : outcome TableCommitmentArithmeticError plain_commitment :=
  match append_tables c1.1 c2.1 with
  | Some cols =>
      if c1.2 + rows_of c1.1 =? c2.2 then Ok (cols, c1.2) else Err ArithmeticNonContiguous
  | None => Err ArithmeticColumnMismatch
  end.

(** The bits of a code, one byte each. *)
Fixpoint positive_bytes (p : positive) : bytes :=
  match p with
  | xH => []
  | xO p => byte_of 0 :: positive_bytes p
  | xI p => byte_of 1 :: positive_bytes p
  end.

Definition bytes_positive (b : bytes) : positive :=
  foldr (fun x p => if decide (x = byte_of 0) then xO p else xI p) xH b.

Lemma bytes_positive_of p : bytes_positive (positive_bytes p) = p.
Proof. induction p; simpl; congruence. Qed.

#[local] Instance plain_proof_of_sql : ProofOfSql := {
  commitment_scalar _ := bn254_scalar;
  PublicSetup _ := unit;
  TableCommitment _ := plain_commitment;
  commitment_columns _ c := c.1.*1;
  range_end _ c := c.2 + rows_of c.1;
  try_from_columns_with_offset _ cols offset _ := plain_from cols offset;
  try_append_rows _ c rows _ := plain_append c rows;
  try_add _ c1 c2 := plain_add c1 c2;
  bincode_encode _ c := Some (positive_bytes (encode c));
  bincode_decode _ b := decode (bytes_positive b);
}.

#[local] Instance plain_laws : ProofOfSqlLaws.
Proof.
  split; simpl.
  - intros C cols o [] Hwf%columns_wfb_spec. unfold plain_from. rewrite Hwf. by eexists.
  - intros C cols o [] c. unfold plain_from. by case_match; intros [= <-].
  - intros C cols o [] c. unfold plain_from. by case_match; intros [= <-].
  - intros C c cols []. unfold plain_append. by repeat case_match.
  - intros C c cols [] e Hwf. unfold plain_append.
    rewrite bool_decide_true by apply Hwf. apply columns_wfb_spec in Hwf as ->. by case_match; intros [= <-].
  - intros C c cols [] c' rows [Hwf Hc] Hr. unfold plain_append.
    rewrite bool_decide_true by apply Hr. rewrite (proj2 (columns_wfb_spec rows) Hr).
    simpl in Hc. unfold plain_from in Hc. case_match; [|done]. simplify_eq/=.
    destruct (append_tables cols rows) as [cols'|] eqn:Ha; intros [= <-]. exists cols'. split; [done|].
    pose proof (append_tables_wf _ _ _ Hwf Hr Ha) as Hwf'. split; [done|]. simpl.
    unfold plain_from. by rewrite (proj2 (columns_wfb_spec cols') Hwf').
  - intros C c cols [] rows cols' [Hwf Hc] Hr Ha. unfold plain_append.
    rewrite bool_decide_true by apply Hr. rewrite (proj2 (columns_wfb_spec rows) Hr).
    simpl in Hc. unfold plain_from in Hc. case_match; [|done]. simplify_eq/=. by rewrite Ha.
  - intros C c1 c2. unfold plain_add. by repeat case_match.
  - intros C cols [] c1 [cols2 o2] c. unfold plain_from, plain_add.
    destruct (columns_wfb cols) eqn:Hwf; [|done]. intros [= <-] H0. cbn [fst snd].
    destruct (append_tables cols cols2) as [cols'|] eqn:Ha; [|done].
    rewrite H0. destruct (Z.eqb_spec (0 + 0) o2) as [Ho|]; [|done]. subst o2. intros [= <-].
    pose proof (append_tables_fst _ _ _ Ha) as Hk.
    apply columns_wfb_spec in Hwf as [_ [n Hn]].
    assert (cols' = cols2) as ->; [|by rewrite Hk].
    eapply append_tables_empty; [|exact Ha]. destruct cols as [|[i c] cols]; [constructor|].
    assert (n = 0%nat) as ->; [|done].
    apply Forall_cons_1 in Hn as [Hn _]. simpl in *. lia.
  - intros C c b [= <-]. rewrite bytes_positive_of. apply decode_encode.
Qed.
