(* ===== verification/CommitmentSql.v ===== *)
(** * proof-of-sql/commitment-sql

    Validation of table definitions, initial commitments of new tables, and the
    processing of inserts: the insert is put into the column order of the
    commitments, appended to the commitment of every scheme, and gets a row
    number column that continues where the commitments end. *)

From stdpp Require Import base tactics option strings numbers list.
From Stdlib Require Import ZArith Lia.
From Stdlib Require Import Strings.Byte.
From S2P Require Import Prelude Bytes Types CommitmentScheme IndexMap OnChainTable SqlAst ProofOfSql PlainCommitment.

(** ** column_options.rs *)

Inductive InvalidColumnOptions :=
| RequiredOption (option : ColumnOption)
| UnsupportedOption (option : ColumnOption).

Definition REQUIRED_OPTIONS : list ColumnOption := [NotNull].

Definition column_option_is_supported (option : ColumnOption) : bool :=
  match option with
  | NotNull | Comment _ => true
  | _ => false
  end.

Definition options_contain_required_option (required_option : ColumnOption)
    (options : list ColumnOption) : bool :=
  existsb (fun option => bool_decide (option = required_option)) options.

Definition validate_column_options (options : list ColumnOption)
    : outcome InvalidColumnOptions unit :=
  match List.find (fun r => negb (options_contain_required_option r options)) REQUIRED_OPTIONS with
  | Some missing_required_option => Err (RequiredOption missing_required_option)
  | None =>
      match List.find (fun o => negb (column_option_is_supported o)) options with
      | Some unsupported_option => Err (UnsupportedOption unsupported_option)
      | None => Ok tt
      end
  end.

(** ** column_type_conversion.rs *)

Inductive UnsupportedColumnType :=
| UnconstrainedDecimal
| DecimalPrecision (precision : Z)
| DecimalScale (scale : Z)
| DataTypeParameter (data_type : DataType)
| DataTypeUnsupported (data_type : DataType).

Definition u8_try_from (z : Z) : option Z := if (0 <=? z) && (z <=? 255) then Some z else None.
Definition i8_try_from (z : Z) : option Z := if (-128 <=? z) && (z <=? 127) then Some z else None.

Definition sqlparser_number_info_to_proof_of_sql_precision_and_scale (number_info : ExactNumberInfo)
    : outcome UnsupportedColumnType (Precision * Z) :=
  let? (precision, scale) :=
    match number_info with
    | NumberInfoNone => Err UnconstrainedDecimal
    | NumberInfoPrecision p => Ok (p, 0)
    | NumberInfoPrecisionAndScale p s => Ok (p, s)
    end in
  let? p := ok_or (u8_try_from precision) (DecimalPrecision precision) in
  let? p := ok_or (Precision_new p) (DecimalPrecision precision) in
  let? s := ok_or (i8_try_from scale) (DecimalScale scale) in
  Ok (p, s).

Definition sqlparser_data_type_to_proof_of_sql_column_type (sqlparser_type : DataType)
    : outcome UnsupportedColumnType ColumnType :=
  match sqlparser_type with
  | DtBoolean => Ok CtBoolean
  | DtTinyInt None => Ok CtTinyInt
  | DtSmallInt None => Ok CtSmallInt
  | DtInt None | DtInteger None => Ok CtInt
  | DtBigInt None => Ok CtBigInt
  | DtVarchar None => Ok CtVarChar
  | DtDecimal number_info =>
      let? (precision, scale) :=
        sqlparser_number_info_to_proof_of_sql_precision_and_scale number_info in
      Ok (CtDecimal75 precision scale)
  | DtTimestamp None TzNone => Ok (CtTimestampTZ Millisecond PoSQLTimeZone_utc)
  | DtBinary None => Ok CtVarBinary
  | DtTinyInt _ | DtSmallInt _ | DtInt _ | DtInteger _ | DtBigInt _ | DtVarchar _ | DtBinary _
  | DtTimestamp _ _ => Err (DataTypeParameter sqlparser_type)
  | _ => Err (DataTypeUnsupported sqlparser_type)
  end.

(** ** metadata_prefix.rs *)

Definition METADATA_PREFIX : bytes := bs "META".

Inductive ReservedMetadataPrefix : Set := mkReservedMetadataPrefix.

Definition starts_with (s prefix : bytes) : bool :=
  bool_decide (take (length prefix) s = prefix).

Definition validate_idents_avoid_prefix (columns : list Ident)
    : outcome ReservedMetadataPrefix unit :=
  if forallb (fun ident =>
       negb (starts_with (ascii_upper <$> ident_value ident) METADATA_PREFIX)) columns
  then Ok tt else Err mkReservedMetadataPrefix.

Definition validate_table_avoids_prefix (table : CreateTableBuilder)
    : outcome ReservedMetadataPrefix unit :=
  let? _ := validate_idents_avoid_prefix (table_name table) in
  validate_idents_avoid_prefix (column_def_name <$> table_columns table).

(** ** validated_create_table.rs *)

Inductive InvalidCreateTable :=
| InvalidNoColumns
| InvalidUnsupportedColumnType (source : UnsupportedColumnType)
| NumTableIdentifiers (num_identifiers : nat)
| DuplicateIdentifiers
| InvalidReservedMetadataPrefix (source : ReservedMetadataPrefix)
| InvalidColumnOptionsE (source : InvalidColumnOptions).

(** [TableRef::from_idents]: the schema and the table. *)
Record ValidatedCreateTable := mkValidatedCreateTable {
  validated_table : CreateTableBuilder;
  proof_of_sql_table_identifier : Ident * Ident;
  proof_of_sql_schema : list (Ident * ColumnType);
}.

Definition validate (table : CreateTableBuilder) : outcome InvalidCreateTable ValidatedCreateTable :=
  let? _ := map_err InvalidReservedMetadataPrefix (validate_table_avoids_prefix table) in
  let? _ := map_err InvalidColumnOptionsE (collect (fun c =>
      validate_column_options (column_option <$> column_options c)) (table_columns table)) in
  match table_name table with
  | [schema_id; table_id] =>
      let? columns := collect (fun c =>
          let? column_type := map_err InvalidUnsupportedColumnType
            (sqlparser_data_type_to_proof_of_sql_column_type (column_data_type c)) in
          Ok (column_def_name c, column_type)) (table_columns table) in
      let proof_of_sql_schema := imap_from_iter columns in
      if (length proof_of_sql_schema =? 0)%nat then Err InvalidNoColumns
      else if (length proof_of_sql_schema <? length (table_columns table))%nat
      then Err DuplicateIdentifiers
      else Ok (mkValidatedCreateTable table (schema_id, table_id) proof_of_sql_schema)
  | idents => Err (NumTableIdentifiers (length idents))
  end.

(** [impl From<ValidatedCreateTable> for OnChainTable]. *)
Definition into_empty_table `{UnicodeData} {E} (self : ValidatedCreateTable)
    : outcome E OnChainTable :=
  let? columns := collect (fun '(identifier, column_type) =>
      let? column := empty_with_type column_type in Ok (identifier, column))
    (proof_of_sql_schema self) in
  unwrap (try_from_iter columns).

(** ** row_number_column.rs *)

Definition ROW_NUMBER_COLUMN_NAME : bytes := METADATA_PREFIX ++ bs "_ROW_NUMBER".

Definition row_number_column_def : ColumnDef :=
  mkColumnDef (Ident_new ROW_NUMBER_COLUMN_NAME) (DtBigInt None) None
    [mkColumnOptionDef None NotNull].

Definition create_table_with_row_number_column (table : CreateTableBuilder) : CreateTableBuilder :=
  set_table_columns (table_columns table ++ [row_number_column_def]) table.

(** [z as i64]. *)
Definition as_i64 (z : Z) : Z := (z + 2 ^ 63) mod 2 ^ 64 - 2 ^ 63.

(** The range of [i64]s from [lo] (included) to [hi] (excluded). *)
Definition i64_range (lo hi : Z) : list Z := seqZ lo (hi - lo).

Definition on_chain_table_with_row_number_column `{UnicodeData} {E} (table : OnChainTable)
    (row_number_offset : Z) : outcome E OnChainTable :=
  let? rows := num_rows table in
  let start := as_i64 row_number_offset in
  let row_number_column := BigInt (i64_range start (as_i64 (start + Z.of_nat rows))) in
  unwrap (try_from_iter (table ++ [(Ident_new ROW_NUMBER_COLUMN_NAME, row_number_column)])).

(** ** create_table.rs *)

Record CreateTableAndCommitmentMetadata := mkCreateTableMetadata {
  table_with_meta_columns : CreateTableBuilder;
  meta_tables : list CreateTableBuilder;
  meta_table_inserts : list (TableIdentifier * OnChainTable);
}.

(** Mapping a fallible scheme-generic function over the present elements and
    collecting the results, as the code does with [map], [transpose_result]
    and [collect]. *)
Definition collect_any {T U : GenericOverCommitment} {E} (f : forall C, T C -> outcome E (U C))
    (l : list (AnyCommitmentScheme T)) : outcome E (list (AnyCommitmentScheme U)) :=
  collect (fun any => transpose_result (any_map (U := ResultOkType U E) any f)) l.

Section commitments.
Context `{UnicodeData} `{ProofOfSql}.

(** [OnChainTableToTableCommitmentFn]. *)
Definition on_chain_table_to_table_commitment (table : OnChainTable) (offset : Z)
    (C : CommitmentScheme) (setup : PublicSetup C)
    : outcome OutOfScalarBounds (TableCommitment C) :=
  let? committable_table := @iter_committable (commitment_scalar C) table in
  unwrap_option (try_from_columns_with_offset C committable_table offset setup).

Definition process_create_table (table : CreateTableBuilder)
    (setups : PerCommitmentScheme PublicSetup) (commitment_schemes : CommitmentSchemeFlags)
    : outcome InvalidCreateTable
        (CreateTableAndCommitmentMetadata * PerCommitmentScheme (OptionType TableCommitment)) :=
  let? validated_create_table := validate table in
  let? empty_table := into_empty_table validated_create_table in
  let? empty_commitments := unwrap (collect_any
      (fun C setup => on_chain_table_to_table_commitment empty_table 0 C setup)
      (into_flat_iter (select setups commitment_schemes))) in
  let table_with_meta_columns := create_table_with_row_number_column table in
  Ok (mkCreateTableMetadata table_with_meta_columns [] [], per_from_iter empty_commitments).

(** ** create_table_from_snapshot.rs *)

Inductive ProcessCreateTableFromSnapshotError :=
| SnapshotInvalidCreateTable (source : InvalidCreateTable)
| InappropriateSnapshotCommitmentsE (source : TableCommitmentArithmeticError).

(** [OptionZipFn]. *)
Definition option_zip {T U : GenericOverCommitment} :
    GenericOverCommitmentFn (PairType (OptionType T) (OptionType U)) (OptionType (PairType T U)) :=
  fun C input =>
    match input with
    | (Some t, Some u) => Some (t, u)
    | _ => None
    end.

(** [TryAddTableCommitmentsFn]. *)
Definition try_add_table_commitments (C : CommitmentScheme)
    (input : PairType TableCommitment TableCommitment C)
    : outcome TableCommitmentArithmeticError (TableCommitment C) :=
  try_add C input.1 input.2.

Definition process_create_table_from_snapshot (table : CreateTableBuilder)
    (setups : PerCommitmentScheme PublicSetup)
    (snapshot_commitments : PerCommitmentScheme (OptionType TableCommitment))
    : outcome ProcessCreateTableFromSnapshotError
        (CreateTableAndCommitmentMetadata * PerCommitmentScheme (OptionType TableCommitment)) :=
  let commitment_schemes := to_flags snapshot_commitments in
  let? (create_table_and_commitment_metadata, empty_commitments) :=
    map_err SnapshotInvalidCreateTable (process_create_table table setups commitment_schemes) in
  let? validated_snapshot_commitments := map_err InappropriateSnapshotCommitmentsE
    (collect_any try_add_table_commitments
      (into_flat_iter (per_map (zip empty_commitments snapshot_commitments) option_zip))) in
  Ok (create_table_and_commitment_metadata, per_from_iter validated_snapshot_commitments).

(** ** insert.rs *)

Inductive AppendOnChainTableError :=
| AppendColumnCommitmentsMismatch
| AppendOutOfScalarBounds (source : OutOfScalarBounds).

Inductive ProcessInsertError :=
| AppendOnChainTable (source : AppendOnChainTableError)
| InsertRangeMismatch
| InsertColumnOrderMismatch
| InsertNoCommitments.

(** [impl From<ProcessInsertError> for NativeCommitmentError]. *)
Definition native_error_of_process_insert (e : ProcessInsertError) : NativeCommitmentError :=
  match e with
  | AppendOnChainTable AppendColumnCommitmentsMismatch => ColumnCommitmentsMismatch
  | AppendOnChainTable (AppendOutOfScalarBounds _) => Types.OutOfScalarBounds
  | InsertRangeMismatch => TableCommitmentRangeMismatch
  | InsertColumnOrderMismatch => TableCommitmentColumnOrderMismatch
  | InsertNoCommitments => NoCommitments
  end.

(** [AppendOnChainTableToTableCommitmentFn]. *)
Definition append_on_chain_table_to_table_commitment (table : OnChainTable) (C : CommitmentScheme)
    (input : PairType TableCommitment PublicSetup C)
    : outcome AppendOnChainTableError (TableCommitment C) :=
  let? committable_table := map_err AppendOutOfScalarBounds
    (@iter_committable (commitment_scalar C) table) in
  match try_append_rows C input.1 committable_table input.2 with
  | Ok table_commitment => Ok table_commitment
  | Err AppendMismatch => Err AppendColumnCommitmentsMismatch
  | Err AppendDuplicateIdents => Panic
  | Err AppendMixedLengthColumns => Panic
  | Panic => Panic
  end.

(** [Itertools::all_equal_value]: [inr None] for no element, [inr (Some _)] for
    two that differ. *)
Definition all_equal_value {A} `{EqDecision A} (l : list A) : A + option (A * A) :=
  match l with
  | [] => inr None
  | x :: l =>
      match List.find (fun y => negb (bool_decide (x = y))) l with
      | None => inl x
      | Some y => inr (Some (x, y))
      end
  end.

Record InsertAndCommitmentMetadata := mkInsertMetadata {
  insert_with_meta_columns : OnChainTable;
  insert_meta_table_inserts : list (TableIdentifier * OnChainTable);
}.

(** [GetTableCommitmentRangeEndFn] and [GetColumnOrderFn]. *)
Definition get_table_commitment_range_end (C : CommitmentScheme) (input : TableCommitment C)
    : PairType TableCommitment (ConcreteType Z) C :=
  (input, range_end C input).

Definition get_column_order (C : CommitmentScheme) (input : TableCommitment C)
    : PairType TableCommitment (ConcreteType (list Ident)) C :=
  (input, commitment_columns C input).

(** Splits off what a function reads from the commitment of each scheme. *)
Definition read_off {B} (f : forall C, TableCommitment C -> PairType TableCommitment (ConcreteType B) C)
    (commitments : PerCommitmentScheme (OptionType TableCommitment))
    : PerCommitmentScheme (OptionType TableCommitment) * list B :=
  let pairs := (fun any => let '(commitment, b) := any_unzip (any_map any f) in
                           (commitment, any_unwrap b)) <$> into_flat_iter commitments in
  (per_from_iter (fst <$> pairs), snd <$> pairs).

Definition process_insert (table_identifier : TableIdentifier) (insert_data : OnChainTable)
    (previous_commitments : PerCommitmentScheme (OptionType TableCommitment))
    (setups : PerCommitmentScheme PublicSetup)
    : outcome ProcessInsertError
        (InsertAndCommitmentMetadata * PerCommitmentScheme (OptionType TableCommitment)) :=
  let '(previous_commitments, row_counts) :=
    read_off get_table_commitment_range_end previous_commitments in
  let? row_count :=
    match all_equal_value row_counts with
    | inl row_count => Ok row_count
    | inr (Some _) => Err InsertRangeMismatch
    | inr None => Err InsertNoCommitments
    end in
  let '(previous_commitments, column_orders) := read_off get_column_order previous_commitments in
  let? column_order :=
    match all_equal_value column_orders with
    | inl column_order => Ok column_order
    | inr (Some _) => Err InsertColumnOrderMismatch
    | inr None => Err InsertNoCommitments
    end in
  let insert_data := with_column_order insert_data column_order in
  let commitments_and_setups := into_flat_iter (per_map
    (zip previous_commitments (per_map (U := OptionType PublicSetup) setups (fun C => Some)))
    option_zip) in
  let? commitments := map_err AppendOnChainTable
    (collect_any (append_on_chain_table_to_table_commitment insert_data) commitments_and_setups) in
  let? insert_with_meta_columns := on_chain_table_with_row_number_column insert_data row_count in
  Ok (mkInsertMetadata insert_with_meta_columns [], per_from_iter commitments).
End commitments.

(** ** Lemmas *)

Section lemmas.
Context `{UnicodeData} `{ProofOfSql}.

Lemma read_off_id {B} (f : forall C, TableCommitment C -> B) p :
  read_off (fun C c => (c, f C c)) p =
  (p, match hyper_kzg p with Some c => [f HyperKzg c] | None => [] end ++
      match dynamic_dory p with Some c => [f DynamicDory c] | None => [] end).
Proof. by destruct p as [[] []]. Qed.

(** What a successful insert has found and done, scheme by scheme. *)
Lemma process_insert_ok tid ins prev setups m next :
  process_insert tid ins prev setups = Ok (m, next) ->
  exists n order,
    let ins' := with_column_order ins order in
    (exists C, is_Some (per_get prev C)) /\
    (forall C c, per_get prev C = Some c ->
       range_end C c = n /\ commitment_columns C c = order /\
       exists c', append_on_chain_table_to_table_commitment ins' C (c, per_get setups C) = Ok c' /\
                  per_get next C = Some c') /\
    (forall C, per_get prev C = None -> per_get next C = None) /\
    on_chain_table_with_row_number_column ins' n =
      Ok (E := ProcessInsertError) (insert_with_meta_columns m).
Proof.
  unfold process_insert.
  rewrite (read_off_id range_end), (read_off_id commitment_columns).
  destruct prev as [[c1|] [c2|]]; simpl.
  - case_bool_decide as Hn; simpl; [|done]. case_bool_decide as Ho; simpl; [|done].
    unfold collect_any. simpl.
    destruct (append_on_chain_table_to_table_commitment _ HyperKzg _) as [c1'| |] eqn:H1; try done.
    simpl. destruct (append_on_chain_table_to_table_commitment _ DynamicDory _) as [c2'| |] eqn:H2;
      try done.
    simpl. destruct (on_chain_table_with_row_number_column _ _) eqn:Hr; try done.
    intros [= <- <-]. do 2 eexists. split_and!; [by exists HyperKzg| |by intros []|exact Hr].
    intros [] c [= <-]; simpl; [by eauto|]. rewrite <- Hn, <- Ho. eauto.
  - unfold collect_any. simpl.
    destruct (append_on_chain_table_to_table_commitment _ HyperKzg _) as [c1'| |] eqn:H1; try done.
    simpl. destruct (on_chain_table_with_row_number_column _ _) eqn:Hr; try done.
    intros [= <- <-]. do 2 eexists. split_and!; [by exists HyperKzg| |by intros []|exact Hr].
    intros [] c [= <-]; simpl. eauto.
  - unfold collect_any. simpl.
    destruct (append_on_chain_table_to_table_commitment _ DynamicDory _) as [c2'| |] eqn:H2; try done.
    simpl. destruct (on_chain_table_with_row_number_column _ _) eqn:Hr; try done.
    intros [= <- <-]. do 2 eexists. split_and!; [by exists DynamicDory| |by intros []|exact Hr].
    intros [] c [= <-]; simpl. eauto.
  - done.
Qed.

Lemma process_insert_flags tid ins prev setups m next :
  process_insert tid ins prev setups = Ok (m, next) -> to_flags next = to_flags prev.
Proof.
  intros (n & order & _ & Hsome & Hnone & _)%process_insert_ok.
  apply flags_ext. intros C. apply eq_bool_prop_intro. rewrite !Is_true_true, !to_flags_spec.
  destruct (per_get prev C) as [c|] eqn:Hc.
  - apply Hsome in Hc as (_ & _ & c' & _ & ->). by rewrite !is_Some_alt.
  - by rewrite (Hnone _ Hc).
Qed.

Lemma append_on_chain_table_ok t C c setup c' :
  append_on_chain_table_to_table_commitment t C (c, setup) = Ok c' ->
  exists rows, @iter_committable (commitment_scalar C) t = Ok rows /\
    try_append_rows C c rows setup = Ok c'.
Proof.
  unfold append_on_chain_table_to_table_commitment.
  destruct (iter_committable t) as [rows| |]; try done. simpl.
  destruct (try_append_rows C c rows setup) as [x|[]|] eqn:Ha; try done.
  intros [= <-]. eauto.
Qed.

Lemma committable_len_spec `{Scalar} col cc :
  try_to_committable_column col = Ok cc -> committable_len cc = column_len col.
Proof.
  destruct col; simpl; try by intros [= <-].
  - intros [= <-]. simpl. apply length_fmap.
  - intros (limbs & Hl & [= <-])%obind_ok. simpl. by apply collect_length in Hl.
  - intros [= <-]. simpl. apply length_fmap.
Qed.

Lemma iter_committable_spec `{Scalar} (t : OnChainTable) rows :
  iter_committable t = Ok rows ->
  Forall2 (fun p q => p.1 = q.1 /\ column_len p.2 = committable_len q.2) t rows.
Proof.
  intros Hc%collect_ok. eapply Forall2_impl; [exact Hc|].
  intros [i c] [j cc] Hp. simpl in *.
  destruct (try_to_committable_column c) eqn:Ht; simplify_eq/=.
  by rewrite (committable_len_spec _ _ Ht).
Qed.

Lemma iter_committable_keys `{Scalar} (t : OnChainTable) rows :
  iter_committable t = Ok rows -> fst <$> rows = imap_keys t.
Proof.
  intros Hf%iter_committable_spec. symmetry.
  induction Hf as [|[] [] ?? [] ? IH]; simplify_eq/=; [done|]. by f_equal.
Qed.

(** A well-formed table commits to well-formed columns. *)
Lemma iter_committable_wf `{Scalar} (t : OnChainTable) rows :
  table_wf t -> iter_committable t = Ok rows -> columns_wf rows.
Proof.
  intros (_ & Hnd & (n & Hn) & _) Hc. split; [by rewrite (iter_committable_keys _ _ Hc)|].
  exists n. apply iter_committable_spec in Hc.
  induction Hc as [|[] [] ?? [_ Hl] ? IH]; [constructor|].
  apply Forall_cons_1 in Hn as [Hp Hn]. constructor; [simpl in *; congruence|].
  apply IH; [|done]. by apply NoDup_cons in Hnd as [_ ?].
Qed.

Lemma append_tables_keys t1 t2 t :
  append_tables t1 t2 = Some t -> fst <$> t2 = fst <$> t1 /\ fst <$> t = fst <$> t1.
Proof.
  revert t2 t; induction t1 as [|[i1 c1] t1 IH]; intros [|[i2 c2] t2] t; simpl; try done;
    [by intros [= <-]|].
  case_bool_decide; [|done]. subst. destruct (append_column c1 c2); simpl; [|done].
  destruct (append_tables t1 t2) eqn:Ha; simpl; [|done]. intros [= <-].
  destruct (IH _ _ Ha) as [He1 He2]. split; [f_equal; exact He1|]. rewrite fmap_cons. f_equal. exact He2.
Qed.

Lemma commits_to_order `{!ProofOfSqlLaws} C setup c cols :
  commits_to C setup c cols -> commitment_columns C c = fst <$> cols.
Proof. intros [_ Hc]. by apply from_columns_order in Hc. Qed.

Lemma commits_to_range `{!ProofOfSqlLaws} C setup c cols :
  commits_to C setup c cols -> range_end C c = rows_of cols.
Proof. intros [_ Hc]. by apply from_columns_range in Hc. Qed.

Lemma as_i64_small z : 0 <= z < 2 ^ 63 -> as_i64 z = z.
Proof. intros Hz. unfold as_i64. rewrite Z.mod_small; lia. Qed.

Lemma row_number_name_upper : to_uppercase ROW_NUMBER_COLUMN_NAME = ROW_NUMBER_COLUMN_NAME.
Proof. by rewrite to_uppercase_ascii. Qed.

(** The row number column is added at the end and counts from the offset. *)
Lemma row_number_column_spec {E} t off k :
  table_wf t -> Ident_new ROW_NUMBER_COLUMN_NAME ∉ imap_keys t ->
  Forall (fun p => column_len p.2 = k) t -> 0 <= off -> off + Z.of_nat k < 2 ^ 63 ->
  on_chain_table_with_row_number_column (E:=E) t off =
  Ok (t ++ [(Ident_new ROW_NUMBER_COLUMN_NAME, BigInt (seqZ off (Z.of_nat k)))]).
Proof.
  intros (Hne & Hnd & _ & Hup) Hnew Hk Ho Hoff.
  unfold on_chain_table_with_row_number_column.
  rewrite (num_rows_wf _ k Hne Hk). simpl. unfold i64_range.
  rewrite (as_i64_small off), as_i64_small by lia.
  replace (off + Z.of_nat k - off) with (Z.of_nat k) by lia.
  rewrite try_from_iter_id; [done|]. split_and!.
  - by destruct t.
  - unfold imap_keys. rewrite fmap_app. apply NoDup_app. split_and!; [done| |apply NoDup_singleton].
    intros x Hx ->%list_elem_of_singleton. done.
  - exists k. apply Forall_app. split; [done|]. constructor; [|constructor].
    simpl. rewrite length_seqZ. lia.
  - apply Forall_app. split; [done|]. constructor; [|constructor]. apply row_number_name_upper.
Qed.

Lemma iter_committable_no_panic `{Scalar} (t : OnChainTable) : iter_committable t <> Panic.
Proof.
  apply collect_no_panic. intros [i c] _.
  assert (try_to_committable_column c <> Panic) as Hc; [|by destruct (try_to_committable_column c)].
  destruct c; simpl; try done. apply obind_not_panic; [|done].
  apply collect_no_panic. intros z _. unfold omap_ok, u256_to_scalar. by repeat case_match.
Qed.

Lemma append_on_chain_table_no_panic `{!ProofOfSqlLaws} t C input :
  table_wf t -> append_on_chain_table_to_table_commitment t C input <> Panic.
Proof.
  intros Hwf. unfold append_on_chain_table_to_table_commitment.
  apply obind_not_panic; [by apply map_err_no_panic, iter_committable_no_panic|].
  intros rows Hrows%map_err_ok. pose proof (append_no_panic C input.1 rows input.2).
  destruct (try_append_rows C input.1 rows input.2) as [|e|] eqn:Ha; [done| |done].
  apply append_wf in Ha as ->; [done|]. by eapply iter_committable_wf.
Qed.

Lemma row_number_column_no_panic {E} t off k :
  table_wf t -> Forall (fun p => column_len p.2 = k) t -> 0 <= off -> off + Z.of_nat k < 2 ^ 63 ->
  on_chain_table_with_row_number_column (E:=E) t off <> Panic.
Proof.
  intros (Hne & _) Hk Ho Hoff. unfold on_chain_table_with_row_number_column.
  rewrite (num_rows_wf _ k Hne Hk). simpl. unfold i64_range.
  rewrite (as_i64_small off), as_i64_small by lia.
  destruct t as [|p t]; [done|]. apply Forall_cons_1 in Hk as [Hp Hk].
  rewrite <- app_comm_cons, try_from_iter_ok; [done|]. apply Forall_app. split.
  - eapply Forall_impl; [exact Hk|]. simpl. congruence.
  - constructor; [|constructor]. simpl. rewrite length_seqZ, Hp. lia.
Qed.

(** ** New tables *)

Lemma column_type_not_scalar dt ct :
  sqlparser_data_type_to_proof_of_sql_column_type dt = Ok ct -> ct <> CtScalar.
Proof.
  destruct dt; simpl; try by repeat case_match; intros; simplify_eq.
  intros ([p s] & _ & [= <-])%obind_ok. done.
Qed.

Lemma empty_with_type_total {E} ct :
  ct <> CtScalar -> exists col, empty_with_type (E:=E) ct = Ok col /\ column_len col = 0%nat.
Proof. destruct ct; intros; try done; by eexists. Qed.

(** What validation guarantees of the schema. *)
Lemma validate_ok table v :
  validate table = Ok v ->
  imap_keys (proof_of_sql_schema v) = column_def_name <$> table_columns table /\
  NoDup (column_def_name <$> table_columns table) /\
  proof_of_sql_schema v <> [] /\
  Forall (fun p => p.2 <> CtScalar) (proof_of_sql_schema v).
Proof.
  unfold validate. intros (u1 & _ & (u2 & _ & Hv)%obind_ok)%obind_ok.
  destruct (table_name table) as [|i1 [|i2 []]]; try done.
  apply obind_ok in Hv as (columns & Hcols & Hv). apply collect_ok in Hcols.
  destruct (Nat.eqb_spec (length (imap_from_iter columns)) 0) as [|Hne]; [done|].
  destruct (Nat.ltb_spec (length (imap_from_iter columns)) (length (table_columns table)))
    as [|Hlen]; [done|].
  simplify_eq/=. assert (imap_keys columns = column_def_name <$> table_columns table) as Hkeys.
  { clear -Hcols. induction Hcols as [|c [] ?? Hc ? IH]; [done|].
    apply obind_ok in Hc as (ct & _ & [= <- <-]). unfold imap_keys in *. by rewrite !fmap_cons, IH. }
  assert (length columns = length (table_columns table)) as Hl
    by (symmetry; by eapply Forall2_length).
  assert (NoDup (imap_keys columns)) as Hnd by (apply imap_from_iter_length_nodup; lia).
  rewrite (imap_from_iter_id columns) in * by done. rewrite <- Hkeys.
  split_and!; [done|done|by destruct columns|]. clear -Hcols.
  induction Hcols as [|c [] ?? Hc ? IH]; constructor; [|done].
  apply obind_ok in Hc as (ct & Hct%map_err_ok & [= <- <-]). by eapply column_type_not_scalar.
Qed.

Lemma into_empty_table_ok {E} table v :
  validate table = Ok v ->
  exists p cols,
    into_empty_table (E:=E) v = Ok (imap_from_iter (upper_pair <$> p :: cols)) /\
    imap_keys (p :: cols) = column_def_name <$> table_columns table /\
    Forall (fun p => column_len p.2 = 0%nat) (p :: cols).
Proof.
  intros (Hkeys & _ & Hne & Hs)%validate_ok. unfold into_empty_table.
  assert (exists cols, collect (fun '(identifier, column_type) =>
      let? column := empty_with_type (E:=E) column_type in Ok (identifier, column))
      (proof_of_sql_schema v) = Ok cols /\
    imap_keys cols = imap_keys (proof_of_sql_schema v) /\
    Forall (fun p => column_len p.2 = 0%nat) cols) as (cols & -> & Hc & Hl).
  { clear Hkeys Hne. induction Hs as [|[i ct] l Hct Hs (cols & IH & Hk & Hlen)].
    - exists []. by split_and!.
    - destruct (empty_with_type_total (E:=E) ct Hct) as (col & Hcol & Hcl).
      exists ((i, col) :: cols). split_and!; [|unfold imap_keys in *; by rewrite !fmap_cons, Hk
        |by constructor]. simpl. rewrite Hcol. simpl. by rewrite IH. }
  cbn [obind]. destruct cols as [|p cols].
  { destruct (proof_of_sql_schema v); [done|]. discriminate Hc. }
  exists p, cols. split_and!; [|by rewrite Hc|done].
  rewrite try_from_iter_ok; [done|]. apply Forall_cons_1 in Hl as [Hp Hl].
  eapply Forall_impl; [exact Hl|]. simpl. congruence.
Qed.

Lemma iter_committable_empty `{Scalar} (t : OnChainTable) :
  Forall (fun p => column_len p.2 = 0%nat) t -> exists rows, iter_committable t = Ok rows.
Proof.
  induction 1 as [|[i c] t Hc Ht (rows & IH)]; [by eexists|]. unfold iter_committable in *. simpl.
  assert (exists cc, try_to_committable_column c = Ok cc) as (cc & ->).
  { destruct c; try by eexists. simpl in Hc. apply nil_length_inv in Hc as ->. by eexists. }
  simpl. rewrite IH. by eexists.
Qed.

(** A scheme-generic map over what is present, scheme by scheme. *)
Lemma collect_any_ok {T U : GenericOverCommitment} {E} (f : forall C, T C -> outcome E (U C))
    (p : PerCommitmentScheme (OptionType T)) l :
  collect_any f (into_flat_iter p) = Ok l ->
  forall C, match per_get p C, per_get (per_from_iter l) C with
            | Some x, Some y => f C x = Ok y
            | None, None => True
            | _, _ => False
            end.
Proof.
  unfold collect_any. destruct p as [[x|] [y|]]; simpl.
  - destruct (f HyperKzg x) eqn:Hx; try done. simpl. destruct (f DynamicDory y) eqn:Hy; try done.
    intros [= <-] []; done.
  - destruct (f HyperKzg x) eqn:Hx; try done. intros [= <-] []; done.
  - destruct (f DynamicDory y) eqn:Hy; try done. intros [= <-] []; done.
  - intros [= <-] []; done.
Qed.

Lemma collect_any_total {T U : GenericOverCommitment} {E} (f : forall C, T C -> outcome E (U C))
    (p : PerCommitmentScheme (OptionType T)) :
  (forall C x, per_get p C = Some x -> exists y, f C x = Ok y) ->
  exists l, collect_any f (into_flat_iter p) = Ok l.
Proof.
  intros Hf. unfold collect_any. destruct p as [[x|] [y|]]; simpl.
  - destruct (Hf HyperKzg x eq_refl) as [? ->], (Hf DynamicDory y eq_refl) as [? ->]. by eexists.
  - destruct (Hf HyperKzg x eq_refl) as [? ->]. by eexists.
  - destruct (Hf DynamicDory y eq_refl) as [? ->]. by eexists.
  - by eexists.
Qed.

(** The commitment of one scheme to the empty table of a definition. *)
Lemma empty_commitment_total `{!UnicodeLaws, !ProofOfSqlLaws} p cols C setup :
  Forall (fun p => column_len p.2 = 0%nat) (p :: cols) ->
  let t := imap_from_iter (upper_pair <$> p :: cols) in
  exists c rows, on_chain_table_to_table_commitment t 0 C setup = Ok c /\
    commits_to C setup c rows /\ rows_of rows = 0 /\ fst <$> rows = imap_keys t.
Proof.
  intros Hl t. apply Forall_cons_1 in Hl as [Hp Hl].
  assert (table_wf t) as Hwf.
  { apply try_from_iter_wf. eapply Forall_impl; [exact Hl|]. simpl. congruence. }
  assert (Forall (fun p => column_len p.2 = 0%nat) t) as Ht0.
  { apply imap_extend_forall; [by intros; simplify_eq/=|constructor|].
    rewrite Forall_fmap. constructor; [done|]. eapply Forall_impl; [exact Hl|]. done. }
  destruct (@iter_committable_empty (commitment_scalar C) t Ht0) as [rows Hrows].
  unfold on_chain_table_to_table_commitment. rewrite Hrows. simpl.
  pose proof (iter_committable_wf _ _ Hwf Hrows) as Hrwf.
  destruct (from_columns_total C rows 0 setup Hrwf) as [c Hc]. rewrite Hc. simpl.
  exists c, rows. split_and!; [done|done| |by apply (@iter_committable_keys (commitment_scalar C))].
  apply iter_committable_spec in Hrows. destruct Hrows as [|[] [] ?? [_ Hlen] ?]; [done|].
  simpl in *. apply Forall_cons_1 in Ht0 as [Ht0 _]. simpl in Ht0. lia.
Qed.

Lemma validate_no_panic table : validate table <> Panic.
Proof.
  unfold validate. apply obind_not_panic.
  { apply map_err_no_panic. unfold validate_table_avoids_prefix, validate_idents_avoid_prefix.
    by repeat case_match. }
  intros _ _. apply obind_not_panic.
  { apply map_err_no_panic, collect_no_panic. intros c _. unfold validate_column_options.
    by repeat case_match. }
  intros _ _. destruct (table_name table) as [|? [|? []]]; try done.
  apply obind_not_panic; [|intros; by repeat case_match].
  apply collect_no_panic. intros c _. apply obind_not_panic; [apply map_err_no_panic|done].
  destruct (column_data_type c); simpl; try by repeat case_match.
  apply obind_not_panic; [|by intros []].
  unfold sqlparser_number_info_to_proof_of_sql_precision_and_scale.
  apply obind_not_panic; [by case_match|]. intros [p s] _.
  repeat (apply obind_not_panic; [apply ok_or_no_panic|intros ? _]). done.
Qed.

Lemma select_get {T : GenericOverCommitment} (p : PerCommitmentScheme T) f C :
  per_get (select p f) C = if has_flag f C then Some (per_get p C) else None.
Proof. by destruct C. Qed.

Lemma per_map_get {T U : GenericOverCommitment} (p : PerCommitmentScheme T)
    (f : GenericOverCommitmentFn T U) C : per_get (per_map p f) C = f C (per_get p C).
Proof. by destruct C. Qed.

Lemma zip_get {T U : GenericOverCommitment} (p : PerCommitmentScheme T)
    (q : PerCommitmentScheme U) C : per_get (zip p q) C = (per_get p C, per_get q C).
Proof. by destruct C. Qed.

(** What creating a table with a valid definition returns. *)
Lemma process_create_table_run `{!UnicodeLaws, !ProofOfSqlLaws} table setups flags v :
  validate table = Ok v ->
  exists p, process_create_table table setups flags =
    Ok (mkCreateTableMetadata (create_table_with_row_number_column table) [] [], p) /\
  forall C, match per_get p C with
    | None => has_flag flags C = false
    | Some c => has_flag flags C = true /\
        exists cols, commits_to C (per_get setups C) c cols /\ rows_of cols = 0 /\
          forall id, id ∈ fst <$> cols <->
            id ∈ uppercase_ident <$> (column_def_name <$> table_columns table)
    end.
Proof.
  intros Hv. unfold process_create_table. rewrite Hv. cbn [obind].
  destruct (into_empty_table_ok (E := InvalidCreateTable) table v Hv)
    as (p & cols & -> & Hkeys & Hl). cbn [obind].
  set (t := imap_from_iter _) in *.
  destruct (collect_any_total (T := PublicSetup) (U := TableCommitment)
    (fun C setup => on_chain_table_to_table_commitment t 0 C setup)
    (select setups flags)) as [l Hcoll].
  { intros C x _. destruct (empty_commitment_total p cols C x Hl) as (c & rows & ? & _). eauto. }
  rewrite Hcoll. cbn [unwrap obind]. pose proof (collect_any_ok _ _ _ Hcoll) as Hok.
  eexists. split; [done|]. intros C. specialize (Hok C). rewrite select_get in Hok.
  destruct (per_get (per_from_iter l) C) as [c|], (has_flag flags C); try done.
  split; [done|].
  destruct (empty_commitment_total p cols C (per_get setups C) Hl)
    as (c' & rows & Hc' & Hcommit & Hrows & Hk).
  assert (c' = c) as -> by (cbn beta in Hok; fold t in Hc'; congruence).
  exists rows. split_and!; [done|done|]. intros id. rewrite Hk, <- Hkeys, <- upper_pair_keys.
  unfold imap_from_iter. rewrite imap_extend_keys.
  split; [intros [Hn|]; [by apply not_elem_of_nil in Hn|done]|by right].
Qed.
End lemmas.

(** Where the previous commitment commits to some columns, the next one does
    with the rows appended. *)
Lemma insert_commits `{UnicodeData} `{ProofOfSqlLaws} tid ins prev setups m next :
  table_wf ins -> process_insert tid ins prev setups = Ok (m, next) ->
  forall C c cols,
    per_get prev C = Some c -> commits_to C (per_get setups C) c cols ->
    exists c' rows cols',
      per_get next C = Some c' /\
      @iter_committable (commitment_scalar C) (with_column_order ins (fst <$> cols)) = Ok rows /\
      append_tables cols rows = Some cols' /\ commits_to C (per_get setups C) c' cols'.
Proof.
  intros Hwf Hrun. apply process_insert_ok in Hrun as (n & order & _ & Hsome & Hnone & _).
  intros C c cols Hc Hcommit. apply Hsome in Hc as (_ & Ho & c' & Happ & Hnext).
  rewrite (commits_to_order _ _ _ _ Hcommit) in Ho. subst order.
  apply append_on_chain_table_ok in Happ as (rows & Hrows & Happ).
  assert (columns_wf rows) as Hrwf.
  { eapply iter_committable_wf; [|exact Hrows]. by apply with_column_order_wf. }
  destruct (append_commits _ _ _ _ _ _ Hcommit Hrwf Happ) as (cols' & Ha & Hc').
  by exists c', rows, cols'.
Qed.

(** C4: A successful insert updates exactly the schemes that were there, and
    where the previous commitment of a scheme commits to some columns, the new
    one commits to these columns with the rows of the insert, in the column
    order of the commitment, appended. *)
Theorem process_insert_commits `{UnicodeData} `{ProofOfSqlLaws} tid ins prev setups m next :
  table_wf ins -> process_insert tid ins prev setups = Ok (m, next) ->
  to_flags next = to_flags prev /\
  forall C c cols,
    per_get prev C = Some c -> commits_to C (per_get setups C) c cols ->
    exists c' rows cols',
      per_get next C = Some c' /\
      @iter_committable (commitment_scalar C) (with_column_order ins (fst <$> cols)) = Ok rows /\
      append_tables cols rows = Some cols' /\ commits_to C (per_get setups C) c' cols'.
Proof.
  intros Hwf Hrun. split; [by eapply process_insert_flags|]. by eapply insert_commits.
Qed.

(** C29: The rows of an insert are numbered without gaps from the number of rows
    committed so far: the insert comes back in the column order of the
    commitments with a [META_ROW_NUMBER] column [n, n+1, ..., n+k-1] at its end. *)
Theorem insert_row_numbers `{UnicodeData} `{ProofOfSqlLaws} tid ins prev setups m next C c cols k :
  table_wf ins -> Forall (fun p => column_len p.2 = k) ins ->
  process_insert tid ins prev setups = Ok (m, next) ->
  per_get prev C = Some c -> commits_to C (per_get setups C) c cols ->
  Ident_new ROW_NUMBER_COLUMN_NAME ∉ fst <$> cols ->
  rows_of cols + Z.of_nat k < 2 ^ 63 ->
  insert_with_meta_columns m =
    with_column_order ins (fst <$> cols) ++
    [(Ident_new ROW_NUMBER_COLUMN_NAME, BigInt (seqZ (rows_of cols) (Z.of_nat k)))].
Proof.
  intros Hwf Hk (n & order & _ & Hsome & _ & Hrow)%process_insert_ok Hc Hcommit Hnew Hlt.
  apply Hsome in Hc as (Hr & Ho & c' & Happ & _).
  rewrite (commits_to_order _ _ _ _ Hcommit) in Ho.
  rewrite (commits_to_range _ _ _ _ Hcommit) in Hr. subst n order.
  apply append_on_chain_table_ok in Happ as (rows & Hrows & Happ).
  pose proof (with_column_order_wf ins (fst <$> cols) Hwf) as Hwf'.
  pose proof (iter_committable_wf _ _ Hwf' Hrows) as Hrwf.
  destruct (append_commits _ _ _ _ _ _ Hcommit Hrwf Happ) as (cols' & [Hkeys _]%append_tables_keys & _).
  rewrite (iter_committable_keys _ _ Hrows) in Hkeys.
  assert (Forall (fun p => column_len p.2 = k) (with_column_order ins (fst <$> cols))) as Hk'.
  { rewrite with_column_order_perm by apply Hwf. done. }
  assert (0 <= rows_of cols) by (destruct cols as [|[]]; simpl; lia).
  rewrite (row_number_column_spec _ _ k) in Hrow by (rewrite ?Hkeys; done). congruence.
Qed.

(** C30: Processing an insert of a well-formed table never panics, as long as
    the row numbers stay within [i64]: its [expect]s and [panic!]s are
    unreachable. *)
Theorem process_insert_no_panic `{UnicodeData} `{ProofOfSqlLaws} tid ins
    (prev : PerCommitmentScheme (OptionType TableCommitment)) setups k :
  table_wf ins -> Forall (fun p => column_len p.2 = k) ins ->
  (forall C c, per_get prev C = Some c ->
    0 <= range_end C c /\ range_end C c + Z.of_nat k < 2 ^ 63) ->
  process_insert tid ins prev setups <> Panic.
Proof.
  intros Hwf Hk Hrange. unfold process_insert, get_table_commitment_range_end, get_column_order.
  rewrite (read_off_id range_end), (read_off_id commitment_columns).
  assert (forall n order (l : list (AnyCommitmentScheme (PairType TableCommitment PublicSetup))),
    0 <= n -> n + Z.of_nat k < 2 ^ 63 ->
    (let? commitments := map_err AppendOnChainTable
       (collect_any (append_on_chain_table_to_table_commitment (with_column_order ins order)) l) in
     let? insert_with_meta_columns :=
       on_chain_table_with_row_number_column (with_column_order ins order) n in
     Ok (mkInsertMetadata insert_with_meta_columns [], per_from_iter commitments)) <> Panic) as Hrest.
  { intros n order l Hn Hnk. pose proof (with_column_order_wf ins order Hwf) as Hwf'.
    apply obind_not_panic; [apply map_err_no_panic, collect_no_panic|intros commitments _].
    - intros any _. destruct any as [x|x]; simpl;
        [pose proof (append_on_chain_table_no_panic _ HyperKzg x Hwf')
        |pose proof (append_on_chain_table_no_panic _ DynamicDory x Hwf')];
        by destruct (append_on_chain_table_to_table_commitment _ _ x).
    - apply obind_not_panic; [|done]. apply (row_number_column_no_panic _ _ k); try done.
      rewrite with_column_order_perm by apply Hwf. done. }
  destruct prev as [[c1|] [c2|]]; simpl; try done.
  - case_bool_decide; simpl; [|done]. case_bool_decide; simpl; [|done].
    by apply Hrest; apply (Hrange HyperKzg c1).
  - by apply Hrest; apply (Hrange HyperKzg c1).
  - by apply Hrest; apply (Hrange DynamicDory c2).
Qed.


(** A snapshot comes back unchanged. *)
Lemma snapshot_keeps `{UnicodeLaws} `{ProofOfSqlLaws} table setups
    snapshot m commitments :
  process_create_table_from_snapshot table setups snapshot = Ok (m, commitments) ->
  commitments = snapshot /\
  is_ok (validate table) = true /\
  table_with_meta_columns m = create_table_with_row_number_column table /\
  forall C c, per_get snapshot C = Some c ->
  forall id, id ∈ commitment_columns C c <->
    id ∈ uppercase_ident <$> (column_def_name <$> table_columns table).
Proof.
  unfold process_create_table_from_snapshot.
  intros ([m' empty] & Hcreate%map_err_ok & Hrest)%obind_ok. cbn beta iota in Hrest.
  destruct (validate table) as [v|e|] eqn:Hv;
    [|unfold process_create_table in Hcreate; by rewrite Hv in Hcreate..].
  destruct (process_create_table_run table setups (to_flags snapshot) v Hv) as (p & Hrun & Hp).
  rewrite Hrun in Hcreate. simplify_eq.
  apply obind_ok in Hrest as (l & Hl%map_err_ok & [= <- <-]).
  pose proof (collect_any_ok (T := PairType TableCommitment TableCommitment) _ _ _ Hl) as Hok.
  assert (forall C, match per_get snapshot C with
    | Some c => per_get (per_from_iter l) C = Some c /\
        forall id, id ∈ commitment_columns C c <->
          id ∈ uppercase_ident <$> (column_def_name <$> table_columns table)
    | None => per_get (per_from_iter l) C = None end) as Hall.
  { intros C. specialize (Hok C). specialize (Hp C). pose proof (to_flags_spec snapshot C) as Hf.
    rewrite per_map_get, zip_get in Hok. unfold option_zip in Hok.
    destruct (per_get empty C) as [c1|], (per_get snapshot C) as [c2|]; cbn in Hok.
    - destruct (per_get (per_from_iter l) C) as [c|]; [|done].
      destruct Hp as (_ & cols & [_ Hc1] & Hr0 & Hcols).
      destruct (add_empty C cols _ c1 c2 c Hc1 Hr0 Hok) as [-> ->]. done.
    - destruct Hp as [Hp _]. apply Hf in Hp as [? [=]].
    - rewrite Hp in Hf. discriminate (proj2 Hf (ex_intro _ c2 eq_refl)).
    - by destruct (per_get (per_from_iter l) C). }
  split_and!; [|done|done|].
  - apply per_ext. intros C. specialize (Hall C). destruct (per_get snapshot C); naive_solver.
  - intros C c Hc. specialize (Hall C). rewrite Hc in Hall. apply Hall.
Qed.

(** A snapshot is accepted only with its commitments unchanged: when
    [process_create_table_from_snapshot] succeeds it returns exactly the
    commitments of the snapshot, each of them has the columns of the
    definition in upper case, and the definition is valid and gets the row
    number column. *)
Theorem process_create_table_from_snapshot_keeps `{UnicodeLaws} `{ProofOfSqlLaws} table setups
    snapshot m commitments :
  process_create_table_from_snapshot table setups snapshot = Ok (m, commitments) ->
  commitments = snapshot /\
  is_ok (validate table) = true /\
  table_with_meta_columns m = create_table_with_row_number_column table /\
  forall C c, per_get snapshot C = Some c ->
  forall id, id ∈ commitment_columns C c <->
    id ∈ uppercase_ident <$> (column_def_name <$> table_columns table).
Proof. apply snapshot_keeps. Qed.

(** ** Examples, on the transparent commitments of [PlainCommitment] *)

Section examples.
#[local] Existing Instance ascii_unicode.
#[local] Existing Instance ascii_unicode_laws.
#[local] Existing Instance plain_proof_of_sql.
#[local] Existing Instance plain_laws.

Definition sample_definition : CreateTableBuilder :=
  mkCreateTable [Ident_new (bs "ANIMALS"); Ident_new (bs "POPULATION")]
    [mkColumnDef (Ident_new (bs "Name")) (DtVarchar None) None [mkColumnOptionDef None NotNull];
     mkColumnDef (Ident_new (bs "BLOCK_NUMBER")) (DtBigInt None) None
       [mkColumnOptionDef None NotNull]] [] [].

Definition sample_setups : PerCommitmentScheme PublicSetup := @mkPer PublicSetup tt tt.

Definition sample_columns : list (Ident * CommittableColumn) :=
  [(Ident_new (bs "NAME"), CcVarChar [3]); (Ident_new (bs "BLOCK_NUMBER"), CcBigInt [4])].

Definition sample_commitments : PerCommitmentScheme (OptionType TableCommitment) :=
  @mkPer (OptionType TableCommitment) (Some (sample_columns, 0)) (Some (sample_columns, 0)).

Definition sample_table_identifier : TableIdentifier :=
  mkTableIdentifier (bs "POPULATION") (bs "ANIMALS").

Lemma sample_commits_to C :
  commits_to C (per_get sample_setups C) (sample_columns, 0) sample_columns.
Proof. split; [apply columns_wfb_spec; vm_compute; reflexivity|by destruct C]. Qed.

Definition sample_insert_result :=
  process_insert sample_table_identifier sample_table sample_commitments sample_setups.

Lemma process_insert_commits_witness :
  match sample_insert_result with
  | Ok (_, next) => to_flags next = flags_all /\
      exists c' rows cols', per_get next DynamicDory = Some c' /\
        append_tables sample_columns rows = Some cols' /\ commits_to DynamicDory tt c' cols'
  | _ => False
  end.
Proof.
  destruct sample_insert_result as [[m next]|e|] eqn:Hr; [|vm_compute in Hr; discriminate..].
  destruct (process_insert_commits sample_table_identifier sample_table sample_commitments
    sample_setups m next sample_table_wf Hr) as [Hf Hc].
  split; [exact Hf|].
  destruct (Hc DynamicDory (sample_columns, 0) sample_columns eq_refl (sample_commits_to DynamicDory))
    as (c' & rows & cols' & ? & _ & ? & ?). by exists c', rows, cols'.
Defined.

Lemma insert_row_numbers_witness :
  match sample_insert_result with
  | Ok (m, _) => imap_get (insert_with_meta_columns m) (Ident_new ROW_NUMBER_COLUMN_NAME)
                 = Some (BigInt [1; 2])
  | _ => False
  end.
Proof.
  destruct sample_insert_result as [[m next]|e|] eqn:Hr; [|vm_compute in Hr; discriminate..].
  rewrite (insert_row_numbers sample_table_identifier sample_table sample_commitments
    sample_setups m next HyperKzg (sample_columns, 0) sample_columns 2 sample_table_wf); try done.
  - repeat constructor.
  - apply (sample_commits_to HyperKzg).
  - apply (bool_decide_unpack _). vm_compute. exact I.
Defined.

Lemma process_insert_no_panic_witness : sample_insert_result <> Panic.
Proof.
  apply (process_insert_no_panic _ _ _ _ 2 sample_table_wf).
  - repeat constructor.
  - intros [] c; simpl; intros [= <-]; simpl; lia.
Defined.


Lemma process_create_table_from_snapshot_keeps_witness :
  match process_create_table_from_snapshot sample_definition sample_setups sample_commitments with
  | Ok (_, commitments) => commitments = sample_commitments
  | _ => False
  end.
Proof.
  destruct (process_create_table_from_snapshot _ _ _) as [[m c]|e|] eqn:Hr;
    [|vm_compute in Hr; discriminate..].
  apply (process_create_table_from_snapshot_keeps _ _ _ _ _ Hr).
Defined.

(** Columns whose names differ in case only pass validation, which compares
    them as they are written, and become one column of the committed table. *)
Example case_variants_collapse :
  let table := mkCreateTable [Ident_new (bs "S"); Ident_new (bs "T")]
    [mkColumnDef (Ident_new (bs "a")) (DtBigInt None) None [mkColumnOptionDef None NotNull];
     mkColumnDef (Ident_new (bs "A")) (DtBoolean) None [mkColumnOptionDef None NotNull]] [] [] in
  match process_create_table table sample_setups flags_all with
  | Ok (m, commitments) =>
      length (table_columns (table_with_meta_columns m)) = 3%nat /\
      (commitment_columns HyperKzg <$> per_get commitments HyperKzg) = Some [Ident_new (bs "A")]
  | _ => False
  end.
Proof. vm_compute. done. Qed.
End examples.
