(* ===== verification/Native.v ===== *)
(** * native, native-api, sxt-core/native.rs and the byte forms of commitments

    The host functions that pallets call: reading an arrow record batch into a
    serialized table, and processing an insert on serialized tables and
    commitments.  [NativeApi] is the trait the pallets are written against and
    [NativeApiLaws] what they rely on; [Api] is the implementation. *)

From stdpp Require Import base tactics option countable strings numbers list.
From Stdlib Require Import ZArith Lia.
From Stdlib Require Import Strings.Byte.
From S2P Require Import Prelude Bytes Types CommitmentScheme CommitmentMap IndexMap OnChainTable.
From S2P Require Import ArrowConversion ProofOfSql PlainCommitment CommitmentSql.

(** ** commitment_storage_map.rs: byte forms *)

Definition TABLE_COMMITMENT_MAX_LENGTH : Z := 45328.

Inductive TableCommitmentToBytesError :=
| TooManyColumns (num_columns : nat)
| Bincode.

Section commitment_bytes.
Context `{ProofOfSql}.

Definition table_commitment_to_bytes (C : CommitmentScheme) (value : TableCommitment C)
    : outcome TableCommitmentToBytesError TableCommitmentBytes :=
  let num_columns := length (commitment_columns C value) in
  if (MAX_COLS_PER_TABLE <? num_columns)%nat then Err (TooManyColumns num_columns)
  else
    let? bytes := ok_or (bincode_encode C value) Bincode in
    let? data := unwrap_option (try_from_large TABLE_COMMITMENT_MAX_LENGTH bytes) in
    Ok (mkTableCommitmentBytes data).

Definition commitments_to_bytes (value : PerCommitmentScheme (OptionType TableCommitment))
    : outcome TableCommitmentToBytesError TableCommitmentBytesPerCommitmentScheme :=
  let? l := collect_any (T := TableCommitment) (U := ConcreteType TableCommitmentBytes)
    table_commitment_to_bytes (into_flat_iter value) in
  Ok (per_from_iter l).

Definition table_commitment_from_bytes (C : CommitmentScheme) (value : TableCommitmentBytes)
    : outcome unit (TableCommitment C) :=
  ok_or (bincode_decode C (commitment_data value)) tt.

Definition commitments_from_bytes (value : TableCommitmentBytesPerCommitmentScheme)
    : outcome unit (PerCommitmentScheme (OptionType TableCommitment)) :=
  let? l := collect_any (T := ConcreteType TableCommitmentBytes) (U := TableCommitment)
    table_commitment_from_bytes (into_flat_iter value) in
  Ok (per_from_iter l).
End commitment_bytes.

(** ** sxt-core/native.rs *)

Record OnChainTableBytes := mkOnChainTableBytes { on_chain_table_data : RowData }.

(** The postcard crate on tables: writing the map of a table, and reading a map
    of distinct keys. *)
Class Postcard := {
  to_allocvec : OnChainTable -> option bytes;
  from_bytes : bytes -> option (list (Ident * OnChainColumn));
}.

Class PostcardLaws `{Postcard} := {
  postcard_round_trip t b : NoDup (imap_keys t) -> to_allocvec t = Some b -> from_bytes b = Some t;
}.

Inductive OnChainTableToBytesError := Serialize | ExceedsMaxSize.

Section table_bytes.
Context `{UnicodeData} `{Postcard}.

(** [impl Deserialize for OnChainTable], through [try_from_iter]. *)
Definition deserialize_on_chain_table (b : bytes) : option OnChainTable :=
  map ← from_bytes b;
  match try_from_iter map with
  | Ok t => Some t
  | _ => None
  end.

Definition on_chain_table_try_from_bytes (value : OnChainTableBytes) : outcome unit OnChainTable :=
  ok_or (deserialize_on_chain_table (on_chain_table_data value)) tt.

Definition on_chain_table_try_into_bytes (value : OnChainTable)
    : outcome OnChainTableToBytesError OnChainTableBytes :=
  let? bytes := ok_or (to_allocvec value) Serialize in
  let? data := ok_or (try_from_large DATA_MAX_LEN bytes) ExceedsMaxSize in
  Ok (mkOnChainTableBytes data).
End table_bytes.

Definition native_error_of_column (error : ArrowToOnChainColumnError) : NativeError :=
  match error with
  | UnsupportedType _ => RecordBatchUnsupportedType
  | UnsupportedNull => RecordBatchContainsNulls
  | InvalidTimestamp => RecordBatchInvalidTimezone
  | UnexpectedSchemaDataMismatch => RecordBatchUnexpectedSchemaDataMismatch
  end.

Definition native_error_of_table (error : ArrowToOnChainTableError) : NativeError :=
  match error with
  | ArrowColumn error => native_error_of_column error
  | DuplicateIdentifier => RecordBatchDuplicateIdentifiers
  end.

Definition native_error_of_table_bytes (_ : OnChainTableToBytesError) : NativeError :=
  SerializationError.
Definition commitment_error_of_table_bytes (_ : OnChainTableToBytesError) : NativeCommitmentError :=
  TableSerialization.
Definition commitment_error_of_commitment_bytes (_ : TableCommitmentToBytesError)
    : NativeCommitmentError :=
  CommitmentSerialization.

(** ** native/sxt.rs *)

(** Arrow's [StreamReader]: opening a stream, and the batches it yields. *)
Class StreamReader := { read_stream : bytes -> option (list (option (list (bytes * ArrayRef)))) }.

Section interface.
Context `{UnicodeData} `{Postcard} `{ArrowLibrary} `{StreamReader} `{ProofOfSql}.
(** [PUBLIC_SETUPS], filled in before the runtime interface is called. *)
Context (PUBLIC_SETUPS : option (PerCommitmentScheme PublicSetup)).

Definition record_batch_to_onchain (row_data : RowData) : outcome NativeError OnChainTableBytes :=
  let? reader := ok_or (read_stream row_data) DeserializationError in
  let? next := ok_or (head reader) EmptyRecordBatchError in
  let? batch := ok_or next BatchReadError in
  let? on_chain_table := map_err native_error_of_table (table_try_from_batch batch) in
  map_err native_error_of_table_bytes (on_chain_table_try_into_bytes on_chain_table).

(** The second and third version of the call.  The second takes a statement that it does not
    look at; the third, which the runtime calls, is the first again. *)
Definition record_batch_to_onchain_version_2 (row_data : RowData) (_create_statement : CreateStatement)
    : outcome NativeError OnChainTableBytes :=
  let? reader := ok_or (read_stream row_data) DeserializationError in
  let? next := ok_or (head reader) EmptyRecordBatchError in
  let? batch := ok_or next BatchReadError in
  let? on_chain_table := map_err native_error_of_table (table_try_from_batch batch) in
  map_err native_error_of_table_bytes (on_chain_table_try_into_bytes on_chain_table).

Definition record_batch_to_onchain_version_3 (row_data : RowData) : outcome NativeError OnChainTableBytes :=
  let? reader := ok_or (read_stream row_data) DeserializationError in
  let? next := ok_or (head reader) EmptyRecordBatchError in
  let? batch := ok_or next BatchReadError in
  let? on_chain_table := map_err native_error_of_table (table_try_from_batch batch) in
  map_err native_error_of_table_bytes (on_chain_table_try_into_bytes on_chain_table).

Definition native_process_insert (table_identifier : TableIdentifier)
    (insert_data_bytes : OnChainTableBytes)
    (previous_commitments_bytes : TableCommitmentBytesPerCommitmentScheme)
    : outcome NativeCommitmentError (OnChainTableBytes * TableCommitmentBytesPerCommitmentScheme) :=
  let? insert_data := map_err (fun _ => TableDeserialization)
    (on_chain_table_try_from_bytes insert_data_bytes) in
  let? previous_commitments := map_err (fun _ => CommitmentDeserialization)
    (commitments_from_bytes previous_commitments_bytes) in
  let? setups := unwrap_option PUBLIC_SETUPS in
  let? (metadata, new_commitments) := map_err native_error_of_process_insert
    (process_insert table_identifier insert_data previous_commitments setups) in
  let? table_bytes := map_err commitment_error_of_table_bytes
    (on_chain_table_try_into_bytes (insert_with_meta_columns metadata)) in
  let? data := map_err commitment_error_of_commitment_bytes
    (commitments_to_bytes new_commitments) in
  Ok (table_bytes, data).
End interface.

(** ** native-api: the trait and its implementation *)

Class NativeApi := {
  api_record_batch_to_onchain : RowData -> outcome NativeError OnChainTableBytes;
  api_process_insert : TableIdentifier -> OnChainTableBytes ->
    TableCommitmentBytesPerCommitmentScheme ->
    outcome NativeCommitmentError (OnChainTableBytes * TableCommitmentBytesPerCommitmentScheme);
}.

(** What the pallets rely on: the commitments that come back are of the schemes
    that went in. *)
Class NativeApiLaws `{NativeApi} := {
  process_insert_same_schemes table data previous data' new :
    api_process_insert table data previous = Ok (data', new) -> to_flags new = to_flags previous;
}.

Definition Api `{UnicodeData} `{Postcard} `{ArrowLibrary} `{StreamReader} `{ProofOfSql}
    (PUBLIC_SETUPS : option (PerCommitmentScheme PublicSetup)) : NativeApi := {|
  api_record_batch_to_onchain := record_batch_to_onchain;
  api_process_insert := native_process_insert PUBLIC_SETUPS;
|}.

(** ** Lemmas *)

(** Two collections with the same schemes present. *)
Lemma to_flags_matching {T U : GenericOverCommitment} (p : PerCommitmentScheme (OptionType T))
    (q : PerCommitmentScheme (OptionType U)) :
  (forall C, match per_get p C, per_get q C with
             | Some _, Some _ | None, None => True
             | _, _ => False
             end) -> to_flags p = to_flags q.
Proof.
  intros Hpq. apply flags_ext. intros C. specialize (Hpq C). apply eq_bool_prop_intro.
  rewrite !Is_true_true, !to_flags_spec, !is_Some_alt. by repeat case_match.
Qed.

Section lemmas.
Context `{ProofOfSql}.

Lemma commitments_to_bytes_ok p b :
  commitments_to_bytes p = Ok b ->
  forall C, match per_get p C, per_get b C with
            | Some c, Some x => table_commitment_to_bytes C c = Ok x
            | None, None => True
            | _, _ => False
            end.
Proof. intros (l & Hl & [= <-])%obind_ok. by apply collect_any_ok. Qed.

Lemma commitments_from_bytes_ok b p :
  commitments_from_bytes b = Ok p ->
  forall C, match per_get b C, per_get p C with
            | Some x, Some c => bincode_decode C (commitment_data x) = Some c
            | None, None => True
            | _, _ => False
            end.
Proof.
  intros (l & Hl & [= <-])%obind_ok C.
  pose proof (collect_any_ok _ _ _ Hl C) as Hok. cbn beta in Hok.
  destruct (per_get b C), (per_get (per_from_iter l) C); try done. by apply ok_or_ok in Hok.
Qed.

Lemma table_commitment_to_bytes_ok C c x :
  table_commitment_to_bytes C c = Ok x ->
  (length (commitment_columns C c) <= MAX_COLS_PER_TABLE)%nat /\
  bincode_encode C c = Some (commitment_data x) /\
  Z.of_nat (length (commitment_data x)) <= TABLE_COMMITMENT_MAX_LENGTH.
Proof.
  unfold table_commitment_to_bytes. destruct (Nat.ltb_spec MAX_COLS_PER_TABLE
    (length (commitment_columns C c))); [done|].
  intros (b & Hb%ok_or_ok & (d & Hd & [= <-])%obind_ok)%obind_ok.
  unfold unwrap_option in Hd. case_match; simplify_eq/=.
  match goal with Hl : try_from_large _ _ = _ |- _ => apply try_from_large_some in Hl as [-> ?] end. split_and!; done.
Qed.

Lemma commitments_bytes_round_trip_aux `{!ProofOfSqlLaws} p b :
  commitments_to_bytes p = Ok b -> commitments_from_bytes b = Ok p.
Proof.
  intros Hb. pose proof (commitments_to_bytes_ok _ _ Hb) as Hok.
  assert (forall C x, per_get b C = Some x -> exists c, per_get p C = Some c /\
    table_commitment_from_bytes C x = Ok c) as Hdec.
  { intros C x Hx. specialize (Hok C). rewrite Hx in Hok. destruct (per_get p C) as [c|]; [|done].
    exists c. split; [done|]. apply table_commitment_to_bytes_ok in Hok as (_ & He & _).
    unfold table_commitment_from_bytes. by rewrite (bincode_round_trip _ _ _ He). }
  destruct (collect_any_total (T := ConcreteType TableCommitmentBytes) (U := TableCommitment)
    table_commitment_from_bytes b) as [l Hl].
  { intros C x Hx. destruct (Hdec C x Hx) as (c & _ & Hc). eauto. }
  unfold commitments_from_bytes. rewrite Hl. cbn [obind]. f_equal. apply per_ext. intros C.
  pose proof (collect_any_ok _ _ _ Hl C) as Hc. cbn beta in Hc. specialize (Hok C).
  destruct (per_get b C) as [x|] eqn:Hx.
  - destruct (Hdec C x Hx) as (c & -> & Hc'). destruct (per_get (per_from_iter l) C); [|done].
    congruence.
  - destruct (per_get p C); [done|]. by destruct (per_get (per_from_iter l) C).
Qed.
End lemmas.

Lemma deserialize_wf `{UnicodeLaws} `{Postcard} b t :
  deserialize_on_chain_table b = Some t -> table_wf t.
Proof.
  unfold deserialize_on_chain_table. intros (m & _ & Ht)%bind_Some.
  destruct (try_from_iter m) as [t'|e|] eqn:Hm; simplify_eq. by eapply try_from_iter_ok_wf.
Qed.

(** The implementation of the trait keeps its promise. *)
Lemma native_process_insert_ok `{UnicodeData} `{Postcard} `{ProofOfSql} setups table data
    (previous : TableCommitmentBytesPerCommitmentScheme) data' new :
  native_process_insert setups table data previous = Ok (data', new) ->
  exists t prev s m next,
    deserialize_on_chain_table (on_chain_table_data data) = Some t /\
    commitments_from_bytes previous = Ok prev /\ setups = Some s /\
    process_insert table t prev s = Ok (m, next) /\
    on_chain_table_try_into_bytes (insert_with_meta_columns m) = Ok data' /\
    commitments_to_bytes next = Ok new.
Proof.
  unfold native_process_insert.
  intros (t & Ht%map_err_ok%ok_or_ok & (prev & Hprev%map_err_ok & Hrun)%obind_ok)%obind_ok.
  apply obind_ok in Hrun as (s & Hs & ([m next] & Hins%map_err_ok & Hrun)%obind_ok).
  apply obind_ok in Hrun as (b & Hb%map_err_ok & (d & Hd%map_err_ok & [= <- <-])%obind_ok).
  exists t, prev, s, m, next. destruct setups; simplify_eq/=. done.
Qed.

#[global] Instance Api_laws `{UnicodeData} `{Postcard} `{ArrowLibrary} `{StreamReader} `{ProofOfSql}
    setups : @NativeApiLaws (Api setups).
Proof.
  split. intros table data previous data' new Hrun.
  apply native_process_insert_ok in Hrun
    as (t & prev & s & m & next & _ & Hprev & _ & Hins & _ & Hnew).
  transitivity (to_flags next).
  - symmetry. apply to_flags_matching. intros C. pose proof (commitments_to_bytes_ok _ _ Hnew C).
    by repeat case_match.
  - rewrite (process_insert_flags _ _ _ _ _ _ Hins). symmetry. apply to_flags_matching. intros C.
    pose proof (commitments_from_bytes_ok _ _ Hprev C). by repeat case_match.
Qed.

(** The byte form of commitments is lossless: what is stored for a table
    decodes to the commitments it was written from. *)
Theorem commitments_bytes_round_trip `{ProofOfSqlLaws} p b :
  commitments_to_bytes p = Ok b -> commitments_from_bytes b = Ok p.
Proof. apply commitments_bytes_round_trip_aux. Qed.

Lemma on_chain_table_bytes_back `{UnicodeData} `{PostcardLaws} t b t' :
  table_wf t -> on_chain_table_try_into_bytes t = Ok b ->
  deserialize_on_chain_table (on_chain_table_data b) = Some t' -> t' = t.
Proof.
  intros Hwf (raw & Hraw%ok_or_ok & (d & Hd%ok_or_ok & [= <-])%obind_ok)%obind_ok.
  apply try_from_large_some in Hd as [-> _]. simpl. unfold deserialize_on_chain_table.
  rewrite (postcard_round_trip t raw (proj1 (proj2 Hwf)) Hraw).
  unfold base.mbind, option_bind. rewrite try_from_iter_id by done. by intros [= <-].
Qed.

(** The byte form of tables: a well-formed table reads back as it was
    written, and whatever reads back is well formed, even from bytes that no
    table was written to. *)
Theorem on_chain_table_bytes_round_trip `{UnicodeLaws} `{PostcardLaws} :
  (forall t b, table_wf t -> on_chain_table_try_into_bytes t = Ok b ->
    on_chain_table_try_from_bytes b = Ok t) /\
  (forall b t, on_chain_table_try_from_bytes b = Ok t -> table_wf t).
Proof.
  split.
  - intros t b Hwf (raw & Hraw%ok_or_ok & (d & Hd%ok_or_ok & [= <-])%obind_ok)%obind_ok.
    apply try_from_large_some in Hd as [-> _]. unfold on_chain_table_try_from_bytes. simpl.
    unfold deserialize_on_chain_table. rewrite (postcard_round_trip t raw (proj1 (proj2 Hwf)) Hraw).
    unfold base.mbind, option_bind. by rewrite try_from_iter_id.
  - intros b t Ht%ok_or_ok. by eapply deserialize_wf.
Qed.

(** ** Instances to run the definitions on *)

Definition column_data_code (c : OnChainColumn)
    : Z * PoSQLTimeUnit * option Z * Z * Z * list bool * list Z * list bytes :=
  match c with
  | Boolean l => (0, Second, None, 0, 0, l, [], [])
  | UnsignedTinyInt l => (1, Second, None, 0, 0, [], l, [])
  | TinyInt l => (2, Second, None, 0, 0, [], l, [])
  | SmallInt l => (3, Second, None, 0, 0, [], l, [])
  | Int l => (4, Second, None, 0, 0, [], l, [])
  | BigInt l => (5, Second, None, 0, 0, [], l, [])
  | Int128 l => (6, Second, None, 0, 0, [], l, [])
  | VarChar l => (7, Second, None, 0, 0, [], [], l)
  | Decimal75 p s l => (8, Second, None, p, s, [], l, [])
  | TimestampTZ u tz l => (9, u, tz, 0, 0, [], l, [])
  | VarBinary l => (10, Second, None, 0, 0, [], [], l)
  end.

Definition column_data_of_code
    (p : Z * PoSQLTimeUnit * option Z * Z * Z * list bool * list Z * list bytes) : OnChainColumn :=
  let '(k, u, tz, a, b, bools, l, words) := p in
  match k with
  | 0 => Boolean bools
  | 1 => UnsignedTinyInt l
  | 2 => TinyInt l
  | 3 => SmallInt l
  | 4 => Int l
  | 5 => BigInt l
  | 6 => Int128 l
  | 7 => VarChar words
  | 8 => Decimal75 a b l
  | 9 => TimestampTZ u tz l
  | _ => VarBinary words
  end.

#[global] Instance OnChainColumn_countable : Countable OnChainColumn.
Proof. refine (inj_countable' column_data_code column_data_of_code _). by intros []. Defined.

Definition plain_postcard : Postcard := {|
  to_allocvec t := Some (positive_bytes (encode t));
  from_bytes b := decode (bytes_positive b);
|}.

Lemma plain_postcard_laws : @PostcardLaws plain_postcard.
Proof. split. intros t b _ [= <-]. simpl. rewrite bytes_positive_of. apply decode_encode. Qed.

(** A stream that holds the batch of a written table. *)
Definition plain_reader `{Postcard} `{ArrowLibrary} : StreamReader := {|
  read_stream b :=
    t ← from_bytes b;
    match table_into_batch (E:=unit) t with
    | Ok batch => Some [Some batch]
    | _ => Some []
    end;
|}.

#[local] Existing Instances plain_postcard plain_postcard_laws.
#[local] Existing Instances plain_arrow plain_arrow_laws.
#[local] Existing Instance plain_reader.
#[local] Existing Instances ascii_unicode ascii_unicode_laws.
#[local] Existing Instances plain_proof_of_sql plain_laws.

Definition plain_api : NativeApi := Api (Some sample_setups).

Lemma commitments_bytes_round_trip_witness :
  match commitments_to_bytes sample_commitments with
  | Ok b => commitments_from_bytes b = Ok sample_commitments
  | _ => False
  end.
Proof.
  destruct (commitments_to_bytes sample_commitments) as [b|e|] eqn:Hb;
    [|vm_compute in Hb; discriminate..].
  exact (commitments_bytes_round_trip _ _ Hb).
Defined.

Lemma on_chain_table_bytes_round_trip_witness :
  match on_chain_table_try_into_bytes sample_table with
  | Ok b => on_chain_table_try_from_bytes b = Ok sample_table
  | _ => False
  end.
Proof.
  destruct (on_chain_table_try_into_bytes sample_table) as [b|e|] eqn:Hb;
    [|vm_compute in Hb; discriminate..].
  exact (proj1 on_chain_table_bytes_round_trip _ _ sample_table_wf Hb).
Defined.

(** A record batch goes through the reader and an insert through the host
    function. *)
Example native_insert_runs :
  match on_chain_table_try_into_bytes sample_table, commitments_to_bytes sample_commitments with
  | Ok t, Ok c =>
      match record_batch_to_onchain (on_chain_table_data t) with
      | Ok data => is_ok (native_process_insert (Some sample_setups) sample_table_identifier data c)
      | _ => false
      end
  | _, _ => false
  end = true.
Proof. vm_compute. reflexivity. Qed.
