(* ===== verification/ColumnOrder.v ===== *)
(** * Order of the columns

    A table is a map from identifiers to columns that remembers the order of
    insertion.  Here the order is abstracted from: [table_equiv] relates
    well-formed tables with the same columns in any order.  It is a partial
    equivalence (its domain are the tables that the code can build), the
    operations on tables respect it as [Proper] instances, and so does the
    processing of an insert, whose result does not depend on the order in which
    the submitter wrote the columns, errors included. *)

From stdpp Require Import base tactics list option sets.
From Stdlib Require Import ZArith Lia.
From Stdlib Require Import Strings.Byte.
From S2P Require Import Prelude Bytes IndexMap Types OnChainTable CommitmentScheme CommitmentMap ProofOfSql PlainCommitment CommitmentSql Native.

(** ** The equivalence *)

Definition table_equiv `{UnicodeData} (t t' : OnChainTable) : Prop := table_wf t /\ t ≡ₚ t'.

Section equivalence.
Context `{UnicodeData}.
Implicit Types (t : OnChainTable) (order : list Ident).

#[export] Instance table_equiv_sym : Symmetric table_equiv.
Proof. intros t t' [Hwf Hp]. split; [|done]. by apply (table_wf_perm t). Qed.

#[export] Instance table_equiv_trans : Transitive table_equiv.
Proof. intros t1 t2 t3 [Hwf Hp] [_ Hp']. split; [done|]. by rewrite Hp. Qed.

Lemma table_equiv_wf t t' : table_equiv t t' -> table_wf t /\ table_wf t'.
Proof. intros Ht. split; [apply Ht|]. symmetry in Ht. apply Ht. Qed.

Lemma table_equiv_nodup t t' : table_equiv t t' -> NoDup (imap_keys t).
Proof. intros [(_ & Hnd & _) _]. exact Hnd. Qed.

#[export] Instance imap_get_proper : Proper (table_equiv ==> (=) ==> (=)) imap_get.
Proof.
  intros t t' Ht k _ <-. symmetry. apply imap_get_perm; [by eapply table_equiv_nodup|].
  symmetry. apply Ht.
Qed.

#[export] Instance num_rows_proper {E} : Proper (table_equiv ==> (=)) (@num_rows E).
Proof.
  intros t t' Ht. destruct (table_equiv_wf _ _ Ht) as [(Hne & _ & [n Hn] & _) (Hne' & _)].
  rewrite (num_rows_wf t n), (num_rows_wf t' n); [done..| |done|done].
  destruct Ht as [_ Hp]. by rewrite <- Hp.
Qed.

#[export] Instance get_decimal_proper : Proper (table_equiv ==> (=) ==> (=)) get_decimal_by_column.
Proof. intros t t' Ht n _ <-. unfold get_decimal_by_column. by rewrite Ht. Qed.

#[export] Instance get_bytes_proper : Proper (table_equiv ==> (=) ==> (=)) get_bytes_by_column.
Proof. intros t t' Ht n _ <-. unfold get_bytes_by_column. by rewrite Ht. Qed.

#[export] Instance get_varchars_proper : Proper (table_equiv ==> (=) ==> (=)) get_varchars_by_column.
Proof. intros t t' Ht n _ <-. unfold get_varchars_by_column. by rewrite Ht. Qed.

#[export] Instance max_block_number_proper : Proper (table_equiv ==> (=)) max_block_number.
Proof. intros t t' Ht. unfold max_block_number. by rewrite Ht. Qed.

#[export] Instance with_column_order_proper :
  Proper (table_equiv ==> (=) ==> table_equiv) with_column_order.
Proof.
  intros t t' Ht order _ <-. destruct (table_equiv_wf _ _ Ht) as [Hwf Hwf'].
  split; [by apply with_column_order_wf|].
  rewrite !with_column_order_perm; [apply Ht|apply Hwf'|apply Hwf].
Qed.

(** The columns that an order names come out the same, the others permuted. *)
Lemma take_in_order_proper t t' order taken rest taken' rest' :
  NoDup (imap_keys t) -> t ≡ₚ t' ->
  take_in_order t order = (taken, rest) -> take_in_order t' order = (taken', rest') ->
  taken = taken' /\ rest ≡ₚ rest'.
Proof.
  revert t t' taken taken'. induction order as [|k order IH]; intros t t' taken taken' Hnd Hp; simpl.
  { intros [= <- <-] [= <- <-]. done. }
  assert (NoDup (imap_keys t')) as Hnd' by (unfold imap_keys; by rewrite <- Hp).
  rewrite !imap_shift_remove_spec by done. rewrite (imap_get_perm t t') by done.
  destruct (take_in_order (filter _ t) order) as [tk r] eqn:Ht.
  destruct (take_in_order (filter _ t') order) as [tk' r'] eqn:Ht'.
  intros [= <- <-] [= <- <-].
  destruct (IH _ _ _ _ (imap_filter_nodup _ _ Hnd) (filter_Permutation _ _ _ Hp) Ht Ht') as [-> Hr].
  done.
Qed.

(** Two equivalent tables put in one order are equal, or have columns that the
    order does not name. *)
Lemma with_column_order_cases t t' order :
  table_equiv t t' -> NoDup order ->
  with_column_order t order = with_column_order t' order \/
  imap_keys (with_column_order t order) <> order /\ imap_keys (with_column_order t' order) <> order.
Proof.
  intros Ht Ho. destruct (table_equiv_wf _ _ Ht) as [(_ & Hnd & _) (_ & Hnd' & _)].
  destruct (take_in_order t order) as [taken rest] eqn:Hk.
  destruct (take_in_order t' order) as [taken' rest'] eqn:Hk'.
  destruct (take_in_order_proper _ _ _ _ _ _ _ Hnd (proj2 Ht) Hk Hk') as [<- Hr].
  rewrite (with_column_order_app _ _ _ _ Hnd Hk), (with_column_order_app _ _ _ _ Hnd' Hk').
  destruct (take_in_order_spec _ _ _ _ Hnd Ho Hk) as [_ Hrest].
  destruct (take_in_order_spec _ _ _ _ Hnd' Ho Hk') as [_ Hrest'].
  assert (forall p s r (u : OnChainTable), p ∈ r -> r = filter (fun p => p.1 ∉ order) u ->
    imap_keys (s ++ r) <> order) as Hextra.
  { intros p s r u Hin -> Heq. pose proof Hin as [Hno _]%list_elem_of_filter. apply Hno.
    rewrite <- Heq. unfold imap_keys. rewrite fmap_app, elem_of_app. right.
    by apply list_elem_of_fmap_2. }
  destruct rest as [|p rest].
  - apply Permutation_nil_l in Hr as ->. by left.
  - right. split; [eapply (Hextra p); [left|exact Hrest]|].
    eapply (Hextra p); [|exact Hrest']. rewrite <- Hr. left.
Qed.

(** Whether a table can be committed to is a question of each column alone. *)
Lemma iter_committable_perm `{Scalar} t t' rows :
  t ≡ₚ t' -> iter_committable t = Ok rows -> exists rows', iter_committable t' = Ok rows'.
Proof.
  intros Hp Hok%collect_ok. unfold iter_committable. set (f := fun '(id, column) => _) in *.
  assert (forall x, x ∈ t' -> exists y, f x = Ok y) as Hall.
  { intros x Hx. rewrite <- Hp in Hx. apply list_elem_of_lookup in Hx as [i Hi].
    destruct (Forall2_lookup_l _ _ _ _ _ Hok Hi) as (y & _ & Hy). by exists y. }
  destruct (collect f t') as [l|e|] eqn:Hc; [by exists l| |].
  - apply collect_err in Hc as (x & [y Hy]%Hall & Hx). congruence.
  - apply collect_panic in Hc as (x & [y Hy]%Hall & Hx). congruence.
Qed.
End equivalence.

(** ** Inserts *)

Section inserts.
Context `{UnicodeData} `{ProofOfSqlLaws}.
Implicit Types (t : OnChainTable).

(** What appending a table with other columns than the commitment's gives. *)
Definition append_refused `{Scalar} t : AppendOnChainTableError :=
  match iter_committable t with
  | Err e => AppendOutOfScalarBounds e
  | _ => AppendColumnCommitmentsMismatch
  end.

Lemma append_refused_perm `{Scalar} t t' : t ≡ₚ t' -> append_refused t = append_refused t'.
Proof.
  intros Hp. unfold append_refused.
  pose proof (iter_committable_no_panic t) as Hn. pose proof (iter_committable_no_panic t') as Hn'.
  destruct (iter_committable t) as [rows|[]|] eqn:Ht; [|destruct (iter_committable t') as [rows|[]|] eqn:Ht'|done];
    [|symmetry in Hp|done..].
  - by destruct (iter_committable_perm _ _ _ Hp Ht) as [rows' ->].
  - destruct (iter_committable_perm _ _ _ Hp Ht') as [rows' ?]. congruence.
Qed.

Lemma append_other_columns t C setup c cols :
  commits_to C setup c cols -> table_wf t -> imap_keys t <> fst <$> cols ->
  append_on_chain_table_to_table_commitment t C (c, setup) =
    Err (@append_refused (commitment_scalar C) t).
Proof.
  intros Hc Hwf Hk. unfold append_on_chain_table_to_table_commitment, append_refused.
  pose proof (@iter_committable_no_panic (commitment_scalar C) t) as Hn.
  destruct (iter_committable t) as [rows|e|] eqn:Hr; [|done|done]. simpl.
  pose proof (iter_committable_wf _ _ Hwf Hr) as Hrwf.
  destruct (try_append_rows C c rows setup) as [c'|e|] eqn:Ha.
  - destruct (append_commits _ _ _ _ _ _ Hc Hrwf Ha) as (cols' & [Hkeys _]%append_tables_keys & _).
    rewrite (iter_committable_keys _ _ Hr) in Hkeys. done.
  - by rewrite (append_wf _ _ _ _ _ Hrwf Ha).
  - by apply append_no_panic in Ha.
Qed.

(** Put in the order of a commitment, equivalent tables are equal or refused alike. *)
Lemma append_column_order t t' C setup c cols :
  table_equiv t t' -> commits_to C setup c cols ->
  let order := commitment_columns C c in
  with_column_order t order = with_column_order t' order \/
  exists e, append_on_chain_table_to_table_commitment (with_column_order t order) C (c, setup) = Err e /\
            append_on_chain_table_to_table_commitment (with_column_order t' order) C (c, setup) = Err e.
Proof.
  intros Ht Hc order. assert (order = fst <$> cols) as Ho by (by eapply commits_to_order).
  destruct (with_column_order_cases t t' order) as [Heq|[Hne Hne']];
    [done|rewrite Ho; apply Hc|by left|]. right.
  destruct (table_equiv_wf _ _ Ht) as [Hwf Hwf']. rewrite Ho in *.
  exists (@append_refused (commitment_scalar C) (with_column_order t (fst <$> cols))).
  rewrite !(append_other_columns _ _ _ _ _ Hc) by (done || by apply with_column_order_wf).
  split; [done|]. f_equal. symmetry. apply append_refused_perm, (with_column_order_proper _ _ Ht _ _ eq_refl).
Qed.

(** The processing of an insert does not depend on the order of its columns: for two
    tables with the same columns in any order, the commitments, the rows that are stored
    and the errors are the same. *)
Theorem insert_column_order tid ins ins'
    (prev : PerCommitmentScheme (OptionType TableCommitment)) (setups : PerCommitmentScheme PublicSetup) :
  table_equiv ins ins' ->
  (forall C c, per_get prev C = Some c -> exists cols, commits_to C (per_get setups C) c cols) ->
  process_insert tid ins prev setups = process_insert tid ins' prev setups.
Proof.
  intros Ht Hprev. unfold process_insert, get_table_commitment_range_end, get_column_order.
  rewrite (read_off_id range_end), (read_off_id commitment_columns).
  pose proof (Hprev HyperKzg) as H3. pose proof (Hprev DynamicDory) as H4.
  destruct prev as [[c1|] [c2|]]; simpl in *; [| | |done].
  1: do 2 (case_bool_decide; simpl; [|done]).
  1-2: destruct (H3 c1 eq_refl) as [cols Hc].
  3: destruct (H4 c2 eq_refl) as [cols Hc].
  all: destruct (append_column_order _ _ _ _ _ _ Ht Hc) as [->|(e & He & He')]; [done|].
  all: unfold collect_any; simpl; by rewrite He, He'.
Qed.
End inserts.

(** ** Examples *)

Section examples.
#[local] Existing Instance ascii_unicode.
#[local] Existing Instance plain_proof_of_sql.
#[local] Existing Instance plain_laws.

Lemma reversed_sample_equiv : table_equiv sample_table (reverse sample_table).
Proof. split; [exact sample_table_wf|symmetry; apply reverse_Permutation]. Qed.

Lemma insert_column_order_witness :
  process_insert sample_table_identifier (reverse sample_table) sample_commitments sample_setups =
    sample_insert_result.
Proof.
  symmetry. apply (insert_column_order _ sample_table); [exact reversed_sample_equiv|].
  intros C c Hc. exists sample_columns.
  destruct C; simpl in Hc; injection Hc as <-; apply (sample_commits_to _).
Defined.
End examples.
