(* ===== verification/Runtime.v ===== *)
(** * The runtime: configuration, storage, events and errors

    Each pallet of the workspace has its [Error] and [Event] enums and its
    storage items here, in a Module named like its crate; [Storage] gathers the
    storage of all of them, because pallets call each other on one state.  A
    storage map is a [gmap], a double map a [gmap] on pairs of keys.  The file
    ends with the parts of FRAME the pallets are written against: origins,
    [ensure_signed], [ensure_root], [deposit_event] and the dispatch of an
    extrinsic, which undoes the writes of a failed call. *)

From stdpp Require Import base tactics list option gmap numbers.
From Stdlib Require Import ZArith Lia.
From Stdlib Require Import Strings.Byte.
From S2P Require Import Prelude Bytes Types CommitmentScheme CommitmentMap.

(** ** The configuration

    [AccountId], [Hash] and the hasher are associated types of
    [frame_system::Config]; the SCALE encodings are the codec crate's; [Ext] is
    the state of the staking, balances and session pallets, which are not part
    of the workspace. *)

Class Config := {
  AccountId : Type;
  AccountId_eq_dec :: EqDecision AccountId;
  AccountId_countable :: Countable AccountId;
  account_le : AccountId -> AccountId -> Prop;
  account_le_dec :: RelDecision account_le;
  account_le_total :: Total account_le;
  account_le_trans :: Transitive account_le;
  account_le_antisymm :: AntiSymm (=) account_le;
  Hash : Type;
  Hash_eq_dec :: EqDecision Hash;
  Hash_countable :: Countable Hash;
  hashing : bytes -> Hash;
  encode_account : AccountId -> bytes;
  decode_account : bytes -> option AccountId;
  encode_submission : bytes * option Z -> bytes;
  Ext : Type;
}.

(** ** pallet_permissions *)

Module pallet_permissions.
Inductive Error :=
| InsufficientPermissions
| EmptyPermissionsListError
| UnsignedTransaction
| PermissionsBadOrigin
| PermissionAlreadyExists
| PermissionListFull.

Inductive Event `{Config} :=
| PermissionsSet (who : AccountId) (permissions : PermissionList).

Record Storage `{Config} := mkStorage { Permissions : gmap AccountId PermissionList }.
End pallet_permissions.

(** ** pallet_keystore *)

Module pallet_keystore.
Inductive Error :=
| VerificationError
| AccountAlreadyRegistered
| KeyNotFound
| NoKeysRegistered
| NoEthereumKeyRegistered
| EthereumKeyAlreadyRegistered
| SignatureVerificationFailed
| KeyMismatch.

Inductive Event `{Config} :=
| EthereumKeyRegistered (who : AccountId) (key : EthereumKey)
| EthereumKeyRemoved (who : AccountId).

Record Storage `{Config} := mkStorage { Keys : gmap AccountId UserKeystore }.
End pallet_keystore.

(** ** pallet_attestation *)

Module pallet_attestation.
Inductive Error :=
| VerificationError
| MaxAttestationKeys
| PublicKeyAlreadyRegistered
| AccountIdAlreadyLinked
| InsufficientPermissions
| AttestationSignatureError
| MaxAttestationsForBlockError
| AttestationAlreadyRecordedError
| CannotAttestFutureBlock
| CannotAttestCurrentBlock
| KeyNotFound.

Inductive Event `{Config} :=
| BlockAttested (block_number : Z) (attestation : Attestation Hash) (who : AccountId).

Record Storage `{Config} := mkStorage {
  AttestationKeys : list (AccountId * AttestationKey);
  Attestations : gmap Z (list (Attestation Hash));
  LastForwardedBlock : option Z;
}.
Definition set_Attestations `{Config} v (s : Storage) : Storage :=
  mkStorage _ (AttestationKeys s) v (LastForwardedBlock s).
Definition set_LastForwardedBlock `{Config} v (s : Storage) : Storage :=
  mkStorage _ (AttestationKeys s) (Attestations s) v.
End pallet_attestation.

(** ** pallet_commitments *)

Module pallet_commitments.
Inductive Error :=
| CommitmentWithTooManyColumns
| SerializeCommitment
| DeserializeCommitment
| SerializeInsertData
| DeserializeInsertData
| InappropriateSnapshotCommitments
| CreateTableWithNoColumns
| CreateTableWithInvalidTableIdentifierCount
| CreateTableWithDuplicateIdentifiers
| CreateTableWithReservedMetadataPrefix
| DecimalColumnWithoutPrecision
| DecimalColumnWithInvalidPrecision
| DecimalColumnWithInvalidScale
| SupportedColumnWithUnsupportedParameter
| ColumnWithUnsupportedDataType
| ColumnWithoutNotNull
| ColumnWithUnsupportedOption
| NativeSerializeCommitment
| NativeDeserializeCommitment
| NativeSerializeInsertData
| NativeDeserializeInsertData
| ExistingCommitmentsRangeMismatch
| ExistingCommitmentsColumnOrderMismatch
| NoExistingCommitments
| InsertDataOutOfBounds
| InsertDataDoesntMatchExistingCommitments
| TableAlreadyExists.

Record Storage := mkStorage {
  CommitmentStorageMap : commitment_storage;
  DefaultCommitmentSchemes : option CommitmentSchemeFlags;
}.
Definition set_CommitmentStorageMap v (s : Storage) : Storage :=
  mkStorage v (DefaultCommitmentSchemes s).
Definition set_DefaultCommitmentSchemes v (s : Storage) : Storage :=
  mkStorage (CommitmentStorageMap s) v.
End pallet_commitments.

(** ** pallet_tables *)

Inductive CommitmentCreationCmd :=
| FromSnapshot (url : SnapshotUrl) (commitments : TableCommitmentBytesPerCommitmentScheme)
| EmptyCommitment (flags : CommitmentSchemeFlags).

Record UpdateTable := mkUpdateTable {
  ident : TableIdentifier;
  create_statement : CreateStatement;
  table_type : TableType;
  commitment : CommitmentCreationCmd;
  table_source : Source;
}.

Record CreateTableRequest := mkCreateTableRequest {
  request_table_uuid : TableUuid;
  request_table_version : TableVersion;
  request_column_uuids : ColumnUuidList;
  request_table_name : TableIdentifier;
  request_ddl : CreateStatement;
  request_commitment : TableCommitmentBytesPerCommitmentScheme;
  request_snapshot_url : SnapshotUrl;
  request_table_type : TableType;
}.

Module pallet_tables.
Inductive Error :=
| ArrowDeserializationError
| TableIdentifierParsingError
| IdentifierAlreadyExists
| CreateStatementParseError
| VersionAlreadyExists
| NotAllSchemasRemovedError
| NotAllInsertQuorumsRemovedError
| NotAllCommitmentsRemovedError
| TableNotFound
| MissingCommitmentScheme
| BoundedVecError
| MissingSnapshot
| SchemaNameParseError
| GeneratedUuidError
| TableUUIDError
| UtfConversionError
| UUIDGenerationError.

Inductive Event `{Config} :=
| NamespaceCreated (create_schema : CreateStatement) (version : TableVersion)
    (namespace_uuid : TableUuid) (table_type : TableType) (source : Source)
| NamespaceUuidUpdated (old_uuid new_uuid : TableUuid) (version : TableVersion)
    (namespace : TableNamespace)
| TableUuidUpdated (old_uuid new_uuid : TableUuid) (version : TableVersion)
    (table : TableIdentifier)
| SchemaUpdated (owner : option AccountId) (tables : list UpdateTable)
| TablesCreatedWithCommitments (source_and_mode : SourceAndMode)
    (table_list : list CreateTableRequest)
| TableDropped (owner : option AccountId) (table_type : TableType) (ident : TableIdentifier)
    (source : Source).

Record Storage := mkStorage {
  ColumnVersions : gmap (TableIdentifier * TableVersion) ColumnUuidList;
  NamespaceVersions : gmap (TableNamespace * TableVersion) TableUuid;
  TableVersions : gmap (TableIdentifier * TableVersion) TableUuid;
  Identifiers : gmap TableType (list TableIdentifier);
  Schemas : gmap (TableNamespace * TableName) CreateStatement;
  Snapshots : gmap TableIdentifier SnapshotUrl;
  TableInsertQuorums : gmap TableIdentifier InsertQuorumSize;
  TableSources : gmap TableIdentifier Source;
}.
Definition set_ColumnVersions v (s : Storage) : Storage :=
  mkStorage v (NamespaceVersions s) (TableVersions s) (Identifiers s) (Schemas s)
    (Snapshots s) (TableInsertQuorums s) (TableSources s).
Definition set_NamespaceVersions v (s : Storage) : Storage :=
  mkStorage (ColumnVersions s) v (TableVersions s) (Identifiers s) (Schemas s)
    (Snapshots s) (TableInsertQuorums s) (TableSources s).
Definition set_TableVersions v (s : Storage) : Storage :=
  mkStorage (ColumnVersions s) (NamespaceVersions s) v (Identifiers s) (Schemas s)
    (Snapshots s) (TableInsertQuorums s) (TableSources s).
Definition set_Identifiers v (s : Storage) : Storage :=
  mkStorage (ColumnVersions s) (NamespaceVersions s) (TableVersions s) v (Schemas s)
    (Snapshots s) (TableInsertQuorums s) (TableSources s).
Definition set_Schemas v (s : Storage) : Storage :=
  mkStorage (ColumnVersions s) (NamespaceVersions s) (TableVersions s) (Identifiers s) v
    (Snapshots s) (TableInsertQuorums s) (TableSources s).
Definition set_Snapshots v (s : Storage) : Storage :=
  mkStorage (ColumnVersions s) (NamespaceVersions s) (TableVersions s) (Identifiers s) (Schemas s)
    v (TableInsertQuorums s) (TableSources s).
Definition set_TableInsertQuorums v (s : Storage) : Storage :=
  mkStorage (ColumnVersions s) (NamespaceVersions s) (TableVersions s) (Identifiers s) (Schemas s)
    (Snapshots s) v (TableSources s).
Definition set_TableSources v (s : Storage) : Storage :=
  mkStorage (ColumnVersions s) (NamespaceVersions s) (TableVersions s) (Identifiers s) (Schemas s)
    (Snapshots s) (TableInsertQuorums s) v.
End pallet_tables.

(** ** pallet_indexing (its events mention the error of another pallet, so they
    come after [DispatchError] below) *)

Module pallet_indexing.
Inductive Error :=
| UnauthorizedSubmitter
| SchemaMismatch
| NoData
| InvalidBatch
| LateBatch
| InvalidTable
| AlreadySubmitted
| NativeDeserializationError
| NativeEmptyRecordBatchError
| NativeBatchReadError
| NativeRecordBatchUnsupportedType
| NativeRecordBatchContainsNulls
| NativeRecordBatchInvalidTimezone
| NativeRecordBatchUnexpectedSchemaDataMismatch
| NativeRecordBatchDuplicateIdentifiers
| NativeSerializationError
| TableDeserializationError
| TableSerializationError.

Record Storage `{Config} := mkStorage {
  Submissions : gmap (BatchId * Hash) (SubmittersByScope AccountId);
  FinalData : gmap BatchId (DataQuorum AccountId Hash);
  BlockNumbers : gmap TableIdentifier Z;
}.
Definition set_Submissions `{Config} v (s : Storage) : Storage :=
  mkStorage _ v (FinalData s) (BlockNumbers s).
Definition set_FinalData `{Config} v (s : Storage) : Storage :=
  mkStorage _ (Submissions s) v (BlockNumbers s).
Definition set_BlockNumbers `{Config} v (s : Storage) : Storage :=
  mkStorage _ (Submissions s) (FinalData s) v.
End pallet_indexing.

(** ** pallet_smartcontracts *)

Module pallet_smartcontracts.
Inductive Error :=
| ExistingContractError
| TooManyTables
| MissingTargetSchema
| MissingDdlStatement.

Inductive Event `{Config} :=
| SmartContractAdded (owner : option AccountId) (source : Source) (address : ContractAddress)
| SmartContractRemoved (owner : option AccountId) (source : Source) (address : ContractAddress).

Record Storage := mkStorage {
  ContractStorage : gmap (Source * ContractAddress) Contract;
  ContractTables : gmap (Source * ContractAddress) (list (TableIdentifier * TableType));
}.
Definition set_ContractStorage v (s : Storage) : Storage := mkStorage v (ContractTables s).
Definition set_ContractTables v (s : Storage) : Storage := mkStorage (ContractStorage s) v.
End pallet_smartcontracts.

(** ** pallet_system_contracts *)

Module pallet_system_contracts.
Inductive Event :=
| StakingContractUpdated (contract_info : ContractInfo)
| MessagingContractUpdated (contract_info : ContractInfo).

Record Storage := mkStorage {
  StakingContract : ContractInfo;
  MessagingContract : ContractInfo;
}.
Definition set_StakingContract v (s : Storage) : Storage := mkStorage v (MessagingContract s).
Definition set_MessagingContract v (s : Storage) : Storage := mkStorage (StakingContract s) v.
End pallet_system_contracts.

(** ** pallet_system_tables *)

Module pallet_system_tables.
Inductive Error :=
| MissingExpectedField
| IncorrectFieldType
| InternalError
| InvalidSignature
| AddressMismatch
| LateNonce
| FutureNonce
| InvalidMessageFormat
| InvalidSessionKeys
| InvalidValidatorProof
| ErrorParsingNominations
| EmptyNominationSet.

Record Storage `{Config} := mkStorage {
  LastProcessedUserNonce : gmap AccountId Z;
}.
End pallet_system_tables.

(** ** pallet_rewards *)

Module pallet_rewards.
Inductive Error : Set := NoPayerSet.

Record Storage `{Config} := mkStorage {
  NextPaidEra : Z;
  PayerAccount : option AccountId;
}.
Definition set_NextPaidEra `{Config} v (s : Storage) : Storage := mkStorage _ v (PayerAccount s).
Definition set_PayerAccount `{Config} v (s : Storage) : Storage := mkStorage _ (NextPaidEra s) v.
End pallet_rewards.

(** ** Dispatch errors *)

Inductive ModuleError :=
| PermissionsError (e : pallet_permissions.Error)
| KeystoreError (e : pallet_keystore.Error)
| AttestationPalletError (e : pallet_attestation.Error)
| CommitmentsError (e : pallet_commitments.Error)
| TablesError (e : pallet_tables.Error)
| IndexingError (e : pallet_indexing.Error)
| SmartContractsError (e : pallet_smartcontracts.Error)
| SystemTablesError (e : pallet_system_tables.Error)
| RewardsError (e : pallet_rewards.Error).

(** [ExternalError] stands for the errors of the pallets outside the workspace. *)
Inductive DispatchError :=
| BadOrigin
| Other (message : bytes)
| Module (e : ModuleError)
| ExternalError (code : Z).

(** ** The remaining events *)

Module pallet_indexing_events.
Inductive Event `{Config} :=
| DataSubmitted (who : AccountId) (submission : DataSubmission Hash)
| QuorumReached (quorum : DataQuorum AccountId Hash) (data : bytes)
| SystemTableUpdate (table : TableIdentifier) (data : bytes)
| SystemTableError (table : TableIdentifier) (error : DispatchError) (data : bytes)
| QuorumEmptyBlock (table : TableIdentifier) (block_number : Z)
    (agreements dissents : gset AccountId).
End pallet_indexing_events.

Module pallet_system_tables_events.
Inductive Event `{Config} :=
| MessageReceived (sender : bytes) (payload : bytes)
| MessageProcessingError (error : DispatchError)
| ValidatorForceChilled (validator : AccountId).
End pallet_system_tables_events.

Module pallet_rewards_events.
Inductive Event `{Config} :=
| EraPaid (index : Z)
| Payout (validator : AccountId)
| Status (current_era paying_era : Z)
| PayoutError (validator : AccountId) (error : DispatchError)
| SetupError (error : DispatchError)
| PayerUpdated (payer : AccountId).
End pallet_rewards_events.

Inductive RuntimeEvent `{Config} :=
| PermissionsEvent (e : pallet_permissions.Event)
| KeystoreEvent (e : pallet_keystore.Event)
| AttestationEvent (e : pallet_attestation.Event)
| TablesEvent (e : pallet_tables.Event)
| IndexingEvent (e : pallet_indexing_events.Event)
| SmartContractsEvent (e : pallet_smartcontracts.Event)
| SystemContractsEvent (e : pallet_system_contracts.Event)
| SystemTablesEvent (e : pallet_system_tables_events.Event)
| RewardsEvent (e : pallet_rewards_events.Event).

(** ** The storage of the chain

    [events] is the log of the events handed to [frame_system::deposit_event],
    oldest first. *)

Module frame_system.
Record Storage `{Config} := mkStorage {
  block_number : Z;
  events : list RuntimeEvent;
}.
End frame_system.

Record Storage `{Config} := mkStorage {
  system : frame_system.Storage;
  permissions : pallet_permissions.Storage;
  keystore : pallet_keystore.Storage;
  attestation : pallet_attestation.Storage;
  commitments : pallet_commitments.Storage;
  tables : pallet_tables.Storage;
  indexing : pallet_indexing.Storage;
  smartcontracts : pallet_smartcontracts.Storage;
  system_contracts : pallet_system_contracts.Storage;
  system_tables : pallet_system_tables.Storage;
  rewards : pallet_rewards.Storage;
  ext : Ext;
}.

Definition with_system `{Config} v (s : Storage) : Storage :=
  mkStorage _ v (permissions s) (keystore s) (attestation s) (commitments s) (tables s) (indexing s) (smartcontracts s) (system_contracts s) (system_tables s) (rewards s) (ext s).
Definition with_permissions `{Config} v (s : Storage) : Storage :=
  mkStorage _ (system s) v (keystore s) (attestation s) (commitments s) (tables s) (indexing s) (smartcontracts s) (system_contracts s) (system_tables s) (rewards s) (ext s).
Definition with_keystore `{Config} v (s : Storage) : Storage :=
  mkStorage _ (system s) (permissions s) v (attestation s) (commitments s) (tables s) (indexing s) (smartcontracts s) (system_contracts s) (system_tables s) (rewards s) (ext s).
Definition with_attestation `{Config} v (s : Storage) : Storage :=
  mkStorage _ (system s) (permissions s) (keystore s) v (commitments s) (tables s) (indexing s) (smartcontracts s) (system_contracts s) (system_tables s) (rewards s) (ext s).
Definition with_commitments `{Config} v (s : Storage) : Storage :=
  mkStorage _ (system s) (permissions s) (keystore s) (attestation s) v (tables s) (indexing s) (smartcontracts s) (system_contracts s) (system_tables s) (rewards s) (ext s).
Definition with_tables `{Config} v (s : Storage) : Storage :=
  mkStorage _ (system s) (permissions s) (keystore s) (attestation s) (commitments s) v (indexing s) (smartcontracts s) (system_contracts s) (system_tables s) (rewards s) (ext s).
Definition with_indexing `{Config} v (s : Storage) : Storage :=
  mkStorage _ (system s) (permissions s) (keystore s) (attestation s) (commitments s) (tables s) v (smartcontracts s) (system_contracts s) (system_tables s) (rewards s) (ext s).
Definition with_smartcontracts `{Config} v (s : Storage) : Storage :=
  mkStorage _ (system s) (permissions s) (keystore s) (attestation s) (commitments s) (tables s) (indexing s) v (system_contracts s) (system_tables s) (rewards s) (ext s).
Definition with_system_contracts `{Config} v (s : Storage) : Storage :=
  mkStorage _ (system s) (permissions s) (keystore s) (attestation s) (commitments s) (tables s) (indexing s) (smartcontracts s) v (system_tables s) (rewards s) (ext s).
Definition with_system_tables `{Config} v (s : Storage) : Storage :=
  mkStorage _ (system s) (permissions s) (keystore s) (attestation s) (commitments s) (tables s) (indexing s) (smartcontracts s) (system_contracts s) v (rewards s) (ext s).
Definition with_rewards `{Config} v (s : Storage) : Storage :=
  mkStorage _ (system s) (permissions s) (keystore s) (attestation s) (commitments s) (tables s) (indexing s) (smartcontracts s) (system_contracts s) (system_tables s) v (ext s).
Definition with_ext `{Config} v (s : Storage) : Storage :=
  mkStorage _ (system s) (permissions s) (keystore s) (attestation s) (commitments s) (tables s) (indexing s) (smartcontracts s) (system_contracts s) (system_tables s) (rewards s) v.

(** ** Origins and dispatch *)

Inductive RawOrigin `{Config} :=
| Root
| Signed (who : AccountId)
| NoneOrigin.

Section frame.
Context `{Config}.

(** Pallet code: it runs on the storage and stops with a [DispatchError]. *)
Definition Call (A : Type) : Type := M Storage DispatchError A.

Definition ensure_signed (origin : RawOrigin) : outcome DispatchError AccountId :=
  match origin with
  | Signed who => Ok who
  | _ => Err BadOrigin
  end.

Definition ensure_root (origin : RawOrigin) : outcome DispatchError unit :=
  match origin with
  | Root => Ok tt
  | _ => Err BadOrigin
  end.

Definition push_event (e : RuntimeEvent) (s : Storage) : Storage :=
  with_system (frame_system.mkStorage _ (frame_system.block_number (system s))
    (frame_system.events (system s) ++ [e])) s.

Definition deposit_event (e : RuntimeEvent) : Call unit := mmodify (push_event e).

Definition get_block_number : Call Z := mget (fun s => frame_system.block_number (system s)).

(** The dispatch of an extrinsic. *)
Definition dispatch {A} (c : Call A) : Call A := transactional c.

(** The events of the log. *)
Definition events_of (s : Storage) : list RuntimeEvent := frame_system.events (system s).
End frame.

Lemma ensure_signed_ok `{Config} origin who : ensure_signed origin = Ok who <-> origin = Signed who.
Proof. destruct origin; naive_solver. Qed.

Lemma ensure_root_ok `{Config} origin u : ensure_root origin = Ok u <-> origin = Root.
Proof. destruct origin, u; naive_solver. Qed.

Ltac inv_frame :=
  match goal with
  | H : get_block_number _ = _ |- _ => unfold get_block_number in H
  | H : deposit_event _ _ = _ |- _ => unfold deposit_event in H
  | H : ensure_signed _ = Ok _ |- _ => apply ensure_signed_ok in H
  | H : ensure_root _ = Ok _ |- _ => apply ensure_root_ok in H
  end.
Ltac inv_hook ::= inv_frame.
