(* ===== verification/Sample.v ===== *)
(** * A concrete configuration

    Accounts and hashes are byte strings, the hasher is the identity and the
    staking state is a map of free balances: enough to evaluate the pallets on
    concrete storages. *)

From stdpp Require Import base tactics list option gmap countable numbers strings.
From Stdlib Require Import ZArith Lia.
From Stdlib Require Import Strings.Byte.
From S2P Require Import Prelude Bytes Types CommitmentScheme CommitmentMap Runtime.

(** Any countable type is totally ordered by its codes. *)
Definition code_le `{Countable A} (x y : A) : Prop := (encode x <= encode y)%positive.

Section code_le.
Context {A : Type} `{Countable A}.
#[local] Instance code_le_dec : RelDecision (code_le (A:=A)).
Proof. intros x y. unfold code_le. apply _. Defined.
#[local] Instance code_le_total : Total (code_le (A:=A)).
Proof. intros x y. unfold code_le. lia. Qed.
#[local] Instance code_le_trans : Transitive (code_le (A:=A)).
Proof. intros x y z. unfold code_le. lia. Qed.
#[local] Instance code_le_antisymm : AntiSymm (=) (code_le (A:=A)).
Proof. intros x y Hx Hy. apply (inj encode). unfold code_le in *. lia. Qed.
End code_le.

Definition sample_config : Config := {|
  AccountId := bytes;
  account_le := code_le;
  account_le_dec := code_le_dec;
  account_le_total := code_le_total;
  account_le_trans := code_le_trans;
  account_le_antisymm := code_le_antisymm;
  Hash := bytes;
  hashing b := b;
  encode_account a := a;
  decode_account b := Some b;
  encode_submission p :=
    match p.2 with
    | None => x00 :: p.1
    | Some z => x01 :: le_bytes 8 z ++ p.1
    end;
  Ext := gmap bytes Z;
|}.

Definition alice : @AccountId sample_config := bs "alice".
Definition bob : @AccountId sample_config := bs "bob".
Definition carol : @AccountId sample_config := bs "carol".

(** The storage after genesis with nothing configured, at block 10. *)
Definition sample_storage : @Storage sample_config :=
  @mkStorage sample_config
    (@frame_system.mkStorage sample_config 10 [])
    (@pallet_permissions.mkStorage sample_config ∅)
    (@pallet_keystore.mkStorage sample_config ∅)
    (@pallet_attestation.mkStorage sample_config [] ∅ None)
    (pallet_commitments.mkStorage ∅ (Some (mkFlags true true)))
    (pallet_tables.mkStorage ∅ ∅ ∅ ∅ ∅ ∅ ∅ ∅)
    (@pallet_indexing.mkStorage sample_config ∅ ∅ ∅)
    (pallet_smartcontracts.mkStorage ∅ ∅)
    (pallet_system_contracts.mkStorage ContractInfo_default ContractInfo_default)
    (@pallet_system_tables.mkStorage sample_config ∅)
    (@pallet_rewards.mkStorage sample_config 0 None)
    (∅ : gmap bytes Z).
