(* ===== verification/PalletPermissions.v ===== *)
(** * pallets/permissions

    The permission lists of accounts, the three extrinsics that change them and
    [ensure_root_or_permissioned], which every other pallet guards its calls
    with.  The theorems state who may do what: the guard succeeds exactly for
    root and for accounts that hold the permission, stored lists are non-empty
    and bounded, and a permission is only ever gained through root, an account
    that may update permissions, or an account that may edit that one. *)

From stdpp Require Import base tactics list option gmap strings.
From Stdlib Require Import ZArith Lia.
From S2P Require Import Prelude Bytes Types Runtime Sample.

Section permissions.
Context `{Config}.

Definition permissions_err {A} (e : pallet_permissions.Error) : Call A :=
  mfail (Module (PermissionsError e)).

Definition Permissions (s : Storage) : gmap AccountId PermissionList :=
  pallet_permissions.Permissions (permissions s).

Definition set_Permissions (m : gmap AccountId PermissionList) (s : Storage) : Storage :=
  with_permissions (pallet_permissions.mkStorage _ m) s.

Definition has_permissions (s : Storage) (who : AccountId) (p : PermissionLevel) : bool :=
  existsb (fun x => bool_decide (x = p)) (default [] (Permissions s !! who)).

Definition ensure_root_or_permissioned (origin : RawOrigin) (permission : PermissionLevel)
    : Call (option AccountId) :=
  match origin with
  | Root => mret None
  | Signed who =>
      let* ok := mget (fun s => has_permissions s who permission) in
      if ok : bool then mret (Some who)
      else permissions_err pallet_permissions.InsufficientPermissions
  | NoneOrigin => permissions_err pallet_permissions.UnsignedTransaction
  end.

Definition set_permissions (origin : RawOrigin) (who : AccountId) (permissions : PermissionList)
    : Call unit :=
  ensure_root_or_permissioned origin UpdatePermissions ;;;
  mensure (0 <? length permissions)%nat
    (Module (PermissionsError pallet_permissions.EmptyPermissionsListError)) ;;;
  mmodify (fun s => set_Permissions (<[who := permissions]> (Permissions s)) s) ;;;
  deposit_event (PermissionsEvent (pallet_permissions.PermissionsSet who permissions)).

Definition clear_permissions (origin : RawOrigin) (who : AccountId) : Call unit :=
  ensure_root_or_permissioned origin UpdatePermissions ;;;
  mmodify (fun s => set_Permissions (delete who (Permissions s)) s) ;;;
  deposit_event (PermissionsEvent (pallet_permissions.PermissionsSet who [])).

(** [Permissions::try_mutate] stores the list only when its closure succeeds. *)
Definition add_proxy_permission (origin : RawOrigin) (proxy : AccountId)
    (permission : PermissionLevel) : Call unit :=
  ensure_root_or_permissioned origin (EditSpecificPermission permission) ;;;
  let* permissions := mget (fun s => default [] (Permissions s !! proxy)) in
  if existsb (fun x => bool_decide (x = permission)) permissions
  then permissions_err pallet_permissions.PermissionAlreadyExists
  else match try_push PERMISSION_LIST_MAX permissions permission with
       | None => permissions_err pallet_permissions.PermissionListFull
       | Some permissions =>
           deposit_event (PermissionsEvent (pallet_permissions.PermissionsSet proxy permissions)) ;;;
           mmodify (fun s => set_Permissions (<[proxy := permissions]> (Permissions s)) s)
       end.

(** The extrinsics of the pallet; a [PermissionList] argument is decoded as a
    bounded vector. *)
Inductive permissions_call :=
| SetPermissions (who : AccountId) (permissions : PermissionList)
    (bounded : (length permissions <= PERMISSION_LIST_MAX)%nat)
| ClearPermissions (who : AccountId)
| AddProxyPermission (proxy : AccountId) (permission : PermissionLevel).

Definition dispatch_permissions (origin : RawOrigin) (c : permissions_call) : Call unit :=
  dispatch match c with
  | SetPermissions who l _ => set_permissions origin who l
  | ClearPermissions who => clear_permissions origin who
  | AddProxyPermission proxy p => add_proxy_permission origin proxy p
  end.

(** ** Lemmas *)

Lemma has_permissions_spec s who p :
  has_permissions s who p = true <-> p ∈ default [] (Permissions s !! who).
Proof.
  unfold has_permissions. rewrite existsb_exists, list_elem_of_In.
  setoid_rewrite bool_decide_eq_true. naive_solver.
Qed.

(** What the guard lets through. *)
Definition permissioned (s : Storage) (origin : RawOrigin) (p : PermissionLevel) : Prop :=
  match origin with
  | Root => True
  | Signed who => has_permissions s who p = true
  | NoneOrigin => False
  end.

(** The guard's result when it succeeds. *)
Definition origin_account (origin : RawOrigin) : option AccountId :=
  match origin with
  | Signed who => Some who
  | _ => None
  end.

Lemma ensure_rop_ok s s' origin p o :
  ensure_root_or_permissioned origin p s = (s', Ok o) <->
  s' = s /\ permissioned s origin p /\ o = origin_account origin.
Proof.
  destruct origin as [|who|]; unfold ensure_root_or_permissioned, mbind, mget, mret,
    permissions_err, mfail; simpl; try destruct (has_permissions s who p); naive_solver.
Qed.

Lemma ensure_rop_run s origin p :
  permissioned s origin p ->
  ensure_root_or_permissioned origin p s = (s, Ok (origin_account origin)).
Proof. intros. by apply ensure_rop_ok. Qed.

Lemma ensure_rop_state s origin p : fst (ensure_root_or_permissioned origin p s) = s.
Proof.
  destruct origin as [|who|]; unfold ensure_root_or_permissioned, mbind, mget; simpl; try done.
  by destruct (has_permissions s who p).
Qed.

Lemma ensure_rop_no_panic s origin p : snd (ensure_root_or_permissioned origin p s) <> Panic.
Proof.
  destruct origin as [|who|]; unfold ensure_root_or_permissioned, mbind, mget; simpl; try done.
  by destruct (has_permissions s who p).
Qed.

(** A guarded call that the guard refuses ends with the guard's error and
    leaves the storage alone. *)
Definition guard_error (origin : RawOrigin) : DispatchError :=
  match origin with
  | NoneOrigin => Module (PermissionsError pallet_permissions.UnsignedTransaction)
  | _ => Module (PermissionsError pallet_permissions.InsufficientPermissions)
  end.

Lemma ensure_rop_denied {A} s origin p (k : option AccountId -> Call A) :
  ~ permissioned s origin p ->
  mbind (ensure_root_or_permissioned origin p) k s = (s, Err (guard_error origin)).
Proof.
  destruct origin as [|who|]; simpl; intros Hp; [done| |done].
  unfold mbind, mget. simpl. by destruct (has_permissions s who p).
Qed.

(** ** The effect of each extrinsic *)

Lemma set_permissions_run s origin who l :
  permissioned s origin UpdatePermissions -> l <> [] ->
  set_permissions origin who l s =
  (push_event (PermissionsEvent (pallet_permissions.PermissionsSet who l))
     (set_Permissions (<[who := l]> (Permissions s)) s), Ok tt).
Proof.
  intros Hp Hl. unfold set_permissions.
  rewrite (mbind_run _ _ _ _ _ (ensure_rop_run _ _ _ Hp)). by destruct l.
Qed.

Lemma set_permissions_empty s origin who :
  permissioned s origin UpdatePermissions ->
  set_permissions origin who [] s =
  (s, Err (Module (PermissionsError pallet_permissions.EmptyPermissionsListError))).
Proof.
  intros Hp. unfold set_permissions.
  by rewrite (mbind_run _ _ _ _ _ (ensure_rop_run _ _ _ Hp)).
Qed.

Lemma clear_permissions_run s origin who :
  permissioned s origin UpdatePermissions ->
  clear_permissions origin who s =
  (push_event (PermissionsEvent (pallet_permissions.PermissionsSet who []))
     (set_Permissions (delete who (Permissions s)) s), Ok tt).
Proof.
  intros Hp. unfold clear_permissions.
  by rewrite (mbind_run _ _ _ _ _ (ensure_rop_run _ _ _ Hp)).
Qed.

Lemma add_proxy_permission_run s origin proxy p :
  permissioned s origin (EditSpecificPermission p) ->
  let l := default [] (Permissions s !! proxy) in
  add_proxy_permission origin proxy p s =
  if has_permissions s proxy p
  then (s, Err (Module (PermissionsError pallet_permissions.PermissionAlreadyExists)))
  else if (length l <? PERMISSION_LIST_MAX)%nat
  then (set_Permissions (<[proxy := l ++ [p]]> (Permissions s))
         (push_event (PermissionsEvent (pallet_permissions.PermissionsSet proxy (l ++ [p]))) s), Ok tt)
  else (s, Err (Module (PermissionsError pallet_permissions.PermissionListFull))).
Proof.
  intros Hp. unfold add_proxy_permission.
  rewrite (mbind_run _ _ _ _ _ (ensure_rop_run _ _ _ Hp)).
  unfold mbind, mget, has_permissions, try_push. simpl.
  destruct (existsb _ _); [done|]. by destruct (_ <? _)%nat.
Qed.

(** What each extrinsic needs. *)
Definition call_permission (c : permissions_call) : PermissionLevel :=
  match c with
  | SetPermissions _ _ _ | ClearPermissions _ => UpdatePermissions
  | AddProxyPermission _ p => EditSpecificPermission p
  end.

Lemma dispatch_permissions_denied s origin c :
  ~ permissioned s origin (call_permission c) ->
  dispatch_permissions origin c s = (s, Err (guard_error origin)).
Proof.
  intros Hp. unfold dispatch_permissions, dispatch, transactional.
  by destruct c; simpl in *; unfold set_permissions, clear_permissions, add_proxy_permission;
    rewrite ensure_rop_denied.
Qed.

#[global] Instance permissioned_dec s origin p : Decision (permissioned s origin p).
Proof. destruct origin; simpl; apply _. Defined.

(** The permission map after a successful extrinsic. *)
Definition permissions_after (s : Storage) (c : permissions_call) : gmap AccountId PermissionList :=
  match c with
  | SetPermissions who l _ => <[who := l]> (Permissions s)
  | ClearPermissions who => delete who (Permissions s)
  | AddProxyPermission proxy p =>
      <[proxy := default [] (Permissions s !! proxy) ++ [p]]> (Permissions s)
  end.

Lemma dispatch_permissions_ok s s' origin c u :
  dispatch_permissions origin c s = (s', Ok u) ->
  permissioned s origin (call_permission c) /\ Permissions s' = permissions_after s c /\
  match c with
  | SetPermissions _ l _ => l <> []
  | ClearPermissions _ => True
  | AddProxyPermission proxy p =>
      p ∉ default [] (Permissions s !! proxy) /\
      (length (default [] (Permissions s !! proxy)) < PERMISSION_LIST_MAX)%nat
  end.
Proof.
  destruct (decide (permissioned s origin (call_permission c))) as [Hp|Hp];
    [|by rewrite dispatch_permissions_denied].
  intros Hd. split; [done|]. unfold dispatch_permissions, dispatch in Hd.
  rewrite transactional_ok in Hd.
  destruct c as [who l Hl|who|proxy p]; cbn [call_permission permissions_after] in *.
  - destruct l as [|x l].
    + by rewrite set_permissions_empty in Hd.
    + rewrite set_permissions_run in Hd by done. by simplify_eq.
  - rewrite clear_permissions_run in Hd by done. by simplify_eq.
  - rewrite add_proxy_permission_run in Hd by done.
    pose proof (has_permissions_spec s proxy p).
    destruct (has_permissions s proxy p), (Nat.ltb_spec (length (default [] (Permissions s !! proxy)))
      PERMISSION_LIST_MAX); simplify_eq; naive_solver.
Qed.

(** The invariant of the stored lists. *)
Definition permissions_wf (s : Storage) : Prop :=
  map_Forall (fun _ l => l <> [] /\ (length l <= PERMISSION_LIST_MAX)%nat) (Permissions s).

Lemma permissions_after_wf s origin c s' u :
  permissions_wf s -> dispatch_permissions origin c s = (s', Ok u) -> permissions_wf s'.
Proof.
  intros Hwf Hd. destruct (dispatch_permissions_ok _ _ _ _ _ Hd) as (_ & Hs & Hc).
  unfold permissions_wf. rewrite Hs.
  destruct c as [who l Hl|who|proxy p]; simpl.
  - by apply map_Forall_insert_2.
  - by apply map_Forall_delete.
  - destruct Hc as [_ Hlen]. apply map_Forall_insert_2; [|done].
    rewrite length_app. simpl. split; [by destruct (default _ _)|lia].
Qed.

(** An account's permission after a call was there before or is the one the
    call grants. *)
Lemma permissions_after_gain s c who q :
  q ∈ default [] (permissions_after s c !! who) ->
  q ∈ default [] (Permissions s !! who) \/
  call_permission c = UpdatePermissions \/ call_permission c = EditSpecificPermission q.
Proof.
  destruct c as [who' l ?|who'|proxy p]; simpl; [by auto|by auto|].
  destruct (decide (proxy = who)) as [->|Hne].
  - rewrite lookup_insert_eq. simpl. rewrite elem_of_app, list_elem_of_singleton.
    intros [?| ->]; auto.
  - rewrite lookup_insert_ne by done. auto.
Qed.

End permissions.

Ltac inv_permissions :=
  match goal with
  | H : ensure_root_or_permissioned _ _ _ = (_, Ok _) |- _ =>
      apply ensure_rop_ok in H; destruct H as (-> & ? & ->)
  end.
Ltac inv_hook ::= first [inv_frame | inv_permissions].

(** [ensure_root_or_permissioned] succeeds exactly for root (with no
    account) and for a signed account whose stored list holds the permission
    (with that account); it never changes the storage and never panics. *)
Theorem ensure_root_or_permissioned_spec `{Config} s origin p :
  fst (ensure_root_or_permissioned origin p s) = s /\
  snd (ensure_root_or_permissioned origin p s) =
    match origin with
    | Root => Ok None
    | Signed who =>
        if bool_decide (p ∈ default [] (Permissions s !! who)) then Ok (Some who)
        else Err (Module (PermissionsError pallet_permissions.InsufficientPermissions))
    | NoneOrigin => Err (Module (PermissionsError pallet_permissions.UnsignedTransaction))
    end.
Proof.
  split; [apply ensure_rop_state|]. destruct origin as [|who|]; try done.
  pose proof (has_permissions_spec s who p) as Hs.
  unfold ensure_root_or_permissioned, mbind, mget; simpl.
  destruct (has_permissions s who p); case_bool_decide; naive_solver.
Qed.

(** Every dispatch of the pallet's extrinsics keeps all stored permission
    lists non-empty and within the bound of 32, whatever its outcome. *)
Theorem permissions_lists_wf `{Config} s origin c :
  permissions_wf s -> permissions_wf (fst (dispatch_permissions origin c s)).
Proof.
  intros Hwf. destruct (dispatch_permissions origin c s) as [s' [u|e|]] eqn:Hd; simpl.
  - by eapply permissions_after_wf.
  - by apply transactional_keep in Hd as ->.
  - by apply transactional_keep in Hd as ->.
Qed.

(** C27: no privilege escalation: a permission that an account holds after an
    extrinsic and did not hold before was granted by root, by an account with
    [UpdatePermissions] or by an account with [EditSpecificPermission] of that
    very permission. *)
Theorem permission_gain_authorized `{Config} s origin c who q :
  has_permissions s who q = false ->
  has_permissions (fst (dispatch_permissions origin c s)) who q = true ->
  permissioned s origin UpdatePermissions \/ permissioned s origin (EditSpecificPermission q).
Proof.
  intros Hbefore Hafter.
  destruct (dispatch_permissions origin c s) as [s' o] eqn:Hd; simpl in *.
  destruct o as [u|e|].
  - destruct (dispatch_permissions_ok _ _ _ _ _ Hd) as (Hp & Hs & _).
    apply has_permissions_spec in Hafter. rewrite Hs in Hafter.
    apply permissions_after_gain in Hafter as [Hin|[<-|<-]]; [|by auto|by auto].
    apply has_permissions_spec in Hin. congruence.
  - apply transactional_keep in Hd as ->; [congruence|done].
  - apply transactional_keep in Hd as ->; [congruence|done].
Qed.

(** ** Examples *)

Section examples.
#[local] Existing Instance sample_config.

(** Alice may edit the permission to edit schemas. *)
Definition permissions_sample : Storage :=
  set_Permissions {[alice := [EditSpecificPermission (TablesPallet EditSchema)]]} sample_storage.

Lemma permissions_lists_wf_witness :
  permissions_wf (fst (dispatch_permissions (Signed alice)
    (AddProxyPermission bob (TablesPallet EditSchema)) permissions_sample)).
Proof.
  apply permissions_lists_wf. apply map_Forall_singleton. vm_compute. split; [done|lia].
Defined.

Lemma permission_gain_authorized_witness :
  permissioned permissions_sample (Signed alice) UpdatePermissions \/
  permissioned permissions_sample (Signed alice)
    (EditSpecificPermission (TablesPallet EditSchema)).
Proof.
  apply (permission_gain_authorized permissions_sample (Signed alice)
    (AddProxyPermission bob (TablesPallet EditSchema)) bob (TablesPallet EditSchema));
    vm_compute; reflexivity.
Defined.
End examples.
