(* ===== verification/AttestationCore.v ===== *)
(** * sxt-core/src/attestation.rs

    Ethereum-style signatures over messages.  The curve, the hash and the
    signature scheme are those of the [k256] and [sha3] crates: a class of
    operations, with the laws of their documentation in a class of its own. *)

From stdpp Require Import base tactics list option gmap strings numbers.
From Stdlib Require Import ZArith Lia DecimalString.
From Stdlib Require Import Strings.Byte.
From S2P Require Import Prelude Bytes Text Types.

Class EthCrypto := {
  Signature : Type;
  RecoveryId : Type;
  VerifyingKey : Type;
  VerifyingKey_eq_dec :: EqDecision VerifyingKey;
  SigningKey : Type;
  (** [Signature::from_scalars] and the scalars of a signature. *)
  signature_from_scalars : bytes -> bytes -> option Signature;
  signature_r : Signature -> bytes;
  signature_s : Signature -> bytes;
  (** [RecoveryId::try_from(u8)] and [Into<u8>]. *)
  recovery_id_try_from : Z -> option RecoveryId;
  recovery_id_into : RecoveryId -> Z;
  (** [Keccak256::digest]. *)
  keccak256 : bytes -> bytes;
  (** [VerifyingKey::from_sec1_bytes], [to_encoded_point]. *)
  from_sec1_bytes : bytes -> option VerifyingKey;
  to_encoded_point : VerifyingKey -> bool -> bytes;
  recover_from_digest : bytes -> Signature -> RecoveryId -> option VerifyingKey;
  (** [SigningKey::from_bytes] on 32 bytes, [verifying_key],
      [sign_digest_recoverable]. *)
  signing_key_from_bytes : bytes -> option SigningKey;
  verifying_key : SigningKey -> VerifyingKey;
  sign_digest_recoverable : SigningKey -> bytes -> option (Signature * RecoveryId);
}.

Class EthCryptoLaws `{EthCrypto} := {
  keccak256_length m : length (keccak256 m) = 32%nat;
  signature_r_length sg : length (signature_r sg) = 32%nat;
  signature_s_length sg : length (signature_s sg) = 32%nat;
  signature_scalars sg : signature_from_scalars (signature_r sg) (signature_s sg) = Some sg;
  recovery_id_range v : is_Some (recovery_id_try_from v) <-> 0 <= v <= 3;
  recovery_id_round_trip r : recovery_id_try_from (recovery_id_into r) = Some r;
  sign_recover k d sg r :
    sign_digest_recoverable k d = Some (sg, r) ->
    recover_from_digest d sg r = Some (verifying_key k);
  sec1_round_trip vk c : from_sec1_bytes (to_encoded_point vk c) = Some vk;
  uncompressed_length vk : length (to_encoded_point vk false) = 65%nat;
}.

Section attestation.
Context `{EthCrypto}.

(** The digest is the hash of the prefix, the decimal length and the message. *)
Definition hash_eth_msg (message : bytes) : bytes :=
  keccak256 (x19 :: bs "Ethereum Signed Message:" ++ [x0a] ++
             dec_bytes (Z.of_nat (length message)) ++ message).

Definition slice_to_scalar (slice : bytes) : option bytes :=
  if (length slice =? 32)%nat then Some slice else None.

(** [private_key.into()] panics unless the slice has 32 bytes. *)
Definition sign_eth_message (private_key message : bytes)
    : outcome AttestationError EthereumSignature :=
  if negb (length private_key =? 32)%nat then Panic else
  let? signing_key :=
    ok_or (signing_key_from_bytes private_key) (SignatureErrorE CreateSigningKeyError) in
  let digest := hash_eth_msg message in
  let? (signature, recovery_id) := unwrap_option (sign_digest_recoverable signing_key digest) in
  let? r := unwrap_option (slice_to_scalar (signature_r signature)) in
  let? s := unwrap_option (slice_to_scalar (signature_s signature)) in
  Ok (EthereumSignature_new r s (Some (recovery_id_into recovery_id))).

Definition verify_eth_signature (msg : bytes) (scalars : EthereumSignature) (pub_key : bytes)
    : outcome AttestationError unit :=
  let? signature := ok_or (signature_from_scalars (sig_r scalars) (sig_s scalars))
    (VerificationErrorE SignatureRecoveryError) in
  let? recovery_id := ok_or (recovery_id_try_from (sig_v scalars))
    (VerificationErrorE (InvalidRecoveryIdError (sig_v scalars))) in
  let digest := hash_eth_msg msg in
  let? recovered_pub_key := ok_or (recover_from_digest digest signature recovery_id)
    (VerificationErrorE KeyRecoveryError) in
  let? expected_key := ok_or (from_sec1_bytes pub_key)
    (VerificationErrorE PublicKeyParsingError) in
  if bool_decide (recovered_pub_key = expected_key) then Ok tt
  else Err (VerificationErrorE SignatureMismatchError).

(** The address is the last 20 bytes of the hash of the uncompressed point
    without its tag byte. *)
Definition uncompressed_public_key_to_address (public_key : bytes)
    : outcome AttestationError Address20 :=
  let? verifying_key := ok_or (from_sec1_bytes public_key) InvalidPublicKey in
  let verifying_key_bytes := to_encoded_point verifying_key false in
  let public_key := drop 1 verifying_key_bytes in
  let eth_address := drop 12 (keccak256 public_key) in
  ok_or (try_from_bounded 20 eth_address) ConversionError.

Definition create_ethereum_attestation_registration (account_id private_key public_key : bytes)
    : outcome AttestationError RegisterExternalAddress :=
  let? signature := sign_eth_message private_key account_id in
  let? address20 := uncompressed_public_key_to_address public_key in
  if (length public_key =? 33)%nat
  then Ok (EthereumAddress signature public_key address20)
  else Err PublicKeyError.

(** [create_attestation_message]: the state root and the block number as a
    big-endian [u64]. *)
Definition create_attestation_message (state_root : bytes) (block_number : Z) : bytes :=
  state_root ++ be_bytes 8 block_number.

Lemma verify_eth_signature_no_panic msg sg k : verify_eth_signature msg sg k <> Panic.
Proof.
  unfold verify_eth_signature, ok_or, obind. by repeat case_match.
Qed.

Lemma slice_to_scalar_some l : length l = 32%nat -> slice_to_scalar l = Some l.
Proof. unfold slice_to_scalar. by intros ->. Qed.

Lemma sign_eth_message_ok `{!EthCryptoLaws} private_key message sg :
  sign_eth_message private_key message = Ok sg ->
  exists k signature r,
    signing_key_from_bytes private_key = Some k /\
    sign_digest_recoverable k (hash_eth_msg message) = Some (signature, r) /\
    sg = mkEthereumSignature (signature_r signature) (signature_s signature) (recovery_id_into r).
Proof.
  unfold sign_eth_message. destruct (negb _); [done|].
  destruct (signing_key_from_bytes private_key) as [k|]; simpl; [|done].
  destruct (sign_digest_recoverable k _) as [[signature r]|] eqn:Hs; simpl; [|done].
  rewrite !slice_to_scalar_some by auto using signature_r_length, signature_s_length.
  simpl. intros [= <-]. by exists k, signature, r.
Qed.

(** Two messages for different blocks or with different roots of one length
    are different. *)
Lemma create_attestation_message_inj r1 r2 n1 n2 :
  0 <= n1 < 2 ^ 64 -> 0 <= n2 < 2 ^ 64 ->
  create_attestation_message r1 n1 = create_attestation_message r2 n2 -> r1 = r2 /\ n1 = n2.
Proof.
  unfold create_attestation_message. intros H1 H2 Heq.
  apply app_inj_2 in Heq as [-> Heq]; [|by rewrite !be_bytes_length].
  split; [done|]. by apply (be_bytes_inj 8).
Qed.
End attestation.

Lemma sign_verify `{EthCryptoLaws} private_key k message sg compressed :
  signing_key_from_bytes private_key = Some k ->
  sign_eth_message private_key message = Ok sg ->
  verify_eth_signature message sg (to_encoded_point (verifying_key k) compressed) = Ok tt.
Proof.
  intros Hk Hs. apply sign_eth_message_ok in Hs as (k' & signature & r & Hk' & Hs & ->).
  assert (k' = k) as -> by congruence. unfold verify_eth_signature. simpl.
  rewrite signature_scalars. simpl. rewrite recovery_id_round_trip. simpl.
  rewrite (sign_recover _ _ _ _ Hs). simpl. rewrite sec1_round_trip. simpl.
  by rewrite bool_decide_true.
Qed.

(** Signing and verifying agree: what [sign_eth_message] produces with a
    private key is accepted by [verify_eth_signature] for the same message and
    the SEC1 encoding, compressed or not, of the corresponding public key. *)
Theorem sign_verify_round_trip `{EthCryptoLaws} private_key k message sg compressed :
  signing_key_from_bytes private_key = Some k ->
  sign_eth_message private_key message = Ok sg ->
  verify_eth_signature message sg (to_encoded_point (verifying_key k) compressed) = Ok tt.
Proof. apply sign_verify. Qed.

(** A signature in the Ethereum convention, with recovery id 27 or 28 (28 is
    what [EthereumSignature::new] fills in when none is given), is never
    accepted: [k256] knows the recovery ids 0 to 3 only. *)
Theorem ethereum_recovery_id_rejected `{EthCryptoLaws} msg r s pub_key :
  verify_eth_signature msg (EthereumSignature_new r s None) pub_key <> Ok tt /\
  verify_eth_signature msg (EthereumSignature_new r s (Some 27)) pub_key <> Ok tt.
Proof.
  assert (forall v, ~ (0 <= v <= 3) -> recovery_id_try_from v = None) as Hnone.
  { intros v Hv. apply eq_None_not_Some. by rewrite recovery_id_range. }
  split; unfold verify_eth_signature; simpl; rewrite Hnone by lia;
    by destruct (signature_from_scalars r s).
Qed.

(** ** A small instance

    Four keys; the signature of a key carries the key in its recovery id.  It
    has the laws and lets the definitions be evaluated. *)

Inductive toy_id := Id0 | Id1 | Id2 | Id3.

#[global] Instance toy_id_eq_dec : EqDecision toy_id.
Proof. solve_decision. Defined.

Definition toy_id_val (r : toy_id) : Z :=
  match r with Id0 => 0 | Id1 => 1 | Id2 => 2 | Id3 => 3 end.
Definition toy_id_of (v : Z) : option toy_id :=
  if v =? 0 then Some Id0 else if v =? 1 then Some Id1
  else if v =? 2 then Some Id2 else if v =? 3 then Some Id3 else None.

Definition toy_crypto : EthCrypto := {|
  Signature := unit;
  RecoveryId := toy_id;
  VerifyingKey := toy_id;
  SigningKey := toy_id;
  signature_from_scalars _ _ := Some tt;
  signature_r _ := replicate 32 x00;
  signature_s _ := replicate 32 x00;
  recovery_id_try_from := toy_id_of;
  recovery_id_into := toy_id_val;
  keccak256 _ := replicate 32 x00;
  from_sec1_bytes l := b ← head l; toy_id_of (byte_val b);
  to_encoded_point vk c := byte_of (toy_id_val vk) :: replicate (if c : bool then 32 else 64) x00;
  recover_from_digest _ _ r := Some r;
  signing_key_from_bytes l := b ← head l; toy_id_of (byte_val b);
  verifying_key k := k;
  sign_digest_recoverable k _ := Some (tt, k);
|}.

Lemma toy_crypto_laws : @EthCryptoLaws toy_crypto.
Proof.
  constructor; simpl; try done.
  - by intros [].
  - intros v. unfold toy_id_of. destruct (Z.eqb_spec v 0), (Z.eqb_spec v 1), (Z.eqb_spec v 2),
      (Z.eqb_spec v 3); split; intros Hv; try lia; by first [eexists|destruct Hv].
  - by intros [].
  - by intros k d [] r [= ->].
  - by intros [] [].
Qed.

Section examples.
#[local] Existing Instance toy_crypto.
#[local] Existing Instance toy_crypto_laws.

Definition toy_private_key : bytes := x02 :: replicate 31 x00.
Definition toy_public_key : bytes := x02 :: replicate 32 x00.

Lemma sign_verify_round_trip_witness :
  verify_eth_signature (bs "hello")
    (mkEthereumSignature (replicate 32 x00) (replicate 32 x00) 2) toy_public_key = Ok tt.
Proof.
  apply (@sign_verify_round_trip toy_crypto toy_crypto_laws toy_private_key Id2 (bs "hello") _ true);
    vm_compute; reflexivity.
Defined.

Lemma ethereum_recovery_id_rejected_witness :
  verify_eth_signature (bs "hello")
    (EthereumSignature_new (replicate 32 x00) (replicate 32 x00) None) toy_public_key <> Ok tt /\
  verify_eth_signature (bs "hello")
    (EthereumSignature_new (replicate 32 x00) (replicate 32 x00) (Some 27)) toy_public_key <> Ok tt.
Proof. apply ethereum_recovery_id_rejected. Defined.
End examples.
