(* ===== verification/PalletKeystore.v ===== *)
(** * pallets/keystore

    Registration of an Ethereum key for an account, its removal, and the check
    of messages signed with a registered key.  Theorems: every key in storage
    was registered with a valid signature of its account; registration and
    removal are exact inverses up to the empty entry that removal leaves; and
    a message passes [verify_ethereum_msg] exactly when it is signed with the
    key stored for the account. *)

From stdpp Require Import base tactics list option gmap strings.
From Stdlib Require Import ZArith Lia.
From Stdlib Require Import Strings.Byte.
From S2P Require Import Prelude Bytes Types Runtime Sample AttestationCore.

Section keystore.
Context `{Config} `{EthCrypto}.

Definition keystore_err (e : pallet_keystore.Error) : DispatchError := Module (KeystoreError e).

Definition Keys (s : Storage) : gmap AccountId UserKeystore := pallet_keystore.Keys (keystore s).
Definition set_Keys (m : gmap AccountId UserKeystore) (s : Storage) : Storage :=
  with_keystore (pallet_keystore.mkStorage _ m) s.

Definition add_ethereum_key (who : AccountId) (key : EthereumKey) : Call unit :=
  let* user_keystore := mget (fun s => Keys s !! who) in
  match user_keystore with
  | None => mmodify (fun s => set_Keys (<[who := mkUserKeystore (Some key)]> (Keys s)) s)
  | Some user_keystore =>
      mensure (bool_decide (eth_key user_keystore = None))
        (keystore_err pallet_keystore.EthereumKeyAlreadyRegistered) ;;;
      let new_user_keystore := with_eth_key user_keystore (Some key) in
      mmodify (fun s => set_Keys (<[who := new_user_keystore]> (Keys s)) s)
  end.

Definition remove_ethereum_key (who : AccountId) : Call unit :=
  let* user_keystore := mget (fun s => Keys s !! who) in
  match user_keystore with
  | None => mfail (keystore_err pallet_keystore.NoKeysRegistered)
  | Some user_keystore =>
      mensure (bool_decide (is_Some (eth_key user_keystore)))
        (keystore_err pallet_keystore.NoEthereumKeyRegistered) ;;;
      mmodify (fun s => set_Keys (<[who := mkUserKeystore None]> (Keys s)) s)
  end.

Definition register_key (origin : RawOrigin) (who : AccountId)
    (registration : RegisterExternalAddress) : Call unit :=
  mlift (ensure_root origin) ;;;
  match registration with
  | EthereumAddress signature proposed_pub_key address20 =>
      let msg := encode_account who in
      mlift (map_err (fun _ => keystore_err pallet_keystore.VerificationError)
        (verify_eth_signature msg signature proposed_pub_key)) ;;;
      let new_key := mkEthereumKey proposed_pub_key address20 in
      add_ethereum_key who new_key ;;;
      deposit_event (KeystoreEvent (pallet_keystore.EthereumKeyRegistered who new_key))
  end.

Definition unregister_key (origin : RawOrigin) (who : AccountId)
    (key : UnregisterExternalAddress) : Call unit :=
  mlift (ensure_root origin) ;;;
  match key with
  | UnregisterEthereumAddress =>
      remove_ethereum_key who ;;;
      deposit_event (KeystoreEvent (pallet_keystore.EthereumKeyRemoved who))
  end.

Definition verify_ethereum_msg (who : AccountId) (msg : bytes) (key : EthereumKey)
    (signature : EthereumSignature) : Call unit :=
  let* keystore := mget (fun s => Keys s !! who) in
  let* keystore := mlift (ok_or keystore (keystore_err pallet_keystore.KeyNotFound)) in
  let* stored_key := mlift (ok_or (eth_key keystore) (keystore_err pallet_keystore.KeyNotFound)) in
  let stored_key := pub_key stored_key in
  mensure (bool_decide (stored_key = pub_key key)) (keystore_err pallet_keystore.KeyMismatch) ;;;
  mlift (map_err (fun _ => keystore_err pallet_keystore.SignatureVerificationFailed)
    (verify_eth_signature msg signature (pub_key key))).

Definition verify_ethereum_key (who : AccountId) (key : EthereumKey)
    (signature : EthereumSignature) : Call unit :=
  let msg := encode_account who in
  verify_ethereum_msg who msg key signature.

Inductive keystore_call :=
| RegisterKey (who : AccountId) (registration : RegisterExternalAddress)
| UnregisterKey (who : AccountId) (key : UnregisterExternalAddress).

Definition dispatch_keystore (origin : RawOrigin) (c : keystore_call) : Call unit :=
  dispatch match c with
  | RegisterKey who r => register_key origin who r
  | UnregisterKey who k => unregister_key origin who k
  end.

(** ** Lemmas *)

(** The key stored for an account, if any. *)
Definition stored_key (s : Storage) (who : AccountId) : option EthereumKey :=
  k ← Keys s !! who; eth_key k.

Lemma add_ethereum_key_run s who key :
  add_ethereum_key who key s =
  match stored_key s who with
  | Some _ => (s, Err (keystore_err pallet_keystore.EthereumKeyAlreadyRegistered))
  | None => (set_Keys (<[who := mkUserKeystore (Some key)]> (Keys s)) s, Ok tt)
  end.
Proof.
  unfold add_ethereum_key, stored_key, mbind, mget.
  destruct (Keys s !! who) as [[[k|]]|]; simpl; done.
Qed.

Lemma remove_ethereum_key_run s who :
  remove_ethereum_key who s =
  match Keys s !! who with
  | None => (s, Err (keystore_err pallet_keystore.NoKeysRegistered))
  | Some (mkUserKeystore None) => (s, Err (keystore_err pallet_keystore.NoEthereumKeyRegistered))
  | Some (mkUserKeystore (Some _)) =>
      (set_Keys (<[who := mkUserKeystore None]> (Keys s)) s, Ok tt)
  end.
Proof.
  unfold remove_ethereum_key, mbind, mget.
  destruct (Keys s !! who) as [[[k|]]|]; simpl; done.
Qed.

(** The whole of [register_key] by a signed-off registration. *)
Lemma register_key_run s who sg pk addr :
  register_key Root who (EthereumAddress sg pk addr) s =
  match verify_eth_signature (encode_account who) sg pk with
  | Ok _ =>
      match stored_key s who with
      | Some _ => (s, Err (keystore_err pallet_keystore.EthereumKeyAlreadyRegistered))
      | None =>
          (push_event (KeystoreEvent
             (pallet_keystore.EthereumKeyRegistered who (mkEthereumKey pk addr)))
             (set_Keys (<[who := mkUserKeystore (Some (mkEthereumKey pk addr))]> (Keys s)) s), Ok tt)
      end
  | _ => (s, Err (keystore_err pallet_keystore.VerificationError))
  end.
Proof.
  pose proof (verify_eth_signature_no_panic (encode_account who) sg pk).
  unfold register_key, mlift. unfold mbind at 1. simpl. unfold mbind at 1.
  destruct (verify_eth_signature _ _ _); simpl; try done.
  unfold mbind. rewrite add_ethereum_key_run. by destruct (stored_key s who).
Qed.

Lemma register_key_ok s s' origin who sg pk addr u :
  register_key origin who (EthereumAddress sg pk addr) s = (s', Ok u) ->
  origin = Root /\ verify_eth_signature (encode_account who) sg pk = Ok tt /\
  stored_key s who = None /\
  Keys s' = <[who := mkUserKeystore (Some (mkEthereumKey pk addr))]> (Keys s).
Proof.
  destruct origin; try done. rewrite register_key_run.
  destruct (verify_eth_signature _ _ _) as [[]|e|]; try done.
  destruct (stored_key s who); try done. intros [= <-]. done.
Qed.

Lemma unregister_key_ok s s' origin who k u :
  unregister_key origin who k s = (s', Ok u) ->
  origin = Root /\ is_Some (stored_key s who) /\
  Keys s' = <[who := mkUserKeystore None]> (Keys s).
Proof.
  destruct origin; try done. destruct k. unfold unregister_key, mlift, mbind. simpl.
  rewrite remove_ethereum_key_run. unfold stored_key.
  destruct (Keys s !! who) as [[[k|]]|]; try done. intros [= <-]. simpl. eauto.
Qed.

Lemma unregister_key_run s who k :
  stored_key s who = Some k ->
  unregister_key Root who UnregisterEthereumAddress s =
  (push_event (KeystoreEvent (pallet_keystore.EthereumKeyRemoved who))
     (set_Keys (<[who := mkUserKeystore None]> (Keys s)) s), Ok tt).
Proof.
  intros Hk. unfold unregister_key, mlift, mbind. simpl. rewrite remove_ethereum_key_run.
  unfold stored_key in Hk. by destruct (Keys s !! who) as [[[]]|]; simplify_eq/=.
Qed.

(** A message passes exactly when the presented key is the stored one and the
    signature is of that key. *)
Lemma verify_ethereum_msg_run s who msg key sg :
  verify_ethereum_msg who msg key sg s =
  (s, match stored_key s who with
      | None => Err (keystore_err pallet_keystore.KeyNotFound)
      | Some k =>
          if bool_decide (pub_key k = pub_key key) then
            match verify_eth_signature msg sg (pub_key key) with
            | Ok _ => Ok tt
            | _ => Err (keystore_err pallet_keystore.SignatureVerificationFailed)
            end
          else Err (keystore_err pallet_keystore.KeyMismatch)
      end).
Proof.
  pose proof (verify_eth_signature_no_panic msg sg (pub_key key)).
  unfold verify_ethereum_msg, stored_key, mbind, mget, mlift, mensure.
  destruct (Keys s !! who) as [[[k|]]|]; simpl; try done.
  case_bool_decide; [|done]. by destruct (verify_eth_signature _ _ _) as [[]|e|].
Qed.

Lemma stored_key_insert s m who k :
  Keys s = <[who := k]> m -> stored_key s who = eth_key k.
Proof. unfold stored_key. intros ->. by rewrite lookup_insert_eq. Qed.

(** Keys of the storage with a signature of their account. *)
Definition keys_signed (s : Storage) : Prop :=
  forall who key, stored_key s who = Some key ->
  exists signature, verify_eth_signature (encode_account who) signature (pub_key key) = Ok tt.
End keystore.

(** Every Ethereum key in storage has been proven: some signature of its
    account's id verifies with it.  Every dispatch of the pallet's extrinsics
    keeps this true. *)
Theorem registered_keys_signed `{Config} `{EthCrypto} s origin c :
  keys_signed s -> keys_signed (fst (dispatch_keystore origin c s)).
Proof.
  intros Hs. destruct (dispatch_keystore origin c s) as [s' o] eqn:Hd.
  destruct o as [u|e|]; simpl; [|by apply transactional_keep in Hd as ->..].
  unfold dispatch_keystore, dispatch in Hd. rewrite transactional_ok in Hd.
  intros who' key Hk. unfold stored_key in Hk.
  destruct c as [who [sg pk addr]|who k].
  - apply register_key_ok in Hd as (_ & Hv & _ & Hkeys). rewrite Hkeys in Hk.
    destruct (decide (who = who')) as [<-|Hne].
    + rewrite lookup_insert_eq in Hk. simplify_eq/=. eauto.
    + rewrite lookup_insert_ne in Hk by done. by apply Hs.
  - apply unregister_key_ok in Hd as (_ & _ & Hkeys). rewrite Hkeys in Hk.
    destruct (decide (who = who')) as [<-|Hne].
    + by rewrite lookup_insert_eq in Hk.
    + rewrite lookup_insert_ne in Hk by done. by apply Hs.
Qed.

(** The life of a key: a registration stores exactly that key for that
    account, a second one is refused, unregistering succeeds and leaves the
    account with an empty entry and no key to verify against, a second
    unregistration is refused, and the same registration is accepted again and
    restores the same keys. *)
Theorem register_unregister_round_trip `{Config} `{EthCrypto} s s1 who sg pk addr :
  register_key Root who (EthereumAddress sg pk addr) s = (s1, Ok tt) ->
  stored_key s1 who = Some (mkEthereumKey pk addr) /\
  (forall other, other <> who -> Keys s1 !! other = Keys s !! other) /\
  register_key Root who (EthereumAddress sg pk addr) s1 =
    (s1, Err (keystore_err pallet_keystore.EthereumKeyAlreadyRegistered)) /\
  exists s2,
    unregister_key Root who UnregisterEthereumAddress s1 = (s2, Ok tt) /\
    Keys s2 = <[who := mkUserKeystore None]> (Keys s) /\
    (forall msg key sg', verify_ethereum_msg who msg key sg' s2 =
      (s2, Err (keystore_err pallet_keystore.KeyNotFound))) /\
    unregister_key Root who UnregisterEthereumAddress s2 =
      (s2, Err (keystore_err pallet_keystore.NoEthereumKeyRegistered)) /\
    exists s3, register_key Root who (EthereumAddress sg pk addr) s2 = (s3, Ok tt) /\
      Keys s3 = Keys s1.
Proof.
  intros Hr. apply register_key_ok in Hr as (_ & Hv & _ & Hkeys).
  pose proof (stored_key_insert _ _ _ _ Hkeys) as Hstored.
  split_and!; [done| |by rewrite register_key_run, Hv, Hstored|].
  { intros other Hne. by rewrite Hkeys, lookup_insert_ne. }
  eexists. rewrite (unregister_key_run _ _ _ Hstored). split; [reflexivity|].
  set (s2 := push_event _ _).
  assert (Keys s2 = <[who := mkUserKeystore None]> (Keys s)) as Hk2.
  { subst s2. unfold Keys at 1. simpl. by rewrite Hkeys, insert_insert_eq. }
  pose proof (stored_key_insert _ _ _ _ Hk2) as Hs2. simpl in Hs2.
  split_and!; [done|by intros; rewrite verify_ethereum_msg_run, Hs2| |].
  - unfold unregister_key, mlift, mbind. simpl.
    by rewrite remove_ethereum_key_run, Hk2, lookup_insert_eq.
  - rewrite register_key_run, Hv, Hs2. eexists. split; [reflexivity|].
    unfold Keys at 1. simpl. by rewrite Hk2, insert_insert_eq.
Qed.

(** ** Examples *)

Section examples.
#[local] Existing Instance sample_config.
#[local] Existing Instance toy_crypto.

Definition toy_registration : RegisterExternalAddress :=
  EthereumAddress (mkEthereumSignature (replicate 32 x00) (replicate 32 x00) 2) toy_public_key
    (replicate 20 x00).

Lemma registered_keys_signed_witness :
  keys_signed (fst (dispatch_keystore Root (RegisterKey alice toy_registration)
    sample_storage)).
Proof. apply registered_keys_signed. by intros who key. Defined.

Lemma register_unregister_round_trip_witness :
  stored_key (fst (register_key Root alice toy_registration sample_storage)) alice =
  Some (mkEthereumKey toy_public_key (replicate 20 x00)).
Proof.
  eapply proj1. unfold toy_registration.
  eapply (@register_unregister_round_trip sample_config toy_crypto sample_storage _ alice).
  apply run_outcome. vm_compute. reflexivity.
Defined.
End examples.
