(* ===== verification/PalletAttestation.v ===== *)
(** * pallets/attestation

    Attestations of block state roots and the mark of the last forwarded block.
    The invariant of the stored attestations: at most 64 per block, one per
    public key, each stored under the block number it signs, with a signature
    that verifies.  The block number that is checked against the current block
    is the extrinsic's argument, not the one inside the attestation. *)

From stdpp Require Import base tactics list option gmap strings.
From Stdlib Require Import ZArith Lia.
From Stdlib Require Import Strings.Byte.
From S2P Require Import Prelude Bytes Types Runtime Sample PalletPermissions.
From S2P Require Import AttestationCore PalletKeystore.

Definition MAX_ATTESTATIONS : nat := 64.

Section attestation.
Context `{Config} `{EthCrypto}.

Definition attestation_err (e : pallet_attestation.Error) : DispatchError :=
  Module (AttestationPalletError e).

Definition Attestations (s : Storage) : gmap Z (list (Attestation Hash)) :=
  pallet_attestation.Attestations (attestation s).
Definition set_Attestations (m : gmap Z (list (Attestation Hash))) (s : Storage) : Storage :=
  with_attestation (pallet_attestation.set_Attestations m (attestation s)) s.

(** The fields of an attestation. *)
Definition att_signature (a : Attestation Hash) : EthereumSignature :=
  match a with EthereumAttestation sg _ _ _ _ _ => sg end.
Definition att_pub_key (a : Attestation Hash) : bytes :=
  match a with EthereumAttestation _ pk _ _ _ _ => pk end.
Definition att_state_root (a : Attestation Hash) : bytes :=
  match a with EthereumAttestation _ _ _ root _ _ => root end.
Definition att_block_number (a : Attestation Hash) : Z :=
  match a with EthereumAttestation _ _ _ _ n _ => n end.

Definition must_not_have_submitted_attestation (attestations_for_block : list (Attestation Hash))
    (attestor_key : bytes) : outcome DispatchError unit :=
  if existsb (fun x => bool_decide (att_pub_key x = attestor_key)) attestations_for_block
  then Err (attestation_err pallet_attestation.AttestationAlreadyRecordedError)
  else Ok tt.

Definition attest_block (origin : RawOrigin) (block_number : Z) (attestation : Attestation Hash)
    : Call unit :=
  let* who := mlift (ensure_signed origin) in
  let* current_block := get_block_number in
  mensure (block_number <? current_block)
    (attestation_err pallet_attestation.CannotAttestFutureBlock) ;;;
  mensure (negb (current_block =? block_number))
    (attestation_err pallet_attestation.CannotAttestCurrentBlock) ;;;
  ensure_root_or_permissioned origin (AttestationPallet AttestBlock) ;;;
  match attestation with
  | EthereumAttestation signature attestor_pub_key address20 state_root block_number _ =>
      let proposed_key := mkEthereumKey attestor_pub_key address20 in
      let msg := create_attestation_message state_root block_number in
      verify_ethereum_msg who msg proposed_key signature ;;;
      let* attestations_for_block :=
        mget (fun s => default [] (Attestations s !! block_number)) in
      mlift (must_not_have_submitted_attestation attestations_for_block attestor_pub_key) ;;;
      let* attestations_for_block :=
        mlift (ok_or (try_push MAX_ATTESTATIONS attestations_for_block attestation)
          (attestation_err pallet_attestation.MaxAttestationsForBlockError)) in
      mmodify (fun s =>
        set_Attestations (<[block_number := attestations_for_block]> (Attestations s)) s) ;;;
      deposit_event (AttestationEvent
        (pallet_attestation.BlockAttested block_number attestation who))
  end.

Definition mark_block_forwarded (origin : RawOrigin) (block_number : Z) : Call unit :=
  ensure_root_or_permissioned origin (AttestationPallet ForwardAttestedBlock) ;;;
  mmodify (fun s => with_attestation
    (pallet_attestation.set_LastForwardedBlock (Some block_number) (attestation s)) s).

Inductive attestation_call :=
| AttestBlockCall (block_number : Z) (attestation : Attestation Hash)
| MarkBlockForwarded (block_number : Z).

Definition dispatch_attestation (origin : RawOrigin) (c : attestation_call) : Call unit :=
  dispatch match c with
  | AttestBlockCall n a => attest_block origin n a
  | MarkBlockForwarded n => mark_block_forwarded origin n
  end.

(** ** The invariant *)

Definition attestation_valid (n : Z) (a : Attestation Hash) : Prop :=
  att_block_number a = n /\
  verify_eth_signature (create_attestation_message (att_state_root a) n) (att_signature a)
    (att_pub_key a) = Ok tt.

Definition attestations_wf (s : Storage) : Prop :=
  map_Forall (fun n l => (length l <= MAX_ATTESTATIONS)%nat /\ NoDup (att_pub_key <$> l) /\
    Forall (attestation_valid n) l) (Attestations s).

Lemma must_not_have_submitted_ok l k u :
  must_not_have_submitted_attestation l k = Ok u <-> k ∉ att_pub_key <$> l.
Proof.
  unfold must_not_have_submitted_attestation.
  destruct (existsb _ _) eqn:He.
  - apply existsb_exists in He as (a & Ha & Hk). apply bool_decide_eq_true in Hk as <-.
    split; [done|]. intros []. apply list_elem_of_fmap. exists a.
    by rewrite list_elem_of_In.
  - split; [|by destruct u]. intros _ (a & -> & Ha)%list_elem_of_fmap.
    apply not_true_iff_false in He. apply He. apply existsb_exists. exists a.
    rewrite <- list_elem_of_In. split; [done|]. by apply bool_decide_eq_true.
Qed.

(** Everything that holds when an attestation is accepted. *)
Lemma attest_block_ok s s' origin n a u :
  attest_block origin n a s = (s', Ok u) ->
  let m := att_block_number a in
  let l := default [] (Attestations s !! m) in
  exists who,
    origin = Signed who /\ n < frame_system.block_number (system s) /\
    has_permissions s who (AttestationPallet AttestBlock) = true /\
    (exists k, stored_key s who = Some k /\ pub_key k = att_pub_key a) /\
    attestation_valid m a /\ att_pub_key a ∉ att_pub_key <$> l /\
    (length l < MAX_ATTESTATIONS)%nat /\
    s' = push_event (AttestationEvent (pallet_attestation.BlockAttested m a who))
           (set_Attestations (<[m := l ++ [a]]> (Attestations s)) s).
Proof.
  destruct a as [sg pk addr root m bh]. intros Hr. unfold attest_block in Hr. inv_run.
  match goal with H : verify_ethereum_msg _ _ _ _ _ = _ |- _ =>
    rewrite verify_ethereum_msg_run in H; injection H as <- Hv end.
  match goal with H : must_not_have_submitted_attestation _ _ = _ |- _ =>
    apply must_not_have_submitted_ok in H end.
  match goal with H : try_push _ _ _ = _ |- _ => apply try_push_some in H as [-> ?] end.
  destruct (stored_key _ _) as [k|] eqn:Hk; [|done].
  case_bool_decide as Hkey; [|done].
  destruct (verify_eth_signature _ _ _) as [[]|e|] eqn:Hsig in Hv; simplify_eq/=.
  eexists. split_and!; try done; [lia|by eauto].
Qed.

(** And everything that suffices for it. *)
Lemma attest_block_accepts s who n a k :
  let m := att_block_number a in
  let l := default [] (Attestations s !! m) in
  n < frame_system.block_number (system s) ->
  permissioned s (Signed who) (AttestationPallet AttestBlock) ->
  stored_key s who = Some k -> pub_key k = att_pub_key a -> attestation_valid m a ->
  att_pub_key a ∉ att_pub_key <$> l -> (length l < MAX_ATTESTATIONS)%nat ->
  attest_block (Signed who) n a s =
    (push_event (AttestationEvent (pallet_attestation.BlockAttested m a who))
      (set_Attestations (<[m := l ++ [a]]> (Attestations s)) s), Ok tt).
Proof.
  destruct a as [sg pk addr root m bh]. cbn. intros Hn Hp Hk Hpk [_ Hv] Hnew Hlen.
  unfold attest_block, mlift, get_block_number, mget, mensure. unfold mbind at 1 2 3 4. simpl.
  rewrite (proj2 (Z.ltb_lt _ _) Hn). rewrite (proj2 (Z.eqb_neq _ _)) by lia. simpl.
  rewrite Hp. unfold mbind. simpl.
  rewrite verify_ethereum_msg_run, Hk.
  cbn [att_state_root att_signature att_pub_key pub_key] in Hpk, Hv |- *.
  rewrite bool_decide_true by done. rewrite Hv. simpl. rewrite (proj2 (must_not_have_submitted_ok _ _ tt) Hnew).
  unfold try_push. by rewrite (proj2 (Nat.ltb_lt _ _) Hlen).
Qed.
End attestation.

(** C38: The stored attestations of every block stay at most 64, come from
    distinct public keys, are stored under the block number they name, and
    carry a signature over state root and block number that verifies with
    their public key, through every dispatch of the pallet's extrinsics. *)
Theorem attestations_invariant `{Config} `{EthCrypto} s origin c :
  attestations_wf s -> attestations_wf (fst (dispatch_attestation origin c s)).
Proof.
  intros Hs. destruct (dispatch_attestation origin c s) as [s' o] eqn:Hd.
  destruct o as [u|e|]; simpl; [|by apply transactional_keep in Hd as ->..].
  unfold dispatch_attestation, dispatch in Hd. rewrite transactional_ok in Hd.
  destruct c as [n a|n].
  - apply attest_block_ok in Hd as (who & _ & _ & _ & _ & Hv & Hnew & Hlen & ->).
    apply map_Forall_insert_2; [|done].
    assert ((length (default [] (Attestations s !! att_block_number a)) <= MAX_ATTESTATIONS)%nat /\
      NoDup (att_pub_key <$> default [] (Attestations s !! att_block_number a)) /\
      Forall (attestation_valid (att_block_number a))
        (default [] (Attestations s !! att_block_number a))) as (_ & Hnd & Hall).
    { destruct (Attestations s !! att_block_number a) as [l|] eqn:Hl; simpl.
      - by apply (Hs _ _ Hl).
      - split; [lia|]. split; constructor. }
    rewrite length_app, fmap_app. simpl. split; [lia|]. split.
    + apply NoDup_app. split_and!; [done| |apply NoDup_singleton].
      intros k Hk ->%list_elem_of_singleton. done.
    + apply Forall_app. split; [done|]. by constructor.
  - unfold mark_block_forwarded in Hd. inv_run. done.
Qed.

(** Attesting the current block is refused as attesting a future block:
    [CannotAttestCurrentBlock] is never the error of [attest_block]. *)
Theorem current_block_error_unreachable `{Config} `{EthCrypto} s origin n a :
  snd (attest_block origin n a s) <>
    Err (attestation_err pallet_attestation.CannotAttestCurrentBlock) /\
  (forall who, origin = Signed who -> n = frame_system.block_number (system s) ->
   snd (attest_block origin n a s) =
    Err (attestation_err pallet_attestation.CannotAttestFutureBlock)).
Proof.
  split.
  - destruct origin as [|who|]; [done| |done].
    unfold attest_block, mlift, get_block_number, mget, mensure. simpl.
    unfold mbind at 1 2 3 4. simpl.
    destruct (Z.ltb_spec n (frame_system.block_number (system s))) as [Hn|Hn]; simpl;
      [|by intros [=]].
    destruct (Z.eqb_spec (frame_system.block_number (system s)) n) as [He|He]; simpl; [lia|].
    destruct (decide (permissioned s (Signed who) (AttestationPallet AttestBlock))) as [Hp|Hp];
      [|by rewrite (ensure_rop_denied _ _ _ _ Hp)].
    rewrite (mbind_run _ _ _ _ _ (ensure_rop_run _ _ _ Hp)).
    destruct a as [sg pk addr root m bh]. unfold mbind. rewrite verify_ethereum_msg_run.
    destruct (stored_key s who) as [k|]; [|by intros [=]]. case_bool_decide; [|by intros [=]].
    destruct (verify_eth_signature _ _ _); try by intros [=].
    unfold must_not_have_submitted_attestation, try_push.
    destruct (existsb _ _); simpl; [by intros [=]|]. by destruct (_ <? _)%nat; intros [=].
  - intros who -> ->. unfold attest_block, mlift, get_block_number, mget, mensure, mbind. simpl.
    by rewrite Z.ltb_irrefl.
Qed.

(** ** Examples *)

Section examples.
#[local] Existing Instance sample_config.
#[local] Existing Instance toy_crypto.

Definition toy_signature : EthereumSignature :=
  mkEthereumSignature (replicate 32 x00) (replicate 32 x00) 2.

(** Alice may attest and has a key. *)
Definition attestation_sample : Storage :=
  set_Keys {[alice := mkUserKeystore (Some (mkEthereumKey toy_public_key (replicate 20 x00)))]}
    (set_Permissions {[alice := [AttestationPallet AttestBlock]]} sample_storage).

Definition attestation_for (n : Z) : Attestation Hash :=
  @EthereumAttestation (@Hash sample_config) toy_signature toy_public_key (replicate 20 x00)
    (replicate 32 x00) n ([] : bytes).

Lemma attestations_invariant_witness :
  attestations_wf (fst (dispatch_attestation (Signed alice)
    (AttestBlockCall 9 (attestation_for 9)) attestation_sample)).
Proof. apply attestations_invariant. apply map_Forall_empty. Defined.

(** The block number that [attest_block] compares with the current block
    (10 here) is its argument; the attestation is verified and stored for the
    block number it carries, which may lie in the future (1000 here). *)
Theorem future_block_attested :
  snd (attest_block (Signed alice) 9 (attestation_for 1000) attestation_sample) = Ok tt /\
  frame_system.block_number (system attestation_sample) = 10 /\
  Attestations (fst (attest_block (Signed alice) 9 (attestation_for 1000) attestation_sample))
    !! 1000 = Some [attestation_for 1000].
Proof. split_and!; vm_compute; reflexivity. Qed.

Lemma current_block_error_unreachable_witness :
  snd (attest_block (Signed alice) 10 (attestation_for 10) attestation_sample) =
    Err (attestation_err pallet_attestation.CannotAttestFutureBlock).
Proof. by apply (current_block_error_unreachable attestation_sample (Signed alice) 10 _) with alice. Defined.
End examples.
