(* ===== verification/PalletCommitments.v ===== *)
(** * pallets/commitments

    The commitments of every table, one per scheme, in the chain's storage:
    creation for an empty table or from a snapshot, update by an insert, and
    the queries.  Theorems: creation and insertion are proved against the data
    the commitments commit to ([committed]), for the implementation of the
    native interface; the [expect] on the update is unreachable for every
    implementation that keeps the promise of [NativeApiLaws]. *)

From stdpp Require Import base tactics option gmap strings numbers list.
From Stdlib Require Import ZArith Lia.
From Stdlib Require Import Strings.Byte.
From S2P Require Import Prelude Bytes Types CommitmentScheme CommitmentMap IndexMap OnChainTable SqlAst.
From S2P Require Import ProofOfSql PlainCommitment CommitmentSql Native Runtime Sample.
From S2P Require Import ArrowConversion.

(** ** error_conversions.rs *)

Definition error_of_commitment_bytes (error : TableCommitmentToBytesError)
    : pallet_commitments.Error :=
  match error with
  | TooManyColumns _ => pallet_commitments.CommitmentWithTooManyColumns
  | Bincode => pallet_commitments.SerializeCommitment
  end.

Definition error_of_column_options (error : InvalidColumnOptions) : pallet_commitments.Error :=
  match error with
  | RequiredOption _ => pallet_commitments.ColumnWithoutNotNull
  | UnsupportedOption _ => pallet_commitments.ColumnWithUnsupportedOption
  end.

Definition error_of_column_type (error : UnsupportedColumnType) : pallet_commitments.Error :=
  match error with
  | UnconstrainedDecimal => pallet_commitments.DecimalColumnWithoutPrecision
  | DecimalPrecision _ => pallet_commitments.DecimalColumnWithInvalidPrecision
  | DecimalScale _ => pallet_commitments.DecimalColumnWithInvalidScale
  | DataTypeParameter _ => pallet_commitments.SupportedColumnWithUnsupportedParameter
  | DataTypeUnsupported _ => pallet_commitments.ColumnWithUnsupportedDataType
  end.

Definition error_of_create_table (error : InvalidCreateTable) : pallet_commitments.Error :=
  match error with
  | InvalidNoColumns => pallet_commitments.CreateTableWithNoColumns
  | InvalidUnsupportedColumnType source => error_of_column_type source
  | NumTableIdentifiers _ => pallet_commitments.CreateTableWithInvalidTableIdentifierCount
  | DuplicateIdentifiers => pallet_commitments.CreateTableWithDuplicateIdentifiers
  | InvalidReservedMetadataPrefix _ => pallet_commitments.CreateTableWithReservedMetadataPrefix
  | InvalidColumnOptionsE source => error_of_column_options source
  end.

Definition error_of_snapshot (error : ProcessCreateTableFromSnapshotError)
    : pallet_commitments.Error :=
  match error with
  | SnapshotInvalidCreateTable source => error_of_create_table source
  | InappropriateSnapshotCommitmentsE _ => pallet_commitments.InappropriateSnapshotCommitments
  end.

Definition error_of_append (error : AppendOnChainTableError) : pallet_commitments.Error :=
  match error with
  | AppendOutOfScalarBounds _ => pallet_commitments.InsertDataOutOfBounds
  | AppendColumnCommitmentsMismatch => pallet_commitments.InsertDataDoesntMatchExistingCommitments
  end.

Definition error_of_process_insert (error : ProcessInsertError) : pallet_commitments.Error :=
  match error with
  | AppendOnChainTable source => error_of_append source
  | InsertRangeMismatch => pallet_commitments.ExistingCommitmentsRangeMismatch
  | InsertColumnOrderMismatch => pallet_commitments.ExistingCommitmentsColumnOrderMismatch
  | InsertNoCommitments => pallet_commitments.NoExistingCommitments
  end.

Definition error_of_table_bytes (_ : OnChainTableToBytesError) : pallet_commitments.Error :=
  pallet_commitments.SerializeInsertData.

Definition error_of_native_commitment (error : NativeCommitmentError) : pallet_commitments.Error :=
  match error with
  | CommitmentDeserialization => pallet_commitments.NativeDeserializeCommitment
  | TableDeserialization => pallet_commitments.NativeDeserializeInsertData
  | Types.OutOfScalarBounds => pallet_commitments.InsertDataOutOfBounds
  | ColumnCommitmentsMismatch => pallet_commitments.InsertDataDoesntMatchExistingCommitments
  | TableCommitmentRangeMismatch => pallet_commitments.ExistingCommitmentsRangeMismatch
  | TableCommitmentColumnOrderMismatch => pallet_commitments.ExistingCommitmentsColumnOrderMismatch
  | NoCommitments => pallet_commitments.NoExistingCommitments
  | CommitmentSerialization => pallet_commitments.NativeSerializeCommitment
  | TableSerialization => pallet_commitments.NativeSerializeInsertData
  end.

Definition error_of_key_exists (_ : KeyExistsError TableIdentifier) : pallet_commitments.Error :=
  pallet_commitments.TableAlreadyExists.

(** ** lib.rs *)

(** The pallet's functions return their own error type. *)
Notation PalletResult A := (M Storage pallet_commitments.Error A).

Section commitments.
Context `{Config} `{UnicodeData} `{Postcard} `{ProofOfSql} `{NativeApi}.
(** [proof_of_sql_static_setups::baked::PUBLIC_SETUPS]. *)
Context (PUBLIC_SETUPS : PerCommitmentScheme PublicSetup).

Definition CommitmentStorageMap (s : Storage) : commitment_storage :=
  pallet_commitments.CommitmentStorageMap (commitments s).
Definition set_CommitmentStorageMap (m : commitment_storage) (s : Storage) : Storage :=
  with_commitments (pallet_commitments.set_CommitmentStorageMap m (commitments s)) s.

Definition build_genesis (default_commitment_schemes : CommitmentSchemeFlags) (s : Storage) : Storage :=
  with_commitments
    (pallet_commitments.set_DefaultCommitmentSchemes (Some default_commitment_schemes) (commitments s)) s.

(** [handler.create_commitments] on the storage map. *)
Definition handler_create_commitments (table : TableIdentifier)
    (c : TableCommitmentBytesPerCommitmentScheme) : M Storage (KeyExistsError TableIdentifier) unit :=
  let* map := mget CommitmentStorageMap in
  let* map := mlift (create_commitments map table c) in
  mmodify (set_CommitmentStorageMap map).

Definition handler_update_commitments (table : TableIdentifier)
    (c : TableCommitmentBytesPerCommitmentScheme) : M Storage CommitmentSchemesMismatchError unit :=
  let* map := mget CommitmentStorageMap in
  let* map := mlift (update_commitments map table c) in
  mmodify (set_CommitmentStorageMap map).

Definition process_create_table_and_initiate_commitments_with_scheme
    (create_table : CreateTableBuilder) (scheme : CommitmentSchemeFlags)
    : PalletResult CreateTableAndCommitmentMetadata :=
  let* (create_table_and_commitment_metadata, empty_commitments) := mlift (map_err
    error_of_create_table (process_create_table create_table PUBLIC_SETUPS scheme)) in
  let* table_identifier := mlift (unwrap (table_identifier_try_from
    (ident_value <$> table_name (table_with_meta_columns create_table_and_commitment_metadata)))) in
  let* empty_commitments_bytes := mlift (map_err error_of_commitment_bytes
    (commitments_to_bytes empty_commitments)) in
  mmap_err error_of_key_exists
    (handler_create_commitments table_identifier empty_commitments_bytes) ;;;
  mret create_table_and_commitment_metadata.

Definition process_create_table_and_initiate_commitments (create_table : CreateTableBuilder)
    : PalletResult CreateTableAndCommitmentMetadata :=
  let* schemes := mget (fun s => pallet_commitments.DefaultCommitmentSchemes (commitments s)) in
  let* schemes := mlift (unwrap_option schemes) in
  process_create_table_and_initiate_commitments_with_scheme create_table schemes.

Definition process_create_table_and_initiate_commitments_with_dynamic_dory
    (create_table : CreateTableBuilder) : PalletResult CreateTableAndCommitmentMetadata :=
  process_create_table_and_initiate_commitments_with_scheme create_table (mkFlags false true).

Definition process_create_table_from_snapshot_and_initiate_commitments
    (create_table : CreateTableBuilder)
    (snapshot_commitment_bytes : TableCommitmentBytesPerCommitmentScheme)
    : PalletResult CreateTableAndCommitmentMetadata :=
  let* snapshot_commitments := mlift (map_err (fun _ => pallet_commitments.DeserializeCommitment)
    (commitments_from_bytes snapshot_commitment_bytes)) in
  let* (create_table_and_commitment_metadata, snapshot_commitments) := mlift (map_err
    error_of_snapshot
    (process_create_table_from_snapshot create_table PUBLIC_SETUPS snapshot_commitments)) in
  let* snapshot_commitment_bytes := mlift (map_err error_of_commitment_bytes
    (commitments_to_bytes snapshot_commitments)) in
  let* table_identifier := mlift (unwrap (table_identifier_try_from
    (ident_value <$> table_name (table_with_meta_columns create_table_and_commitment_metadata)))) in
  mmap_err error_of_key_exists
    (handler_create_commitments table_identifier snapshot_commitment_bytes) ;;;
  mret create_table_and_commitment_metadata.

Definition initiate_precomputed_commitments (table : TableIdentifier)
    (commitments : TableCommitmentBytesPerCommitmentScheme)
    : M Storage (KeyExistsError TableIdentifier) unit :=
  handler_create_commitments table commitments.

Definition process_insert_and_update_commitments (table : TableIdentifier)
    (insert_data : OnChainTable) : PalletResult InsertAndCommitmentMetadata :=
  let* map := mget CommitmentStorageMap in
  let previous_commitments := get_commitments map table in
  let* table_bytes := mlift (map_err error_of_table_bytes
    (on_chain_table_try_into_bytes insert_data)) in
  let* (insert_with_meta_columns_bytes, commitments_bytes) := mlift (map_err
    error_of_native_commitment (api_process_insert table table_bytes previous_commitments)) in
  let* updated := mtry (handler_update_commitments table commitments_bytes) in
  let* _ := mlift (match updated with inl _ => Ok tt | inr _ => Panic end) in
  let* insert_with_meta_columns := mlift (map_err
    (fun _ => pallet_commitments.DeserializeInsertData)
    (on_chain_table_try_from_bytes insert_with_meta_columns_bytes)) in
  mret (mkInsertMetadata insert_with_meta_columns []).

Definition table_commitment (s : Storage) (table : TableIdentifier) (scheme : CommitmentScheme)
    : option TableCommitmentBytes :=
  CommitmentStorageMap s !! (table, scheme).

Definition table_commitments (s : Storage) (table_identifiers : list TableIdentifier)
    (commitment_scheme : CommitmentScheme) : option (list TableCommitmentBytes) :=
  mapM (fun table_identifier => table_commitment s table_identifier commitment_scheme)
    table_identifiers.

(** [Iterator::find_map] over the schemes, in the order of [flags_into_iter]. *)
Definition table_commitments_any_scheme (s : Storage) (table_identifiers : list TableIdentifier)
    : option (AnyCommitmentScheme (ConcreteType (list TableCommitmentBytes))) :=
  head (omap (fun commitment_scheme =>
    into_any_concrete commitment_scheme <$> table_commitments s table_identifiers commitment_scheme)
    (flags_into_iter flags_all)).
End commitments.

(** ** Specifications *)

Section specs.
Context `{Config} `{ProofOfSql}.

(** The commitments stored for a table. *)
Definition stored_commitments (s : Storage) (table : TableIdentifier)
    : TableCommitmentBytesPerCommitmentScheme :=
  view (CommitmentStorageMap s) table.

(** The commitment of a scheme to a table that is in storage commits to [cols]. *)
Definition committed (s : Storage) (table : TableIdentifier) (C : CommitmentScheme)
    (setup : PublicSetup C) (cols : list (Ident * CommittableColumn)) : Prop :=
  exists b c, table_commitment s table C = Some b /\
    bincode_decode C (commitment_data b) = Some c /\ commits_to C setup c cols.

(** Nothing but the commitments of one table changes. *)
Definition only_commitments_of (table : TableIdentifier) (s s' : Storage) : Prop :=
  (exists map, s' = set_CommitmentStorageMap map s) /\
  forall t C, t <> table -> table_commitment s' t C = table_commitment s t C.

Lemma stored_get s table C : per_get (stored_commitments s table) C = table_commitment s table C.
Proof. by destruct C. Qed.

Lemma stored_other map s t : stored_commitments (set_CommitmentStorageMap map s) t = view map t.
Proof. done. Qed.

Lemma only_commitments_view map s table :
  (forall t, t <> table -> view map t = view (CommitmentStorageMap s) t) ->
  only_commitments_of table s (set_CommitmentStorageMap map s).
Proof.
  intros Hv. split; [by exists map|]. intros t C Hne. rewrite <- !stored_get.
  rewrite stored_other, Hv by done. done.
Qed.

(** Creating: the table has no commitments yet and then has the given ones. *)
Lemma handler_create_run table c s :
  let '(s', o) := handler_create_commitments table c s in
  match o with
  | Ok _ => to_flags (stored_commitments s table) = flags_default /\
      stored_commitments s' table = c /\ only_commitments_of table s s'
  | Err _ => s' = s /\ to_flags (stored_commitments s table) <> flags_default
  | Panic => False
  end.
Proof.
  unfold handler_create_commitments, mbind, mget, mlift, mmodify.
  pose proof (create_commitments_view (CommitmentStorageMap s) table c) as Hc.
  destruct (create_commitments _ table c) as [map|e|]; unfold spec_create in Hc;
    try case_bool_decide as Hf; try done.
  split_and!; [done| |].
  - rewrite stored_other, Hc. unfold spec_put. by rewrite decide_True.
  - apply only_commitments_view. intros t Hne. rewrite Hc. unfold spec_put.
    by rewrite decide_False by done.
Qed.

(** Updating: the same schemes are present before and after. *)
Lemma handler_update_run table c s :
  let '(s', o) := handler_update_commitments table c s in
  match o with
  | Ok _ => to_flags (stored_commitments s table) = to_flags c /\
      stored_commitments s' table = c /\ only_commitments_of table s s'
  | Err _ => s' = s /\ to_flags (stored_commitments s table) <> to_flags c
  | Panic => False
  end.
Proof.
  unfold handler_update_commitments, mbind, mget, mlift, mmodify.
  pose proof (update_commitments_view (CommitmentStorageMap s) table c) as Hc.
  destruct (update_commitments _ table c) as [map|e|]; unfold spec_update in Hc;
    try case_bool_decide as Hf; try done.
  split_and!; [done| |].
  - rewrite stored_other, Hc. unfold spec_put. by rewrite decide_True.
  - apply only_commitments_view. intros t Hne. rewrite Hc. unfold spec_put.
    by rewrite decide_False by done.
Qed.

Lemma flags_default_none (s : Storage) table C :
  to_flags (stored_commitments s table) = flags_default -> table_commitment s table C = None.
Proof.
  intros Hf. rewrite <- stored_get. apply eq_None_not_Some. intros Hs.
  rewrite <- (to_flags_spec (T := ConcreteType TableCommitmentBytes)) in Hs.
  rewrite Hf in Hs. by destruct C.
Qed.

(** What storing encoded commitments makes [committed]. *)
Lemma stored_committed `{!ProofOfSqlLaws} s table p b C c setup cols :
  stored_commitments s table = b -> commitments_to_bytes p = Ok b ->
  per_get p C = Some c -> commits_to C setup c cols -> committed s table C setup cols.
Proof.
  intros Hs Hb Hp Hc. pose proof (commitments_to_bytes_ok _ _ Hb C) as Hok. rewrite Hp in Hok.
  destruct (per_get b C) as [x|] eqn:Hx; [|done].
  apply table_commitment_to_bytes_ok in Hok as (_ & He & _).
  exists x, c. rewrite <- stored_get, Hs. split_and!; [done| |done]. by apply bincode_round_trip.
Qed.
End specs.

(** The operations write to nothing but the commitments map. *)
Section frame.
Context `{Config} `{UnicodeData} `{ProofOfSql} (I : Storage -> Prop).
Context (HI : forall s map, I s -> I (set_CommitmentStorageMap map s)).

Lemma preserves_handler_create table c : preserves I (handler_create_commitments table c).
Proof.
  repeat (apply preserves_bind; [auto with sxt|intros]). by apply preserves_modify; auto.
Qed.

Lemma preserves_create_with_scheme setups ct flags :
  preserves I (process_create_table_and_initiate_commitments_with_scheme setups ct flags).
Proof.
  apply preserves_bind; [auto with sxt|intros [m p]].
  repeat (apply preserves_bind; [auto using preserves_handler_create with sxt|intros]).
  auto with sxt.
Qed.

Lemma preserves_create_from_snapshot setups ct snapshot :
  preserves I (process_create_table_from_snapshot_and_initiate_commitments setups ct snapshot).
Proof.
  apply preserves_bind; [auto with sxt|intros ?].
  apply preserves_bind; [auto with sxt|intros [m p]].
  repeat (apply preserves_bind; [auto using preserves_handler_create with sxt|intros]).
  auto with sxt.
Qed.
End frame.

(** A run of the creation with a scheme. *)
Lemma create_with_scheme_run `{Config} `{UnicodeLaws} `{ProofOfSqlLaws} setups
    create_table flags s :
  let '(s', o) :=
    process_create_table_and_initiate_commitments_with_scheme setups create_table flags s in
  match o with
  | Ok m =>
      table_with_meta_columns m = create_table_with_row_number_column create_table /\
      exists table,
        table_identifier_try_from (ident_value <$> table_name create_table) = Ok table /\
        only_commitments_of table s s' /\
        forall C, table_commitment s table C = None /\
          (has_flag flags C = false -> table_commitment s' table C = None) /\
          (has_flag flags C = true -> exists cols,
            committed s' table C (per_get setups C) cols /\ rows_of cols = 0 /\
            forall id, id ∈ fst <$> cols <->
              id ∈ uppercase_ident <$> (column_def_name <$> table_columns create_table))
  | _ => s' = s
  end.
Proof.
  unfold process_create_table_and_initiate_commitments_with_scheme.
  destruct (validate create_table) as [v|e|] eqn:Hv;
    [|unfold process_create_table; rewrite Hv; done..].
  destruct (process_create_table_run create_table setups flags v Hv) as (p & -> & Hp).
  cbn -[commitments_to_bytes table_identifier_try_from handler_create_commitments mbind].
  unfold mbind, mlift at 1. cbn -[commitments_to_bytes table_identifier_try_from handler_create_commitments].
  destruct (table_identifier_try_from _) as [table|e|] eqn:Htable; [|done..]. cbn [unwrap mlift].
  destruct (commitments_to_bytes p) as [b|e|] eqn:Hb; [|done..]. cbn [map_err mlift].
  unfold mmap_err. pose proof (handler_create_run table b s) as Hc.
  destruct (handler_create_commitments table b s) as [s' [u|e|]]; [|naive_solver..].
  destruct Hc as (Hf & Hst & Honly). split; [done|]. exists table. split_and!; [done|done|].
  intros C. specialize (Hp C). split_and!; [by apply flags_default_none| |].
  - intros Hno. rewrite <- stored_get, Hst. pose proof (commitments_to_bytes_ok _ _ Hb C) as Hok.
    destruct (per_get p C); [by destruct Hp; congruence|]. by destruct (per_get b C).
  - intros Hyes. destruct (per_get p C) as [c|] eqn:Hc; [|congruence].
    destruct Hp as (_ & cols & Hcommit & Hr0 & Hcols). exists cols. split_and!; [|done|done].
    by eapply stored_committed.
Qed.

(** Initiating commitments for a new table either fails and leaves the
    storage as it was, or the table had no commitments of any scheme and now
    has commitments to its empty columns for exactly the requested schemes,
    and nothing else changed. *)
Theorem create_table_initiates_commitments `{Config} `{UnicodeLaws} `{ProofOfSqlLaws} setups
    create_table flags s :
  let '(s', o) :=
    process_create_table_and_initiate_commitments_with_scheme setups create_table flags s in
  match o with
  | Ok m =>
      table_with_meta_columns m = create_table_with_row_number_column create_table /\
      exists table,
        table_identifier_try_from (ident_value <$> table_name create_table) = Ok table /\
        only_commitments_of table s s' /\
        forall C, table_commitment s table C = None /\
          (has_flag flags C = false -> table_commitment s' table C = None) /\
          (has_flag flags C = true -> exists cols,
            committed s' table C (per_get setups C) cols /\ rows_of cols = 0 /\
            forall id, id ∈ fst <$> cols <->
              id ∈ uppercase_ident <$> (column_def_name <$> table_columns create_table))
  | _ => s' = s
  end.
Proof. apply create_with_scheme_run. Qed.

(** What a successful insert did. *)
Lemma process_insert_run `{Config} `{UnicodeData} `{Postcard} `{NativeApi} table ins s s' m :
  process_insert_and_update_commitments table ins s = (s', Ok m) ->
  exists data data' new,
    on_chain_table_try_into_bytes ins = Ok data /\
    api_process_insert table data (stored_commitments s table) = Ok (data', new) /\
    to_flags new = to_flags (stored_commitments s table) /\
    stored_commitments s' table = new /\ only_commitments_of table s s' /\
    on_chain_table_try_from_bytes data' = Ok (insert_with_meta_columns m) /\
    insert_meta_table_inserts m = [].
Proof.
  unfold process_insert_and_update_commitments, mbind, mget.
  rewrite get_commitments_view. fold (stored_commitments s table). unfold mlift at 1.
  destruct (on_chain_table_try_into_bytes ins) as [data|e|] eqn:Hd; [|done..].
  cbn [map_err]. unfold mlift at 1.
  destruct (api_process_insert table data _) as [[data' new]|e|] eqn:Hrun; [|done..].
  cbn [map_err]. unfold mtry. pose proof (handler_update_run table new s) as Hu.
  destruct (handler_update_commitments table new s) as [s1 [u|e|]]; [|done..].
  destruct Hu as (Hf & Hst & Honly). unfold mlift, mret.
  destruct (on_chain_table_try_from_bytes data') as [t|e|] eqn:Ht; [|done..].
  intros [= <- <-]. by exists data, data', new.
Qed.

(** A run of the creation from a snapshot. *)
Lemma create_from_snapshot_run `{Config} `{UnicodeLaws} `{ProofOfSqlLaws} setups
    create_table snapshot s :
  let '(s', o) :=
    process_create_table_from_snapshot_and_initiate_commitments setups create_table snapshot s in
  match o with
  | Ok m =>
      table_with_meta_columns m = create_table_with_row_number_column create_table /\
      exists table,
        table_identifier_try_from (ident_value <$> table_name create_table) = Ok table /\
        only_commitments_of table s s' /\
        commitments_from_bytes (stored_commitments s' table) = commitments_from_bytes snapshot /\
        forall C, table_commitment s table C = None
  | _ => s' = s
  end.
Proof.
  unfold process_create_table_from_snapshot_and_initiate_commitments, mbind, mlift at 1.
  destruct (commitments_from_bytes snapshot) as [p|e|] eqn:Hp; [|done..]. cbn [map_err].
  destruct (process_create_table_from_snapshot create_table setups p) as [[m p']|e|] eqn:Hrun;
    [|done..]. unfold mlift at 1. cbn [map_err].
  apply snapshot_keeps in Hrun as (-> & _ & Hm & _).
  unfold mlift at 1. destruct (commitments_to_bytes p) as [b|e|] eqn:Hb; [|done..]. cbn [map_err].
  rewrite Hm. unfold mlift at 1.
  destruct (table_identifier_try_from _) as [table|e|] eqn:Htable; [|done..]. cbn [unwrap].
  unfold mmap_err. pose proof (handler_create_run table b s) as Hc.
  destruct (handler_create_commitments table b s) as [s' [u|e|]]; [|naive_solver..].
  destruct Hc as (Hf & Hst & Honly). split; [done|]. exists table. split_and!; [done|done| |].
  - rewrite Hst. by apply commitments_bytes_round_trip_aux.
  - intros C. by apply flags_default_none.
Qed.

(** Initiating commitments from a snapshot stores commitments that decode to
    the snapshot's, for a table that had none, and changes nothing else; on
    failure the storage is as it was. *)
Theorem create_table_from_snapshot_stores `{Config} `{UnicodeLaws} `{ProofOfSqlLaws} setups
    create_table snapshot s :
  let '(s', o) :=
    process_create_table_from_snapshot_and_initiate_commitments setups create_table snapshot s in
  match o with
  | Ok m =>
      table_with_meta_columns m = create_table_with_row_number_column create_table /\
      exists table,
        table_identifier_try_from (ident_value <$> table_name create_table) = Ok table /\
        only_commitments_of table s s' /\
        commitments_from_bytes (stored_commitments s' table) = commitments_from_bytes snapshot /\
        forall C, table_commitment s table C = None
  | _ => s' = s
  end.
Proof. apply create_from_snapshot_run. Qed.

(** The [expect] after the native call is unreachable: for every
    implementation of the native interface that returns the schemes it was
    given, an insert panics only if the native call itself does. *)
Theorem insert_expect_unreachable `{Config} `{UnicodeData} `{Postcard} `{NativeApiLaws}
    table insert_data s :
  (forall data, on_chain_table_try_into_bytes insert_data = Ok data ->
    api_process_insert table data (stored_commitments s table) <> Panic) ->
  snd (process_insert_and_update_commitments table insert_data s) <> Panic.
Proof.
  intros Hapi. unfold process_insert_and_update_commitments, mbind, mget.
  rewrite get_commitments_view. fold (stored_commitments s table). unfold mlift at 1.
  destruct (on_chain_table_try_into_bytes insert_data) as [data|e|] eqn:Hd; [|done|].
  2: { exfalso. revert Hd. unfold on_chain_table_try_into_bytes.
       repeat (apply obind_not_panic; [apply ok_or_no_panic|intros ? _]). done. }
  cbn [map_err]. unfold mlift at 1. specialize (Hapi data eq_refl).
  destruct (api_process_insert table data (stored_commitments s table)) as [[data' new]|e|] eqn:Hrun;
    [|done..]. cbn [map_err].
  apply process_insert_same_schemes in Hrun. unfold mtry.
  pose proof (handler_update_run table new s) as Hu.
  destruct (handler_update_commitments table new s) as [s' [u|e|]]; [|naive_solver..].
  cbn [mlift]. unfold on_chain_table_try_from_bytes, mret. simpl.
  by destruct (deserialize_on_chain_table _).
Qed.

(** A run of an insert, against the data the commitments commit to. *)
Lemma insert_updates_run `{Config} `{UnicodeLaws} `{PostcardLaws} `{ArrowLibrary}
    `{StreamReader} `{ProofOfSqlLaws} setups table insert_data s s' m :
  table_wf insert_data ->
  @process_insert_and_update_commitments _ _ _ (Api (Some setups)) table insert_data s = (s', Ok m) ->
  only_commitments_of table s s' /\
  to_flags (stored_commitments s' table) = to_flags (stored_commitments s table) /\
  forall C cols, committed s table C (per_get setups C) cols ->
  exists rows cols',
    @iter_committable (commitment_scalar C) (with_column_order insert_data (fst <$> cols)) = Ok rows /\
    append_tables cols rows = Some cols' /\ committed s' table C (per_get setups C) cols'.
Proof.
  intros Hwf (data & data' & new & Hdata & Hnat & Hflags & Hst & Honly & _)%process_insert_run.
  split_and!; [done|by rewrite Hst|]. intros C cols (b & c & Hb & Hdec & Hcommit).
  apply native_process_insert_ok in Hnat as (t & prev & su & m' & next & Ht & Hprev & [= <-] & Hins & _ & Hnew).
  assert (t = insert_data) as -> by (eapply on_chain_table_bytes_back; eauto).
  pose proof (commitments_from_bytes_ok _ _ Hprev C) as Hpc. rewrite stored_get, Hb in Hpc.
  destruct (per_get prev C) as [c'|] eqn:Hc'; [|done]. simplify_eq.
  destruct (insert_commits _ _ _ _ _ _ Hwf Hins C c cols Hc' Hcommit)
    as (cnew & rows & cols' & Hnext & Hrows & Happ & Hcommit').
  exists rows, cols'. split_and!; [done|done|]. by eapply stored_committed.
Qed.

(** An insert that succeeds keeps the schemes of the table, changes nothing
    but the commitments of the table, and every commitment that committed to
    some columns now commits to these columns with the inserted rows appended. *)
Theorem insert_updates_commitments `{Config} `{UnicodeLaws} `{PostcardLaws} `{ArrowLibrary}
    `{StreamReader} `{ProofOfSqlLaws} setups table insert_data s s' m :
  table_wf insert_data ->
  @process_insert_and_update_commitments _ _ _ (Api (Some setups)) table insert_data s = (s', Ok m) ->
  only_commitments_of table s s' /\
  to_flags (stored_commitments s' table) = to_flags (stored_commitments s table) /\
  forall C cols, committed s table C (per_get setups C) cols ->
  exists rows cols',
    @iter_committable (commitment_scalar C) (with_column_order insert_data (fst <$> cols)) = Ok rows /\
    append_tables cols rows = Some cols' /\ committed s' table C (per_get setups C) cols'.
Proof. apply insert_updates_run. Qed.

(** The commitments for a list of tables come from one scheme that has all of
    them, in the order of the list; dynamic dory is used only when hyper-kzg
    does not cover the list; and there is no answer only if no scheme does. *)
Theorem table_commitments_any_scheme_spec `{Config} s tables :
  match table_commitments_any_scheme s tables with
  | Some any =>
      Forall2 (fun t c => table_commitment s t (to_scheme any) = Some c) tables (any_unwrap any) /\
      (to_scheme any = DynamicDory -> exists t, t ∈ tables /\ table_commitment s t HyperKzg = None)
  | None => forall C, exists t, t ∈ tables /\ table_commitment s t C = None
  end.
Proof.
  assert (forall C, table_commitments s tables C = None ->
    exists t, t ∈ tables /\ table_commitment s t C = None) as Hnone.
  { intros C Hn. unfold table_commitments in Hn. apply mapM_None_1 in Hn.
    apply Exists_exists in Hn as (t & Ht & Hn). eauto. }
  unfold table_commitments_any_scheme. simpl.
  destruct (table_commitments s tables HyperKzg) as [l|] eqn:Hk; simpl.
  - apply mapM_Some in Hk. by split.
  - destruct (table_commitments s tables DynamicDory) as [l|] eqn:Hd; simpl.
    + apply mapM_Some in Hd. split; [done|]. by intros _; apply Hnone.
    + intros []; by apply Hnone.
Qed.

(** ** Examples *)

Section examples.
#[local] Existing Instance sample_config.
#[local] Existing Instance ascii_unicode.
#[local] Existing Instance ascii_unicode_laws.
#[local] Existing Instance plain_proof_of_sql.
#[local] Existing Instance plain_laws.
#[local] Existing Instance plain_postcard.
#[local] Existing Instance plain_postcard_laws.
#[local] Existing Instance plain_arrow.
#[local] Existing Instance plain_reader.
#[local] Existing Instance plain_api.

Definition create_run (flags : CommitmentSchemeFlags) :=
  process_create_table_and_initiate_commitments_with_scheme sample_setups sample_definition flags.

Definition sample_empty_columns : list (Ident * CommittableColumn) :=
  [(Ident_new (bs "NAME"), CcVarChar []); (Ident_new (bs "BLOCK_NUMBER"), CcBigInt [])].

(** The chain after the sample table was created. *)
Definition created_storage : Storage := fst (create_run flags_all sample_storage).

Lemma create_table_initiates_commitments_witness :
  only_commitments_of sample_table_identifier sample_storage created_storage /\
  exists cols, committed created_storage sample_table_identifier DynamicDory tt cols /\ rows_of cols = 0.
Proof.
  pose proof (create_table_initiates_commitments sample_setups sample_definition flags_all
    sample_storage) as Hc.
  assert (is_ok (snd (create_run flags_all sample_storage)) = true) as Hok by (vm_compute; reflexivity).
  unfold created_storage. fold (create_run flags_all) in Hc.
  destruct (create_run flags_all sample_storage) as [s' [m|e|]]; [|done..]. simpl.
  destruct Hc as (_ & table & Ht & Honly & Hall).
  assert (table = sample_table_identifier) as ->.
  { vm_compute in Ht. by injection Ht as <-. }
  split; [exact Honly|]. destruct (Hall DynamicDory) as (_ & _ & Hyes).
  destruct (Hyes eq_refl) as (cols & ? & ? & _). by exists cols.
Defined.

Lemma create_table_from_snapshot_stores_witness :
  match commitments_to_bytes sample_commitments with
  | Ok snapshot =>
      let '(s', o) := process_create_table_from_snapshot_and_initiate_commitments sample_setups
        sample_definition snapshot sample_storage in
      is_ok o = true /\ exists table, only_commitments_of table sample_storage s'
  | _ => False
  end.
Proof.
  destruct (commitments_to_bytes sample_commitments) as [b|e|] eqn:Hb;
    [|vm_compute in Hb; discriminate..].
  pose proof (create_table_from_snapshot_stores sample_setups sample_definition b sample_storage) as Hc.
  assert (is_ok (snd (process_create_table_from_snapshot_and_initiate_commitments sample_setups
    sample_definition b sample_storage)) = true) as Hok.
  { vm_compute in Hb. injection Hb as <-. vm_compute. reflexivity. }
  destruct (process_create_table_from_snapshot_and_initiate_commitments _ _ _ _) as [s' [m|e|]];
    [|done..].
  split; [done|]. destruct Hc as (_ & table & _ & ? & _). by exists table.
Defined.

Lemma insert_expect_unreachable_witness :
  snd (process_insert_and_update_commitments sample_table_identifier sample_table created_storage)
  <> Panic.
Proof.
  apply (@insert_expect_unreachable sample_config ascii_unicode plain_postcard plain_api
    (Api_laws (Some sample_setups))).
  intros data Hdata. vm_compute in Hdata. injection Hdata as <-. vm_compute. discriminate.
Defined.

Definition insert_run :=
  process_insert_and_update_commitments sample_table_identifier sample_table.

Lemma insert_updates_commitments_witness :
  let '(s', o) := insert_run created_storage in
  is_ok o = true /\
  forall C, committed created_storage sample_table_identifier C tt sample_empty_columns ->
    exists cols', committed s' sample_table_identifier C tt cols'.
Proof.
  assert (is_ok (snd (insert_run created_storage)) = true) as Hok by (vm_compute; reflexivity).
  destruct (insert_run created_storage) as [s' [m|e|]] eqn:Hrun; [|done..]. split; [done|].
  destruct (insert_updates_commitments sample_setups _ _ _ _ _ sample_table_wf Hrun) as (_ & _ & Hc).
  intros C Hcommit.
  destruct (Hc C sample_empty_columns) as (rows & cols' & _ & _ & ?); [by destruct C|].
  exists cols'. by destruct C.
Defined.

(** The definition passes the validation, whose [expect] then stops on a table
    name that does not fit a [TableIdentifier]. *)
Example long_table_name_panics :
  let table := mkCreateTable [Ident_new (bs "S"); Ident_new (repeat "A"%byte 65)]
    [mkColumnDef (Ident_new (bs "A")) (DtBigInt None) None [mkColumnOptionDef None NotNull]] [] [] in
  is_ok (validate table) = true /\
  snd (process_create_table_and_initiate_commitments_with_scheme sample_setups table flags_all
    sample_storage) = Panic.
Proof. split; vm_compute; reflexivity. Qed.
End examples.
