(* ===== verification/PalletTables.v ===== *)
(** * pallets/tables

    Creation and removal of tables and namespaces, their UUIDs and versions.
    Theorems: who may change what, the exact effect of creating and dropping a
    table, the versions that UUIDs get, and an invariant that ties the tables'
    schemas to their insert quorums. *)

From stdpp Require Import base tactics option gmap strings numbers list.
From Stdlib Require Import ZArith Lia.
From Stdlib Require Import Strings.Byte.
From S2P Require Import Prelude Bytes Text Types CommitmentScheme CommitmentMap OnChainTable SqlAst.
From S2P Require Import TablesSql ProofOfSql PlainCommitment CommitmentSql Native Runtime Sample.
From S2P Require Import PalletPermissions PalletCommitments.

Section tables.
Context `{Config} `{UnicodeData} `{SqlParser} `{UuidRng} `{ProofOfSql}.
Context (PUBLIC_SETUPS : PerCommitmentScheme PublicSetup).

Definition tables_err (e : pallet_tables.Error) : DispatchError := Module (TablesError e).

Definition modify_tables (f : pallet_tables.Storage -> pallet_tables.Storage) : Call unit :=
  mmodify (fun s => with_tables (f (tables s)) s).

(** [ValueQuery] storage reads the default of an absent key. *)
Definition identifiers_of (s : Storage) (table_type : TableType) : list TableIdentifier :=
  default [] (pallet_tables.Identifiers (tables s) !! table_type).

(** ** Helpers *)

(** Iterates over the map and removes the entries of one table. *)
Definition remove_commits (ident : TableIdentifier) : Call unit :=
  mmodify (fun s =>
    set_CommitmentStorageMap
      (foldl (fun m kv =>
         if bool_decide ((kv.1).1 = ident) then delete (ident, (kv.1).2) m else m)
         (CommitmentStorageMap s) (map_to_list (CommitmentStorageMap s))) s).

Definition insert_namespace_uuid (namespace_name : TableNamespace) (version : TableVersion)
    (namespace_uuid : TableUuid) : Call unit :=
  let* present := mget (fun s =>
    bool_decide (is_Some (pallet_tables.NamespaceVersions (tables s) !! (namespace_name, version)))) in
  if present : bool then mfail (tables_err pallet_tables.VersionAlreadyExists)
  else modify_tables (fun t => pallet_tables.set_NamespaceVersions
         (<[(namespace_name, version) := namespace_uuid]> (pallet_tables.NamespaceVersions t)) t).

(** [TableVersions::iter_prefix]: the versions of one table. *)
Definition versions_of (m : gmap (TableIdentifier * TableVersion) TableUuid) (ident : TableIdentifier)
    : list TableVersion :=
  (fun kv => (kv.1).2) <$> filter (fun kv => (kv.1).1 = ident) (map_to_list m).

(** [u16] addition wraps. *)
Definition u16_add (a b : Z) : Z := (a + b) mod 65536.

Definition next_version (m : gmap (TableIdentifier * TableVersion) TableUuid)
    (ident : TableIdentifier) : TableVersion :=
  match iter_max (versions_of m ident) with
  | Some v => u16_add v 1
  | None => 0
  end.

Definition insert_table_uuid (ident : TableIdentifier) (uuid : TableUuid)
    (column_uuids : ColumnUuidList) : Call TableVersion :=
  let* version := mget (fun s => next_version (pallet_tables.TableVersions (tables s)) ident) in
  modify_tables (fun t => pallet_tables.set_TableVersions
    (<[(ident, version) := uuid]> (pallet_tables.TableVersions t)) t) ;;;
  modify_tables (fun t => pallet_tables.set_ColumnVersions
    (<[(ident, version) := column_uuids]> (pallet_tables.ColumnVersions t)) t) ;;;
  mret version.

(** The result of [try_push] is not looked at. *)
Definition insert_schema (ident : TableIdentifier) (stmnt : CreateStatement)
    (table_type : TableType) (source : Source) : Call unit :=
  let* identifiers := mget (fun s => identifiers_of s table_type) in
  let identifiers :=
    default identifiers (try_push MAX_IDENTIFIERS_PER_SOURCE_AND_MODE identifiers ident) in
  modify_tables (fun t => pallet_tables.set_Identifiers
    (<[table_type := identifiers]> (pallet_tables.Identifiers t)) t) ;;;
  modify_tables (fun t => pallet_tables.set_Schemas
    (<[(namespace ident, name ident) := stmnt]> (pallet_tables.Schemas t)) t) ;;;
  let quorum := insert_quorum_of_table_type table_type in
  modify_tables (fun t => pallet_tables.set_TableInsertQuorums
    (<[ident := quorum]> (pallet_tables.TableInsertQuorums t)) t) ;;;
  modify_tables (fun t => pallet_tables.set_TableSources
    (<[ident := source]> (pallet_tables.TableSources t)) t).

Definition commitments_err (e : pallet_commitments.Error) : DispatchError :=
  Module (CommitmentsError e).

Definition insert_snapshot (ident : TableIdentifier) (snapshot : SnapshotUrl) : Call unit :=
  modify_tables (fun t => pallet_tables.set_Snapshots
    (<[ident := snapshot]> (pallet_tables.Snapshots t)) t).

Definition parse_statement (statement : CreateStatement) : Call CreateTableBuilder :=
  mlift (map_err (fun _ => tables_err pallet_tables.CreateStatementParseError)
    (create_statement_to_sqlparser statement)).

Definition print_statement (table : CreateTableBuilder) : Call CreateStatement :=
  mlift (map_err (fun _ => tables_err pallet_tables.CreateStatementParseError)
    (sqlparser_to_create_statement table)).

Definition insert_initial_commitment (ident : TableIdentifier) (statement : CreateStatement)
    (commit : TableCommitmentBytesPerCommitmentScheme) (snapshot : SnapshotUrl)
    : Call CreateStatement :=
  let* create_table := parse_statement statement in
  let* metadata := mmap_err commitments_err
    (process_create_table_from_snapshot_and_initiate_commitments PUBLIC_SETUPS create_table commit) in
  let* statement_with_metadata := print_statement (table_with_meta_columns metadata) in
  insert_snapshot ident snapshot ;;;
  mret statement_with_metadata.

Definition insert_table_with_empty_commit (ident : TableIdentifier) (statement : CreateStatement)
    (snapshot : SnapshotUrl) : Call CreateStatement :=
  let* create_table := parse_statement statement in
  let* metadata := mmap_err commitments_err
    (process_create_table_and_initiate_commitments_with_dynamic_dory PUBLIC_SETUPS create_table) in
  let* statement_with_metadata := print_statement (table_with_meta_columns metadata) in
  insert_snapshot ident snapshot ;;;
  mret statement_with_metadata.

Definition get_or_generate_uuids_for_table (raw : CreateStatement) (identifier : TableIdentifier)
    : Call (TableUuid * ColumnUuidList) :=
  let* found := mlift
    match create_statement_to_sqlparser raw with
    | Ok parsed =>
        let? (table_uuid, column_uuids) := uuids_from_sqlparser parsed in
        let has_any := negb (bool_decide (table_uuid = [])) || negb (bool_decide (column_uuids = [])) in
        Ok (if has_any then Some (table_uuid, column_uuids) else None)
    | Err _ => Ok None
    | Panic => Panic
    end in
  match found with
  | Some uuids => mret uuids
  | None =>
      let* block_number := get_block_number in
      let* namespace := mlift (ok_or (from_utf8 (namespace identifier))
        (Other (bs "Invalid UTF-8 namespace"))) in
      let* name := mlift (ok_or (from_utf8 (name identifier)) (Other (bs "Invalid UTF-8 name"))) in
      let* table_uuid := mlift (ok_or (generate_table_uuid block_number namespace name)
        (tables_err pallet_tables.UUIDGenerationError)) in
      let* column_uuids := mlift (map_err Other (generate_column_uuid_list raw)) in
      mret (table_uuid, column_uuids)
  end.

Definition drop_single_table (table_type : TableType) (ident : TableIdentifier) : Call unit :=
  let* current := mget (fun s => identifiers_of s table_type) in
  let identifiers := filter (fun id => id <> ident) current in
  (if (length identifiers <? length current)%nat
   then modify_tables (fun t => pallet_tables.set_Identifiers
          (<[table_type := identifiers]> (pallet_tables.Identifiers t)) t)
   else mfail (tables_err pallet_tables.TableNotFound)) ;;;
  let key := (namespace ident, name ident) in
  let* present := mget (fun s => bool_decide (is_Some (pallet_tables.Schemas (tables s) !! key))) in
  (if present : bool
   then modify_tables (fun t => pallet_tables.set_Schemas (delete key (pallet_tables.Schemas t)) t)
   else mfail (tables_err pallet_tables.TableNotFound)) ;;;
  modify_tables (fun t => pallet_tables.set_TableInsertQuorums
    (delete ident (pallet_tables.TableInsertQuorums t)) t).

Definition map_uuid_error (error : UpdateUuidError) : DispatchError :=
  match error with
  | InvalidUuid => tables_err pallet_tables.TableUUIDError
  | UuidParseError _ => tables_err pallet_tables.CreateStatementParseError
  end.

(** ** create_tables *)

(** The statement that goes into the event: the metadata columns added, and the
    WITH clause put back as text. *)
Definition reconstruct (statement_with_metadata : bytes) (with_options : option bytes)
    : outcome DispatchError bytes :=
  let base := trim_end_byte ";"%byte statement_with_metadata in
  match with_options with
  | Some opts =>
      let? opts := ok_or (from_utf8 opts) (tables_err pallet_tables.UtfConversionError) in
      Ok (base ++ bs " " ++ opts ++ bs ";")
  | None => Ok (base ++ bs ";")
  end.

(** The commitments of a new table. *)
Definition initiate_commitments (ident : TableIdentifier) (create_table : CreateTableBuilder)
    (commitment : CommitmentCreationCmd) : Call CreateTableAndCommitmentMetadata :=
  match commitment with
  | EmptyCommitment scheme =>
      mmap_err commitments_err
        (process_create_table_and_initiate_commitments_with_scheme PUBLIC_SETUPS create_table scheme)
  | FromSnapshot snapshot_url per_commitment_scheme =>
      insert_snapshot ident snapshot_url ;;;
      mmap_err commitments_err
        (process_create_table_from_snapshot_and_initiate_commitments PUBLIC_SETUPS create_table
          per_commitment_scheme)
  end.

(** The closure that [create_tables_inner] maps over the tables. *)
Definition create_one_table (table : UpdateTable) : Call UpdateTable :=
  let* (table_uuid, column_uuids) := mmap_err
    (fun _ => tables_err pallet_tables.UUIDGenerationError)
    (get_or_generate_uuids_for_table (create_statement table) (ident table)) in
  let* updated_create_statement := mlift (map_err map_uuid_error
    (update_uuid_in_create_table_statement table_uuid column_uuids (create_statement table))) in
  insert_table_uuid (ident table) table_uuid column_uuids ;;;
  insert_schema (ident table) updated_create_statement (table_type table) (table_source table) ;;;
  let* (create_table, with_options) := mlift (map_err
    (fun _ => tables_err pallet_tables.CreateStatementParseError)
    (create_statement_to_sqlparser_remove_with updated_create_statement)) in
  let* metadata := initiate_commitments (ident table) create_table (commitment table) in
  let* statement_with_metadata := print_statement (table_with_meta_columns metadata) in
  let* statement_with_metadata := mlift (ok_or (from_utf8 statement_with_metadata)
    (tables_err pallet_tables.UtfConversionError)) in
  let* reconstructed := mlift (reconstruct statement_with_metadata with_options) in
  let* statement := mlift (ok_or (CreateStatement_try_from reconstructed)
    (tables_err pallet_tables.BoundedVecError)) in
  mret (mkUpdateTable (ident table) statement (table_type table) (commitment table)
          (table_source table)).

(** The list of tables is decoded as a vector of at most 1024 elements. *)
Definition create_tables_inner (origin : RawOrigin) (tables : list UpdateTable) : Call unit :=
  let* owner := ensure_root_or_permissioned origin (TablesPallet EditSchema) in
  let* created := mcollect create_one_table tables in
  let* tables_with_meta_columns := mlift (unwrap_option (try_from_bounded 1024 created)) in
  deposit_event (TablesEvent (pallet_tables.SchemaUpdated owner tables_with_meta_columns)).

(** ** The extrinsics *)

Definition create_tables (origin : RawOrigin) (tables : list UpdateTable) : Call unit :=
  create_tables_inner origin tables.

Definition create_requested_table (source : Source) (table : CreateTableRequest)
    : Call CreateTableRequest :=
  insert_schema (request_table_name table) (request_ddl table) (request_table_type table) source ;;;
  let* statement_with_metadata := insert_initial_commitment (request_table_name table)
    (request_ddl table) (request_commitment table) (request_snapshot_url table) in
  mret (mkCreateTableRequest (request_table_uuid table) (request_table_version table)
    (request_column_uuids table) (request_table_name table) statement_with_metadata
    (request_commitment table) (request_snapshot_url table) (request_table_type table)).

Definition create_tables_with_snapshot_and_commitment (origin : RawOrigin)
    (source_and_mode : SourceAndMode) (tables : list CreateTableRequest) : Call unit :=
  ensure_root_or_permissioned origin (TablesPallet EditSchema) ;;;
  let* created := mcollect (create_requested_table (source source_and_mode)) tables in
  let* tables := mlift (unwrap_option (try_from_bounded MAX_TABLES_PER_SCHEMA created)) in
  deposit_event (TablesEvent (pallet_tables.TablesCreatedWithCommitments source_and_mode tables)).

(** [clear(limit, None)]: everything goes and no cursor is left when the map has
    at most [limit] entries; otherwise some [limit] of them go. *)
Definition clear_map {K V} `{Countable K} (limit : nat) (m : gmap K V) : gmap K V * bool :=
  if (size m <=? limit)%nat then (∅, false)
  else (list_to_map (drop limit (map_to_list m)), true).

Definition clear_tables (origin : RawOrigin) : Call unit :=
  mlift (ensure_root origin) ;;;
  let* schema_res := mget (fun s => clear_map 1000 (pallet_tables.Schemas (tables s))) in
  modify_tables (pallet_tables.set_Schemas schema_res.1) ;;;
  mensure (negb schema_res.2) (tables_err pallet_tables.NotAllSchemasRemovedError) ;;;
  let* insert_quorum_size_res :=
    mget (fun s => clear_map 1000 (pallet_tables.TableInsertQuorums (tables s))) in
  modify_tables (pallet_tables.set_TableInsertQuorums insert_quorum_size_res.1) ;;;
  mensure (negb insert_quorum_size_res.2)
    (tables_err pallet_tables.NotAllInsertQuorumsRemovedError) ;;;
  let* commit_res := mget (fun s => clear_map 1000 (CommitmentStorageMap s)) in
  mmodify (set_CommitmentStorageMap commit_res.1) ;;;
  mensure (negb commit_res.2) (tables_err pallet_tables.NotAllCommitmentsRemovedError).

Definition create_namespace (origin : RawOrigin) (schema_name : ByteString) (version : TableVersion)
    (create_statement : CreateStatement) (table_type : TableType) (source : Source) : Call unit :=
  ensure_root_or_permissioned origin (TablesPallet EditSchema) ;;;
  let* raw_sql := mlift (ok_or (from_utf8 create_statement)
    (tables_err pallet_tables.CreateStatementParseError)) in
  let* block_number := get_block_number in
  let* schema_name_s := mlift (ok_or (from_utf8 schema_name)
    (tables_err pallet_tables.SchemaNameParseError)) in
  let* namespace_uuid := mlift
    match extract_schema_uuid raw_sql with
    | Some uuid => ok_or (TableUuid_try_from uuid) (tables_err pallet_tables.TableUUIDError)
    | None => ok_or (generate_namespace_uuid block_number schema_name_s)
                (tables_err pallet_tables.UUIDGenerationError)
    end in
  insert_namespace_uuid schema_name version namespace_uuid ;;;
  deposit_event (TablesEvent (pallet_tables.NamespaceCreated create_statement version namespace_uuid
    table_type source)).

Definition drop_table (origin : RawOrigin) (table_type : TableType) (ident : TableIdentifier)
    (source : Source) : Call unit :=
  let* owner := ensure_root_or_permissioned origin (TablesPallet EditSchema) in
  drop_single_table table_type ident ;;;
  remove_commits ident ;;;
  deposit_event (TablesEvent (pallet_tables.TableDropped owner table_type ident source)).

Definition drop_invalid_commits (origin : RawOrigin) (ident : TableIdentifier) : Call unit :=
  mlift (ensure_root origin) ;;;
  remove_commits ident.

Definition update_namespace_uuid (origin : RawOrigin) (namespace : TableNamespace)
    (version : TableVersion) (new_uuid : TableUuid) : Call unit :=
  ensure_root_or_permissioned origin (TablesPallet EditUuid) ;;;
  let* maybe_uuid := mget (fun s =>
    default [] (pallet_tables.NamespaceVersions (tables s) !! (namespace, version))) in
  modify_tables (fun t => pallet_tables.set_NamespaceVersions
    (<[(namespace, version) := new_uuid]> (pallet_tables.NamespaceVersions t)) t) ;;;
  deposit_event (TablesEvent (pallet_tables.NamespaceUuidUpdated maybe_uuid new_uuid version namespace)).

Definition update_table_uuid (origin : RawOrigin) (table : TableIdentifier)
    (version : TableVersion) (new_uuid : TableUuid) : Call unit :=
  ensure_root_or_permissioned origin (TablesPallet EditUuid) ;;;
  let* maybe_uuid := mget (fun s =>
    default [] (pallet_tables.TableVersions (tables s) !! (table, version))) in
  modify_tables (fun t => pallet_tables.set_TableVersions
    (<[(table, version) := new_uuid]> (pallet_tables.TableVersions t)) t) ;;;
  let key := (namespace table, name table) in
  let* old_create_statement := mget (fun s => pallet_tables.Schemas (tables s) !! key) in
  match old_create_statement with
  | Some old_create_statement =>
      let* updated := mlift (map_err map_uuid_error
        (update_uuid_in_create_table_statement new_uuid [] old_create_statement)) in
      modify_tables (fun t => pallet_tables.set_Schemas
        (<[key := updated]> (pallet_tables.Schemas t)) t)
  | None => mret tt
  end ;;;
  deposit_event (TablesEvent (pallet_tables.TableUuidUpdated maybe_uuid new_uuid version table)).

Inductive tables_call :=
| CreateTables (tables : list UpdateTable)
| CreateTablesWithSnapshotAndCommitment (source_and_mode : SourceAndMode)
    (tables : list CreateTableRequest)
| ClearTables
| CreateNamespace (schema_name : ByteString) (version : TableVersion)
    (create_statement : CreateStatement) (table_type : TableType) (source : Source)
| DropTable (table_type : TableType) (ident : TableIdentifier) (source : Source)
| DropInvalidCommits (ident : TableIdentifier)
| UpdateNamespaceUuid (namespace : TableNamespace) (version : TableVersion) (new_uuid : TableUuid)
| UpdateTableUuid (table : TableIdentifier) (version : TableVersion) (new_uuid : TableUuid).

Definition dispatch_tables (origin : RawOrigin) (c : tables_call) : Call unit :=
  dispatch match c with
  | CreateTables l => create_tables origin l
  | CreateTablesWithSnapshotAndCommitment sm l =>
      create_tables_with_snapshot_and_commitment origin sm l
  | ClearTables => clear_tables origin
  | CreateNamespace n v stmt ty src => create_namespace origin n v stmt ty src
  | DropTable ty id src => drop_table origin ty id src
  | DropInvalidCommits id => drop_invalid_commits origin id
  | UpdateNamespaceUuid ns v u => update_namespace_uuid origin ns v u
  | UpdateTableUuid t v u => update_table_uuid origin t v u
  end.
End tables.

(** ** Lemmas *)

Section lemmas.
Context `{Config} `{UnicodeData} `{SqlParser} `{UuidRng} `{ProofOfSql}.
Context (PUBLIC_SETUPS : PerCommitmentScheme PublicSetup).

(** [remove_commits] removes the commitments of one table, of every scheme. *)
Lemma remove_commits_fold (ident : TableIdentifier) (l : list (TableIdentifier * CommitmentScheme * TableCommitmentBytes))
    (m : commitment_storage) (t : TableIdentifier) (C : CommitmentScheme) :
  foldl (fun m kv => if bool_decide ((kv.1).1 = ident) then delete (ident, (kv.1).2) m else m) m l
    !! (t, C) =
  if decide (t = ident /\ (t, C) ∈ l.*1) then None else m !! (t, C).
Proof.
  revert m. induction l as [|[[t' C'] b] l IH]; intros m; cbn [foldl].
  { rewrite decide_False; [done|]. intros [_ Hin]. by apply not_elem_of_nil in Hin. }
  rewrite IH. cbn [fst snd]. rewrite fmap_cons. cbn [fst].
  destruct (decide (t = ident /\ (t, C) ∈ l.*1)) as [[Ht Hin]|Hn].
  { rewrite decide_True; [done|]. split; [done|]. by right. }
  case_bool_decide as Ht'.
  - destruct (decide (t = ident /\ (t, C) ∈ (t', C') :: l.*1)) as [[-> Hin]|Hn'].
    + apply elem_of_cons in Hin as [[= -> ->]|Hin]; [|naive_solver]. apply lookup_delete_eq.
    + apply lookup_delete_ne. intros [= <- <-]. apply Hn'. subst. split; [done|left].
  - rewrite decide_False; [done|]. intros [-> [[= <- _]|Hin]%elem_of_cons]; naive_solver.
Qed.

Definition commits_without (ident : TableIdentifier) (m : commitment_storage) : commitment_storage :=
  filter (fun kv => (kv.1).1 <> ident) m.

Lemma remove_commits_run ident s :
  remove_commits ident s =
  (set_CommitmentStorageMap (commits_without ident (CommitmentStorageMap s)) s, Ok tt).
Proof.
  unfold remove_commits, mmodify. f_equal. f_equal. apply map_eq. intros [t C].
  rewrite remove_commits_fold. unfold commits_without.
  destruct (CommitmentStorageMap s !! (t, C)) as [b|] eqn:Hb.
  - destruct (decide (t = ident)) as [->|Hne].
    + rewrite decide_True.
      * symmetry. apply map_lookup_filter_None. right. intros x _. naive_solver.
      * split; [done|]. apply list_elem_of_fmap. exists ((ident, C), b). split; [done|].
        by apply elem_of_map_to_list.
    + rewrite decide_False by naive_solver. symmetry.
      apply map_lookup_filter_Some. done.
  - symmetry. case_decide; (etrans; [apply map_lookup_filter_None; by left|done]).
Qed.

(** Finding the UUIDs writes nothing. *)
Lemma preserves_get_uuids (I : Storage -> Prop) raw ident :
  preserves I (get_or_generate_uuids_for_table raw ident).
Proof.
  apply preserves_bind; [auto with sxt|]. intros [uuids|]; [auto with sxt|].
  repeat (apply preserves_bind; [unfold get_block_number; auto with sxt|intros]). auto with sxt.
Qed.

(** The storage after a table was registered. *)
Definition schema_inserted (ident : TableIdentifier) (stmnt : CreateStatement)
    (table_type : TableType) (source : Source) (t : pallet_tables.Storage) : pallet_tables.Storage :=
  let identifiers := default [] (pallet_tables.Identifiers t !! table_type) in
  pallet_tables.mkStorage (pallet_tables.ColumnVersions t) (pallet_tables.NamespaceVersions t)
    (pallet_tables.TableVersions t)
    (<[table_type := default identifiers
        (try_push MAX_IDENTIFIERS_PER_SOURCE_AND_MODE identifiers ident)]> (pallet_tables.Identifiers t))
    (<[(namespace ident, name ident) := stmnt]> (pallet_tables.Schemas t))
    (pallet_tables.Snapshots t)
    (<[ident := insert_quorum_of_table_type table_type]> (pallet_tables.TableInsertQuorums t))
    (<[ident := source]> (pallet_tables.TableSources t)).

Lemma insert_schema_run ident stmnt table_type source s :
  insert_schema ident stmnt table_type source s =
  (with_tables (schema_inserted ident stmnt table_type source (tables s)) s, Ok tt).
Proof. done. Qed.

Definition uuid_inserted (ident : TableIdentifier) (uuid : TableUuid) (column_uuids : ColumnUuidList)
    (t : pallet_tables.Storage) : pallet_tables.Storage :=
  let version := next_version (pallet_tables.TableVersions t) ident in
  pallet_tables.mkStorage (<[(ident, version) := column_uuids]> (pallet_tables.ColumnVersions t))
    (pallet_tables.NamespaceVersions t)
    (<[(ident, version) := uuid]> (pallet_tables.TableVersions t))
    (pallet_tables.Identifiers t) (pallet_tables.Schemas t) (pallet_tables.Snapshots t)
    (pallet_tables.TableInsertQuorums t) (pallet_tables.TableSources t).

Lemma insert_table_uuid_run ident uuid column_uuids s :
  insert_table_uuid ident uuid column_uuids s =
  (with_tables (uuid_inserted ident uuid column_uuids (tables s)) s,
   Ok (next_version (pallet_tables.TableVersions (tables s)) ident)).
Proof. done. Qed.

(** The storage after a table was dropped. *)
Definition table_dropped (table_type : TableType) (ident : TableIdentifier)
    (t : pallet_tables.Storage) : pallet_tables.Storage :=
  pallet_tables.mkStorage (pallet_tables.ColumnVersions t) (pallet_tables.NamespaceVersions t)
    (pallet_tables.TableVersions t)
    (<[table_type := filter (fun id => id <> ident)
        (default [] (pallet_tables.Identifiers t !! table_type))]> (pallet_tables.Identifiers t))
    (delete (namespace ident, name ident) (pallet_tables.Schemas t))
    (pallet_tables.Snapshots t)
    (delete ident (pallet_tables.TableInsertQuorums t)) (pallet_tables.TableSources t).

Definition droppable (s : Storage) (table_type : TableType) (ident : TableIdentifier) : Prop :=
  ident ∈ identifiers_of s table_type /\
  is_Some (pallet_tables.Schemas (tables s) !! (namespace ident, name ident)).

Lemma filter_shorter {A} `{EqDecision A} (x : A) l :
  (length (filter (fun y => y <> x) l) < length l)%nat <-> x ∈ l.
Proof.
  induction l as [|y l IH]; [simpl; split; [lia|by intros ?%not_elem_of_nil]|].
  rewrite filter_cons, elem_of_cons. pose proof (length_filter (fun y => y <> x) l) as Hle.
  destruct (decide (y <> x)) as [Hy|Hy].
  - cbn [length]. rewrite <- Nat.succ_lt_mono, IH. naive_solver.
  - cbn [length]. split; [|lia]. intros _. left. destruct (decide (y = x)); naive_solver.
Qed.

Lemma drop_single_table_run table_type ident s :
  snd (drop_single_table table_type ident s) <> Panic /\
  (forall s' u, drop_single_table table_type ident s = (s', Ok u) ->
     droppable s table_type ident /\
     s' = with_tables (table_dropped table_type ident (tables s)) s) /\
  (forall s' e, drop_single_table table_type ident s = (s', Err e) ->
     ~ droppable s table_type ident /\ e = tables_err pallet_tables.TableNotFound).
Proof.
  unfold drop_single_table, mbind, mget, droppable.
  pose proof (filter_shorter ident (identifiers_of s table_type)) as Hf.
  destruct (Nat.ltb_spec (length (filter (fun id => id <> ident) (identifiers_of s table_type)))
    (length (identifiers_of s table_type))) as [Hlt|Hge].
  - cbn -[filter]. case_bool_decide as Hs; cbn -[filter].
    + split_and!; [done| |done]. intros s' u [= <- <-]. split; [|done]. naive_solver.
    + split_and!; [done|done|]. intros s' e [= <- <-]. split; [|done]. naive_solver.
  - cbn. split_and!; [done|done|]. intros s' e [= <- <-]. split; [|done].
    intros [Hin _]. apply Hf in Hin. lia.
Qed.
End lemmas.


(** The permission an extrinsic requires; [None] is root. *)
Definition tables_permission (c : tables_call) : option PermissionLevel :=
  match c with
  | ClearTables | DropInvalidCommits _ => None
  | UpdateNamespaceUuid _ _ _ | UpdateTableUuid _ _ _ => Some (TablesPallet EditUuid)
  | _ => Some (TablesPallet EditSchema)
  end.

Definition may_call `{Config} (s : Storage) (origin : RawOrigin) (c : tables_call) : Prop :=
  match tables_permission c with
  | Some p => permissioned s origin p
  | None => origin = Root
  end.

(** Every call of the pallet that is not allowed for its origin fails and
    leaves the storage as it was. *)
Theorem tables_calls_authorized `{Config} `{UnicodeData} `{SqlParser} `{UuidRng} `{ProofOfSql} setups
    origin c s :
  ~ may_call s origin c ->
  dispatch_tables setups origin c s =
  (s, Err match tables_permission c with Some _ => guard_error origin | None => BadOrigin end).
Proof.
  unfold may_call, dispatch_tables, dispatch, transactional. intros Hc.
  destruct c; simpl in *; unfold create_tables, create_tables_inner,
    create_tables_with_snapshot_and_commitment, clear_tables, create_namespace, drop_table,
    drop_invalid_commits, update_namespace_uuid, update_table_uuid;
    try by rewrite ensure_rop_denied.
  all: destruct origin; done.
Qed.

(** ** Versions *)

Lemma iter_max_spec l :
  match iter_max l with
  | Some v => v ∈ l /\ forall w, w ∈ l -> w <= v
  | None => l = []
  end.
Proof.
  destruct l as [|x l]; [done|]. simpl.
  assert (forall (l : list Z) a, (foldl Z.max a l = a \/ foldl Z.max a l ∈ l) /\ a <= foldl Z.max a l /\
    forall w, w ∈ l -> w <= foldl Z.max a l) as Hmax.
  { clear. induction l as [|y l IH]; intros a; simpl.
    - split_and!; [by left|lia|]. by intros w ?%not_elem_of_nil.
    - destruct (IH (Z.max a y)) as (Hin & Hle & Hall). split_and!; [|lia|].
      + destruct Hin as [->|Hin]; [|right; by right].
        destruct (Z.max_spec a y) as [[_ ->]|[_ ->]]; [right; left|by left].
      + intros w [->|Hw]%elem_of_cons; [lia|by apply Hall]. }
  destruct (Hmax l x) as (Hin & Hle & Hall). split.
  - destruct Hin as [->|Hin]; [left|by right].
  - intros w [->|Hw]%elem_of_cons; [done|by apply Hall].
Qed.

Lemma versions_of_spec m ident v : v ∈ versions_of m ident <-> is_Some (m !! (ident, v)).
Proof.
  unfold versions_of. rewrite list_elem_of_fmap. setoid_rewrite list_elem_of_filter.
  setoid_rewrite elem_of_map_to_list'. split.
  - intros ([[id v'] u] & -> & Hid & Hl). simpl in *. subst. eauto.
  - intros [u Hu]. exists ((ident, v), u). done.
Qed.

(** A new table UUID gets a version of its own, above every version the table
    has and 0 for the first, as long as the table has not used the last
    version 65535; nothing else of the versions changes. *)
Theorem insert_table_uuid_fresh `{Config} ident uuid column_uuids s :
  (forall v, is_Some (pallet_tables.TableVersions (tables s) !! (ident, v)) -> 0 <= v < 65535) ->
  exists version s',
    insert_table_uuid ident uuid column_uuids s = (s', Ok version) /\
    0 <= version <= 65535 /\
    pallet_tables.TableVersions (tables s) !! (ident, version) = None /\
    (forall v, is_Some (pallet_tables.TableVersions (tables s) !! (ident, v)) -> v < version) /\
    pallet_tables.TableVersions (tables s') =
      <[(ident, version) := uuid]> (pallet_tables.TableVersions (tables s)) /\
    pallet_tables.ColumnVersions (tables s') =
      <[(ident, version) := column_uuids]> (pallet_tables.ColumnVersions (tables s)).
Proof.
  intros Hr. set (m := pallet_tables.TableVersions (tables s)) in *.
  rewrite insert_table_uuid_run. exists (next_version m ident). eexists. split; [done|].
  assert (0 <= next_version m ident <= 65535 /\
    forall v, is_Some (m !! (ident, v)) -> v < next_version m ident) as [Hn Hlt].
  { unfold next_version. pose proof (iter_max_spec (versions_of m ident)) as Hm.
    destruct (iter_max (versions_of m ident)) as [w|].
    - destruct Hm as [Hw Hall]. apply versions_of_spec, Hr in Hw. unfold u16_add.
      rewrite Z.mod_small by lia. split; [lia|]. intros v Hv.
      apply versions_of_spec, Hall in Hv. lia.
    - split; [lia|]. intros v Hv. apply versions_of_spec in Hv. rewrite Hm in Hv.
      by apply not_elem_of_nil in Hv. }
  split_and!; try done; try lia.
  apply eq_None_not_Some. intros Hs. apply Hlt in Hs. lia.
Qed.

(** After version 65535 the count wraps around and version 0 is overwritten. *)
Example version_wraps :
  let ident := mkTableIdentifier (bs "T") (bs "S") in
  next_version {[ (ident, 0) := bs "first"; (ident, 65535) := bs "last" ]} ident = 0.
Proof. vm_compute. reflexivity. Qed.

(** ** The invariant of the tables *)

(** A table has a schema exactly if it has an insert quorum, and the listings
    keep their bound. *)
Definition tables_consistent (t : pallet_tables.Storage) : Prop :=
  (forall ident, is_Some (pallet_tables.Schemas t !! (namespace ident, name ident)) <->
                 is_Some (pallet_tables.TableInsertQuorums t !! ident)) /\
  map_Forall (fun _ l => (length l <= MAX_IDENTIFIERS_PER_SOURCE_AND_MODE)%nat)
    (pallet_tables.Identifiers t).

Lemma schema_key_inj (a b : TableIdentifier) :
  (namespace a, name a) = (namespace b, name b) <-> a = b.
Proof. destruct a, b; naive_solver. Qed.

Lemma identifiers_bound t table_type :
  tables_consistent t ->
  (length (default [] (pallet_tables.Identifiers t !! table_type))
    <= MAX_IDENTIFIERS_PER_SOURCE_AND_MODE)%nat.
Proof.
  intros [_ Hb]. destruct (pallet_tables.Identifiers t !! table_type) as [l|] eqn:Hl; [|simpl; lia].
  by apply (Hb table_type).
Qed.

Lemma schema_inserted_consistent ident stmnt table_type source t :
  tables_consistent t -> tables_consistent (schema_inserted ident stmnt table_type source t).
Proof.
  intros Ht. pose proof (identifiers_bound t table_type Ht) as Hb. destruct Ht as [Hs Hl].
  split; simpl.
  - intros id. destruct (decide (id = ident)) as [->|Hne].
    + rewrite !lookup_insert_eq, !is_Some_alt. done.
    + rewrite !lookup_insert_ne by (rewrite ?schema_key_inj; done). apply Hs.
  - apply map_Forall_insert_2; [|done]. unfold try_push.
    destruct (Nat.ltb_spec (length (default [] (pallet_tables.Identifiers t !! table_type)))
      MAX_IDENTIFIERS_PER_SOURCE_AND_MODE); simpl; [|done]. rewrite length_app. simpl. lia.
Qed.

Lemma table_dropped_consistent table_type ident t :
  tables_consistent t -> tables_consistent (table_dropped table_type ident t).
Proof.
  intros Ht. pose proof (identifiers_bound t table_type Ht) as Hb. destruct Ht as [Hs Hl].
  split; simpl.
  - intros id. destruct (decide (id = ident)) as [->|Hne].
    + rewrite !lookup_delete_eq, !is_Some_alt. done.
    + rewrite !lookup_delete_ne by (rewrite ?schema_key_inj; done). apply Hs.
  - apply map_Forall_insert_2; [|done].
    pose proof (length_filter (fun id => id <> ident)
      (default [] (pallet_tables.Identifiers t !! table_type))). lia.
Qed.

Section invariant.
Context `{Config} `{UnicodeData} `{SqlParser} `{UuidRng} `{ProofOfSql}.
Context (setups : PerCommitmentScheme PublicSetup).

Notation consistent := (fun s : Storage => tables_consistent (tables s)).

Lemma consistent_insert_schema ident stmnt table_type source :
  preserves_ok consistent (insert_schema ident stmnt table_type source).
Proof.
  intros s s' u Hs. rewrite insert_schema_run. intros [= <- <-].
  by apply schema_inserted_consistent.
Qed.

Lemma consistent_create_with_scheme ct flags :
  preserves consistent
    (process_create_table_and_initiate_commitments_with_scheme setups ct flags).
Proof. by apply preserves_create_with_scheme. Qed.

Lemma consistent_create_from_snapshot ct snapshot :
  preserves consistent
    (process_create_table_from_snapshot_and_initiate_commitments setups ct snapshot).
Proof. by apply preserves_create_from_snapshot. Qed.

Lemma consistent_insert_snapshot ident url : preserves consistent (insert_snapshot ident url).
Proof. by apply preserves_modify. Qed.

#[local] Hint Resolve consistent_create_with_scheme consistent_create_from_snapshot
  consistent_insert_snapshot preserves_get_uuids : sxt.
#[local] Hint Resolve preserves_ok_bind preserves_preserves_ok consistent_insert_schema
  preserves_ok_map_err : sxt.

Lemma consistent_initiate ident ct c : preserves consistent (initiate_commitments setups ident ct c).
Proof.
  unfold initiate_commitments. destruct c; [apply preserves_bind; [|intros _]|]; auto with sxt.
Qed.

Lemma consistent_create_one_table table : preserves_ok consistent (create_one_table setups table).
Proof.
  apply preserves_ok_bind; [auto with sxt|intros [uuid cols]].
  apply preserves_ok_bind; [auto with sxt|intros stmt].
  apply preserves_ok_bind; [intros s s' v Hs; rewrite insert_table_uuid_run; by intros [= <- <-]|].
  intros _. apply preserves_ok_bind; [auto with sxt|intros _].
  apply preserves_ok_bind; [auto with sxt|intros [ct opts]].
  apply preserves_ok_bind; [apply preserves_preserves_ok, consistent_initiate|intros m].
  unfold print_statement. repeat (apply preserves_ok_bind; [auto with sxt|intros]). auto with sxt.
Qed.

Lemma consistent_create_requested source table :
  preserves_ok consistent (create_requested_table setups source table).
Proof.
  apply preserves_ok_bind; [auto with sxt|intros _].
  apply preserves_ok_bind; [|intros; auto with sxt]. apply preserves_preserves_ok.
  unfold insert_initial_commitment, parse_statement, print_statement.
  repeat (apply preserves_bind; [auto with sxt|intros]). auto with sxt.
Qed.
End invariant.

Lemma insert_namespace_uuid_ok `{Config} ns v uuid s s' u :
  insert_namespace_uuid ns v uuid s = (s', Ok u) ->
  pallet_tables.NamespaceVersions (tables s) !! (ns, v) = None /\
  s' = with_tables (pallet_tables.set_NamespaceVersions
    (<[(ns, v) := uuid]> (pallet_tables.NamespaceVersions (tables s))) (tables s)) s.
Proof.
  unfold insert_namespace_uuid, modify_tables. intros Hrun. inv_run.
  case_bool_decide as Hn; [done|]. apply eq_None_not_Some in Hn. by inv_run.
Qed.

Lemma clear_map_small {K V} `{Countable K} limit (m m' : gmap K V) :
  clear_map limit m = (m', false) <-> m' = ∅ /\ (size m <= limit)%nat.
Proof. unfold clear_map. destruct (Nat.leb_spec (size m) limit); naive_solver lia. Qed.

(** C33: The tables invariant holds along every call of the pallet, from every
    origin: a table has a schema exactly if it has an insert quorum, and no
    listing exceeds its bound. *)
Theorem tables_consistent_preserved `{Config} `{UnicodeData} `{SqlParser} `{UuidRng} `{ProofOfSql}
    setups origin c s :
  tables_consistent (tables s) -> tables_consistent (tables (fst (dispatch_tables setups origin c s))).
Proof.
  apply (preserves_ok_transactional (fun s => tables_consistent (tables s))).
  intros s0 s' u Hs Hrun.
  destruct c as [l|sm l| |sn v stmt ty src|ty ident src|ident|ns v uuid|table v uuid]; cbn iota in Hrun.
  - unfold create_tables, create_tables_inner in Hrun. inv_run.
    match goal with Hc : mcollect _ _ _ = _ |- _ =>
      exact (preserves_ok_collect (fun s => tables_consistent (tables s)) _ _
        (consistent_create_one_table setups) _ _ _ Hs Hc) end.
  - unfold create_tables_with_snapshot_and_commitment in Hrun. inv_run.
    match goal with Hc : mcollect _ _ _ = _ |- _ =>
      exact (preserves_ok_collect (fun s => tables_consistent (tables s)) _ _
        (consistent_create_requested setups (source sm)) _ _ _ Hs Hc) end.
  - unfold clear_tables, modify_tables in Hrun. inv_run. destruct Hs as [_ Hl].
    repeat match goal with
    | Hb : negb (snd (clear_map ?l ?m)) = true |- _ =>
        destruct (clear_map l m) as [? []] eqn:?; [done|]; clear Hb
    | Hm : clear_map _ _ = (_, false) |- _ => apply clear_map_small in Hm as [-> _]
    end. split; [|done]. intros id. simpl. rewrite !lookup_empty. by rewrite !is_Some_alt.
  - unfold create_namespace in Hrun. inv_run.
    match goal with Hn : insert_namespace_uuid _ _ _ _ = _ |- _ =>
      apply insert_namespace_uuid_ok in Hn as [_ ->] end. done.
  - unfold drop_table in Hrun. inv_run.
    match goal with Hd : drop_single_table _ _ _ = (_, Ok _) |- _ =>
      apply drop_single_table_run in Hd as [_ ->] end.
    rewrite remove_commits_run in *. simplify_eq. by apply table_dropped_consistent.
  - unfold drop_invalid_commits in Hrun. inv_run. rewrite remove_commits_run in *. by simplify_eq.
  - unfold update_namespace_uuid, modify_tables in Hrun. inv_run. done.
  - unfold update_table_uuid, modify_tables in Hrun. inv_run.
    match goal with Hm : match ?o with _ => _ end _ = _ |- _ =>
      destruct o as [old|] eqn:Hold; inv_run end; [|done].
    simpl in Hold. split; [|apply Hs]. intros id. simpl.
    destruct (decide (id = table)) as [->|Hne].
    + rewrite lookup_insert_eq. rewrite <- (proj1 Hs table), Hold. by rewrite !is_Some_alt.
    + rewrite lookup_insert_ne by (rewrite schema_key_inj; done). apply Hs.
Qed.

(** ** Creating tables *)

(** What creating one table changes in the tables pallet. *)
Definition table_created (ident : TableIdentifier) (uuid : TableUuid) (cols : ColumnUuidList)
    (stmt : CreateStatement) (table_type : TableType) (source : Source)
    (snapshots : gmap TableIdentifier SnapshotUrl) (t : pallet_tables.Storage) : pallet_tables.Storage :=
  pallet_tables.set_Snapshots snapshots
    (schema_inserted ident stmt table_type source (uuid_inserted ident uuid cols t)).

Definition snapshots_after (ident : TableIdentifier) (c : CommitmentCreationCmd)
    (m : gmap TableIdentifier SnapshotUrl) : gmap TableIdentifier SnapshotUrl :=
  match c with
  | FromSnapshot url _ => <[ident := url]> m
  | EmptyCommitment _ => m
  end.

Section create.
Context `{Config} `{UnicodeLaws} `{SqlParser} `{UuidRng} `{ProofOfSqlLaws}.
Context (setups : PerCommitmentScheme PublicSetup).

Lemma initiate_commitments_ok ident ct c s s' m :
  initiate_commitments setups ident ct c s = (s', Ok m) ->
  exists table map,
    table_identifier_try_from (ident_value <$> table_name ct) = Ok table /\
    s' = set_CommitmentStorageMap map
      (with_tables (pallet_tables.set_Snapshots
        (snapshots_after ident c (pallet_tables.Snapshots (tables s))) (tables s)) s) /\
    (forall t C, t <> table -> table_commitment s' t C = table_commitment s t C) /\
    (forall C, table_commitment s table C = None).
Proof.
  unfold initiate_commitments, insert_snapshot, modify_tables.
  destruct c as [url snapshot|flags]; intros Hrun; inv_run.
  - match goal with Hr : process_create_table_from_snapshot_and_initiate_commitments _ _ _ ?s0 = _ |- _ =>
      pose proof (create_from_snapshot_run setups ct snapshot s0) as Hc; rewrite Hr in Hc end.
    destruct Hc as (_ & table & Ht & ([map ->] & Hother) & _ & Hnone). by exists table, map.
  - match goal with Hr : process_create_table_and_initiate_commitments_with_scheme _ _ _ ?s0 = _ |- _ =>
      pose proof (create_with_scheme_run setups ct flags s0) as Hc; rewrite Hr in Hc end.
    destruct Hc as (_ & table & Ht & ([map ->] & Hother) & Hall).
    exists table, map. split_and!; [done| |done|intros C; apply Hall]. by destruct s as [? ? ? ? ? []].
Qed.

(** Everything but the commitments and the tables stays. *)
Lemma create_one_table_ok table s s' out :
  create_one_table setups table s = (s', Ok out) ->
  exists uuid cols stmt map,
    update_uuid_in_create_table_statement uuid cols (create_statement table) = Ok stmt /\
    s' = set_CommitmentStorageMap map (with_tables (table_created (ident table) uuid cols stmt
      (table_type table) (table_source table)
      (snapshots_after (ident table) (commitment table) (pallet_tables.Snapshots (tables s)))
      (tables s)) s) /\
    (exists created, (forall C, table_commitment s created C = None) /\
      forall t C, t <> created -> table_commitment s' t C = table_commitment s t C) /\
    ident out = ident table /\ table_type out = table_type table /\
    commitment out = commitment table /\ table_source out = table_source table.
Proof.
  unfold create_one_table. intros Hrun. apply mbind_ok in Hrun as (s1 & [uuid cols] & Hu & Hrun).
  assert (s1 = s) as ->.
  { apply mmap_err_ok in Hu. symmetry.
    by apply (preserves_preserves_ok (fun s0 => s = s0) _ (preserves_get_uuids _ _ _)) in Hu. }
  cbn beta iota in Hrun. apply mbind_ok in Hrun as (s2 & stmt & Hstmt & Hrun).
  apply mlift_ok in Hstmt as [Hstmt%map_err_ok ->].
  apply mbind_ok in Hrun as (s3 & v & Hv & Hrun). rewrite insert_table_uuid_run in Hv. simplify_eq.
  apply mbind_ok in Hrun as (s4 & u & Hi & Hrun). rewrite insert_schema_run in Hi. simplify_eq.
  apply mbind_ok in Hrun as (s5 & [ct opts] & Hct & Hrun).
  apply mlift_ok in Hct as [_ ->].
  cbn beta iota in Hrun. apply mbind_ok in Hrun as (s6 & m & Hm & Hrun).
  unfold print_statement in Hrun. inv_run.
  apply initiate_commitments_ok in Hm as (created & map & _ & -> & Hother & Hnone).
  exists uuid, cols, stmt, map. split_and!; try done. by exists created.
Qed.
End create.

(** A table of which the pallet knows the schema, the quorum, the source and at
    least one version. *)
Definition registered (t : pallet_tables.Storage) (ident : TableIdentifier) : Prop :=
  is_Some (pallet_tables.Schemas t !! (namespace ident, name ident)) /\
  is_Some (pallet_tables.TableInsertQuorums t !! ident) /\
  is_Some (pallet_tables.TableSources t !! ident) /\
  exists v, is_Some (pallet_tables.TableVersions t !! (ident, v)) /\
            is_Some (pallet_tables.ColumnVersions t !! (ident, v)).

(** Nothing about a table changes in the tables pallet. *)
Definition same_table (t t' : pallet_tables.Storage) (ident : TableIdentifier) : Prop :=
  pallet_tables.Schemas t' !! (namespace ident, name ident) =
    pallet_tables.Schemas t !! (namespace ident, name ident) /\
  pallet_tables.TableInsertQuorums t' !! ident = pallet_tables.TableInsertQuorums t !! ident /\
  pallet_tables.TableSources t' !! ident = pallet_tables.TableSources t !! ident /\
  (forall v, pallet_tables.TableVersions t' !! (ident, v) =
             pallet_tables.TableVersions t !! (ident, v)) /\
  (forall v, pallet_tables.ColumnVersions t' !! (ident, v) =
             pallet_tables.ColumnVersions t !! (ident, v)).

Lemma table_created_registered ident uuid cols stmt ty src snaps t :
  registered (table_created ident uuid cols stmt ty src snaps t) ident.
Proof.
  split_and!; simpl; [by rewrite lookup_insert_eq|by rewrite lookup_insert_eq..|].
  eexists. by rewrite !lookup_insert_eq.
Qed.

Lemma table_created_other ident uuid cols stmt ty src snaps t other :
  other <> ident -> same_table t (table_created ident uuid cols stmt ty src snaps t) other.
Proof.
  intros Hne. split_and!; simpl; intros;
    rewrite lookup_insert_ne; rewrite ?schema_key_inj; congruence || done.
Qed.

Lemma insert_is_some {K V} `{Countable K} (m : gmap K V) k k' v :
  is_Some (m !! k) -> is_Some (<[k' := v]> m !! k).
Proof.
  intros Hk. destruct (decide (k = k')) as [->|]; [by rewrite lookup_insert_eq|].
  by rewrite lookup_insert_ne.
Qed.

Lemma table_created_keeps ident uuid cols stmt ty src snaps t other :
  registered t other -> registered (table_created ident uuid cols stmt ty src snaps t) other.
Proof.
  intros (Hs & Hq & Hsrc & v & Hv & Hc).
  split_and!; simpl; [by apply insert_is_some..|]. exists v. split; by apply insert_is_some.
Qed.

(** Creating one table, when it succeeds, stores the statement with the table
    and column UUIDs under the identifier of the request, together with the
    quorum of its type, its source and a new version of its UUIDs; it creates
    commitments for a table that had none; and it changes nothing else of the
    tables, no commitment of another table and no other pallet. *)
Theorem create_one_table_effect `{Config} `{UnicodeLaws} `{SqlParser} `{UuidRng} `{ProofOfSqlLaws}
    setups table s s' out :
  create_one_table setups table s = (s', Ok out) ->
  exists uuid cols stmt map,
    update_uuid_in_create_table_statement uuid cols (create_statement table) = Ok stmt /\
    s' = set_CommitmentStorageMap map (with_tables (table_created (ident table) uuid cols stmt
      (table_type table) (table_source table)
      (snapshots_after (ident table) (commitment table) (pallet_tables.Snapshots (tables s)))
      (tables s)) s) /\
    (exists created, (forall C, table_commitment s created C = None) /\
      forall t C, t <> created -> table_commitment s' t C = table_commitment s t C).
Proof.
  intros (uuid & cols & stmt & map & Hstmt & Hs & Hcreated & _)%create_one_table_ok.
  by exists uuid, cols, stmt, map.
Qed.

(** After [create_tables] every table of the list is registered, a table that
    is not on the list is as before, and one event lists the created tables in
    the order of the request with the caller as owner. *)
Theorem create_tables_registers `{Config} `{UnicodeLaws} `{SqlParser} `{UuidRng} `{ProofOfSqlLaws}
    setups origin l s s' u :
  dispatch_tables setups origin (CreateTables l) s = (s', Ok u) ->
  permissioned s origin (TablesPallet EditSchema) /\
  (forall table, table ∈ l -> registered (tables s') (ident table)) /\
  (forall id, id ∉ ident <$> l -> same_table (tables s) (tables s') id) /\
  exists out, events_of s' = events_of s ++
      [TablesEvent (pallet_tables.SchemaUpdated (origin_account origin) out)] /\
    Forall2 (fun t t' => ident t' = ident t /\ table_type t' = table_type t /\
                         commitment t' = commitment t /\ table_source t' = table_source t) l out.
Proof.
  unfold dispatch_tables, dispatch. rewrite transactional_ok.
  unfold create_tables, create_tables_inner. intros Hrun. inv_run.
  match goal with Hc : mcollect _ _ _ = (?sc, Ok ?c), Hb : unwrap_option (try_from_bounded _ ?c) = Ok ?o |- _ =>
    rename Hc into Hcoll, sc into s1, c into created, Hb into Hbound, o into out end.
  assert (out = created) as ->.
  { unfold try_from_bounded in Hbound. by case_match; simplify_eq/=. }
  split_and!; [done| | |].
  - apply (mcollect_each (fun t s => registered (tables s) (ident t)) _ _ _ _ _ ) with (3 := Hcoll).
    + intros t s0 s2 o (uuid & cols & stmt & map & _ & -> & _)%create_one_table_ok.
      apply table_created_registered.
    + intros t z s0 s2 o (uuid & cols & stmt & map & _ & -> & _)%create_one_table_ok Hz.
      by apply table_created_keeps.
  - intros id Hid. refine (preserves_ok_collect_in (fun s0 => same_table (tables s) (tables s0) id)
      _ _ _ _ _ _ _ Hcoll); [|done].
    intros t Ht s0 s2 o Hs0 (uuid & cols & stmt & map & _ & -> & _)%create_one_table_ok.
    destruct (table_created_other (ident t) uuid cols stmt (table_type t) (table_source t)
      (snapshots_after (ident t) (commitment t) (pallet_tables.Snapshots (tables s0))) (tables s0) id)
      as (E1 & E2 & E3 & E4 & E5).
    { intros ->. apply Hid, list_elem_of_fmap. eauto. }
    destruct Hs0 as (F1 & F2 & F3 & F4 & F5).
    split_and!; intros; etrans; eauto.
  - exists created. split.
    + assert (events_of s1 = events_of s) as He; [|unfold events_of in *; simpl; by rewrite He].
      refine (preserves_ok_collect (fun s0 => events_of s0 = events_of s) _ _ _ _ _ _ _ Hcoll); [|done].
      by intros t s0 s2 o Hs0 (uuid & cols & stmt & map & _ & -> & _)%create_one_table_ok.
    + eapply mcollect_forall2; [|exact Hcoll].
      by intros t s0 s2 o (uuid & cols & stmt & map & _ & _ & _ & ?)%create_one_table_ok.
Qed.

(** [clear_tables] either removes all schemas, insert quorums and commitments,
    or fails and removes none: with more than 1000 entries in one of the maps it
    always fails, and repeating the call makes no progress. *)
Theorem clear_tables_all_or_nothing `{Config} `{UnicodeData} `{SqlParser} `{UuidRng} `{ProofOfSql}
    setups s :
  let small := (size (pallet_tables.Schemas (tables s)) <= 1000 /\
    size (pallet_tables.TableInsertQuorums (tables s)) <= 1000 /\
    size (CommitmentStorageMap s) <= 1000)%nat in
  let '(s', o) := dispatch_tables setups Root ClearTables s in
  match o with
  | Ok _ => small /\
      s' = set_CommitmentStorageMap ∅ (with_tables
        (pallet_tables.set_TableInsertQuorums ∅ (pallet_tables.set_Schemas ∅ (tables s))) s)
  | Err _ => ~ small /\ s' = s
  | Panic => False
  end.
Proof.
  cbn zeta. unfold dispatch_tables, dispatch, transactional, clear_tables, modify_tables, mbind, mget,
    mlift, mmodify, mensure, clear_map. cbn -[size map_to_list].
  destruct (Nat.leb_spec (size (pallet_tables.Schemas (tables s))) 1000); cbn -[size map_to_list];
    [|split; [lia|done]].
  destruct (Nat.leb_spec (size (pallet_tables.TableInsertQuorums (tables s))) 1000);
    cbn -[size map_to_list]; [|split; [lia|done]].
  unfold CommitmentStorageMap. cbn -[size map_to_list].
  destruct (Nat.leb_spec (size (pallet_commitments.CommitmentStorageMap (commitments s))) 1000);
    cbn -[size map_to_list]; split; try lia; done.
Qed.

(** ** Examples *)

Section examples.
#[local] Existing Instance sample_config.
#[local] Existing Instance ascii_unicode.
#[local] Existing Instance ascii_unicode_laws.
#[local] Existing Instance plain_proof_of_sql.
#[local] Existing Instance plain_laws.
#[local] Existing Instance mini_sql.
#[local] Existing Instance plain_rng.

Definition blocks : TableIdentifier := mkTableIdentifier (bs "BLOCKS") (bs "ETHEREUM").

Definition create_blocks : UpdateTable :=
  mkUpdateTable blocks (bs "CREATE TABLE ETHEREUM.BLOCKS (BLOCK_NUMBER,SIZE)") CoreBlockchain
    (EmptyCommitment flags_all) Ethereum.

#[local] Notation run_tables := (dispatch_tables sample_setups) (only parsing).

Definition blocks_storage : Storage := fst (run_tables Root (CreateTables [create_blocks]) sample_storage).

Lemma create_blocks_ok :
  run_tables Root (CreateTables [create_blocks]) sample_storage = (blocks_storage, Ok tt).
Proof.
  assert (snd (run_tables Root (CreateTables [create_blocks]) sample_storage) = Ok tt) as Hok
    by (vm_compute; reflexivity).
  unfold blocks_storage. exact (run_outcome _ _ _ Hok).
Qed.

Lemma create_tables_registers_witness : registered (tables blocks_storage) blocks.
Proof.
  destruct (create_tables_registers sample_setups Root [create_blocks] sample_storage blocks_storage tt
    create_blocks_ok) as (_ & Hreg & _).
  apply (Hreg create_blocks). left.
Defined.

Lemma create_one_table_effect_witness :
  exists uuid cols stmt,
    update_uuid_in_create_table_statement uuid cols (create_statement create_blocks) = Ok stmt.
Proof.
  assert (is_ok (snd (create_one_table sample_setups create_blocks sample_storage)) = true) as Hok
    by (vm_compute; reflexivity).
  destruct (create_one_table sample_setups create_blocks sample_storage) as [s' [out|e|]] eqn:Hrun;
    [|done..].
  destruct (create_one_table_effect sample_setups create_blocks sample_storage s' out Hrun)
    as (uuid & cols & stmt & _ & Hstmt & _).
  by exists uuid, cols, stmt.
Defined.

Lemma tables_calls_authorized_witness :
  run_tables (Signed bob) (DropTable CoreBlockchain blocks Ethereum) blocks_storage =
  (blocks_storage, Err (Module (PermissionsError pallet_permissions.InsufficientPermissions))).
Proof.
  apply (tables_calls_authorized sample_setups (Signed bob) (DropTable CoreBlockchain blocks Ethereum)
    blocks_storage).
  change (~ has_permissions blocks_storage bob (TablesPallet EditSchema) = true).
  vm_compute. discriminate.
Defined.

Lemma insert_table_uuid_fresh_witness :
  exists version s', insert_table_uuid blocks (bs "U") [] sample_storage = (s', Ok version) /\
    0 <= version <= 65535.
Proof.
  destruct (insert_table_uuid_fresh blocks (bs "U") [] sample_storage) as (v & s' & Hrun & Hv & _).
  - intros v Hv. exfalso. revert Hv. simpl. rewrite lookup_empty, is_Some_alt. done.
  - by exists v, s'.
Defined.

Lemma tables_consistent_preserved_witness : tables_consistent (tables blocks_storage).
Proof.
  unfold blocks_storage.
  apply (tables_consistent_preserved sample_setups Root (CreateTables [create_blocks]) sample_storage).
  split; [|done]. intros id. simpl. rewrite !lookup_empty. done.
Defined.

(** The identifier of a request and the table its statement names are not
    compared: the schema is stored under the one and the commitments under the
    other. *)
Example identifier_mismatch_accepted :
  let other := mkTableIdentifier (bs "OTHER") (bs "ETHEREUM") in
  let request := mkUpdateTable other (create_statement create_blocks) CoreBlockchain
    (EmptyCommitment flags_all) Ethereum in
  let '(s', o) := run_tables Root (CreateTables [request]) sample_storage in
  o = Ok tt /\
  bool_decide (is_Some (pallet_tables.Schemas (tables s') !! (bs "ETHEREUM", bs "OTHER"))) = true /\
  table_commitment s' other HyperKzg = None /\
  bool_decide (is_Some (table_commitment s' blocks HyperKzg)) = true.
Proof. vm_compute. done. Qed.

(** A dropped table can be created again, at the next version. *)
Example create_drop_create :
  let '(s1, o1) := run_tables Root (DropTable CoreBlockchain blocks Ethereum) blocks_storage in
  let '(s2, o2) := run_tables Root (CreateTables [create_blocks]) s1 in
  o1 = Ok tt /\ o2 = Ok tt /\ next_version (pallet_tables.TableVersions (tables s2)) blocks = 2.
Proof. vm_compute. done. Qed.
End examples.
