(* ===== verification/SystemTables.v ===== *)
(** * pallets/system_tables and sxt-core/utils.rs

    Inserts into the system tables change the state of the chain: they stake,
    unstake, nominate, and register session keys by signed messages with a
    nonce per user.  The staking, balances and session pallets are operations on
    [Ext].  Theorems: a message is processed exactly when its nonce is the next
    one of its sender, so none is processed twice; a failing row is reported and
    does not stop the others; and the request as a whole never fails. *)

From stdpp Require Import base tactics option gmap strings numbers list.
From Stdlib Require Import ZArith Lia.
From Stdlib Require Import Strings.Byte.
From S2P Require Import Prelude Bytes Text Types IndexMap OnChainTable Runtime Sample.

(** ** The pallets outside the workspace *)

Class ExternalPallets `{Config} := {
  SessionKeys : Type;
  decode_session_keys : bytes -> option SessionKeys;
  (** [serde_json::from_str] to a list of strings. *)
  parse_json_strings : bytes -> option (list bytes);
  free_balance : Ext -> AccountId -> Z;
  force_set_balance : AccountId -> Z -> M Ext DispatchError unit;
  bond : AccountId -> Z -> M Ext DispatchError unit;
  bond_extra : AccountId -> Z -> M Ext DispatchError unit;
  unbond : AccountId -> Z -> M Ext DispatchError unit;
  rebond : AccountId -> Z -> M Ext DispatchError unit;
  nominate : AccountId -> list AccountId -> M Ext DispatchError unit;
  set_controller : AccountId -> M Ext DispatchError unit;
  (** [pallet_staking::Error::AlreadyPaired]. *)
  is_already_paired : DispatchError -> bool;
  (** The commission in percent and whether nominations are blocked. *)
  validate_call : AccountId -> Z -> bool -> M Ext DispatchError unit;
  set_keys : AccountId -> SessionKeys -> M Ext DispatchError unit;
  chill : AccountId -> M Ext DispatchError unit;
}.

(** A call of one of these pallets, on the storage of the chain. *)
Definition mext `{Config} {A} (m : M Ext DispatchError A) : Call A := fun s =>
  let '(e, o) := m (ext s) in (with_ext e s, o).

Definition U128_MAX : Z := 2 ^ 128 - 1.
Definition U64_MAX : Z := 2 ^ 64 - 1.
Definition U256_MAX : Z := 2 ^ 256 - 1.

(** ** sxt-core/utils.rs *)

Section utils.
Context `{Config}.

(** The account as an [AccountId32] of the runtime. *)
Definition convert_account_id (account_id32 : bytes) : outcome DispatchError AccountId :=
  ok_or (decode_account account_id32)
    (Other (bs "Failed to decode AccountId32 into T::AccountId")).

Definition account_id_from_str (addr : bytes) : outcome DispatchError AccountId :=
  let hex_str := trim_0x addr in
  let? raw_bytes := ok_or (hex_decode hex_str) (Other (bs "Invalid hex address")) in
  if negb (length raw_bytes =? 32)%nat
  then Err (Other (bs "Could not coerce account into 32 bytes"))
  else convert_account_id raw_bytes.

Definition eth_address_to_substrate_account_id (eth_addr_hex : bytes)
    : outcome DispatchError AccountId :=
  let hex_str := trim_0x eth_addr_hex in
  let? raw_bytes := ok_or (hex_decode hex_str) (Other (bs "Invalid hex address")) in
  if negb (length raw_bytes =? 20)%nat
  then Err (Other (bs "Expected 20-byte Ethereum address"))
  else convert_account_id (replicate 12 x00 ++ raw_bytes).

(** Each address of the list on its own; [unlookup] is the identity on accounts. *)
Definition parse_address_list_json `{!ExternalPallets} (input : bytes)
    : option (list (outcome DispatchError AccountId)) :=
  match parse_json_strings input with
  | None => None
  | Some raw_addresses => Some (account_id_from_str <$> raw_addresses)
  end.
End utils.

(** ** parse.rs *)

Inductive StakingSystemRequest := Stake | Nominate | UnstakeInitiated | UnstakeCancelled.
Inductive SystemRequestType := Message | Staking (r : StakingSystemRequest) | ZkPay.
Inductive SystemFieldType := FtVarchar | FtBytes | FtDecimal.
Inductive SystemFieldValue := FvVarchar (s : bytes) | FvBytes (b : bytes) | FvDecimal (z : Z).

Record SystemTableField := mkSystemTableField {
  field_name : bytes;
  field_value_type : SystemFieldType;
  field_values : list SystemFieldValue;
}.

Record SystemRequest := mkSystemRequest {
  request_type : SystemRequestType;
  request_fields : list SystemTableField;
  request_table_id : TableIdentifier;
}.

Definition system_field (p : bytes * SystemFieldType) : SystemTableField :=
  mkSystemTableField p.1 p.2 [].

(** [Iterator::min] of the lengths. *)
Definition min_len (fields : list SystemTableField) : nat :=
  match (fun f => length (field_values f)) <$> fields with
  | [] => 0%nat
  | n :: l => foldl Nat.min n l
  end.

(** The fields of one row; every field has a value at an index below [min_len]. *)
Definition row_at (fields : list SystemTableField) (i : nat) : gmap bytes SystemFieldValue :=
  list_to_map (reverse (omap (fun f => v ← field_values f !! i; Some (field_name f, v)) fields)).

Definition rows (self : SystemRequest) : list (gmap bytes SystemFieldValue) :=
  row_at (request_fields self) <$> seq 0 (min_len (request_fields self)).

Definition SYSTEM_STAKING : bytes := bs "SXT_SYSTEM_STAKING".

Definition get_system_templates : list SystemRequest :=
  [mkSystemRequest Message
     [system_field (bs "SENDER", FtBytes); system_field (bs "BODY", FtBytes);
      system_field (bs "NONCE", FtDecimal)] (mkTableIdentifier (bs "MESSAGE") SYSTEM_STAKING);
   mkSystemRequest (Staking Stake)
     [system_field (bs "STAKER", FtBytes); system_field (bs "AMOUNT", FtDecimal)]
     (mkTableIdentifier (bs "STAKED") SYSTEM_STAKING);
   mkSystemRequest (Staking Nominate)
     [system_field (bs "NOMINATOR", FtBytes); system_field (bs "NODESED25519PUBKEYS", FtVarchar)]
     (mkTableIdentifier (bs "NOMINATED") SYSTEM_STAKING);
   mkSystemRequest (Staking UnstakeInitiated) [system_field (bs "STAKER", FtBytes)]
     (mkTableIdentifier (bs "UNSTAKEINITIATED") SYSTEM_STAKING);
   mkSystemRequest (Staking UnstakeCancelled) [system_field (bs "STAKER", FtBytes)]
     (mkTableIdentifier (bs "UNSTAKECANCELLED") SYSTEM_STAKING)].

Definition parse_field `{UnicodeData} (oc_table : OnChainTable) (f : SystemTableField)
    : option SystemTableField :=
  match field_value_type f with
  | FtVarchar =>
      data ← get_varchars_by_column oc_table (field_name f);
      Some (mkSystemTableField (field_name f) FtVarchar (FvVarchar <$> data))
  | FtDecimal =>
      data ← get_decimal_by_column oc_table (field_name f);
      Some (mkSystemTableField (field_name f) FtDecimal (FvDecimal <$> data))
  | FtBytes =>
      data ← get_bytes_by_column oc_table (field_name f);
      Some (mkSystemTableField (field_name f) FtBytes (FvBytes <$> data))
  end.

Definition parse_request_with_template `{UnicodeData} (oc_table : OnChainTable)
    (template : SystemRequest) : SystemRequest :=
  mkSystemRequest (request_type template) (omap (parse_field oc_table) (request_fields template))
    (request_table_id template).

Definition template_for_identifier (table_identifier : TableIdentifier) : option SystemRequest :=
  List.find (fun t => bool_decide (request_table_id t = table_identifier)) get_system_templates.

Definition table_to_request `{UnicodeData} (oc_table : OnChainTable)
    (table_identifier : TableIdentifier) : option SystemRequest :=
  parse_request_with_template oc_table <$> template_for_identifier table_identifier.

(** ** lib.rs and messages.rs *)

Section pallet.
Context `{ExternalPallets}.
#[local] Notation Call := (@Call _).

Definition err (e : pallet_system_tables.Error) : DispatchError := Module (SystemTablesError e).

(** [handle_message]: the only message registers session keys. *)
Definition handle_message (sender : AccountId) (message_bytes : bytes) : Call unit :=
  let* keys := mlift (ok_or (decode_session_keys message_bytes)
    (err pallet_system_tables.InvalidSessionKeys)) in
  let* controller := mtry (mext (set_controller sender)) in
  (match controller with
   | inl _ => mret tt
   | inr e => if is_already_paired e then mret tt else mfail e
   end) ;;;
  mext (validate_call sender 10 false) ;;;
  mext (set_keys sender keys).

Definition get_user_nonce (who : AccountId) : Call (option Z) :=
  mget (fun s => pallet_system_tables.LastProcessedUserNonce (system_tables s) !! who).
Definition set_user_nonce (who : AccountId) (nonce : Z) : Call unit :=
  mmodify (fun s => with_system_tables (pallet_system_tables.mkStorage _
    (<[who := nonce]> (pallet_system_tables.LastProcessedUserNonce (system_tables s)))) s).

(** [U256 + U256] panics on overflow. *)
Definition u256_succ {E} (z : Z) : outcome E Z :=
  if U256_MAX <=? z then Panic else Ok (z + 1).

Definition set_last_nonce (origin : RawOrigin) (eth_wallet : bytes) (new_nonce : Z) : Call unit :=
  mlift (ensure_root origin) ;;;
  let* eth_sender := mlift (eth_address_to_substrate_account_id eth_wallet) in
  set_user_nonce eth_sender new_nonce.

Definition emit_for_error (r : unit + DispatchError) : Call unit :=
  match r with
  | inl _ => mret tt
  | inr error =>
      deposit_event (SystemTablesEvent (pallet_system_tables_events.MessageProcessingError error))
  end.

(** [request.rows().map(body).for_each(emit_for_error)]: the iterator is lazy, so
    each row runs and is reported before the next one. *)
Definition for_each_row (body : gmap bytes SystemFieldValue -> Call unit)
    (request : SystemRequest) : Call unit :=
  miter (fun row => let* r := mtry (body row) in emit_for_error r) (rows request).

Definition eth_account (address : bytes) : Call AccountId :=
  mlift (eth_address_to_substrate_account_id (hex_encode address)).

(** The row of [process_staking]. *)
Definition staking_row (row : gmap bytes SystemFieldValue) : Call unit :=
  match row !! bs "STAKER", row !! bs "AMOUNT" with
  | Some (FvBytes staker_bytes), Some (FvDecimal amount) =>
      let* staker_id := eth_account staker_bytes in
      let stake_amount := Z.min amount U128_MAX in
      let* balance := mget (fun s => free_balance (ext s) staker_id) in
      let new_total_balance := Z.min (balance + stake_amount) U128_MAX in
      mext (force_set_balance staker_id new_total_balance) ;;;
      if balance >? 0
      then mext (bond_extra staker_id stake_amount)
      else mext (bond staker_id stake_amount)
  | _, _ => mfail (err pallet_system_tables.MissingExpectedField)
  end.

Definition process_staking (request : SystemRequest) : Call unit := for_each_row staking_row request.

(** [partition_result]. *)
Definition oks {E A} (l : list (outcome E A)) : list A := omap to_option l.
Definition errs {E A} (l : list (outcome E A)) : list E :=
  omap (fun r => match r with Err e => Some e | _ => None end) l.

(** The row of [process_nominating]. *)
Definition nominating_row (row : gmap bytes SystemFieldValue) : Call unit :=
  match row !! bs "NOMINATOR", row !! bs "NODESED25519PUBKEYS" with
  | Some (FvBytes nominator), Some (FvVarchar nodes) =>
      let* parsed := mlift (ok_or (parse_address_list_json nodes)
        (err pallet_system_tables.ErrorParsingNominations)) in
      let nominations := oks parsed in
      miter (fun e => emit_for_error (inr e)) (errs parsed) ;;;
      mensure (negb (bool_decide (nominations = []))) (err pallet_system_tables.EmptyNominationSet) ;;;
      let* nominator_id := eth_account nominator in
      mext (nominate nominator_id nominations)
  | _, _ => mfail (err pallet_system_tables.MissingExpectedField)
  end.

Definition process_nominating (request : SystemRequest) : Call unit :=
  for_each_row nominating_row request.

(** The balance as a [u64], saturated, that both unstaking requests use. *)
Definition staking_balance (who : AccountId) : Call Z :=
  mget (fun s => Z.min (free_balance (ext s) who) U64_MAX).

(** The row of [process_unstake_initiated]. *)
Definition unstake_initiated_row (row : gmap bytes SystemFieldValue) : Call unit :=
  match row !! bs "STAKER" with
  | Some (FvBytes staker) =>
      let* staker_id := eth_account staker in
      let* balance := staking_balance staker_id in
      mext (unbond staker_id balance)
  | _ => mfail (err pallet_system_tables.MissingExpectedField)
  end.

Definition process_unstake_initiated (request : SystemRequest) : Call unit :=
  for_each_row unstake_initiated_row request.

(** The row of [process_unstake_cancelled]. *)
Definition unstake_cancelled_row (row : gmap bytes SystemFieldValue) : Call unit :=
  match row !! bs "STAKER" with
  | Some (FvBytes staker) =>
      let* staker_id := eth_account staker in
      let* balance := staking_balance staker_id in
      mext (rebond staker_id balance)
  | _ => mfail (err pallet_system_tables.MissingExpectedField)
  end.

Definition process_unstake_cancelled (request : SystemRequest) : Call unit :=
  for_each_row unstake_cancelled_row request.

(** The row of [process_evm_message]. *)
Definition evm_message_row (row : gmap bytes SystemFieldValue) : Call unit :=
  match row !! bs "SENDER", row !! bs "BODY", row !! bs "NONCE" with
  | Some (FvBytes sender), Some (FvBytes body), Some (FvDecimal nonce) =>
      let* eth_sender := eth_account sender in
      let* last := get_user_nonce eth_sender in
      let* expected := mlift (u256_succ (default 0 last)) in
      mensure (negb (nonce <? expected)) (err pallet_system_tables.LateNonce) ;;;
      mensure (negb (nonce >? expected)) (err pallet_system_tables.FutureNonce) ;;;
      set_user_nonce eth_sender nonce ;;;
      handle_message eth_sender body
  | _, _, _ => mfail (err pallet_system_tables.MissingExpectedField)
  end.

Definition process_evm_message (request : SystemRequest) : Call unit :=
  for_each_row evm_message_row request.

Definition process_request (request : SystemRequest) : Call unit :=
  match request_type request with
  | Message => process_evm_message request
  | Staking Stake => process_staking request
  | Staking Nominate => process_nominating request
  | Staking UnstakeCancelled => process_unstake_cancelled request
  | Staking UnstakeInitiated => process_unstake_initiated request
  | ZkPay => mret tt
  end.

Definition process_system_table `{UnicodeData} (table_id : TableIdentifier)
    (oc_table : OnChainTable) : Call unit :=
  match table_to_request oc_table table_id with
  | None => mret tt
  | Some req => process_request req
  end.

(** [ChillingOffenceHandler::on_offence]: the result of [chill] is not looked at;
    the value is the reference time of the weight. *)
Fixpoint on_offence (offenders : list AccountId) : Call Z :=
  match offenders with
  | [] => mret 0
  | validator_account :: offenders =>
      deposit_event (SystemTablesEvent
        (pallet_system_tables_events.ValidatorForceChilled validator_account)) ;;;
      let* _ := mtry (mext (chill validator_account)) in
      let* weight := on_offence offenders in
      mret (10000 + weight)
  end.
End pallet.

(** ** The account of an Ethereum address *)

(** The text of an address, with or without the prefix, is the account of the
    address padded to 32 bytes; an address of another length has no account. *)
Lemma eth_address_account `{Config} a (p : bool) :
  eth_address_to_substrate_account_id ((if p then bs "0x" else []) ++ hex_encode a) =
  if (length a =? 20)%nat then convert_account_id (replicate 12 x00 ++ a)
  else Err (Other (bs "Expected 20-byte Ethereum address")).
Proof.
  unfold eth_address_to_substrate_account_id.
  assert (trim_0x ((if p then bs "0x" else []) ++ hex_encode a) = hex_encode a) as ->
    by (destruct p; [apply trim_0x_prefix|apply trim_0x_hex]).
  rewrite hex_decode_encode. simpl. by destruct (length a =? 20)%nat.
Qed.

(** ** What a request does *)

Section theorems.
Context `{ExternalPallets}.

Definition user_nonce (s : Storage) (who : AccountId) : Z :=
  default 0 (pallet_system_tables.LastProcessedUserNonce (system_tables s) !! who).

(** Everything but the external pallets, the event log and the nonces. *)
Definition same_pallets (s s' : Storage) : Prop :=
  permissions s' = permissions s /\ keystore s' = keystore s /\ attestation s' = attestation s /\
  commitments s' = commitments s /\ tables s' = tables s /\ indexing s' = indexing s /\
  smartcontracts s' = smartcontracts s /\ system_contracts s' = system_contracts s /\
  rewards s' = rewards s /\
  frame_system.block_number (system s') = frame_system.block_number (system s).

(** The storage a row changes: nothing of the other pallets, and no nonce. *)
Definition same_but_ext (s s' : Storage) : Prop :=
  same_pallets s s' /\ system_tables s' = system_tables s.

Lemma same_but_ext_refl s : same_but_ext s s.
Proof. by repeat split. Qed.

Lemma same_but_ext_mext {A} s0 (m : M Ext DispatchError A) :
  preserves (same_but_ext s0) (mext m).
Proof. intros s Hs. unfold mext. by destruct (m (ext s)). Qed.

Lemma same_but_ext_deposit s0 e : preserves (same_but_ext s0) (deposit_event e).
Proof. by intros s Hs. Qed.

Lemma same_but_ext_emit s0 r : preserves (same_but_ext s0) (emit_for_error r).
Proof. destruct r; by intros s Hs. Qed.

#[local] Hint Resolve same_but_ext_mext same_but_ext_deposit same_but_ext_emit : sxt.
#[local] Hint Unfold eth_account staking_balance : sxt.
#[local] Ltac frame_tac :=
  repeat first [ apply preserves_bind; [|intros ?] | progress (autounfold with sxt) | case_match
    | progress eauto with sxt ].

Lemma handle_message_frame s0 who b : preserves (same_but_ext s0) (handle_message who b).
Proof. unfold handle_message. frame_tac. Qed.

Lemma staking_row_frame s0 row : preserves (same_but_ext s0) (staking_row row).
Proof. unfold staking_row. frame_tac. Qed.
Lemma nominating_row_frame s0 row : preserves (same_but_ext s0) (nominating_row row).
Proof. unfold nominating_row. frame_tac. Qed.
Lemma unstake_initiated_row_frame s0 row : preserves (same_but_ext s0) (unstake_initiated_row row).
Proof. unfold unstake_initiated_row. frame_tac. Qed.
Lemma unstake_cancelled_row_frame s0 row : preserves (same_but_ext s0) (unstake_cancelled_row row).
Proof. unfold unstake_cancelled_row. frame_tac. Qed.

(** *** Nonces *)

Definition accept_nonce (who : AccountId) (nonce : Z) (s : Storage) : Storage :=
  with_system_tables (pallet_system_tables.mkStorage _
    (<[who := nonce]> (pallet_system_tables.LastProcessedUserNonce (system_tables s)))) s.

(** The fields of a well-formed message row. *)
Definition message_row (sender body : bytes) (nonce : Z) (row : gmap bytes SystemFieldValue) : Prop :=
  row !! bs "SENDER" = Some (FvBytes sender) /\ row !! bs "BODY" = Some (FvBytes body) /\
  row !! bs "NONCE" = Some (FvDecimal nonce).

Lemma message_row_run row s sender body nonce who :
  message_row sender body nonce row ->
  eth_address_to_substrate_account_id (hex_encode sender) = Ok who ->
  evm_message_row row s =
    if U256_MAX <=? user_nonce s who then (s, Panic)
    else if nonce <? user_nonce s who + 1 then (s, Err (err pallet_system_tables.LateNonce))
    else if nonce >? user_nonce s who + 1 then (s, Err (err pallet_system_tables.FutureNonce))
    else handle_message who body (accept_nonce who nonce s).
Proof.
  intros (Hs & Hb & Hn) Hwho. unfold evm_message_row. rewrite Hs, Hb, Hn.
  unfold eth_account. rewrite Hwho.
  rewrite (mbind_run _ _ s s who) by done.
  rewrite (mbind_run _ _ s s _ eq_refl).
  unfold mlift, u256_succ. fold (user_nonce s who). unfold mbind at 1.
  destruct (U256_MAX <=? user_nonce s who); [done|].
  unfold mensure, mbind at 1. destruct (nonce <? _); simpl; [done|].
  unfold mbind at 1. by destruct (nonce >? _).
Qed.

(** A row of the message table leaves the nonces alone, or moves the nonce of
    one sender to the next. *)
Lemma evm_message_row_cases row s :
  same_but_ext s (fst (evm_message_row row s)) \/
  exists who, same_but_ext (accept_nonce who (user_nonce s who + 1) s) (fst (evm_message_row row s)).
Proof.
  destruct (row !! bs "SENDER") as [[|sender|]|] eqn:Hs, (row !! bs "BODY") as [[|body|]|] eqn:Hb,
    (row !! bs "NONCE") as [[| |nonce]|] eqn:Hn;
    try (left; unfold evm_message_row; rewrite Hs, ?Hb, ?Hn; apply same_but_ext_refl).
  destruct (eth_address_to_substrate_account_id (hex_encode sender)) as [who|e|] eqn:Hwho.
  2,3: left; unfold evm_message_row; rewrite Hs, Hb, Hn; unfold eth_account, mlift, mbind at 1;
    rewrite Hwho; apply same_but_ext_refl.
  rewrite (message_row_run row s sender body nonce who) by done.
  destruct (_ <=? _); [left; apply same_but_ext_refl|].
  destruct (Z.ltb_spec nonce (user_nonce s who + 1)); [left; apply same_but_ext_refl|].
  rewrite Z.gtb_ltb. destruct (Z.ltb_spec (user_nonce s who + 1) nonce);
    [left; apply same_but_ext_refl|].
  right. exists who. assert (nonce = user_nonce s who + 1) as -> by lia.
  apply handle_message_frame, same_but_ext_refl.
Qed.

(** Requests only move nonces up, and touch no other pallet of the workspace. *)
Definition nonces_kept (s0 s : Storage) : Prop :=
  same_pallets s0 s /\ forall who, user_nonce s0 who <= user_nonce s who.

Lemma nonces_kept_step s0 s s' : nonces_kept s0 s -> same_but_ext s s' -> nonces_kept s0 s'.
Proof.
  intros [Hp Hn] [Hp' Hs]. split; [|intros who; unfold user_nonce; rewrite Hs; apply Hn].
  unfold same_pallets in *. destruct_and!. by split_and!; etrans; eauto.
Qed.

Lemma nonces_kept_accept s0 s who :
  nonces_kept s0 s -> nonces_kept s0 (accept_nonce who (user_nonce s who + 1) s).
Proof.
  intros [Hp Hn]. split; [done|]. intros w. specialize (Hn w).
  destruct (decide (w = who)) as [->|Hw]; unfold user_nonce at 2; simpl.
  - rewrite lookup_insert_eq. simpl. lia.
  - by rewrite lookup_insert_ne.
Qed.

Lemma for_each_row_kept s0 body req :
  (forall row s, nonces_kept s0 s -> nonces_kept s0 (fst (body row s))) ->
  preserves (nonces_kept s0) (for_each_row body req).
Proof.
  intros Hb. apply preserves_iter. intros row. apply preserves_bind.
  - apply preserves_try. exact (Hb row).
  - intros r s Hs. eapply nonces_kept_step, same_but_ext_emit, same_but_ext_refl. done.
Qed.

Lemma process_system_table_kept `{!UnicodeData} s0 id t :
  preserves (nonces_kept s0) (process_system_table id t).
Proof.
  unfold process_system_table. case_match; [|apply preserves_ret].
  unfold process_request. case_match; [|case_match|apply preserves_ret];
    apply for_each_row_kept; intros row st Hst.
  - destruct (evm_message_row_cases row st) as [|[who Hw]]; [by eapply nonces_kept_step|].
    by eapply nonces_kept_step, Hw; apply nonces_kept_accept.
  - by eapply nonces_kept_step, staking_row_frame, same_but_ext_refl.
  - by eapply nonces_kept_step, nominating_row_frame, same_but_ext_refl.
  - by eapply nonces_kept_step, unstake_initiated_row_frame, same_but_ext_refl.
  - by eapply nonces_kept_step, unstake_cancelled_row_frame, same_but_ext_refl.
Qed.

(** *** Reporting of failed rows *)

(** The effect of one row on the storage. *)
Definition row_effect (body : gmap bytes SystemFieldValue -> Call unit) (s : Storage)
    (row : gmap bytes SystemFieldValue) : Storage :=
  match body row s with
  | (s', Err e) =>
      push_event (SystemTablesEvent (pallet_system_tables_events.MessageProcessingError e)) s'
  | (s', _) => s'
  end.

(** Without a panic a request runs all of its rows, in order, and succeeds. *)
Lemma for_each_row_run body req s :
  (forall row s, snd (body row s) <> Panic) ->
  for_each_row body req s = (foldl (row_effect body) s (rows req), Ok tt).
Proof.
  intros Hp. unfold for_each_row. generalize (rows req) as l. intros l. revert s.
  induction l as [|row l IH]; intros s; [done|]. cbn [miter foldl]. specialize (Hp row s).
  unfold row_effect at 2. unfold mbind at 1 2, mtry.
  destruct (body row s) as [s' []]; simpl in *; [apply IH|apply IH|done].
Qed.

Lemma for_each_row_no_err body req s e : snd (for_each_row body req s) <> Err e.
Proof.
  unfold for_each_row. generalize (rows req) as l. intros l. revert s.
  induction l as [|row l IH]; intros s; [done|]. cbn [miter].
  unfold mbind at 1 2, mtry. destruct (body row s) as [s' []]; simpl; [apply IH|apply IH|done].
Qed.

Lemma process_system_table_no_err `{!UnicodeData} id t s e :
  snd (process_system_table id t s) <> Err e.
Proof.
  unfold process_system_table. case_match; [|done].
  unfold process_request. case_match; [|case_match|done]; apply for_each_row_no_err.
Qed.

(** Events are not taken back. *)
Lemma process_system_table_events `{!UnicodeData} ev id t :
  preserves (fun s => ev ∈ events_of s) (process_system_table id t).
Proof.
  assert (Hev : forall e, preserves (E:=DispatchError) (fun s => ev ∈ events_of s) (deposit_event e)).
  { intros e. apply preserves_modify. intros s Hs. unfold events_of, push_event in *. cbn. set_solver. }
  assert (Hext : forall {A} (m : M _ DispatchError A), preserves (fun s => ev ∈ events_of s) (mext m)).
  { intros A m s Hs. unfold mext. by destruct (m (ext s)). }
  assert (Hrow : forall body req, (forall row, preserves (fun s => ev ∈ events_of s) (body row)) ->
    preserves (fun s => ev ∈ events_of s) (for_each_row body req)).
  { intros body req Hb. apply preserves_iter. intros row. apply preserves_bind; [by apply preserves_try|].
    intros [u|e]; [apply preserves_ret|apply Hev]. }
  unfold process_system_table. case_match; [|apply preserves_ret].
  unfold process_request. case_match; [|case_match|apply preserves_ret]; apply Hrow; intros row.
  all: unfold evm_message_row, handle_message, set_user_nonce, staking_row, nominating_row, unstake_initiated_row,
    unstake_cancelled_row, eth_account, get_user_nonce, staking_balance, emit_for_error.
  all: repeat first [ apply preserves_bind; [|intros ?] | apply Hext | apply Hev | case_match
    | apply preserves_iter; intros ? | progress eauto with sxt | apply preserves_modify; by intros ? ? ].
Qed.

(** Sequences of inserts into system tables. *)
Inductive inserts `{!UnicodeData} (s : Storage) : Storage -> Prop :=
| inserts_none : inserts s s
| inserts_step s' id t : inserts s s' -> inserts s (fst (process_system_table id t s')).

Lemma inserts_kept `{!UnicodeData} s s' : inserts s s' -> nonces_kept s s'.
Proof.
  induction 1 as [|s' id t Hi IH]; [by split; [repeat split|]|].
  by apply process_system_table_kept.
Qed.

(** C36: A message of the EVM contract is handled at most once: after the row whose
    nonce was the next one of its sender, and after any further inserts into
    system tables, the same row is refused with [LateNonce] and changes
    nothing. *)
Theorem message_never_replayed `{!UnicodeData} row s s' sender body nonce who :
  message_row sender body nonce row ->
  eth_address_to_substrate_account_id (hex_encode sender) = Ok who ->
  nonce = user_nonce s who + 1 -> nonce <= U256_MAX ->
  inserts (fst (evm_message_row row s)) s' -> user_nonce s' who < U256_MAX ->
  evm_message_row row s' = (s', Err (err pallet_system_tables.LateNonce)).
Proof.
  intros Hrow Hwho Hn Hmax Hi Hmax'. apply inserts_kept in Hi. destruct Hi as [_ Hle].
  specialize (Hle who). rewrite (message_row_run row s sender body nonce who) in Hle by done.
  rewrite (message_row_run row s' sender body nonce who) by done.
  rewrite (proj2 (Z.leb_gt _ _)) in Hle by lia. rewrite (proj2 (Z.ltb_ge _ _)) in Hle by lia.
  rewrite Z.gtb_ltb, (proj2 (Z.ltb_ge _ _)) in Hle by lia.
  destruct (handle_message_frame (accept_nonce who nonce s) who body _ (same_but_ext_refl _))
    as [_ Hs].
  unfold user_nonce at 1 in Hle. rewrite Hs in Hle. simpl in Hle. rewrite lookup_insert_eq in Hle.
  simpl in Hle. rewrite (proj2 (Z.leb_gt _ _)) by lia. by rewrite (proj2 (Z.ltb_lt _ _)) by lia.
Qed.

End theorems.

(** ** Concrete runs *)

Module SystemTablesExamples.
#[local] Existing Instance sample_config.
#[local] Existing Instance ascii_unicode.

(** Balances are keyed by the account, stakes by the account with a prefix. *)
Definition stake_key (who : bytes) : bytes := bs "stake:" ++ who.
Definition plain_write (k : bytes) (v : Z) : M (gmap bytes Z) DispatchError unit :=
  mmodify <[k := v]>.
Definition not_stash : DispatchError := ExternalError 1.

Definition plain_bond_extra (who : bytes) (v : Z) : M (gmap bytes Z) DispatchError unit := fun e =>
  match e !! stake_key who with
  | Some b => (<[stake_key who := b + v]> e, Ok tt)
  | None => (e, Err not_stash)
  end.

#[global] Instance plain_external : ExternalPallets := {|
  SessionKeys := bytes;
  decode_session_keys b := if (length b =? 4)%nat then Some b else None;
  parse_json_strings b := Some [b];
  free_balance e who := default 0 ((e : gmap bytes Z) !! (who : bytes));
  force_set_balance who v := plain_write who v;
  bond who v := plain_write (stake_key who) v;
  bond_extra := plain_bond_extra;
  unbond who v := plain_bond_extra who (- v);
  rebond := plain_bond_extra;
  nominate who l := mret tt;
  set_controller who := mfail (ExternalError 2);
  is_already_paired e := match e with ExternalError 2 => true | _ => false end;
  validate_call who c b := mret tt;
  set_keys who k := plain_write (bs "keys:" ++ who) (be_val k);
  chill who := mret tt;
|}.

(** The errors that were reported. *)
Definition reported (s : Storage) : list DispatchError :=
  omap (fun e => match e with
    | SystemTablesEvent (pallet_system_tables_events.MessageProcessingError error) => Some error
    | _ => None
    end) (events_of s).

Definition eth_bob : bytes := replicate 20 x07.
Definition bob_account : bytes := replicate 12 x00 ++ eth_bob.

Definition message_table : OnChainTable :=
  [(Ident_new (bs "SENDER"), VarBinary [eth_bob; eth_bob]);
   (Ident_new (bs "BODY"), VarBinary [[x00; x00; x00; x05]; [x01]]);
   (Ident_new (bs "NONCE"), Decimal75 75 0 [1; 2])].

Definition message_id : TableIdentifier := mkTableIdentifier (bs "MESSAGE") SYSTEM_STAKING.

Definition the_row : gmap bytes SystemFieldValue :=
  {[ bs "SENDER" := FvBytes eth_bob; bs "BODY" := FvBytes [x00; x00; x00; x05];
     bs "NONCE" := FvDecimal 1 ]}.

(** Both messages advance the nonce; the second one, whose keys do not decode, is
    reported. *)
Example two_messages :
  let s := fst (process_system_table message_id message_table sample_storage) in
  user_nonce s bob_account = 2 /\ (ext s : gmap bytes Z) !! (bs "keys:" ++ bob_account) = Some 5 /\
  reported s = [err pallet_system_tables.InvalidSessionKeys].
Proof. cbv zeta. split_and!; vm_compute; reflexivity. Qed.

Lemma message_never_replayed_witness :
  evm_message_row the_row (fst (process_system_table message_id message_table
    (fst (evm_message_row the_row sample_storage)))) =
  (fst (process_system_table message_id message_table
    (fst (evm_message_row the_row sample_storage))), Err (err pallet_system_tables.LateNonce)).
Proof.
  apply (message_never_replayed the_row sample_storage _ eth_bob [x00; x00; x00; x05] 1 bob_account).
  - by vm_compute.
  - by vm_compute.
  - by vm_compute.
  - by vm_compute.
  - apply inserts_step, inserts_none.
  - by vm_compute.
Defined.

(** The code takes a positive free balance for a bonded one: an account that
    holds a balance and has no stake is credited, and its stake is refused. *)
Example balance_without_stake_is_credited :
  let s0 := with_ext ({[ bob_account := 5 ]} : gmap bytes Z) sample_storage in
  let s := fst (process_system_table (mkTableIdentifier (bs "STAKED") SYSTEM_STAKING)
    [(Ident_new (bs "STAKER"), VarBinary [eth_bob]);
     (Ident_new (bs "AMOUNT"), Decimal75 75 0 [100])] s0) in
  (ext s : gmap bytes Z) !! bob_account = Some 105 /\
  (ext s : gmap bytes Z) !! stake_key bob_account = None /\
  reported s = [not_stash].
Proof. cbv zeta. split_and!; vm_compute; reflexivity. Qed.
End SystemTablesExamples.
