(* ===== verification/PalletIndexing.v ===== *)
(** * pallets/indexing

    Indexers submit batches of rows; a batch is decided when more accounts than
    the table's quorum size have submitted the same data for it, and the decided
    rows are then committed to and, for system tables, acted upon.  Theorems: a
    batch is decided at most once and its record never changes; a decision is
    backed by more distinct authorized submitters than the quorum size; undecided
    submissions stay bounded and are cleared by the decision; and the decision
    appends the rows to the table's commitments. *)

From stdpp Require Import base tactics option gmap strings numbers sorting list.
From Stdlib Require Import ZArith Lia.
From Stdlib Require Import Strings.Byte.
From S2P Require Import Prelude Bytes Text Types CommitmentScheme CommitmentMap IndexMap OnChainTable.
From S2P Require Import ArrowConversion SqlAst ProofOfSql PlainCommitment CommitmentSql Native Runtime.
From S2P Require Import Sample PalletPermissions PalletCommitments SystemTables.

(** ** error_conversions.rs *)

Definition indexing_error_of_native (error : NativeError) : pallet_indexing.Error :=
  match error with
  | DeserializationError => pallet_indexing.NativeDeserializationError
  | EmptyRecordBatchError => pallet_indexing.NativeEmptyRecordBatchError
  | BatchReadError => pallet_indexing.NativeBatchReadError
  | RecordBatchUnsupportedType => pallet_indexing.NativeRecordBatchUnsupportedType
  | RecordBatchContainsNulls => pallet_indexing.NativeRecordBatchContainsNulls
  | RecordBatchInvalidTimezone => pallet_indexing.NativeRecordBatchInvalidTimezone
  | RecordBatchUnexpectedSchemaDataMismatch =>
      pallet_indexing.NativeRecordBatchUnexpectedSchemaDataMismatch
  | RecordBatchDuplicateIdentifiers => pallet_indexing.NativeRecordBatchDuplicateIdentifiers
  | SerializationError => pallet_indexing.NativeSerializationError
  end.

(** ** lib.rs *)

Section indexing.
Context `{ExternalPallets} `{UnicodeData} `{Postcard} `{NativeApi}.
#[local] Notation Call := (@Call _).
#[local] Notation Quorum := (DataQuorum AccountId Hash).

Definition ix_err (e : pallet_indexing.Error) : DispatchError := Module (IndexingError e).
Definition ix_event (e : pallet_indexing_events.Event) : Call unit :=
  deposit_event (IndexingEvent e).

Definition Submissions (s : Storage) : gmap (BatchId * Hash) (SubmittersByScope AccountId) :=
  pallet_indexing.Submissions (indexing s).
Definition FinalData (s : Storage) : gmap BatchId Quorum := pallet_indexing.FinalData (indexing s).
Definition BlockNumbers (s : Storage) : gmap TableIdentifier Z :=
  pallet_indexing.BlockNumbers (indexing s).

(** The double map of submissions has a default. *)
Definition submissions (s : Storage) (batch_id : BatchId) (data_hash : Hash)
    : SubmittersByScope AccountId :=
  default SubmittersByScope_default (Submissions s !! (batch_id, data_hash)).

Definition modify_indexing (f : pallet_indexing.Storage -> pallet_indexing.Storage) : Call unit :=
  mmodify (fun s => with_indexing (f (indexing s)) s).

Definition table_insert_quorum (s : Storage) (table : TableIdentifier) : InsertQuorumSize :=
  default InsertQuorumSize_default (pallet_tables.TableInsertQuorums (tables s) !! table).

Definition validate_submission (table : TableIdentifier) (batch_id : BatchId) (data : RowData)
    : Call unit :=
  let* decided := mget (fun s => bool_decide (is_Some (FinalData s !! batch_id))) in
  mensure (negb decided) (ix_err pallet_indexing.LateBatch) ;;;
  mensure (negb (bool_decide (namespace table = []) || bool_decide (name table = [])))
    (ix_err pallet_indexing.InvalidTable) ;;;
  mensure (negb (bool_decide (data = []))) (ix_err pallet_indexing.NoData) ;;;
  mensure (negb (bool_decide (batch_id = []))) (ix_err pallet_indexing.InvalidBatch) ;;;
  let* known := mget (fun s =>
    bool_decide (is_Some (pallet_tables.Schemas (tables s) !! (namespace table, name table)))) in
  mensure known (ix_err pallet_indexing.InvalidTable).

(** The submitters, in the scope, of other data of the batch. *)
Definition other_submitters (m : gmap (BatchId * Hash) (SubmittersByScope AccountId))
    (batch_id : BatchId) (data_hash : Hash) (scope : QuorumScope) : gset AccountId :=
  map_fold (fun k submitters acc =>
    if bool_decide (k.1 = batch_id /\ k.2 <> data_hash) then of_scope submitters scope ∪ acc else acc)
    ∅ m.

(** A [BTreeSet] iterates in the order of its elements. *)
Definition btree_take (n : nat) (X : gset AccountId) : gset AccountId :=
  list_to_set (take n (merge_sort account_le (elements X))).

(** [BoundedBTreeSet::try_from]. *)
Definition bounded_set (bound : nat) (X : gset AccountId) : option (gset AccountId) :=
  if (size X <=? bound)%nat then Some X else None.

Definition submit_data_and_find_quorum (who : AccountId) (batch_id : BatchId) (data_hash : Hash)
    (table : TableIdentifier) (insert_quorum : InsertQuorumSize) (scope : QuorumScope)
    : Call (option Quorum) :=
  let* match_submissions := mget (fun s => submissions s batch_id data_hash) in
  let current_num_matching_submissions := len_of_scope match_submissions scope in
  let new_match_submissions :=
    match with_submitter match_submissions who scope with
    | inl submitters => submitters
    | inr (submitters, _) => submitters
    end in
  mensure (negb (len_of_scope new_match_submissions scope =? current_num_matching_submissions))
    (ix_err pallet_indexing.AlreadySubmitted) ;;;
  modify_indexing (fun i => pallet_indexing.set_Submissions
    (<[(batch_id, data_hash) := new_match_submissions]> (pallet_indexing.Submissions i)) i) ;;;
  ix_event (pallet_indexing_events.DataSubmitted who
    (mkDataSubmission table batch_id data_hash scope)) ;;;
  match InsertQuorumSize_of_scope insert_quorum scope with
  | Some quorum_size =>
      if len_of_scope new_match_submissions scope mod 256 >? quorum_size then
        let* others := mget (fun s => other_submitters (Submissions s) batch_id data_hash scope) in
        let* dissenters := mlift (unwrap_option
          (bounded_set MAX_SUBMITTERS (btree_take MAX_SUBMITTERS others))) in
        let* block_number := get_block_number in
        mret (Some (mkDataQuorum table batch_id data_hash block_number
          (of_scope new_match_submissions scope) dissenters scope))
      else mret None
  | None => mret None
  end.

(** [i64::try_into::<u64>().ok()]. *)
Definition u64_of_i64 (v : Z) : option Z := if 0 <=? v then Some v else None.

Definition finalize_quorum (quorum : Quorum) (row_data : RowData) (block_number : option Z)
    : Call unit :=
  modify_indexing (fun i => pallet_indexing.set_Submissions
    (filter (fun kv => kv.1.1 <> quorum_batch_id quorum) (pallet_indexing.Submissions i)) i) ;;;
  modify_indexing (fun i => pallet_indexing.set_FinalData
    (<[quorum_batch_id quorum := quorum]> (pallet_indexing.FinalData i)) i) ;;;
  let* table_bytes := mlift (map_err (fun e => ix_err (indexing_error_of_native e))
    (api_record_batch_to_onchain row_data)) in
  let* oc_table := mlift (map_err (fun _ => ix_err pallet_indexing.TableDeserializationError)
    (on_chain_table_try_from_bytes table_bytes)) in
  let* metadata := mmap_err (fun e => Module (CommitmentsError e))
    (process_insert_and_update_commitments (quorum_table quorum) oc_table) in
  let* serialized := mlift (ok_or (to_allocvec (insert_with_meta_columns metadata))
    (ix_err pallet_indexing.TableSerializationError)) in
  let* on_chain_table_bytes := mlift (ok_or (try_from_large DATA_MAX_LEN serialized)
    (ix_err pallet_indexing.TableSerializationError)) in
  (match (match block_number with
          | Some bn => Some bn
          | None => v ← max_block_number oc_table; u64_of_i64 v
          end) with
   | Some bn => modify_indexing (fun i => pallet_indexing.set_BlockNumbers
       (<[quorum_table quorum := bn]> (pallet_indexing.BlockNumbers i)) i)
   | None => mret tt
   end) ;;;
  let* n := mlift (num_rows oc_table) in
  (if (n =? 0)%nat
   then ix_event (pallet_indexing_events.QuorumEmptyBlock (quorum_table quorum)
          (default 0 block_number) (agreements quorum) (dissents quorum))
   else ix_event (pallet_indexing_events.QuorumReached quorum on_chain_table_bytes)) ;;;
  if is_staking_table (quorum_table quorum) then
    let* r := mtry (process_system_table (quorum_table quorum) oc_table) in
    match r with
    | inr e => ix_event (pallet_indexing_events.SystemTableError (quorum_table quorum) e
                 on_chain_table_bytes)
    | inl _ => ix_event (pallet_indexing_events.SystemTableUpdate (quorum_table quorum)
                 on_chain_table_bytes)
    end
  else mret tt.

(** The permission that lets an account submit for a scope of a table. *)
Definition scope_permission (table : TableIdentifier) (scope : QuorumScope) : PermissionLevel :=
  match scope with
  | Public => IndexingPallet SubmitDataForPublicQuorum
  | Privileged => IndexingPallet (SubmitDataForPrivilegedQuorum table)
  end.

(** [ensure_root_or_permissioned(..).is_ok() && quorum.is_some()]. *)
Definition can_submit_for (origin : RawOrigin) (table : TableIdentifier)
    (insert_quorum : InsertQuorumSize) (scope : QuorumScope) : Call bool :=
  let* r := mtry (ensure_root_or_permissioned origin (scope_permission table scope)) in
  mret (match r with inl _ => true | inr _ => false end &&
        bool_decide (is_Some (InsertQuorumSize_of_scope insert_quorum scope))).

Definition data_hash_of (data : RowData) (block_number : option Z) : Hash :=
  hashing (encode_submission (data, block_number)).

Definition submit_data_inner (origin : RawOrigin) (table : TableIdentifier) (batch_id : BatchId)
    (data : RowData) (block_number : option Z) : Call unit :=
  let* who := mlift (ensure_signed origin) in
  let* insert_quorum := mget (fun s => table_insert_quorum s table) in
  let* can_submit_for_public_quorum := can_submit_for origin table insert_quorum Public in
  let* can_submit_for_privileged_quorum := can_submit_for origin table insert_quorum Privileged in
  mensure (can_submit_for_public_quorum || can_submit_for_privileged_quorum)
    (ix_err pallet_indexing.UnauthorizedSubmitter) ;;;
  validate_submission table batch_id data ;;;
  let data_hash := data_hash_of data block_number in
  let* public_data_quorum :=
    if can_submit_for_public_quorum
    then submit_data_and_find_quorum who batch_id data_hash table insert_quorum Public
    else mret None in
  let* privileged_data_quorum :=
    if can_submit_for_privileged_quorum
    then submit_data_and_find_quorum who batch_id data_hash table insert_quorum Privileged
    else mret None in
  match (match public_data_quorum with Some q => Some q | None => privileged_data_quorum end) with
  | Some data_quorum => finalize_quorum data_quorum data block_number
  | None => mret tt
  end.

Definition submit_data (origin : RawOrigin) (table : TableIdentifier) (batch_id : BatchId)
    (data : RowData) : Call unit :=
  submit_data_inner origin table batch_id data None.

Definition submit_blockchain_data (origin : RawOrigin) (table : TableIdentifier)
    (batch_id : BatchId) (data : RowData) (block_number : Z) : Call unit :=
  submit_data_inner origin table batch_id data (Some block_number).

Inductive indexing_call :=
| SubmitData (table : TableIdentifier) (batch_id : BatchId) (data : RowData)
| SubmitBlockchainData (table : TableIdentifier) (batch_id : BatchId) (data : RowData)
    (block_number : Z).

Definition dispatch_indexing (origin : RawOrigin) (c : indexing_call) : Call unit :=
  dispatch match c with
  | SubmitData table batch_id data => submit_data origin table batch_id data
  | SubmitBlockchainData table batch_id data bn =>
      submit_blockchain_data origin table batch_id data bn
  end.
End indexing.

(** ** Submitters *)

Definition other_scope (scope : QuorumScope) : QuorumScope :=
  match scope with
  | Public => Privileged
  | Privileged => Public
  end.

Section submitters.
Context {A : Type} `{Countable A}.
Implicit Types (x : SubmittersByScope A) (a : A).

Lemma len_of_scope_size x scope : len_of_scope x scope = Z.of_nat (size (of_scope x scope)).
Proof. by destruct scope. Qed.

(** Adding a submitter changes the length only for a new one with room left. *)
Lemma with_submitter_new x a scope :
  let new := match with_submitter x a scope with inl y => y | inr (y, _) => y end in
  (len_of_scope new scope =? len_of_scope x scope) = false ->
  a ∉ of_scope x scope /\ (size (of_scope x scope) < MAX_SUBMITTERS)%nat /\
  of_scope new scope = {[a]} ∪ of_scope x scope /\
  of_scope new (other_scope scope) = of_scope x (other_scope scope).
Proof.
  intros new Hlen%Z.eqb_neq. rewrite !len_of_scope_size in Hlen. subst new. revert Hlen.
  destruct x as [X Y], scope; unfold with_submitter, set_try_insert;
    cbn [other_scope of_scope submitters_public submitters_privileged];
    (case_bool_decide as Ha; cbn [orb of_scope submitters_public submitters_privileged]).
  1, 3: intros Hlen; exfalso; apply Hlen; do 2 f_equal; set_solver.
  - destruct (Nat.ltb_spec (size X) MAX_SUBMITTERS); [by intros _|]. by intros [].
  - destruct (Nat.ltb_spec (size Y) MAX_SUBMITTERS); [by intros _|]. by intros [].
Qed.
End submitters.

Section lemmas.
Context `{ExternalPallets} `{UnicodeData} `{Postcard} `{NativeApi}.
#[local] Notation Call := (@Call _).
#[local] Notation Quorum := (DataQuorum AccountId Hash).
Implicit Types (s : Storage) (q : Quorum).

(** The submitters the storage holds for data of a batch, in a scope. *)
Definition voters (s : Storage) (b : BatchId) (h : Hash) (scope : QuorumScope) : gset AccountId :=
  of_scope (submissions s b h) scope.

Lemma elem_of_other_submitters m b h scope a :
  a ∈ other_submitters m b h scope <->
  exists h' x, h' <> h /\ m !! (b, h') = Some x /\ a ∈ of_scope x scope.
Proof.
  unfold other_submitters. induction m as [|[b' h'] x m Hm Hf IH] using map_first_key_ind.
  - rewrite map_fold_empty. setoid_rewrite lookup_empty. set_solver.
  - rewrite map_fold_insert_first_key by done. case_bool_decide as Hk; cbn [fst snd] in Hk.
    + destruct Hk as [-> Hne]. rewrite elem_of_union, IH. split.
      * intros [Ha|(h2 & y & Hn & Hy & Ha)]; [exists h', x; by rewrite lookup_insert_eq|].
        exists h2, y. rewrite lookup_insert_ne by congruence. done.
      * intros (h2 & y & Hn & Hy & Ha). rewrite lookup_insert in Hy. case_decide; naive_solver.
    + rewrite IH. split; intros (h2 & y & Hn & Hy & Ha); exists h2, y.
      * rewrite lookup_insert_ne by congruence. done.
      * rewrite lookup_insert in Hy. case_decide; naive_solver.
Qed.

Lemma btree_take_subset n (X : gset AccountId) : btree_take n X ⊆ X.
Proof.
  intros a. unfold btree_take. rewrite elem_of_list_to_set. intros Ha%elem_of_take.
  destruct Ha as (i & Ha & _). apply list_elem_of_lookup_2 in Ha.
  rewrite merge_sort_Permutation in Ha. by apply elem_of_elements.
Qed.

Lemma btree_take_size n (X : gset AccountId) : (size (btree_take n X) <= n)%nat.
Proof.
  unfold btree_take. rewrite size_list_to_set; [rewrite length_take; lia|].
  eapply sublist_NoDup; [|apply sublist_take]. rewrite merge_sort_Permutation. apply NoDup_elements.
Qed.

Lemma btree_take_all n (X : gset AccountId) : (size X <= n)%nat -> btree_take n X = X.
Proof.
  intros Hn. unfold btree_take. rewrite take_ge.
  - apply set_eq. intros a. rewrite elem_of_list_to_set, merge_sort_Permutation.
    apply elem_of_elements.
  - by rewrite merge_sort_Permutation.
Qed.

(** *** One submission *)

(** The storage after a submission was recorded. *)
Record recorded (who : AccountId) (b : BatchId) (h : Hash) (scope : QuorumScope) (s s' : Storage)
    : Prop := {
  recorded_new : who ∉ voters s b h scope;
  recorded_room : (size (voters s b h scope) < MAX_SUBMITTERS)%nat;
  recorded_voters : voters s' b h scope = {[who]} ∪ voters s b h scope;
  recorded_scope : voters s' b h (other_scope scope) = voters s b h (other_scope scope);
  recorded_at : is_Some (Submissions s' !! (b, h));
  recorded_others b' h' : (b', h') <> (b, h) -> Submissions s' !! (b', h') = Submissions s !! (b', h');
  recorded_final : FinalData s' = FinalData s;
  recorded_state : exists i ev, s' = with_indexing i (with_system (frame_system.mkStorage _
    (frame_system.block_number (system s)) ev) s);
}.

(** What a decision says, given the storage it was taken in. *)
Record decision (table : TableIdentifier) (b : BatchId) (h : Hash) (size_limit : Z)
    (scope : QuorumScope) (s : Storage) (q : Quorum) : Prop := {
  decision_table : quorum_table q = table;
  decision_batch : quorum_batch_id q = b;
  decision_hash : quorum_data_hash q = h;
  decision_scope : quorum_scope q = scope;
  decision_block : quorum_block_number q = frame_system.block_number (system s);
  decision_agreements : agreements q = voters s b h scope;
  decision_size : size_limit < Z.of_nat (size (agreements q));
  decision_bound : (size (agreements q) <= MAX_SUBMITTERS)%nat;
  decision_dissents : dissents q =
    btree_take MAX_SUBMITTERS (other_submitters (Submissions s) b h scope);
}.

(** The storage with the submitters of one batch and data replaced, and the
    event of the submission. *)
Definition record_submission (who : AccountId) (table : TableIdentifier) (b : BatchId) (h : Hash)
    (scope : QuorumScope) (new : SubmittersByScope AccountId) (s : Storage) : Storage :=
  push_event (IndexingEvent (pallet_indexing_events.DataSubmitted who
      (mkDataSubmission table b h scope)))
    (with_indexing (pallet_indexing.set_Submissions
      (<[(b, h) := new]> (pallet_indexing.Submissions (indexing s))) (indexing s)) s).

Lemma submissions_record who table b h scope new s :
  submissions (record_submission who table b h scope new s) b h = new.
Proof. unfold submissions, Submissions. simpl. by rewrite lookup_insert_eq. Qed.

Lemma record_submission_recorded who table b h scope s :
  let new := match with_submitter (submissions s b h) who scope with
             | inl y => y | inr (y, _) => y end in
  (len_of_scope new scope =? len_of_scope (submissions s b h) scope) = false ->
  recorded who b h scope s (record_submission who table b h scope new s).
Proof.
  intros new (Hnew & Hroom & Hv & Ho)%with_submitter_new.
  split; unfold voters; rewrite ?submissions_record; try done.
  - unfold Submissions. simpl. rewrite lookup_insert_eq. by eexists.
  - intros b' h' Hne. unfold Submissions. simpl. by rewrite lookup_insert_ne by congruence.
  - by eexists _, _.
Qed.

Lemma recorded_size who b h scope s s' :
  recorded who b h scope s s' -> (size (voters s' b h scope) <= MAX_SUBMITTERS)%nat.
Proof.
  intros [Hn Hr Hv]. rewrite Hv, size_union, size_singleton by set_solver. lia.
Qed.

Lemma bounded_take (X : gset AccountId) :
  bounded_set MAX_SUBMITTERS (btree_take MAX_SUBMITTERS X) = Some (btree_take MAX_SUBMITTERS X).
Proof.
  unfold bounded_set. pose proof (btree_take_size MAX_SUBMITTERS X).
  by rewrite (proj2 (Nat.leb_le _ _)).
Qed.

Lemma find_quorum_run who b h table iq scope s s' oq :
  submit_data_and_find_quorum who b h table iq scope s = (s', Ok oq) ->
  recorded who b h scope s s' /\
  match oq with
  | Some q => exists n, InsertQuorumSize_of_scope iq scope = Some n /\ decision table b h n scope s' q
  | None => forall n, InsertQuorumSize_of_scope iq scope = Some n ->
      Z.of_nat (size (voters s' b h scope)) <= n
  end.
Proof.
  unfold submit_data_and_find_quorum.
  intros (s1 & ms & [= <- <-] & Hrun)%mbind_ok. cbv zeta in Hrun.
  apply mbind_ok in Hrun as (s2 & [] & [Hlen ->]%mensure_ok & Hrun).
  apply mbind_ok in Hrun as (s3 & [] & [= <-] & Hrun).
  apply mbind_ok in Hrun as (s4 & [] & [= <-] & Hrun).
  apply negb_true_iff in Hlen. pose proof (record_submission_recorded who table b h scope s Hlen) as Hrec.
  set (new := match with_submitter _ _ _ with inl _ => _ | inr _ => _ end) in *. clearbody new.
  fold (record_submission who table b h scope new s) in Hrun.
  pose proof (recorded_size _ _ _ _ _ _ Hrec) as Hsz.
  assert (len_of_scope new scope mod 256 =
    Z.of_nat (size (voters (record_submission who table b h scope new s) b h scope))) as Hm.
  { rewrite len_of_scope_size. unfold voters in *. rewrite submissions_record in *.
    apply Z.mod_small. unfold MAX_SUBMITTERS in Hsz. lia. }
  destruct (InsertQuorumSize_of_scope iq scope) as [n|] eqn:Hq; [|by inv_run].
  rewrite Hm, Z.gtb_ltb in Hrun.
  destruct (Z.ltb_spec n (Z.of_nat (size (voters (record_submission who table b h scope new s) b h scope))));
    [|by inv_run; naive_solver].
  apply mbind_ok in Hrun as (s5 & others & [= <- <-] & Hrun). rewrite bounded_take in Hrun.
  inv_run. cbn [unwrap_option] in *. simplify_eq. split; [done|]. exists n. split; [done|].
  assert (of_scope new scope = voters (record_submission who table b h scope new s) b h scope) as Hof
    by (unfold voters; by rewrite submissions_record).
  split; cbn [quorum_table quorum_batch_id quorum_data_hash quorum_scope quorum_block_number
    agreements dissents]; try done; by rewrite Hof.
Qed.

(** *** The decision *)

(** Reads of a decided batch's table and the insert it runs. *)
Record finalized (q : Quorum) (row_data : RowData) (s s' : Storage) : Prop := {
  finalized_final : FinalData s' = <[quorum_batch_id q := q]> (FinalData s);
  finalized_submissions :
    Submissions s' = filter (fun kv => kv.1.1 <> quorum_batch_id q) (Submissions s);
  finalized_insert : exists table_bytes oc_table s1 s2 m data,
    api_record_batch_to_onchain row_data = Ok table_bytes /\
    on_chain_table_try_from_bytes table_bytes = Ok oc_table /\
    commitments s1 = commitments s /\
    process_insert_and_update_commitments (quorum_table q) oc_table s1 = (s2, Ok m) /\
    commitments s' = commitments s2 /\
    to_allocvec (insert_with_meta_columns m) = Some data /\
    (num_rows (E := DispatchError) oc_table = Ok 0%nat \/
     IndexingEvent (pallet_indexing_events.QuorumReached q data) ∈ events_of s');
  finalized_tables : tables s' = tables s;
  finalized_permissions : permissions s' = permissions s;
}.

(** The parts of the storage that stay as they are after the insert. *)
Definition settled (s s' : Storage) : Prop :=
  commitments s' = commitments s /\ tables s' = tables s /\ permissions s' = permissions s /\
  FinalData s' = FinalData s /\ Submissions s' = Submissions s.

Lemma settled_refl s : settled s s.
Proof. done. Qed.

Lemma settled_trans s1 s2 s3 : settled s1 s2 -> settled s2 s3 -> settled s1 s3.
Proof. unfold settled. intros. destruct_and!. split_and!; congruence. Qed.

Lemma settled_event s0 e : preserves (settled s0) (ix_event e).
Proof. by intros s Hs. Qed.

Lemma settled_block_numbers s0 (f : pallet_indexing.Storage -> gmap TableIdentifier Z) :
  preserves (settled s0) (modify_indexing (fun i => pallet_indexing.set_BlockNumbers (f i) i)).
Proof. by intros s Hs. Qed.

Lemma settled_system_table s0 id t : preserves (settled s0) (process_system_table id t).
Proof.
  intros s Hs. eapply settled_trans; [done|].
  destruct (process_system_table_kept s id t s) as [Hp _]; [by split; [repeat split|]|].
  unfold same_pallets in Hp. destruct_and!. unfold settled, FinalData, Submissions.
  split_and!; congruence.
Qed.

#[local] Hint Resolve settled_event settled_block_numbers settled_system_table : sxt.

(** The end of [finalize_quorum]: with rows, the decision is announced. *)
Lemma finalize_tail_event q (update rest : Call unit) oc_table block data s s' :
  let ev := IndexingEvent (pallet_indexing_events.QuorumReached q data) in
  preserves (fun s => ev ∈ events_of s) rest ->
  (update ;;;
   let* n := mlift (num_rows oc_table) in
   (if (n =? 0)%nat
    then ix_event (pallet_indexing_events.QuorumEmptyBlock (quorum_table q) block (agreements q) (dissents q))
    else ix_event (pallet_indexing_events.QuorumReached q data)) ;;;
   rest) s = (s', Ok tt) ->
  num_rows (E := DispatchError) oc_table = Ok 0%nat \/ ev ∈ events_of s'.
Proof.
  intros ev Hrest (s1 & u & _ & (s2 & n & [Hn ->]%mlift_ok & (s3 & v & Hev & Hr)%mbind_ok)%mbind_ok)%mbind_ok.
  destruct (Nat.eqb_spec n 0) as [->|_]; [by left|]. right.
  injection Hev as <- _. change s' with (fst (s', Ok (E := DispatchError) tt)). rewrite <- Hr. apply Hrest.
  unfold ev, events_of, push_event. cbn. set_solver.
Qed.

Lemma finalize_run q row_data bn s s' :
  finalize_quorum q row_data bn s = (s', Ok tt) -> finalized q row_data s s'.
Proof.
  unfold finalize_quorum.
  intros (s1 & [] & [= <-] & Hrun)%mbind_ok. apply mbind_ok in Hrun as (s2 & [] & [= <-] & Hrun).
  apply mbind_ok in Hrun as (s3 & tb & [Htb%map_err_ok ->]%mlift_ok & Hrun).
  apply mbind_ok in Hrun as (s4 & t & [Ht%map_err_ok ->]%mlift_ok & Hrun).
  apply mbind_ok in Hrun as (s5 & m & Hins%mmap_err_ok & Hrun).
  apply mbind_ok in Hrun as (s6 & sb & [Hsb%ok_or_ok ->]%mlift_ok & Hrun).
  apply mbind_ok in Hrun as (s7 & ob & [[-> _]%ok_or_ok%try_from_large_some ->]%mlift_ok & Hrun).
  apply finalize_tail_event in Hrun as Hev.
  2: { destruct (is_staking_table _); [|apply preserves_ret].
    apply preserves_bind; [apply preserves_try, process_system_table_events|].
    intros []; apply preserves_modify; intros st Hst; unfold events_of, push_event in *; cbn; set_solver. }
  match type of Hrun with ?m _ = _ => assert (preserves (settled s5) m) as Hset end.
  { repeat first [ apply preserves_bind; [|intros ?] | case_match | progress eauto with sxt ]. }
  specialize (Hset s5 (settled_refl s5)). rewrite Hrun in Hset. cbn [fst] in Hset.
  destruct Hset as (Hc & Htab & Hp & Hf & Hsub).
  pose proof (process_insert_run _ _ _ _ _ Hins) as (d & d' & new & _ & _ & _ & _ & [[map Hmap] _] & _).
  split.
  - by rewrite Hf, Hmap.
  - by rewrite Hsub, Hmap.
  - eexists tb, t, _, s5, m, sb. split_and!; [done|done| |exact Hins|exact Hc|done|exact Hev]. done.
  - by rewrite Htab, Hmap.
  - by rewrite Hp, Hmap.
Qed.

(** *** The extrinsic *)

(** Whether an account may submit for a scope of a table. *)
Definition can_submit (s : Storage) (who : AccountId) (table : TableIdentifier) (scope : QuorumScope)
    : bool :=
  has_permissions s who (scope_permission table scope) &&
  bool_decide (is_Some (InsertQuorumSize_of_scope (table_insert_quorum s table) scope)).

Lemma can_submit_for_run s who table scope :
  can_submit_for (Signed who) table (table_insert_quorum s table) scope s =
  (s, Ok (can_submit s who table scope)).
Proof.
  unfold can_submit_for, ensure_root_or_permissioned, mtry, mbind, mget, can_submit.
  by destruct (has_permissions s who (scope_permission table scope)).
Qed.

(** The submissions of one call, in all the scopes the account may submit for. *)
Record voting (who : AccountId) (table : TableIdentifier) (b : BatchId) (h : Hash)
    (s s1 : Storage) : Prop := {
  voting_in scope : can_submit s who table scope = true ->
    who ∉ voters s b h scope /\ (size (voters s b h scope) < MAX_SUBMITTERS)%nat /\
    voters s1 b h scope = {[who]} ∪ voters s b h scope;
  voting_out scope : can_submit s who table scope = false ->
    voters s1 b h scope = voters s b h scope;
  voting_some : exists scope, can_submit s who table scope = true;
  voting_others b' h' : (b', h') <> (b, h) -> Submissions s1 !! (b', h') = Submissions s !! (b', h');
  voting_final : FinalData s1 = FinalData s;
  voting_state : exists i ev, s1 = with_indexing i (with_system (frame_system.mkStorage _
    (frame_system.block_number (system s)) ev) s);
}.

(** What a successful call did: it recorded submissions, and took a decision
    exactly if some scope exceeded its quorum size. *)
Record submitted (who : AccountId) (table : TableIdentifier) (b : BatchId) (data : RowData)
    (bn : option Z) (s s' : Storage) : Prop := {
  submitted_undecided : FinalData s !! b = None;
  submitted_table :
    is_Some (pallet_tables.Schemas (tables s) !! (namespace table, name table));
  submitted_result : exists s1,
    voting who table b (data_hash_of data bn) s s1 /\
    ((s' = s1 /\ forall scope n, can_submit s who table scope = true ->
        InsertQuorumSize_of_scope (table_insert_quorum s table) scope = Some n ->
        Z.of_nat (size (voters s1 b (data_hash_of data bn) scope)) <= n) \/
     exists scope n q, can_submit s who table scope = true /\
       InsertQuorumSize_of_scope (table_insert_quorum s table) scope = Some n /\
       decision table b (data_hash_of data bn) n scope s1 q /\ finalized q data s1 s');
}.

Lemma validate_run table b data s s' u :
  validate_submission table b data s = (s', Ok u) ->
  s' = s /\ FinalData s !! b = None /\
  is_Some (pallet_tables.Schemas (tables s) !! (namespace table, name table)).
Proof.
  unfold validate_submission. intros Hrun. inv_run.
  repeat match goal with
  | H : negb (bool_decide _) = true |- _ => apply negb_true_iff, bool_decide_eq_false in H
  | H : bool_decide _ = true |- _ => apply bool_decide_eq_true in H
  end. split_and!; [done| |done]. by apply eq_None_not_Some.
Qed.

Lemma decision_transfer who b h scope table n s s' q :
  recorded who b h (other_scope scope) s s' -> decision table b h n scope s q ->
  decision table b h n scope s' q.
Proof.
  intros [_ _ _ Hscope _ Hoth _ (i & ev & Hst)] [Ht Hb Hh Hsc Hbl Hag Hsz Hbd Hdis].
  split; try done.
  - rewrite Hbl, Hst. done.
  - rewrite Hag. by destruct scope.
  - rewrite Hdis. f_equal. apply set_eq. intros a. rewrite !elem_of_other_submitters.
    split; intros (h' & x & Hne & Hx & Ha); exists h', x; (split_and!; [done| |done]).
    + by rewrite Hoth by congruence.
    + by rewrite <- Hoth by congruence.
Qed.

Lemma voting_one who table b h scope s s1 :
  recorded who b h scope s s1 ->
  can_submit s who table scope = true -> can_submit s who table (other_scope scope) = false ->
  voting who table b h s s1.
Proof.
  intros [Hn Hr Hv Hs Hat Hoth Hf Hst] Hc Hc'. split; try done; [| |by eexists].
  - intros scope'. destruct scope, scope'; cbn [other_scope] in *; by rewrite ?Hc, ?Hc'.
  - intros scope'. destruct scope, scope'; cbn [other_scope] in *; by rewrite ?Hc, ?Hc'.
Qed.

Lemma voting_both who table b h s s1 s2 :
  recorded who b h Public s s1 -> recorded who b h Privileged s1 s2 ->
  can_submit s who table Public = true -> can_submit s who table Privileged = true ->
  voting who table b h s s2.
Proof.
  intros [Hn Hr Hv Hs Hat Hoth Hf (i & ev & Hst)] [Hn2 Hr2 Hv2 Hs2 Hat2 Hoth2 Hf2 (i2 & ev2 & Hst2)].
  cbn [other_scope] in *. rewrite Hs in *. intros Hc Hc'. split; [| |by eexists| | |].
  - intros []; [by rewrite Hs2|done].
  - intros []; by rewrite ?Hc, ?Hc'.
  - intros b' h' Hne. by rewrite Hoth2, Hoth.
  - by rewrite Hf2.
  - exists i2, ev2. by rewrite Hst2, Hst.
Qed.

Lemma submit_run origin table b data bn s s' u :
  submit_data_inner origin table b data bn s = (s', Ok u) ->
  exists who, origin = Signed who /\ submitted who table b data bn s s'.
Proof.
  unfold submit_data_inner.
  intros (s0 & who & [->%ensure_signed_ok ->]%mlift_ok & Hrun)%mbind_ok. exists who. split; [done|].
  apply mbind_ok in Hrun as (s0 & iq & [= <- <-] & Hrun).
  rewrite (mbind_run _ _ _ _ _ (can_submit_for_run s who table Public)) in Hrun.
  rewrite (mbind_run _ _ _ _ _ (can_submit_for_run s who table Privileged)) in Hrun.
  apply mbind_ok in Hrun as (s0 & [] & [Hcan ->]%mensure_ok & Hrun).
  apply mbind_ok in Hrun as (s0 & [] & (-> & Hund & Hschema)%validate_run & Hrun).
  cbv zeta in Hrun. split; [done|done|].
  apply mbind_ok in Hrun as (sA & op & Hpub & Hrun).
  apply mbind_ok in Hrun as (sB & ov & Hpriv & Hfin). exists sB.
  destruct (can_submit s who table Public) eqn:Hcp, (can_submit s who table Privileged) eqn:Hcv;
    try done.
  - apply find_quorum_run in Hpub as [Hrec Hop]. apply find_quorum_run in Hpriv as [Hrec' Hov].
    split; [by eapply voting_both|]. destruct op as [q|].
    + destruct Hop as (n & Hn & Hd). right. exists Public, n, q. destruct u.
      split_and!; [done|done|by eapply (decision_transfer who)|by eapply finalize_run].
    + destruct ov as [q|].
      * destruct Hov as (n & Hn & Hd). right. exists Privileged, n, q. destruct u.
        split_and!; [done|done|done|by eapply finalize_run].
      * inv_run. left. split; [done|]. intros [] n _ Hn; [|by apply Hov].
        pose proof (recorded_scope _ _ _ _ _ _ Hrec') as Hsc. cbn [other_scope] in Hsc. rewrite Hsc. by apply Hop.
  - apply find_quorum_run in Hpub as [Hrec Hop]. inv_run.
    split; [by eapply (voting_one _ _ _ _ Public)|]. destruct op as [q|].
    + destruct Hop as (n & Hn & Hd). right. exists Public, n, q. destruct u.
      split_and!; [done|done|done|by eapply finalize_run].
    + inv_run. left. split; [done|]. intros [] n Hc Hn; [by apply Hop|congruence].
  - inv_run. apply find_quorum_run in Hpriv as [Hrec Hov].
    split; [by eapply (voting_one _ _ _ _ Privileged)|]. destruct ov as [q|].
    + destruct Hov as (n & Hn & Hd). right. exists Privileged, n, q. destruct u.
      split_and!; [done|done|done|by eapply finalize_run].
    + inv_run. left. split; [done|]. intros [] n Hc Hn; [congruence|by apply Hov].
Qed.

(** The table, batch, data and block number of a call. *)
Definition call_table (c : indexing_call) : TableIdentifier :=
  match c with SubmitData t _ _ | SubmitBlockchainData t _ _ _ => t end.
Definition call_batch (c : indexing_call) : BatchId :=
  match c with SubmitData _ b _ | SubmitBlockchainData _ b _ _ => b end.
Definition call_data (c : indexing_call) : RowData :=
  match c with SubmitData _ _ d | SubmitBlockchainData _ _ d _ => d end.
Definition call_block (c : indexing_call) : option Z :=
  match c with SubmitData _ _ _ => None | SubmitBlockchainData _ _ _ bn => Some bn end.
Definition call_hash (c : indexing_call) : Hash := data_hash_of (call_data c) (call_block c).

Lemma dispatch_indexing_run origin c s s' u :
  dispatch_indexing origin c s = (s', Ok u) ->
  exists who, origin = Signed who /\
    submitted who (call_table c) (call_batch c) (call_data c) (call_block c) s s'.
Proof.
  unfold dispatch_indexing, dispatch. rewrite transactional_ok.
  destruct c; apply submit_run.
Qed.

(** A call that fails changes nothing. *)
Lemma dispatch_indexing_cases origin c s :
  (exists who s', dispatch_indexing origin c s = (s', Ok tt) /\ origin = Signed who /\
    submitted who (call_table c) (call_batch c) (call_data c) (call_block c) s s') \/
  fst (dispatch_indexing origin c s) = s.
Proof.
  destruct (dispatch_indexing origin c s) as [s' [[]|e|]] eqn:Hrun.
  - left. destruct (dispatch_indexing_run _ _ _ _ _ Hrun) as (who & Ho & Hs). eauto.
  - right. eapply transactional_keep; [exact Hrun|done].
  - right. eapply transactional_keep; [exact Hrun|done].
Qed.
End lemmas.

(** ** The history of a chain

    [l] lists the successful submissions, each with the storage it ran in; every
    other step of the chain leaves the storage of this pallet alone. *)

Section history.
Context `{ExternalPallets} `{UnicodeData} `{Postcard} `{NativeApi}.
#[local] Notation Quorum := (DataQuorum AccountId Hash).

Inductive chain : list (Storage * AccountId * indexing_call) -> Storage -> Prop :=
| chain_genesis s : indexing s = pallet_indexing.mkStorage _ ∅ ∅ ∅ -> chain [] s
| chain_submit l s s' who c :
    chain l s -> dispatch_indexing (Signed who) c s = (s', Ok tt) -> chain ((s, who, c) :: l) s'
| chain_other l s s' : chain l s -> indexing s' = indexing s -> chain l s'.

(** An account submitted data of a batch, with the permission for the scope. *)
Definition backed (l : list (Storage * AccountId * indexing_call)) (b : BatchId) (h : Hash)
    (scope : QuorumScope) (a : AccountId) : Prop :=
  exists s c, (s, a, c) ∈ l /\ call_batch c = b /\ call_hash c = h /\
    can_submit s a (call_table c) scope = true.

(** A decision is backed by its agreements, which exceed the quorum size that its
    table had when it was taken. *)
Record quorum_backed (l : list (Storage * AccountId * indexing_call)) (b : BatchId) (q : Quorum)
    : Prop := {
  qb_batch : quorum_batch_id q = b;
  qb_agreements a : a ∈ agreements q -> backed l b (quorum_data_hash q) (quorum_scope q) a;
  qb_decided : exists s who c n, (s, who, c) ∈ l /\ who ∈ agreements q /\
    call_table c = quorum_table q /\
    InsertQuorumSize_of_scope (table_insert_quorum s (quorum_table q)) (quorum_scope q) = Some n /\
    n < Z.of_nat (size (agreements q));
}.

Lemma backed_cons e l b h scope a : backed l b h scope a -> backed (e :: l) b h scope a.
Proof. intros (s & c & Hl & ?). exists s, c. split; [by right|done]. Qed.

Lemma quorum_backed_cons e l b q : quorum_backed l b q -> quorum_backed (e :: l) b q.
Proof.
  intros [Hb Ha (s & who & c & n & Hl & Hr)].
  split; [done|intros; by apply backed_cons, Ha|].
  exists s, who, c, n. split; [by right|done].
Qed.

(** The submissions of one call are backed by it and by the history before. *)
Lemma voting_backed l who c s s1 b h scope a :
  (forall b h scope a, a ∈ voters s b h scope -> backed l b h scope a) ->
  voting who (call_table c) (call_batch c) (call_hash c) s s1 ->
  a ∈ voters s1 b h scope -> backed ((s, who, c) :: l) b h scope a.
Proof.
  intros Hl Hv Ha. destruct (decide ((b, h) = (call_batch c, call_hash c))) as [[= -> ->]|Hne].
  - destruct (can_submit s who (call_table c) scope) eqn:Hc.
    + destruct (voting_in _ _ _ _ _ _ Hv scope Hc) as (_ & _ & Heq). rewrite Heq in Ha.
      apply elem_of_union in Ha as [->%elem_of_singleton|Ha]; [|by apply backed_cons, Hl].
      exists s, c. split; [left|done].
    + rewrite (voting_out _ _ _ _ _ _ Hv scope Hc) in Ha. by apply backed_cons, Hl.
  - apply backed_cons, Hl. unfold voters, submissions in *.
    by rewrite (voting_others _ _ _ _ _ _ Hv) in Ha.
Qed.

Lemma finalized_voters q data s s' b h scope a :
  finalized q data s s' -> a ∈ voters s' b h scope -> a ∈ voters s b h scope.
Proof.
  intros Hf. unfold voters, submissions. rewrite (finalized_submissions _ _ _ _ Hf).
  destruct (filter _ _ !! (b, h)) as [x|] eqn:Hx; simpl; [|by destruct scope; set_solver].
  apply map_lookup_filter_Some in Hx as [-> _]. done.
Qed.

Lemma chain_backed l s :
  chain l s ->
  (forall b h scope a, a ∈ voters s b h scope -> backed l b h scope a) /\
  (forall b q, FinalData s !! b = Some q -> quorum_backed l b q).
Proof.
  induction 1 as [s Hs|l s s' who c Hch [IHv IHf] Hrun|l s s' Hch [IHv IHf] Hs].
  - unfold voters, submissions, Submissions, FinalData. rewrite Hs. simpl. split.
    + intros b h scope a. rewrite lookup_empty. destruct scope; set_solver.
    + intros b q. by rewrite lookup_empty.
  - apply dispatch_indexing_run in Hrun as (who' & [= <-] & [Hund Htab (s1 & Hv & Hres)]).
    change (data_hash_of (call_data c) (call_block c)) with (call_hash c) in *.
    assert (forall b q, FinalData s1 !! b = Some q -> quorum_backed ((s, who, c) :: l) b q) as Hold.
    { intros b q. rewrite (voting_final _ _ _ _ _ _ Hv). intros ?. by apply quorum_backed_cons, IHf. }
    destruct Hres as [[-> _]|(scope & n & q & Hcan & Hn & Hd & Hfin)].
    { split; [intros; by eapply voting_backed|done]. }
    split; [intros b h sc a Ha; eapply voting_backed, finalized_voters; eauto|].
    intros b q'. rewrite (finalized_final _ _ _ _ Hfin), lookup_insert.
    case_decide as Hb; [|apply Hold]. intros [= <-]. destruct Hd. subst.
    split; [done| |].
    + intros a Ha. eapply voting_backed; [done|done|].
      by rewrite decision_batch0, decision_hash0, <- decision_agreements0.
    + exists s, who, c, n. split_and!; [left| |done|congruence|done].
      rewrite decision_agreements0.
      destruct (voting_in _ _ _ _ _ _ Hv _ Hcan) as (_ & _ & ->). set_solver.
  - unfold voters, submissions, Submissions, FinalData in *. by rewrite Hs.
Qed.
End history.

(** ** Theorems *)

(** The submissions that are stored: of undecided batches only, and at most
    [MAX_SUBMITTERS] in each scope. *)
Definition submissions_wf `{Config} (s : Storage) : Prop :=
  forall b h x, Submissions s !! (b, h) = Some x ->
    FinalData s !! b = None /\ forall scope, (size (of_scope x scope) <= MAX_SUBMITTERS)%nat.

Section theorems.
Context `{ExternalPallets} `{UnicodeData} `{Postcard} `{NativeApi}.
#[local] Notation Quorum := (DataQuorum AccountId Hash).

Lemma voting_wf who table b h s s1 :
  submissions_wf s -> FinalData s !! b = None -> voting who table b h s s1 -> submissions_wf s1.
Proof.
  intros Hwf Hund Hv b' h' x Hx. rewrite (voting_final _ _ _ _ _ _ Hv).
  destruct (decide ((b', h') = (b, h))) as [[= -> ->]|Hne].
  2: { rewrite (voting_others _ _ _ _ _ _ Hv) in Hx by done. by eapply Hwf. }
  split; [done|]. intros scope.
  assert (of_scope x scope = voters s1 b h scope) as -> by (unfold voters, submissions; by rewrite Hx).
  destruct (can_submit s who table scope) eqn:Hc.
  - destruct (voting_in _ _ _ _ _ _ Hv scope Hc) as (Hn & Hr & ->).
    rewrite size_union, size_singleton by set_solver. lia.
  - rewrite (voting_out _ _ _ _ _ _ Hv scope Hc). unfold voters, submissions.
    destruct (Submissions s !! (b, h)) as [y|] eqn:Hy; simpl; [by eapply Hwf|].
    destruct scope; cbn [of_scope SubmittersByScope_default submitters_public submitters_privileged];
      rewrite size_empty; apply Nat.le_0_l.
Qed.

Lemma finalized_wf q data s s' :
  submissions_wf s -> finalized q data s s' -> submissions_wf s'.
Proof.
  intros Hwf Hf b h x. rewrite (finalized_submissions _ _ _ _ Hf), (finalized_final _ _ _ _ Hf).
  intros [Hx Hb]%map_lookup_filter_Some. simpl in Hb. rewrite lookup_insert_ne by done.
  by eapply Hwf.
Qed.

(** Submissions are stored only for undecided batches and never for more than 32
    accounts per scope, and every call keeps it so. *)
Theorem submissions_wf_preserved origin c s :
  submissions_wf s -> submissions_wf (fst (dispatch_indexing origin c s)).
Proof.
  intros Hwf. destruct (dispatch_indexing_cases origin c s) as
    [(who & s' & -> & _ & [Hund _ (s1 & Hv & Hres)])| ->]; [|done]. simpl.
  pose proof (voting_wf _ _ _ _ _ _ Hwf Hund Hv).
  destruct Hres as [[-> _]|(scope & n & q & _ & _ & _ & Hf)]; [done|]. by eapply finalized_wf.
Qed.

(** C26: A batch is decided at most once: no call changes the record of a decision,
    and a call for a decided batch does not succeed. *)
Theorem batch_decided_once origin c s b q :
  FinalData s !! b = Some q ->
  FinalData (fst (dispatch_indexing origin c s)) !! b = Some q /\
  (call_batch c = b -> is_ok (snd (dispatch_indexing origin c s)) = false).
Proof.
  intros Hq. destruct (dispatch_indexing origin c s) as [s' [[]|e|]] eqn:Hrun.
  2,3: split; [|done]; cbn [fst];
    by rewrite (transactional_keep _ _ _ _ Hrun eq_refl).
  apply dispatch_indexing_run in Hrun as (who & -> & [Hund _ (s1 & Hv & Hres)]). cbn [fst snd].
  assert (call_batch c <> b) as Hne by congruence. split; [|done].
  rewrite <- (voting_final _ _ _ _ _ _ Hv) in Hq.
  destruct Hres as [[-> _]|(scope & n & q' & _ & _ & [] & Hf)]; [done|].
  rewrite (finalized_final _ _ _ _ Hf). rewrite lookup_insert_ne by congruence. done.
Qed.

(** C10: A call decides a batch only with its own submission as the one that exceeds
    the table's quorum size for a scope its signer may submit for; the signer had
    not submitted this data before; the decision records the submitters of the
    same data, and at most 32 submitters of other data; and the submissions of
    the batch are gone. *)
Theorem decision_justified origin c s s' b q :
  dispatch_indexing origin c s = (s', Ok tt) ->
  FinalData s !! b = None -> FinalData s' !! b = Some q ->
  exists who n, origin = Signed who /\ b = call_batch c /\
    quorum_table q = call_table c /\ quorum_data_hash q = call_hash c /\
    is_Some (pallet_tables.Schemas (tables s) !! (namespace (quorum_table q), name (quorum_table q))) /\
    can_submit s who (quorum_table q) (quorum_scope q) = true /\
    InsertQuorumSize_of_scope (table_insert_quorum s (quorum_table q)) (quorum_scope q) = Some n /\
    who ∉ voters s b (quorum_data_hash q) (quorum_scope q) /\
    agreements q = {[who]} ∪ voters s b (quorum_data_hash q) (quorum_scope q) /\
    n < Z.of_nat (size (agreements q)) /\
    dissents q = btree_take MAX_SUBMITTERS
      (other_submitters (Submissions s) b (quorum_data_hash q) (quorum_scope q)) /\
    forall h, Submissions s' !! (b, h) = None.
Proof.
  intros Hrun Hnone Hq. apply dispatch_indexing_run in Hrun as (who & -> & [Hund Hs (s1 & Hv & Hres)]).
  change (data_hash_of (call_data c) (call_block c)) with (call_hash c) in *.
  destruct Hres as [[-> _]|(scope & n & q' & Hcan & Hn & Hd & Hf)].
  { rewrite (voting_final _ _ _ _ _ _ Hv) in Hq. congruence. }
  rewrite (finalized_final _ _ _ _ Hf), lookup_insert in Hq. case_decide as Hb.
  2: { rewrite (voting_final _ _ _ _ _ _ Hv) in Hq. congruence. }
  injection Hq as ->. destruct Hd as [Ht Hbat Hh Hsc Hbl Hag Hsz Hbd Hdis]. subst b scope.
  rewrite Ht, Hbat, Hh in *. destruct (voting_in _ _ _ _ _ _ Hv _ Hcan) as (Hnew & _ & Heq).
  exists who, n. split_and!; try done; [congruence| |].
  - rewrite Hdis. f_equal. apply set_eq. intros a. rewrite !elem_of_other_submitters.
    split; intros (h' & x & Hne & Hx & Ha); exists h', x; (split_and!; [done| |done]).
    + by rewrite <- (voting_others _ _ _ _ _ _ Hv) by congruence.
    + by rewrite (voting_others _ _ _ _ _ _ Hv) by congruence.
  - intros h. rewrite (finalized_submissions _ _ _ _ Hf). apply map_lookup_filter_None.
    right. intros x _. simpl. congruence.
Qed.

(** C1: In the history of a chain from its genesis, every account that a decision
    counts as agreeing signed a successful submission of this data for this
    batch, with the permission for the scope at that time, and the agreements
    outnumber the quorum size that the table had when the decision was taken. *)
Theorem decisions_backed_by_history l s b q :
  chain l s -> FinalData s !! b = Some q -> quorum_backed l b q.
Proof. intros Hch Hq. by apply (chain_backed l s). Qed.
End theorems.

(** Commitments are read from the storage of the commitments pallet only. *)
Lemma table_commitment_same `{Config} s s' :
  commitments s = commitments s' -> table_commitment s = table_commitment s'.
Proof.
  intros Hc. unfold table_commitment, CommitmentStorageMap. by rewrite Hc.
Qed.

Lemma committed_same `{Config} `{ProofOfSql} s s' table C setup cols :
  commitments s = commitments s' ->
  committed s' table C setup cols -> committed s table C setup cols.
Proof. unfold committed. intros Hc. by rewrite (table_commitment_same _ _ Hc). Qed.

Lemma deserialized_wf `{UnicodeLaws} `{Postcard} b t :
  on_chain_table_try_from_bytes b = Ok t -> table_wf t.
Proof.
  unfold on_chain_table_try_from_bytes, deserialize_on_chain_table.
  destruct (from_bytes (on_chain_table_data b)) as [l|]; simpl; [|done].
  destruct (try_from_iter l) eqn:Ht; simpl; try done. intros [= <-]. by eapply try_from_iter_ok_wf.
Qed.

(** C2: With the implementation of the native interface, the call that decides a
    batch appends its rows to every commitment of the table, and to no other
    table's. *)
Theorem decision_commits `{ExternalPallets} `{UnicodeLaws} `{PostcardLaws} `{ArrowLibrary}
    `{StreamReader} `{ProofOfSqlLaws} setups origin c s s' b q :
  @dispatch_indexing _ _ _ _ (Api (Some setups)) origin c s = (s', Ok tt) ->
  FinalData s !! b = None -> FinalData s' !! b = Some q ->
  exists batch oc_table,
    record_batch_to_onchain (call_data c) = Ok batch /\
    on_chain_table_try_from_bytes batch = Ok oc_table /\
    (forall t C, t <> quorum_table q -> table_commitment s' t C = table_commitment s t C) /\
    forall C cols, committed s (quorum_table q) C (per_get setups C) cols ->
    exists rows cols',
      @iter_committable (commitment_scalar C) (with_column_order oc_table (fst <$> cols)) = Ok rows /\
      append_tables cols rows = Some cols' /\
      committed s' (quorum_table q) C (per_get setups C) cols'.
Proof.
  intros Hrun Hnone Hq. apply dispatch_indexing_run in Hrun as (who & -> & [_ _ (s1 & Hv & Hres)]).
  destruct (voting_state _ _ _ _ _ _ Hv) as (i & ev & Hs1).
  destruct Hres as [[-> _]|(scope & n & q' & _ & _ & Hd & Hf)].
  { rewrite (voting_final _ _ _ _ _ _ Hv) in Hq. congruence. }
  rewrite (finalized_final _ _ _ _ Hf), lookup_insert in Hq. case_decide.
  2: { rewrite (voting_final _ _ _ _ _ _ Hv) in Hq. congruence. }
  injection Hq as ->.
  destruct (finalized_insert _ _ _ _ Hf) as (batch & t & s2 & s3 & m & data & Hb & Ht & Hc2 & Hins & Hc3 & _).
  assert (commitments s2 = commitments s) as Hc by (rewrite Hc2, Hs1; done).
  exists batch, t. split; [done|]. split; [done|].
  destruct (insert_updates_run _ _ _ _ _ _ (deserialized_wf _ _ Ht) Hins) as ([_ Hoth] & _ & Hcom).
  split.
  - intros t' C Hne. rewrite (table_commitment_same _ _ Hc3), Hoth by done.
    by rewrite (table_commitment_same _ _ Hc).
  - intros C cols Hcols. destruct (Hcom C cols) as (rows & cols' & Hr & Ha & Hcm).
    + by eapply committed_same.
    + exists rows, cols'. split_and!; [done|done|]. by eapply committed_same.
Qed.

(** ** Concrete runs *)

Module IndexingExamples.
#[local] Existing Instance sample_config.
#[local] Existing Instance ascii_unicode.
#[local] Existing Instance ascii_unicode_laws.
#[local] Existing Instance plain_proof_of_sql.
#[local] Existing Instance plain_laws.
#[local] Existing Instance plain_postcard.
#[local] Existing Instance plain_postcard_laws.
#[local] Existing Instance plain_arrow.
#[local] Existing Instance plain_reader.
#[local] Existing Instance plain_api.
#[local] Existing Instance SystemTablesExamples.plain_external.

(** The serialized rows of the sample table, and a second table of the chain. *)
Definition rows : bytes :=
  match on_chain_table_try_into_bytes sample_table with
  | Ok b => on_chain_table_data b
  | _ => []
  end.
Definition second_table : TableIdentifier := mkTableIdentifier (bs "SECOND") (bs "TEST").

(** The chain after the sample table was created, with alice and bob as indexers;
    both tables need more than one public submission. *)
Definition indexing_storage : Storage :=
  let may := [IndexingPallet SubmitDataForPublicQuorum] in
  let q := mkInsertQuorumSize (Some 1) None in
  with_permissions (pallet_permissions.mkStorage _ {[ alice := may; bob := may ]})
    (with_tables (pallet_tables.mkStorage ∅ ∅ ∅ ∅
      {[ (namespace sample_table_identifier, name sample_table_identifier) := bs "CREATE";
         (namespace second_table, name second_table) := bs "CREATE" ]} ∅
      {[ sample_table_identifier := q; second_table := q ]} ∅) created_storage).

Definition batch : BatchId := bs "batch-1".
Definition alice_call : indexing_call := SubmitData sample_table_identifier batch rows.
Definition after_alice : Storage := fst (dispatch_indexing (Signed alice) alice_call indexing_storage).
Definition after_bob : Storage := fst (dispatch_indexing (Signed bob) alice_call after_alice).

Definition decided : DataQuorum bytes bytes :=
  mkDataQuorum sample_table_identifier batch (data_hash_of rows None) 10 {[ alice; bob ]} ∅ Public.

#[local] Instance quorum_eq_dec : EqDecision (DataQuorum bytes bytes).
Proof. solve_decision. Defined.

Lemma after_alice_run :
  dispatch_indexing (Signed alice) alice_call indexing_storage = (after_alice, Ok tt).
Proof.
  assert (snd (dispatch_indexing (Signed alice) alice_call indexing_storage) = Ok tt) as Hok
    by (vm_compute; reflexivity).
  unfold after_alice. exact (run_outcome _ _ _ Hok).
Qed.

Lemma after_bob_run : dispatch_indexing (Signed bob) alice_call after_alice = (after_bob, Ok tt).
Proof.
  assert (snd (dispatch_indexing (Signed bob) alice_call after_alice) = Ok tt) as Hok
    by (vm_compute; reflexivity).
  unfold after_bob. exact (run_outcome _ _ _ Hok).
Qed.

(** One submission is not enough, two are. *)
Lemma after_alice_undecided : FinalData after_alice !! batch = None.
Proof. apply (bool_decide_unpack _). vm_compute. exact I. Qed.

Lemma after_bob_decided : FinalData after_bob !! batch = Some decided.
Proof. apply (bool_decide_unpack _). vm_compute. exact I. Qed.

Lemma submissions_wf_preserved_witness : submissions_wf after_alice.
Proof.
  unfold after_alice. apply (submissions_wf_preserved (Signed alice) alice_call indexing_storage).
  intros b h x Hx. exfalso. eapply (lookup_empty_Some (M := gmap (bytes * bytes))), Hx.
Defined.

Lemma batch_decided_once_witness :
  is_ok (snd (dispatch_indexing (Signed alice) alice_call after_bob)) = false.
Proof.
  apply (batch_decided_once (Signed alice) alice_call after_bob batch decided);
    [exact after_bob_decided|reflexivity].
Defined.

Lemma decision_justified_witness :
  agreements decided = {[ bob ]} ∪ voters after_alice batch (data_hash_of rows None) Public.
Proof.
  destruct (decision_justified (Signed bob) alice_call after_alice after_bob batch decided
    after_bob_run after_alice_undecided after_bob_decided)
    as (who & n & [= <-] & _ & _ & _ & _ & _ & _ & _ & Ha & _).
  exact Ha.
Defined.

Lemma decisions_backed_by_history_witness :
  quorum_backed [(after_alice, bob, alice_call); (indexing_storage, alice, alice_call)] batch decided.
Proof.
  apply (decisions_backed_by_history _ after_bob); [|exact after_bob_decided].
  eapply chain_submit, after_bob_run. eapply chain_submit, after_alice_run.
  by apply chain_genesis.
Defined.

Lemma after_alice_committed :
  committed after_alice sample_table_identifier DynamicDory tt sample_empty_columns.
Proof.
  eexists _, _. split; [vm_compute; reflexivity|]. split; [vm_compute; reflexivity|].
  split; [|vm_compute; reflexivity]. split.
  - apply (bool_decide_unpack _). vm_compute. exact I.
  - exists 0%nat. by repeat constructor.
Qed.

Lemma decision_commits_witness :
  exists oc_table rows cols',
    @iter_committable (commitment_scalar DynamicDory)
      (with_column_order oc_table (fst <$> sample_empty_columns)) = Ok rows /\
    append_tables sample_empty_columns rows = Some cols' /\
    committed after_bob sample_table_identifier DynamicDory tt cols'.
Proof.
  destruct (decision_commits sample_setups (Signed bob) alice_call after_alice after_bob batch decided
    after_bob_run after_alice_undecided after_bob_decided) as (b & t & _ & _ & _ & Hc).
  destruct (Hc DynamicDory sample_empty_columns after_alice_committed) as (r & cols & Hr & Ha & Hcm).
  exists t, r, cols. split; [exact Hr|]. split; [exact Ha|exact Hcm].
Defined.

(** Submissions are counted per batch and data and not per table: a submission
    for the second table completes the quorum of the first one's. *)
Example tables_share_submissions :
  let s := fst (dispatch_indexing (Signed alice) (SubmitData second_table batch rows)
    indexing_storage) in
  let s' := fst (dispatch_indexing (Signed bob) alice_call s) in
  FinalData s' !! batch = Some decided.
Proof. apply (bool_decide_unpack _). vm_compute. exact I. Qed.
End IndexingExamples.
