(* ===== verification/PalletSmartContracts.v ===== *)
(** * pallets/smartcontracts

    Contracts whose events are indexed, with the tables created for them.
    Theorems: what adding and removing a contract does to the contract, its
    tables and its namespace; that contracts and table lists are stored together;
    that adding followed by removing succeeds and leaves no trace of the
    contract's tables; and that the namespace stays, so that no contract with the
    same target schema can be added afterwards. *)

From stdpp Require Import base tactics option gmap strings numbers list.
From Stdlib Require Import ZArith Lia.
From Stdlib Require Import Strings.Byte.
From S2P Require Import Prelude Bytes Text Types CommitmentScheme CommitmentMap OnChainTable SqlAst.
From S2P Require Import TablesSql ProofOfSql PlainCommitment CommitmentSql Native Runtime Sample.
From S2P Require Import PalletPermissions PalletCommitments PalletTables PalletIndexing.

Section smartcontracts.
Context `{Config} `{UnicodeData} `{SqlParser} `{UuidRng} `{ProofOfSql}.
Context (PUBLIC_SETUPS : PerCommitmentScheme PublicSetup).

Definition sc_err (e : pallet_smartcontracts.Error) : DispatchError := Module (SmartContractsError e).

Definition ContractStorage (s : Storage) : gmap (Source * ContractAddress) Contract :=
  pallet_smartcontracts.ContractStorage (smartcontracts s).
Definition ContractTables (s : Storage)
    : gmap (Source * ContractAddress) (list (TableIdentifier * TableType)) :=
  pallet_smartcontracts.ContractTables (smartcontracts s).

Definition modify_contracts (f : pallet_smartcontracts.Storage -> pallet_smartcontracts.Storage)
    : Call unit :=
  mmodify (fun s => with_smartcontracts (f (smartcontracts s)) s).

Definition remove_smartcontract (origin : RawOrigin) (source : Source) (address : ContractAddress)
    : Call unit :=
  let* owner := ensure_root_or_permissioned origin (SmartContractsPallet UpdateABI) in
  modify_contracts (fun c => pallet_smartcontracts.set_ContractStorage
    (delete (source, address) (pallet_smartcontracts.ContractStorage c)) c) ;;;
  let* table_ids := mget (fun s => ContractTables s !! (source, address)) in
  modify_contracts (fun c => pallet_smartcontracts.set_ContractTables
    (delete (source, address) (pallet_smartcontracts.ContractTables c)) c) ;;;
  miter (fun '(ident, table_type) => drop_single_table table_type ident ;;; remove_commits ident)
    (default [] table_ids) ;;;
  deposit_event (SmartContractsEvent
    (pallet_smartcontracts.SmartContractRemoved owner source address)).

Definition contract_details (contract : Contract) : ContractDetails :=
  match contract with
  | Normal normal_contract => normal_details normal_contract
  | Proxy proxy_contract => proxy_details proxy_contract
  end.

Definition MAX_CONTRACT_TABLES : nat := 1024.

Definition add_smartcontract (origin : RawOrigin) (contract : Contract) (tables : list UpdateTable)
    : Call unit :=
  let* owner := ensure_root_or_permissioned origin (SmartContractsPallet UpdateABI) in
  let details := contract_details contract in
  let source := contract_source details in
  let address := contract_address details in
  let* present := mget (fun s => bool_decide (is_Some (ContractStorage s !! (source, address)))) in
  mensure (negb present) (sc_err pallet_smartcontracts.ExistingContractError) ;;;
  modify_contracts (fun c => pallet_smartcontracts.set_ContractStorage
    (<[(source, address) := contract]> (pallet_smartcontracts.ContractStorage c)) c) ;;;
  let* table_ids := mlift (ok_or
    (try_from_bounded MAX_CONTRACT_TABLES ((fun t => (ident t, table_type t)) <$> tables))
    (sc_err pallet_smartcontracts.TooManyTables)) in
  modify_contracts (fun c => pallet_smartcontracts.set_ContractTables
    (<[(source, address) := table_ids]> (pallet_smartcontracts.ContractTables c)) c) ;;;
  (match starting_block details with
   | Some start_block =>
       miter (fun '(ident, _) => modify_indexing (fun i => pallet_indexing.set_BlockNumbers
         (<[ident := start_block]> (pallet_indexing.BlockNumbers i)) i)) table_ids
   | None => mret tt
   end) ;;;
  let* target_schema := mlift (ok_or (target_schema details)
    (sc_err pallet_smartcontracts.MissingTargetSchema)) in
  let* ddl_statement := mlift (ok_or (ddl_statement details)
    (sc_err pallet_smartcontracts.MissingDdlStatement)) in
  create_namespace origin target_schema 0 ddl_statement SCI source ;;;
  deposit_event (SmartContractsEvent
    (pallet_smartcontracts.SmartContractAdded owner source address)) ;;;
  create_tables_inner PUBLIC_SETUPS origin tables.

Inductive smartcontracts_call :=
| RemoveSmartcontract (source : Source) (address : ContractAddress)
| AddSmartcontract (contract : Contract) (tables : list UpdateTable).

Definition dispatch_smartcontracts (origin : RawOrigin) (c : smartcontracts_call) : Call unit :=
  dispatch match c with
  | RemoveSmartcontract source address => remove_smartcontract origin source address
  | AddSmartcontract contract tables => add_smartcontract origin contract tables
  end.
End smartcontracts.

(** ** Lemmas *)

Section lemmas.
Context `{Config} `{UnicodeLaws} `{SqlParser} `{UuidRng} `{ProofOfSqlLaws}.
Context (setups : PerCommitmentScheme PublicSetup).

Definition contract_key (contract : Contract) : Source * ContractAddress :=
  (contract_source (contract_details contract), contract_address (contract_details contract)).

(** The storage but for the tables, the commitments and the events. *)
Definition beside_tables (s s' : Storage) : Prop :=
  permissions s' = permissions s /\ keystore s' = keystore s /\ attestation s' = attestation s /\
  indexing s' = indexing s /\ smartcontracts s' = smartcontracts s /\
  system_contracts s' = system_contracts s /\ system_tables s' = system_tables s /\
  rewards s' = rewards s /\ ext s' = ext s.

Lemma create_tables_inner_ok origin l s s' u :
  create_tables_inner setups origin l s = (s', Ok u) ->
  permissioned s origin (TablesPallet EditSchema) /\
  exists s1 created ev, mcollect (create_one_table setups) l s = (s1, Ok created) /\
    s' = push_event ev s1 /\ beside_tables s s1 /\
    pallet_tables.NamespaceVersions (tables s1) = pallet_tables.NamespaceVersions (tables s).
Proof.
  unfold create_tables_inner.
  intros (s0 & owner & (-> & Hp & ->)%ensure_rop_ok & Hrun)%mbind_ok. split; [done|].
  apply mbind_ok in Hrun as (s1 & created & Hc & Hrun).
  apply mbind_ok in Hrun as (s2 & out & [_ ->]%mlift_ok & [= <- _]).
  eexists s1, created, _. split; [done|]. split; [done|].
  refine (preserves_ok_collect (fun s1 => beside_tables s s1 /\
    pallet_tables.NamespaceVersions (tables s1) = pallet_tables.NamespaceVersions (tables s))
    _ _ _ _ _ _ _ Hc); [|done].
  by intros t s0 s2 o Hs0 (uuid & cols & stmt & map & _ & -> & _)%create_one_table_ok.
Qed.

Lemma create_namespace_ok origin sn v stmt ty src s s' u :
  create_namespace origin sn v stmt ty src s = (s', Ok u) ->
  permissioned s origin (TablesPallet EditSchema) /\
  pallet_tables.NamespaceVersions (tables s) !! (sn, v) = None /\
  exists uuid ev, s' = push_event ev (with_tables (pallet_tables.set_NamespaceVersions
    (<[(sn, v) := uuid]> (pallet_tables.NamespaceVersions (tables s))) (tables s)) s).
Proof.
  unfold create_namespace.
  intros (s0 & owner & (-> & Hp & ->)%ensure_rop_ok & Hrun)%mbind_ok. split; [done|].
  inv_run. match goal with Hn : insert_namespace_uuid _ _ _ _ = _ |- _ =>
    apply insert_namespace_uuid_ok in Hn as [Hnone ->] end.
  split; [done|]. by eexists _, _.
Qed.

(** The starting block of each table. *)
Definition with_start (start_block : option Z) (ids : list (TableIdentifier * TableType))
    (s : Storage) : Storage :=
  match start_block with
  | Some b => with_indexing (pallet_indexing.set_BlockNumbers
      (foldl (fun m id => <[id.1 := b]> m) (BlockNumbers s) ids) (indexing s)) s
  | None => s
  end.

Lemma start_blocks_set b (ids : list (TableIdentifier * TableType)) id (m : gmap TableIdentifier Z) :
  id ∈ ids.*1 \/ m !! id = Some b ->
  foldl (fun m id => <[id.1 := b]> m) m ids !! id = Some b.
Proof.
  revert m. induction ids as [|[i ty] ids IH]; intros m Hid; cbn [foldl fst].
  - destruct Hid as [Hid|Hid]; [by apply not_elem_of_nil in Hid|done].
  - apply IH. destruct Hid as [[->|Hid]%elem_of_cons|Hid]; [|by left|].
    + right. apply lookup_insert_eq.
    + right. rewrite lookup_insert. by case_decide.
Qed.

Lemma starting_block_run start_block ids s :
  (match start_block with
   | Some b => miter (fun '(ident, _) => modify_indexing (fun i => pallet_indexing.set_BlockNumbers
       (<[ident := b]> (pallet_indexing.BlockNumbers i)) i)) ids
   | None => mret tt
   end) s = (with_start start_block ids s, (Ok tt : outcome DispatchError unit)).
Proof.
  destruct start_block as [b|]; [|done].
  revert s. induction ids as [|[id ty] ids IH]; intros s; [by destruct s as [? ? ? ? ? ? []]|].
  cbn [miter]. unfold mbind at 1, modify_indexing at 1, mmodify at 1. by rewrite IH.
Qed.

(** What a successful [add_smartcontract] did. *)
Record added (origin : RawOrigin) (contract : Contract) (l : list UpdateTable) (s s' : Storage)
    : Prop := {
  added_permissions : permissioned s origin (SmartContractsPallet UpdateABI) /\
    permissioned s origin (TablesPallet EditSchema);
  added_same : permissions s' = permissions s;
  added_new : ContractStorage s !! contract_key contract = None;
  added_contracts : ContractStorage s' = <[contract_key contract := contract]> (ContractStorage s);
  added_tables : ContractTables s' =
    <[contract_key contract := (fun t => (ident t, table_type t)) <$> l]> (ContractTables s);
  added_bound : (length l <= MAX_CONTRACT_TABLES)%nat;
  added_namespace : exists schema, target_schema (contract_details contract) = Some schema /\
    pallet_tables.NamespaceVersions (tables s) !! (schema, 0) = None /\
    is_Some (pallet_tables.NamespaceVersions (tables s') !! (schema, 0));
  added_start : BlockNumbers s' = BlockNumbers (with_start
    (starting_block (contract_details contract)) ((fun t => (ident t, table_type t)) <$> l) s);
  added_created : exists s1 s2 created, mcollect (create_one_table setups) l s1 = (s2, Ok created) /\
    (exists v, tables s1 = pallet_tables.set_NamespaceVersions v (tables s)) /\
    commitments s1 = commitments s /\ tables s' = tables s2 /\ commitments s' = commitments s2;
}.

Lemma add_smartcontract_run origin contract l s s' u :
  add_smartcontract setups origin contract l s = (s', Ok u) -> added origin contract l s s'.
Proof.
  unfold add_smartcontract.
  intros (s0 & owner & (-> & Hp & ->)%ensure_rop_ok & Hrun)%mbind_ok. cbv zeta in Hrun.
  apply mbind_ok in Hrun as (s0 & present & [= <- <-] & Hrun).
  apply mbind_ok in Hrun as (s0 & [] & [Hnew ->]%mensure_ok & Hrun).
  apply negb_true_iff, bool_decide_eq_false, eq_None_not_Some in Hnew.
  apply mbind_ok in Hrun as (s1 & [] & [= <-] & Hrun).
  apply mbind_ok in Hrun as (s1 & ids & [Hids%ok_or_ok ->]%mlift_ok & Hrun).
  apply try_from_bounded_some in Hids as [-> Hbound]. rewrite length_fmap in Hbound.
  apply mbind_ok in Hrun as (s1 & [] & [= <-] & Hrun).
  rewrite (mbind_run _ _ _ _ _ (starting_block_run _ _ _)) in Hrun.
  apply mbind_ok in Hrun as (s1 & schema & [Hschema%ok_or_ok ->]%mlift_ok & Hrun).
  apply mbind_ok in Hrun as (s1 & ddl & [Hddl%ok_or_ok ->]%mlift_ok & Hrun).
  apply mbind_ok in Hrun as (s1 & [] & (_ & Hns & uuid & ev & ->)%create_namespace_ok & Hrun).
  apply mbind_ok in Hrun as (s1 & [] & [= <-] & Hrun).
  apply create_tables_inner_ok in Hrun as (Hedit & s2 & created & ev' & Hcol & -> & Hbeside & Hnsv).
  destruct Hbeside as (Hperm & _ & _ & Hix & Hsc & _).
  unfold with_start in *.
  destruct (starting_block (contract_details contract)) as [b|] eqn:Hstart.
  all: split; unfold ContractStorage, ContractTables, BlockNumbers in *;
    [split; [exact Hp|exact Hedit]|exact Hperm|exact Hnew|by simpl; rewrite Hsc|by simpl; rewrite Hsc|exact Hbound
    | |by simpl; rewrite ?Hstart, Hix|].
  1, 3: exists schema; split_and!; [done|done|]; simpl; rewrite Hnsv; simpl; by rewrite lookup_insert_eq.
  all: eexists _, s2, created; split_and!; [exact Hcol|by eexists|done..].
Qed.

(** *** Dropping the tables of a contract *)

Definition drop_tables (ids : list (TableIdentifier * TableType)) : Call unit :=
  miter (fun '(ident, table_type) => drop_single_table table_type ident ;;; remove_commits ident) ids.

(** Nothing of a table is left but its versions, its source and its snapshot. *)
Definition gone (s : Storage) (id : TableIdentifier) : Prop :=
  pallet_tables.Schemas (tables s) !! (namespace id, name id) = None /\
  pallet_tables.TableInsertQuorums (tables s) !! id = None /\
  forall C, table_commitment s id C = None.

(** The storage after one table of the list was dropped. *)
Definition one_dropped (id : TableIdentifier) (ty : TableType) (s : Storage) : Storage :=
  set_CommitmentStorageMap (commits_without id (CommitmentStorageMap s))
    (with_tables (table_dropped ty id (tables s)) s).

Lemma drop_one_run id ty s s' u :
  (drop_single_table ty id ;;; remove_commits id) s = (s', Ok u) <->
  droppable s ty id /\ s' = one_dropped id ty s.
Proof.
  destruct (drop_single_table_run ty id s) as (Hnp & Hok & Herr). split.
  - intros (s1 & [] & [Hd ->]%Hok & Hr)%mbind_ok. rewrite remove_commits_run in Hr. by simplify_eq.
  - intros [Hd ->]. destruct (drop_single_table ty id s) as [s1 [[]|e|]] eqn:Hrun; [| |done].
    + rewrite (mbind_run _ _ _ _ _ Hrun), remove_commits_run.
      destruct (Hok s1 tt eq_refl) as [_ ->]. by destruct u.
    + by destruct (Herr s1 e eq_refl).
Qed.

Lemma one_dropped_gone id ty s : gone (one_dropped id ty s) id.
Proof.
  split_and!; simpl; [apply lookup_delete_eq..|]. intros C. unfold table_commitment. simpl.
  apply map_lookup_filter_None. right. intros x _. naive_solver.
Qed.

Lemma one_dropped_keeps_gone id ty s id' : gone s id' -> gone (one_dropped id ty s) id'.
Proof.
  intros (Hs & Hq & Hc). split_and!; simpl.
  - rewrite lookup_delete. by case_decide.
  - rewrite lookup_delete. by case_decide.
  - intros C. unfold table_commitment. simpl. apply map_lookup_filter_None. left. apply Hc.
Qed.

Lemma one_dropped_droppable id ty s id' ty' :
  id' <> id -> droppable s ty' id' -> droppable (one_dropped id ty s) ty' id'.
Proof.
  intros Hne [Hin Hs]. split; unfold identifiers_of in *; simpl.
  - destruct (decide (ty' = ty)) as [->|Hty].
    + rewrite lookup_insert_eq. simpl. by apply list_elem_of_filter.
    + by rewrite lookup_insert_ne.
  - rewrite lookup_delete_ne; [done|]. by rewrite schema_key_inj.
Qed.

Lemma drop_tables_run ids s s' u :
  drop_tables ids s = (s', Ok u) ->
  s' = foldl (fun s id => one_dropped id.1 id.2 s) s ids /\
  forall id, id ∈ ids.*1 -> gone s' id.
Proof.
  unfold drop_tables. revert s. induction ids as [|[id ty] ids IH]; intros s; cbn [miter foldl].
  { intros [= <- _]. split; [done|]. intros id Hin. by apply not_elem_of_nil in Hin. }
  intros (s1 & [] & [Hd ->]%drop_one_run & Hr)%mbind_ok. apply IH in Hr as [-> Hg].
  split; [done|]. intros id' [->|Hin]%elem_of_cons; [|by apply Hg]. cbn [fst].
  assert (gone (one_dropped id ty s) id) as Hgone by apply one_dropped_gone.
  revert Hgone. generalize (one_dropped id ty s). clear.
  induction ids as [|[id' ty'] ids IH]; intros s Hg; [done|]. cbn [foldl]. apply IH.
  by apply one_dropped_keeps_gone.
Qed.

Lemma drop_tables_succeeds ids s :
  NoDup ids.*1 -> (forall id ty, (id, ty) ∈ ids -> droppable s ty id) ->
  exists s', drop_tables ids s = (s', Ok tt).
Proof.
  unfold drop_tables. revert s. induction ids as [|[id ty] ids IH]; intros s Hnd Hd; [by eexists|].
  cbn [miter]. rewrite fmap_cons in Hnd. apply NoDup_cons in Hnd as [Hid Hnd].
  assert (droppable s ty id) as Hdrop by (apply Hd; left).
  rewrite (mbind_run _ _ s (one_dropped id ty s) tt) by (by apply drop_one_run).
  apply IH; [done|]. intros id' ty' Hin. apply one_dropped_droppable; [|apply Hd; by right].
  intros ->. apply Hid, list_elem_of_fmap. by exists (id, ty').
Qed.

Lemma dropped_beside ids s :
  beside_tables s (foldl (fun s id => one_dropped id.1 id.2 s) s ids) /\
  pallet_tables.NamespaceVersions (tables (foldl (fun s id => one_dropped id.1 id.2 s) s ids)) =
    pallet_tables.NamespaceVersions (tables s).
Proof.
  assert (forall s0, beside_tables s s0 /\ pallet_tables.NamespaceVersions (tables s0) =
    pallet_tables.NamespaceVersions (tables s) -> beside_tables s (foldl (fun s id =>
      one_dropped id.1 id.2 s) s0 ids) /\ pallet_tables.NamespaceVersions (tables (foldl (fun s id =>
      one_dropped id.1 id.2 s) s0 ids)) = pallet_tables.NamespaceVersions (tables s)) as Hgen;
    [|by apply Hgen].
  induction ids as [|id ids IH]; intros s0 Hs0; [done|]. cbn [foldl]. by apply IH.
Qed.

(** What a successful [remove_smartcontract] did. *)
Record removed (origin : RawOrigin) (key : Source * ContractAddress) (s s' : Storage) : Prop := {
  removed_permission : permissioned s origin (SmartContractsPallet UpdateABI);
  removed_contracts : ContractStorage s' = delete key (ContractStorage s);
  removed_tables : ContractTables s' = delete key (ContractTables s);
  removed_gone id : id ∈ (default [] (ContractTables s !! key)).*1 -> gone s' id;
  removed_namespaces :
    pallet_tables.NamespaceVersions (tables s') = pallet_tables.NamespaceVersions (tables s);
}.

Lemma remove_smartcontract_run origin source address s s' u :
  remove_smartcontract origin source address s = (s', Ok u) ->
  removed origin (source, address) s s'.
Proof.
  unfold remove_smartcontract.
  intros (s0 & owner & (-> & Hp & ->)%ensure_rop_ok & Hrun)%mbind_ok.
  apply mbind_ok in Hrun as (s1 & [] & [= <-] & Hrun).
  apply mbind_ok in Hrun as (s1 & ids & [= <- <-] & Hrun).
  apply mbind_ok in Hrun as (s1 & [] & [= <-] & Hrun).
  apply mbind_ok in Hrun as (s1 & [] & Hdrop & [= <- _]).
  change (miter _ _) with (drop_tables (default [] (ContractTables s !! (source, address)))) in Hdrop.
  apply drop_tables_run in Hdrop as [Hs1 Hg].
  match type of Hs1 with _ = foldl _ ?s0 ?ids => destruct (dropped_beside ids s0) as [Hb Hn] end.
  rewrite <- Hs1 in Hb, Hn. destruct Hb as (_ & _ & _ & _ & Hsc & _).
  split; unfold ContractStorage, ContractTables in *; try done; simpl; by rewrite ?Hsc.
Qed.

(** *** Tables just created can be dropped *)

Lemma created_identifiers ident uuid cols stmt ty src snaps t ty' :
  let old := default [] (pallet_tables.Identifiers t !! ty') in
  let new := default [] (pallet_tables.Identifiers
    (table_created ident uuid cols stmt ty src snaps t) !! ty') in
  (forall id, id ∈ old -> id ∈ new) /\ (length new <= S (length old))%nat /\
  (ty' = ty -> (length old < MAX_IDENTIFIERS_PER_SOURCE_AND_MODE)%nat -> ident ∈ new).
Proof.
  cbn -[MAX_IDENTIFIERS_PER_SOURCE_AND_MODE].
  destruct (decide (ty' = ty)) as [->|Hne]; [|rewrite lookup_insert_ne by done; split_and!; [done|lia|done]].
  rewrite lookup_insert_eq. cbn [from_option id]. unfold try_push.
  generalize (default [] (pallet_tables.Identifiers t !! ty)) as old. intros old.
  destruct (Nat.ltb_spec (length old) MAX_IDENTIFIERS_PER_SOURCE_AND_MODE); cbn [from_option id].
  - rewrite length_app. split_and!; [|simpl; lia|].
    + intros id Hid. apply elem_of_app. by left.
    + intros _ _. apply elem_of_app. right. by apply list_elem_of_singleton.
  - split_and!; [done|lia|]. intros _ Hlt. lia.
Qed.

Lemma create_one_droppable table s s' out :
  create_one_table setups table s = (s', Ok out) ->
  (forall ty id, droppable s ty id -> droppable s' ty id) /\
  (forall ty, (length (identifiers_of s' ty) <= S (length (identifiers_of s ty)))%nat) /\
  ((length (identifiers_of s (table_type table)) < MAX_IDENTIFIERS_PER_SOURCE_AND_MODE)%nat ->
   droppable s' (table_type table) (ident table)).
Proof.
  intros (uuid & cols & stmt & map & _ & -> & _)%create_one_table_ok.
  unfold droppable, identifiers_of. split_and!.
  - intros ty id [Hid Hs]. split; [|by apply insert_is_some]. by apply created_identifiers.
  - intros ty. apply created_identifiers.
  - intros Hlt. split; [by apply created_identifiers|]. apply table_created_registered.
Qed.

Lemma create_all_droppable l s s' created :
  mcollect (create_one_table setups) l s = (s', Ok created) ->
  (forall ty, (length (identifiers_of s ty) + length l <= MAX_IDENTIFIERS_PER_SOURCE_AND_MODE)%nat) ->
  (forall ty id, droppable s ty id -> droppable s' ty id) /\
  forall t, t ∈ l -> droppable s' (table_type t) (ident t).
Proof.
  revert s created. induction l as [|t l IH]; intros s created; cbn [mcollect].
  { intros [= <- <-] _. split; [done|]. intros t Ht. by apply not_elem_of_nil in Ht. }
  intros (s1 & o & Ht & (s2 & os & Hl & [= <- <-])%mbind_ok)%mbind_ok Hlen. cbn [length] in Hlen.
  apply create_one_droppable in Ht as (Hkeep & Hgrow & Hnew).
  destruct (IH _ _ Hl) as [Hkeep' Hall].
  { intros ty. specialize (Hgrow ty). specialize (Hlen ty). lia. }
  split; [by auto|]. intros t' [->|Hin]%elem_of_cons; [|by auto].
  apply Hkeep', Hnew. specialize (Hlen (table_type t)). lia.
Qed.
End lemmas.

(** ** Theorems *)

(** The contracts and the tables of the contracts are stored together. *)
Definition contracts_consistent `{Config} (s : Storage) : Prop :=
  forall k, is_Some (ContractStorage s !! k) <-> is_Some (ContractTables s !! k).

Section theorems.
Context `{Config} `{UnicodeLaws} `{SqlParser} `{UuidRng} `{ProofOfSqlLaws}.
Context (setups : PerCommitmentScheme PublicSetup).

Lemma dispatch_smartcontracts_cases origin c s :
  (exists s', dispatch_smartcontracts setups origin c s = (s', Ok tt) /\
    match c with
    | AddSmartcontract contract l => added setups origin contract l s s'
    | RemoveSmartcontract source address => removed origin (source, address) s s'
    end) \/
  (fst (dispatch_smartcontracts setups origin c s) = s /\
   is_ok (snd (dispatch_smartcontracts setups origin c s)) = false).
Proof.
  unfold dispatch_smartcontracts, dispatch.
  match goal with |- context [transactional ?m s] =>
    destruct (transactional_cases m s) as [(s' & [] & Hr & Ht)|[Hs Ho]] end; [left|by right].
  exists s'. split; [done|]. destruct c; [by eapply remove_smartcontract_run|].
  by eapply add_smartcontract_run.
Qed.

(** Every call keeps contracts and their table lists together: there is a list
    exactly for the contracts that are stored. *)
Theorem contracts_consistent_preserved origin c s :
  contracts_consistent s -> contracts_consistent (fst (dispatch_smartcontracts setups origin c s)).
Proof.
  intros Hs. destruct (dispatch_smartcontracts_cases origin c s) as [(s' & -> & Hc)|[-> _]]; [|done].
  cbn [fst]. intros k. destruct c as [source address|contract l]; destruct Hc.
  - rewrite removed_contracts0, removed_tables0, !lookup_delete. case_decide; [|apply Hs].
    by rewrite !is_Some_alt.
  - rewrite added_contracts0, added_tables0, !lookup_insert. case_decide; [|apply Hs].
    by rewrite !is_Some_alt.
Qed.

(** A contract is added only by an origin that may update contracts and edit
    schemas, only where no contract is stored, and with the namespace of its
    target schema new; then the contract is stored with its list of tables, each
    table is registered, and each table's block number is the starting block. *)
Theorem add_smartcontract_effect origin contract l s s' :
  dispatch_smartcontracts setups origin (AddSmartcontract contract l) s = (s', Ok tt) ->
  let details := contract_details contract in
  permissioned s origin (SmartContractsPallet UpdateABI) /\
  permissioned s origin (TablesPallet EditSchema) /\
  ContractStorage s !! contract_key contract = None /\
  ContractStorage s' = <[contract_key contract := contract]> (ContractStorage s) /\
  ContractTables s' !! contract_key contract = Some ((fun t => (ident t, table_type t)) <$> l) /\
  (exists schema, target_schema details = Some schema /\
    pallet_tables.NamespaceVersions (tables s) !! (schema, 0) = None /\
    is_Some (pallet_tables.NamespaceVersions (tables s') !! (schema, 0))) /\
  (forall t, t ∈ l -> registered (tables s') (ident t)) /\
  (forall t b, t ∈ l -> starting_block details = Some b -> BlockNumbers s' !! ident t = Some b).
Proof.
  unfold dispatch_smartcontracts, dispatch. rewrite transactional_ok.
  intros [[] ? ? Hc Ht ? ? Hst (s1 & s2 & created & Hcol & _ & _ & Htab & _)]%add_smartcontract_run.
  split_and!; try done; [by rewrite Ht, lookup_insert_eq| |].
  - rewrite Htab. apply (mcollect_each (fun t s => registered (tables s) (ident t)) _ _ _ _ _)
      with (3 := Hcol).
    + intros t s0 s3 o (uuid & cols & stmt & map & _ & -> & _)%create_one_table_ok.
      apply table_created_registered.
    + intros t z s0 s3 o (uuid & cols & stmt & map & _ & -> & _)%create_one_table_ok Hz.
      by apply table_created_keeps.
  - intros t b Hin Hb. rewrite Hst, Hb. cbn.
    apply start_blocks_set. left. rewrite <- list_fmap_compose. apply list_elem_of_fmap. by exists t.
Qed.

(** Removing a contract takes away the contract, its list of tables, and of every
    table on the list the schema, the insert quorum and all commitments. *)
Theorem remove_smartcontract_effect origin source address s s' :
  dispatch_smartcontracts setups origin (RemoveSmartcontract source address) s = (s', Ok tt) ->
  permissioned s origin (SmartContractsPallet UpdateABI) /\
  ContractStorage s' = delete (source, address) (ContractStorage s) /\
  ContractTables s' = delete (source, address) (ContractTables s) /\
  forall id, id ∈ (default [] (ContractTables s !! (source, address))).*1 -> gone s' id.
Proof.
  unfold dispatch_smartcontracts, dispatch. rewrite transactional_ok.
  by intros []%remove_smartcontract_run.
Qed.

Lemma permissioned_same s s' origin p :
  permissions s' = permissions s -> permissioned s origin p -> permissioned s' origin p.
Proof.
  intros Hs. destruct origin as [|who|]; simpl; [done| |done].
  unfold has_permissions, Permissions. by rewrite Hs.
Qed.

Lemma remove_smartcontract_succeeds origin source address s :
  permissioned s origin (SmartContractsPallet UpdateABI) ->
  let ids := default [] (ContractTables s !! (source, address)) in
  NoDup ids.*1 -> (forall id ty, (id, ty) ∈ ids -> droppable s ty id) ->
  exists s', remove_smartcontract origin source address s = (s', Ok tt).
Proof.
  intros Hp ids Hnd Hd. unfold remove_smartcontract.
  rewrite (mbind_run _ _ _ _ _ (ensure_rop_run _ _ _ Hp)).
  unfold mbind at 1, modify_contracts at 1, mmodify at 1. unfold mbind at 1, mget.
  unfold mbind at 1, modify_contracts at 1, mmodify at 1. unfold mbind at 1.
  match goal with |- context [miter ?f ?l ?st] => change (miter f l st) with (drop_tables ids st);
    destruct (drop_tables_succeeds ids st) as [s' Hs'] end; [done|exact Hd|].
  rewrite Hs'. by eexists.
Qed.


(** The namespace of a contract outlives it: after a contract was added, and even
    after it was removed again, no call adds a contract with the same target
    schema. *)
Theorem target_schema_taken origin contract l s s1 origin' source address s2 origin'' contract' l' :
  dispatch_smartcontracts setups origin (AddSmartcontract contract l) s = (s1, Ok tt) ->
  dispatch_smartcontracts setups origin' (RemoveSmartcontract source address) s1 = (s2, Ok tt) ->
  target_schema (contract_details contract') = target_schema (contract_details contract) ->
  is_ok (snd (dispatch_smartcontracts setups origin'' (AddSmartcontract contract' l') s1)) = false /\
  is_ok (snd (dispatch_smartcontracts setups origin'' (AddSmartcontract contract' l') s2)) = false.
Proof.
  unfold dispatch_smartcontracts at 1 2, dispatch. rewrite !transactional_ok.
  intros [? ? ? ? ? ? (sn & Hsn & _ & Hns) ? ?]%add_smartcontract_run
    [_ _ _ _ Hn]%remove_smartcontract_run Heq.
  assert (forall st, is_Some (pallet_tables.NamespaceVersions (tables st) !! (sn, 0)) ->
    is_ok (snd (dispatch_smartcontracts setups origin'' (AddSmartcontract contract' l') st)) = false)
    as Hfail; [|split; apply Hfail; [done|by rewrite Hn]].
  intros st Hst.
  destruct (dispatch_smartcontracts_cases origin'' (AddSmartcontract contract' l') st)
    as [(s' & _ & [? ? ? ? ? ? (sn' & Hsn' & Hnone & _) ? ?])|[_ Ho]]; [|done].
  rewrite Heq, Hsn in Hsn'. simplify_eq. rewrite Hnone in Hst. by apply is_Some_None in Hst.
Qed.
End theorems.

(** ** Concrete runs *)

Module SmartContractsExamples.
#[local] Existing Instance sample_config.
#[local] Existing Instance ascii_unicode.
#[local] Existing Instance ascii_unicode_laws.
#[local] Existing Instance plain_proof_of_sql.
#[local] Existing Instance plain_laws.
#[local] Existing Instance mini_sql.
#[local] Existing Instance plain_rng.

Definition token : Contract :=
  Normal (mkNormalContract (mkContractDetails Ethereum (bs "0xabc") None (Some 5)
    (Some (bs "ETHEREUM")) None None (Some (bs "CREATE SCHEMA ETHEREUM")))).

#[local] Notation run := (dispatch_smartcontracts sample_setups) (only parsing).

Definition token_storage : Storage := fst (run Root (AddSmartcontract token [create_blocks]) sample_storage).
Definition token_removed : Storage :=
  fst (run Root (RemoveSmartcontract Ethereum (bs "0xabc")) token_storage).

Lemma token_added :
  run Root (AddSmartcontract token [create_blocks]) sample_storage = (token_storage, Ok tt).
Proof.
  assert (snd (run Root (AddSmartcontract token [create_blocks]) sample_storage) = Ok tt) as Hok
    by (vm_compute; reflexivity).
  unfold token_storage. exact (run_outcome _ _ _ Hok).
Qed.

Lemma token_removal :
  run Root (RemoveSmartcontract Ethereum (bs "0xabc")) token_storage = (token_removed, Ok tt).
Proof.
  assert (snd (run Root (RemoveSmartcontract Ethereum (bs "0xabc")) token_storage) = Ok tt) as Hok
    by (vm_compute; reflexivity).
  unfold token_removed. exact (run_outcome _ _ _ Hok).
Qed.

Lemma contracts_consistent_preserved_witness : contracts_consistent token_storage.
Proof.
  unfold token_storage.
  apply (contracts_consistent_preserved sample_setups Root (AddSmartcontract token [create_blocks])
    sample_storage).
  intros k. unfold ContractStorage, ContractTables. simpl. rewrite !lookup_empty. done.
Defined.

Lemma add_smartcontract_effect_witness :
  registered (tables token_storage) blocks /\ BlockNumbers token_storage !! blocks = Some 5.
Proof.
  destruct (add_smartcontract_effect sample_setups Root token [create_blocks] sample_storage token_storage
    token_added) as (_ & _ & _ & _ & _ & _ & Hreg & Hb).
  split; [apply (Hreg create_blocks); left|]. apply (Hb create_blocks); [left|reflexivity].
Defined.

Lemma remove_smartcontract_effect_witness : ContractStorage token_removed = delete (Ethereum, bs "0xabc")
  (ContractStorage token_storage).
Proof.
  destruct (remove_smartcontract_effect sample_setups Root Ethereum (bs "0xabc") token_storage token_removed
    token_removal) as (_ & Hc & _).
  exact Hc.
Defined.


Lemma target_schema_taken_witness :
  is_ok (snd (run Root (AddSmartcontract token [create_blocks]) token_removed)) = false.
Proof.
  apply (target_schema_taken sample_setups Root token [create_blocks] sample_storage token_storage Root
    Ethereum (bs "0xabc") token_removed Root token [create_blocks] token_added token_removal eq_refl).
Defined.

(** With the same table twice in the request the contract cannot be removed. *)
Example repeated_table_not_removable :
  let s := fst (run Root (AddSmartcontract token
    [create_blocks; mkUpdateTable blocks (bs "CREATE TABLE ETHEREUM.OTHER (SIZE)") CoreBlockchain
      (EmptyCommitment flags_all) Ethereum]) sample_storage) in
  bool_decide (is_Some (ContractStorage s !! (Ethereum, bs "0xabc"))) = true /\
  snd (run Root (RemoveSmartcontract Ethereum (bs "0xabc")) s) =
    Err (tables_err pallet_tables.TableNotFound).
Proof. split; vm_compute; reflexivity. Qed.
End SmartContractsExamples.
