(* ===== verification/PalletSystemContracts.v ===== *)
(** * pallets/system-contracts

    The addresses of the staking and of the messaging contract.  The theorem is
    the exact behaviour of both calls on every origin. *)

From stdpp Require Import base tactics option gmap numbers list.
From Stdlib Require Import ZArith Lia.
From S2P Require Import Prelude Bytes Types Runtime.

Section system_contracts.
Context `{Config}.

Record SystemContractsGenesis := mkSystemContractsGenesis {
  genesis_staking_contract : ContractInfo;
  genesis_messaging_contract : ContractInfo;
}.

Definition SystemContractsGenesis_default : SystemContractsGenesis :=
  mkSystemContractsGenesis ContractInfo_default ContractInfo_default.

Definition system_contracts_build (self : SystemContractsGenesis) (s : Storage) : Storage :=
  with_system_contracts (pallet_system_contracts.set_MessagingContract (genesis_messaging_contract self)
    (pallet_system_contracts.set_StakingContract (genesis_staking_contract self) (system_contracts s))) s.

Definition modify_system_contracts
    (f : pallet_system_contracts.Storage -> pallet_system_contracts.Storage) : Call unit :=
  mmodify (fun s => with_system_contracts (f (system_contracts s)) s).

Definition set_staking_contract (origin : RawOrigin) (contract_info : ContractInfo) : Call unit :=
  mlift (ensure_root origin) ;;;
  modify_system_contracts (pallet_system_contracts.set_StakingContract contract_info) ;;;
  deposit_event (SystemContractsEvent
    (pallet_system_contracts.StakingContractUpdated contract_info)).

Definition set_messaging_contract (origin : RawOrigin) (contract_info : ContractInfo) : Call unit :=
  mlift (ensure_root origin) ;;;
  modify_system_contracts (pallet_system_contracts.set_MessagingContract contract_info) ;;;
  deposit_event (SystemContractsEvent
    (pallet_system_contracts.MessagingContractUpdated contract_info)).

Inductive system_contracts_call :=
| SetStakingContract (contract_info : ContractInfo)
| SetMessagingContract (contract_info : ContractInfo).

Definition dispatch_system_contracts (origin : RawOrigin) (c : system_contracts_call) : Call unit :=
  dispatch match c with
  | SetStakingContract i => set_staking_contract origin i
  | SetMessagingContract i => set_messaging_contract origin i
  end.

(** The two calls as one update of the pallet's storage. *)
Definition contracts_after (c : system_contracts_call) (t : pallet_system_contracts.Storage)
    : pallet_system_contracts.Storage :=
  match c with
  | SetStakingContract i => pallet_system_contracts.mkStorage i (pallet_system_contracts.MessagingContract t)
  | SetMessagingContract i => pallet_system_contracts.mkStorage (pallet_system_contracts.StakingContract t) i
  end.

Definition contracts_event (c : system_contracts_call) : pallet_system_contracts.Event :=
  match c with
  | SetStakingContract i => pallet_system_contracts.StakingContractUpdated i
  | SetMessagingContract i => pallet_system_contracts.MessagingContractUpdated i
  end.

(** Root replaces one of the two addresses and logs it, and nothing else changes;
    every other origin is refused and changes nothing. *)
Theorem system_contracts_calls_spec origin c s :
  dispatch_system_contracts origin c s =
  match origin with
  | Root => (push_event (SystemContractsEvent (contracts_event c))
      (with_system_contracts (contracts_after c (system_contracts s)) s), Ok tt)
  | _ => (s, Err BadOrigin)
  end.
Proof. by destruct origin, c. Qed.
End system_contracts.
