(* ===== verification/PalletRewards.v ===== *)
(** * pallets/rewards

    At the beginning of each block the pallet pays a page of rewards to a few
    validators of the next unpaid era.  The staking pallet is a class of
    operations on [Ext].  Theorems: the era advances only when nobody of it has
    rewards pending, one era at a time and never past the active one; if payouts
    succeed, every era is paid within as many blocks as it has pages and one
    more; and if the payouts of the first validators keep failing, the pallet
    stays where it is for ever. *)

From stdpp Require Import base tactics option gmap numbers list.
From Stdlib Require Import ZArith Lia.
From S2P Require Import Prelude Bytes Types Runtime Sample SystemTables.

(** [frame_support::weights::Weight]. *)
Record Weight := mkWeight { ref_time : Z; proof_size : Z }.
Definition Weight_zero : Weight := mkWeight 0 0.
Definition saturating_add (w1 w2 : Weight) : Weight :=
  mkWeight (Z.min (ref_time w1 + ref_time w2) U64_MAX)
    (Z.min (proof_size w1 + proof_size w2) U64_MAX).
#[global] Instance Weight_eq_dec : EqDecision Weight.
Proof. solve_decision. Defined.

Class StakingRewards `{Config} := {
  active_era : Ext -> option Z;
  (** The validators with reward points of an era, in the order of the map. *)
  era_validators : Ext -> Z -> list AccountId;
  (** Whether a page of the era is still unpaid. *)
  pending_rewards : Ext -> Z -> AccountId -> bool;
  (** The payer, the validator and the era. *)
  payout_stakers : AccountId -> AccountId -> Z -> M Ext DispatchError unit;
  (** [T::MaxPayoutsPerBlock]. *)
  max_payouts : nat;
  (** [payout_stakers_alive_staked(max_page_size)]. *)
  single_call_weight : Weight;
}.

Section rewards.
Context `{StakingRewards}.

Definition NextPaidEra (s : Storage) : Z := pallet_rewards.NextPaidEra (rewards s).
Definition PayerAccount (s : Storage) : option AccountId := pallet_rewards.PayerAccount (rewards s).

Definition modify_rewards (f : pallet_rewards.Storage -> pallet_rewards.Storage) : Call unit :=
  mmodify (fun s => with_rewards (f (rewards s)) s).
Definition rewards_event (e : pallet_rewards_events.Event) : Call unit :=
  deposit_event (RewardsEvent e).

Definition set_payer_account (origin : RawOrigin) (payer : AccountId) : Call unit :=
  mlift (ensure_root origin) ;;;
  modify_rewards (pallet_rewards.set_PayerAccount (Some payer)) ;;;
  rewards_event (pallet_rewards_events.PayerUpdated payer).

(** The iterator of the payouts: filter, [take] and map run element by element, so
    [pending_rewards] is asked in the storage that the earlier payouts left. *)
Fixpoint pay_validators (payer : AccountId) (era : Z) (n : nat) (validators : list AccountId)
    : Call (list Weight) :=
  match n, validators with
  | S n', validator :: validators =>
      let* pending := mget (fun s => pending_rewards (ext s) era validator) in
      if pending : bool then
        let* r := mtry (mext (payout_stakers payer validator era)) in
        (match r with
         | inl _ => rewards_event (pallet_rewards_events.Payout validator)
         | inr error => rewards_event (pallet_rewards_events.PayoutError validator error)
         end) ;;;
        let* weights := pay_validators payer era n' validators in
        mret (single_call_weight :: weights)
      else pay_validators payer era n validators
  | _, _ => mret []
  end.

(** [reduce(saturating_add).unwrap_or(zero)]. *)
Definition reduce_weights (l : list Weight) : Weight :=
  match l with
  | [] => Weight_zero
  | w :: l => foldl saturating_add w l
  end.

(** The sums into [total_weight] are computed and dropped. *)
Definition on_initialize : Call Weight :=
  let total_weight := Weight_zero in
  let* era := mget NextPaidEra in
  let* current_era := mget (fun s => default 0 (active_era (ext s))) in
  if era >=? current_era then mret total_weight
  else
    rewards_event (pallet_rewards_events.Status current_era era) ;;;
    let* validators := mget (fun s => era_validators (ext s) era) in
    let* payer := mget PayerAccount in
    match payer with
    | None =>
        rewards_event (pallet_rewards_events.SetupError
          (Module (RewardsError pallet_rewards.NoPayerSet))) ;;;
        mret total_weight
    | Some payer =>
        let* weights := pay_validators payer era max_payouts validators in
        (if bool_decide (reduce_weights weights = Weight_zero)
         then rewards_event (pallet_rewards_events.EraPaid era) ;;;
              modify_rewards (pallet_rewards.set_NextPaidEra (era + 1))
         else mret tt) ;;;
        mret total_weight
    end.
End rewards.

(** What the pallet relies on for progress: a payout of a validator with pages
    left pays one of its pages and nothing else of the era. *)
Class StakingRewardsLaws `{StakingRewards} := {
  pages : Ext -> Z -> AccountId -> nat;
  pending_pages e era v : pending_rewards e era v = bool_decide (0 < pages e era v)%nat;
  payout_page payer v era e : (0 < pages e era v)%nat ->
    exists e', payout_stakers payer v era e = (e', Ok tt) /\
      S (pages e' era v) = pages e era v /\
      (forall v', v' <> v -> pages e' era v' = pages e era v') /\
      era_validators e' = era_validators e /\ active_era e' = active_era e;
  max_payouts_positive : (0 < max_payouts)%nat;
  single_call_weight_positive : 0 < ref_time single_call_weight <= U64_MAX /\
    0 <= proof_size single_call_weight <= U64_MAX;
}.

(** ** Lemmas *)

Section lemmas.
Context `{StakingRewards}.

(** The weight of a payout is not zero. *)
Definition weight_positive : Prop :=
  0 < ref_time single_call_weight <= U64_MAX.

Lemma reduce_weights_zero ws :
  weight_positive -> Forall (eq single_call_weight) ws ->
  reduce_weights ws = Weight_zero <-> ws = [].
Proof.
  intros Hw Hws. destruct Hws as [|w ws <- Hws]; [done|]. split; [|done]. cbn [reduce_weights].
  assert (forall w, 0 < ref_time w -> 0 < ref_time (foldl saturating_add w ws)) as Hpos.
  { clear -Hws Hw. induction Hws as [|w ws <- _ IH]; intros w' Hw'; [done|]. cbn [foldl]. apply IH.
    simpl. unfold weight_positive, U64_MAX in *. lia. }
  intros Hz. specialize (Hpos single_call_weight). rewrite Hz in Hpos. destruct Hw. simpl in Hpos. lia.
Qed.

Lemma pay_validators_frame payer era n l s0 :
  preserves (same_but_ext s0) (pay_validators payer era n l).
Proof.
  revert n. induction l as [|v l IH]; intros [|n]; cbn [pay_validators]; try apply preserves_ret.
  apply preserves_bind; [auto with sxt|]. intros []; [|apply IH].
  apply preserves_bind; [apply preserves_try, same_but_ext_mext|]. intros r.
  apply preserves_bind; [destruct r; apply same_but_ext_deposit|]. intros _.
  apply preserves_bind; [apply IH|]. intros ws. apply preserves_ret.
Qed.

Lemma pay_validators_rewards payer era n l s s' o :
  pay_validators payer era n l s = (s', o) -> rewards s' = rewards s.
Proof.
  intros Hrun. pose proof (pay_validators_frame payer era n l s s (same_but_ext_refl s)) as Hf.
  rewrite Hrun in Hf. destruct Hf as [(_ & _ & _ & _ & _ & _ & _ & _ & Hr & _) _]. exact Hr.
Qed.

Lemma pay_validators_run payer era n l s s' ws :
  pay_validators payer era n l s = (s', Ok ws) ->
  Forall (eq single_call_weight) ws /\ (length ws <= n)%nat /\
  (ws = [] -> (0 < n)%nat -> s' = s /\ forall v, v ∈ l -> pending_rewards (ext s) era v = false).
Proof.
  revert n s ws. induction l as [|v l IH]; intros [|n] s ws; cbn [pay_validators].
  1, 2, 3: intros [= <- <-]; split_and!; [done|simpl; lia|]; intros _ Hn;
    first [lia|split; [done|intros v Hv; by apply not_elem_of_nil in Hv]].
  intros (s1 & p & [= <- <-] & Hrun)%mbind_ok.
  destruct (pending_rewards (ext s) era v) eqn:Hp.
  - apply mbind_ok in Hrun as (s2 & r & _ & Hrun). apply mbind_ok in Hrun as (s3 & [] & _ & Hrun).
    apply mbind_ok in Hrun as (s4 & ws' & Hl & [= <- <-]). apply IH in Hl as (Hw & Hlen & _).
    split_and!; [by constructor|simpl; lia|done].
  - apply IH in Hrun as (Hw & Hlen & Hnil). split_and!; [done|done|]. intros Hws Hn.
    destruct (Hnil Hws Hn) as [-> Hall]. split; [done|].
    intros v' [->|Hv']%elem_of_cons; [done|by apply Hall].
Qed.

(** A validator with rewards pending is paid, or the error is logged. *)
Lemma pay_validators_step payer era n v l s e' r :
  pending_rewards (ext s) era v = true -> payout_stakers payer v era (ext s) = (e', r) -> r <> Panic ->
  pay_validators payer era (S n) (v :: l) s =
  let '(s', o) := pay_validators payer era n l (push_event (RewardsEvent
    match r with
    | Err error => pallet_rewards_events.PayoutError v error
    | _ => pallet_rewards_events.Payout v
    end) (with_ext e' s)) in (s', omap_ok (cons single_call_weight) o).
Proof.
  intros Hp Hpay Hr. cbn [pay_validators].
  unfold mbind, mget, mtry, mext, rewards_event, deposit_event, mmodify. rewrite Hp, Hpay.
  destruct r as [[]|e|]; [| |done];
    destruct (pay_validators payer era n l _) as [s' []]; done.
Qed.

Lemma pay_validators_skip payer era n v l s :
  pending_rewards (ext s) era v = false ->
  pay_validators payer era (S n) (v :: l) s = pay_validators payer era (S n) l s.
Proof. intros Hp. cbn [pay_validators]. unfold mbind, mget. by rewrite Hp. Qed.

(** The cases of a block. *)
Lemma on_initialize_run s s' w :
  on_initialize s = (s', Ok w) ->
  w = Weight_zero /\
  ((default 0 (active_era (ext s)) <= NextPaidEra s /\ s' = s) \/
   (NextPaidEra s < default 0 (active_era (ext s)) /\ PayerAccount s = None /\
     rewards s' = rewards s /\ ext s' = ext s) \/
   exists payer ws s1 s2, NextPaidEra s < default 0 (active_era (ext s)) /\
     PayerAccount s = Some payer /\ ext s1 = ext s /\ rewards s1 = rewards s /\
     pay_validators payer (NextPaidEra s) max_payouts (era_validators (ext s) (NextPaidEra s)) s1 =
       (s2, Ok ws) /\ ext s' = ext s2 /\ rewards s2 = rewards s /\
     rewards s' = if bool_decide (reduce_weights ws = Weight_zero)
                  then pallet_rewards.set_NextPaidEra (NextPaidEra s + 1) (rewards s) else rewards s).
Proof.
  unfold on_initialize. cbv zeta.
  intros (s1 & era & [= <- <-] & Hrun)%mbind_ok. apply mbind_ok in Hrun as (s1 & cur & [= <- <-] & Hrun).
  rewrite Z.geb_leb in Hrun.
  destruct (Z.leb_spec (default 0 (active_era (ext s))) (NextPaidEra s)) as [Hle|Hlt].
  { injection Hrun as <- <-. split; [done|]. by left. }
  apply mbind_ok in Hrun as (s1 & [] & [= <-] & Hrun).
  apply mbind_ok in Hrun as (s1 & vs & [= <- <-] & Hrun).
  apply mbind_ok in Hrun as (s1 & payer & [= <- <-] & Hrun).
  match type of Hrun with context [PayerAccount ?st] => change (PayerAccount st) with (PayerAccount s) in Hrun end.
  destruct (PayerAccount s) as [payer|] eqn:Hpay.
  2: { unfold rewards_event in Hrun. inv_run. split; [done|]. right. left. done. }
  apply mbind_ok in Hrun as (s2 & ws & Hws & Hrun).
  apply mbind_ok in Hrun as (s3 & [] & Hera & [= <- <-]). split; [done|]. right. right.
  apply pay_validators_rewards in Hws as Hr. change (rewards s2 = rewards s) in Hr.
  eexists payer, ws, _, s2.
  unfold rewards_event, modify_rewards in Hera.
  split_and!; [done|done| | |exact Hws| |exact Hr|]; try done;
    case_bool_decide; inv_run; simpl; rewrite ?Hr; done.
Qed.

Lemma on_initialize_pays payer s :
  PayerAccount s = Some payer -> NextPaidEra s < default 0 (active_era (ext s)) ->
  on_initialize s =
  let '(s2, o) := pay_validators payer (NextPaidEra s) max_payouts
    (era_validators (ext s) (NextPaidEra s)) (push_event (RewardsEvent (pallet_rewards_events.Status
      (default 0 (active_era (ext s))) (NextPaidEra s))) s) in
  match o with
  | Ok ws =>
      (if bool_decide (reduce_weights ws = Weight_zero)
       then with_rewards (pallet_rewards.set_NextPaidEra (NextPaidEra s + 1) (rewards s2))
         (push_event (RewardsEvent (pallet_rewards_events.EraPaid (NextPaidEra s))) s2)
       else s2, Ok Weight_zero)
  | Err e => (s2, Err e)
  | Panic => (s2, Panic)
  end.
Proof.
  intros Hp Hlt. unfold on_initialize, mbind, mget, rewards_event, deposit_event, modify_rewards, mmodify.
  cbv zeta beta iota. rewrite Z.geb_leb, (proj2 (Z.leb_gt _ _)) by done.
  match goal with |- context [PayerAccount ?st] => change (PayerAccount st) with (PayerAccount s) end.
  rewrite Hp. cbn [ext push_event with_system].
  destruct (pay_validators _ _ _ _ _) as [s2 [ws|e|]]; [|done..].
  by case_bool_decide.
Qed.
End lemmas.

(** ** Theorems *)

(** The unpaid era moves only to the next one, only while it is behind the
    active era, only with a payer set, and only when none of the era's
    validators has rewards pending; otherwise it stays.  The weight that the hook
    reports is always zero. *)
Theorem era_advances_when_paid `{StakingRewards} s s' w :
  weight_positive -> (0 < max_payouts)%nat ->
  on_initialize s = (s', Ok w) ->
  w = Weight_zero /\
  (NextPaidEra s' = NextPaidEra s \/
   NextPaidEra s' = NextPaidEra s + 1 /\ NextPaidEra s < default 0 (active_era (ext s)) /\
   is_Some (PayerAccount s) /\ ext s' = ext s /\
   forall v, v ∈ era_validators (ext s) (NextPaidEra s) ->
     pending_rewards (ext s) (NextPaidEra s) v = false).
Proof.
  intros Hw Hn (-> & Hcases)%on_initialize_run. split; [done|].
  destruct Hcases as [[_ ->]|[(_ & _ & Hr & _)|(payer & ws & s1 & s2 & Hlt & Hp & He1 & Hr1 & Hpay & He & Hr2 & Hr)]].
  - by left.
  - left. unfold NextPaidEra. by rewrite Hr.
  - apply pay_validators_run in Hpay as (Hws & _ & Hnil). unfold NextPaidEra at 1 3. rewrite Hr.
    case_bool_decide as Hz; [|by left]. right. apply reduce_weights_zero in Hz as ->; [|done..].
    destruct (Hnil eq_refl Hn) as [-> Hall]. rewrite He1 in *. by rewrite Hp.
Qed.

(** *** Progress *)

(** Blocks in which nothing but the hook runs. *)
Fixpoint blocks_run `{StakingRewards} (k : nat) (s : Storage) : Storage :=
  match k with
  | O => s
  | S k => blocks_run k (fst (on_initialize s))
  end.

Section progress.
Context `{StakingRewardsLaws}.

(** The unpaid pages of some validators. *)
Definition unpaid (e : Ext) (era : Z) (l : list AccountId) : nat := sum_list (pages e era <$> l).

Lemma unpaid_other e e' era v l :
  v ∉ l -> (forall v', v' <> v -> pages e' era v' = pages e era v') -> unpaid e' era l = unpaid e era l.
Proof.
  intros Hv Hp. unfold unpaid. f_equal. apply list_fmap_ext. intros i v' Hi. apply Hp. intros ->.
  apply Hv. by eapply list_elem_of_lookup_2.
Qed.

Lemma pay_validators_succeeds payer era n l s :
  NoDup l ->
  exists s' ws, pay_validators payer era n l s = (s', Ok ws) /\
    (length ws + unpaid (ext s') era l = unpaid (ext s) era l)%nat /\
    (forall v, v ∉ l -> pages (ext s') era v = pages (ext s) era v) /\
    era_validators (ext s') = era_validators (ext s) /\ active_era (ext s') = active_era (ext s).
Proof.
  intros Hnd. revert n s. induction Hnd as [|v l Hv Hnd IH]; intros [|n] s;
    try (eexists _, []; split; [done|]; done).
  destruct (pending_rewards (ext s) era v) eqn:Hp; rewrite pending_pages in Hp.
  - apply bool_decide_eq_true in Hp as Hp'.
    destruct (payout_page payer v era (ext s) Hp') as (e' & Hpay & Hpg & Hoth & Hvs & Hact).
    rewrite <- pending_pages in Hp. rewrite (pay_validators_step _ _ _ _ _ _ _ _ Hp Hpay) by done.
    destruct (IH n (push_event (RewardsEvent (pallet_rewards_events.Payout v)) (with_ext e' s)))
      as (s' & ws & -> & Hlen & Hsame & Hvs' & Hact').
    exists s', (single_call_weight :: ws). split; [done|]. cbn [ext push_event with_system with_ext] in *.
    assert (pages (ext s') era v = pages e' era v) as Hpv by by apply Hsame.
    pose proof (unpaid_other (ext s) e' era v l Hv Hoth) as Hu.
    split_and!; [|intros v' Hv'|congruence|congruence].
    + unfold unpaid in *. rewrite !fmap_cons. simpl. lia.
    + rewrite Hsame by set_solver. apply Hoth. set_solver.
  - rewrite <- pending_pages in Hp. rewrite pay_validators_skip by done.
    destruct (IH (S n) s) as (s' & ws & Hrun & Hlen & Hsame & Hvs' & Hact').
    exists s', ws. split; [done|]. split_and!; [|intros v' Hv'; apply Hsame; set_solver|done..].
    unfold unpaid in *. rewrite !fmap_cons. simpl. rewrite Hsame by done. lia.
Qed.

Lemma weight_is_positive : weight_positive.
Proof. apply single_call_weight_positive. Qed.

(** One block: the era is paid, or a page of it is. *)
Lemma block_progress payer s :
  PayerAccount s = Some payer -> NextPaidEra s < default 0 (active_era (ext s)) ->
  NoDup (era_validators (ext s) (NextPaidEra s)) ->
  let s' := fst (on_initialize s) in
  let todo st := unpaid (ext st) (NextPaidEra s) (era_validators (ext s) (NextPaidEra s)) in
  NextPaidEra s' = NextPaidEra s + 1 \/
  NextPaidEra s' = NextPaidEra s /\ (todo s' < todo s)%nat /\ PayerAccount s' = Some payer /\
    era_validators (ext s') = era_validators (ext s) /\ active_era (ext s') = active_era (ext s).
Proof.
  intros Hp Hlt Hnd s' todo. subst s'. rewrite (on_initialize_pays payer) by done.
  destruct (pay_validators_succeeds payer (NextPaidEra s) max_payouts
    (era_validators (ext s) (NextPaidEra s)) (push_event (RewardsEvent (pallet_rewards_events.Status
      (default 0 (active_era (ext s))) (NextPaidEra s))) s) Hnd)
    as (s2 & ws & Hrun & Hlen & _ & Hvs & Hact).
  apply pay_validators_rewards in Hrun as Hr. rewrite Hrun. cbn [fst]. change (rewards s2 = rewards s) in Hr.
  apply pay_validators_run in Hrun as (Hws & _ & _).
  case_bool_decide as Hz; [by left|right].
  rewrite (reduce_weights_zero ws weight_is_positive Hws) in Hz.
  unfold NextPaidEra at 1, PayerAccount. rewrite Hr.
  split_and!; [done| |done|done|done]. subst todo. cbn [ext push_event with_system] in Hlen.
  destruct ws; [done|]. simpl in Hlen. lia.
Qed.

Lemma blocks_progress payer k s :
  PayerAccount s = Some payer -> NextPaidEra s < default 0 (active_era (ext s)) ->
  NoDup (era_validators (ext s) (NextPaidEra s)) ->
  (unpaid (ext s) (NextPaidEra s) (era_validators (ext s) (NextPaidEra s)) < k)%nat ->
  exists j, (j <= k)%nat /\ NextPaidEra (blocks_run j s) = NextPaidEra s + 1.
Proof.
  revert s. induction k as [|k IH]; intros s Hp Hlt Hnd Hk; [lia|].
  destruct (block_progress payer s Hp Hlt Hnd) as [Hdone|(He & Hless & Hp' & Hvs & Hact)].
  { exists 1%nat. split; [lia|done]. }
  destruct (IH (fst (on_initialize s))) as (j & Hj & Hera); rewrite ?He, ?Hvs, ?Hact; try done.
  { lia. }
  exists (S j). split; [lia|]. simpl. by rewrite Hera, He.
Qed.
End progress.

(** C35: If payouts succeed, an unpaid era is paid in at most as many blocks as its
    validators have unpaid pages, and one more. *)
Theorem era_eventually_paid `{StakingRewardsLaws} payer s :
  PayerAccount s = Some payer -> NextPaidEra s < default 0 (active_era (ext s)) ->
  NoDup (era_validators (ext s) (NextPaidEra s)) ->
  exists k, (k <= S (unpaid (ext s) (NextPaidEra s) (era_validators (ext s) (NextPaidEra s))))%nat /\
    NextPaidEra (blocks_run k s) = NextPaidEra s + 1.
Proof. intros Hp Hlt Hnd. eapply blocks_progress; [done..|lia]. Qed.

(** *** Blocked eras *)

Section blocked.
Context `{StakingRewards}.

(** The validators of the unpaid era with rewards pending. *)
Definition pending_validators (s : Storage) : list AccountId :=
  filter (fun v => pending_rewards (ext s) (NextPaidEra s) v = true)
    (era_validators (ext s) (NextPaidEra s)).

(** The payouts of the validators that a block pays first fail. *)
Definition payouts_fail (payer : AccountId) (s : Storage) : Prop :=
  pending_validators s <> [] /\
  forall v, v ∈ take max_payouts (pending_validators s) ->
    exists e, payout_stakers payer v (NextPaidEra s) (ext s) = (ext s, Err e).

Lemma pay_validators_fail payer era n l s :
  (forall v, v ∈ take n (filter (fun v => pending_rewards (ext s) era v = true) l) ->
    exists e, payout_stakers payer v era (ext s) = (ext s, Err e)) ->
  exists s' ws, pay_validators payer era n l s = (s', Ok ws) /\ ext s' = ext s /\
    (ws = [] -> (0 < n)%nat -> filter (fun v => pending_rewards (ext s) era v = true) l = []).
Proof.
  revert n s. induction l as [|v l IH]; intros [|n] s Hf;
    try (eexists _, []; split_and!; [done|done|]; by intros _ Hn; try lia).
  rewrite filter_cons in *. destruct (decide (pending_rewards (ext s) era v = true)) as [Hp|Hp].
  - destruct (Hf v) as [e Hpay]; [left|].
    rewrite (pay_validators_step _ _ _ _ _ _ _ _ Hp Hpay) by done.
    destruct (IH n (push_event (RewardsEvent (pallet_rewards_events.PayoutError v e))
      (with_ext (ext s) s))) as (s' & ws & -> & He & _).
    { intros v' Hv'. apply Hf. cbn [take]. by right. }
    by exists s', (single_call_weight :: ws).
  - rewrite pay_validators_skip by (by destruct (pending_rewards _ _ _)). apply IH, Hf.
Qed.
End blocked.

(** While the payouts of the validators at the head of an era's list fail, the
    hook makes no progress, however many blocks go by: the era is not advanced
    and the staking state, with the rewards of all the other validators, stays as
    it is. *)
Theorem failing_payouts_block_era `{StakingRewards} payer s k :
  weight_positive -> (0 < max_payouts)%nat ->
  PayerAccount s = Some payer -> NextPaidEra s < default 0 (active_era (ext s)) ->
  payouts_fail payer s ->
  NextPaidEra (blocks_run k s) = NextPaidEra s /\ ext (blocks_run k s) = ext s.
Proof.
  intros Hw Hm. revert s. induction k as [|k IH]; intros s Hp Hlt [Hne Hf]; [done|]. cbn [blocks_run].
  assert (rewards (fst (on_initialize s)) = rewards s /\ ext (fst (on_initialize s)) = ext s) as [Hr He].
  { destruct (pay_validators_fail payer (NextPaidEra s) max_payouts
      (era_validators (ext s) (NextPaidEra s)) (push_event (RewardsEvent (pallet_rewards_events.Status
        (default 0 (active_era (ext s))) (NextPaidEra s))) s) Hf) as (s2 & ws & Hrun & He & Hnil).
    apply pay_validators_rewards in Hrun as Hr. rewrite (on_initialize_pays payer), Hrun by done.
    apply pay_validators_run in Hrun as Hrun'. destruct Hrun' as (Hws & _ & _).
    assert (ws <> []) as Hws'. { intros ->. by apply Hne, Hnil. }
    by rewrite bool_decide_eq_false_2 by (by rewrite reduce_weights_zero). }
  unfold NextPaidEra, PayerAccount in *.
  destruct (IH (fst (on_initialize s))) as [He1 He2]; unfold payouts_fail, pending_validators, NextPaidEra;
    rewrite ?Hr, ?He; try done.
  rewrite Hr, He in *. done.
Qed.

(** ** Concrete runs *)

Module RewardsExamples.
#[local] Existing Instance sample_config.

(** The pages of a validator in an era are kept under a key of both. *)
Definition pages_key (era : Z) (v : bytes) : bytes := be_bytes 4 era ++ v.
Definition pages_at (e : gmap bytes Z) (era : Z) (v : bytes) : nat :=
  Z.to_nat (default 0 (e !! pages_key era v)).

Lemma pages_key_ne era v v' : v' <> v -> pages_key era v <> pages_key era v'.
Proof. unfold pages_key. intros Hv Heq. apply app_inv_head in Heq. congruence. Qed.

#[local] Instance paying : StakingRewards := {|
  active_era _ := Some 2;
  era_validators _ _ := [alice; bob];
  pending_rewards e era v := bool_decide (0 < pages_at e era v)%nat;
  payout_stakers payer v era := fun e =>
    if bool_decide (0 < pages_at e era v)%nat
    then (<[pages_key era v := Z.of_nat (pages_at e era v) - 1]> (e : gmap bytes Z), Ok tt)
    else (e, Err (ExternalError 3));
  max_payouts := 1;
  single_call_weight := mkWeight 1000 0;
|}.

#[local] Instance paying_laws : StakingRewardsLaws.
Proof.
  refine {| pages := pages_at : @Ext sample_config -> _ |}.
  - done.
  - intros payer v era e Hp. cbn. rewrite bool_decide_eq_true_2 by done.
    eexists. split; [done|]. unfold pages_at. split_and!; [| |done|done].
    + rewrite lookup_insert_eq. cbn [default from_option id]. unfold pages_at in Hp. lia.
    + intros v' Hv. rewrite lookup_insert_ne by by apply pages_key_ne. done.
  - cbn. lia.
  - by vm_compute.
Qed.

(** The era 1 is behind, alice has two pages to be paid and bob has one. *)
Definition rewards_storage : Storage :=
  with_rewards (pallet_rewards.mkStorage _ 1 (Some carol))
    (with_ext ({[ pages_key 1 alice := 2; pages_key 1 bob := 1 ]} : gmap bytes Z) sample_storage).

Definition paid_storage : Storage := blocks_run 3 rewards_storage.

Lemma paid_storage_run :
  on_initialize paid_storage = (fst (on_initialize paid_storage), Ok Weight_zero).
Proof.
  assert (snd (on_initialize paid_storage) = Ok Weight_zero) as Hok by (vm_compute; reflexivity).
  exact (run_outcome _ _ _ Hok).
Qed.

Lemma era_advances_when_paid_witness :
  NextPaidEra (fst (on_initialize paid_storage)) = NextPaidEra paid_storage \/
  NextPaidEra (fst (on_initialize paid_storage)) = NextPaidEra paid_storage + 1.
Proof.
  assert (weight_positive (H0 := paying)) as Hw by by vm_compute.
  assert (0 < max_payouts (StakingRewards := paying))%nat as Hm by (cbn; lia).
  pose proof (era_advances_when_paid paid_storage (fst (on_initialize paid_storage)) Weight_zero Hw Hm
    paid_storage_run) as [_ [He|[He _]]]; [left; exact He|right; exact He].
Defined.

Lemma era_eventually_paid_witness :
  exists k, NextPaidEra (blocks_run k rewards_storage) = 2.
Proof.
  destruct (era_eventually_paid carol rewards_storage) as (k & _ & Hk);
    [reflexivity|reflexivity| |by exists k].
  apply (bool_decide_unpack _). vm_compute. exact I.
Defined.

(** The same staking pallet with payouts that always fail. *)
Definition failing : StakingRewards := {|
  active_era _ := Some 2;
  era_validators _ _ := [alice; bob];
  pending_rewards e era v := bool_decide (0 < pages_at e era v)%nat;
  payout_stakers payer v era := fun e => (e, Err (ExternalError 3));
  max_payouts := 1;
  single_call_weight := mkWeight 1000 0;
|}.

Lemma failing_payouts_block_era_witness :
  NextPaidEra (@blocks_run _ failing 100 rewards_storage) = 1.
Proof.
  apply (@failing_payouts_block_era _ failing carol rewards_storage 100).
  - by vm_compute.
  - cbn. lia.
  - reflexivity.
  - reflexivity.
  - split; [|intros v _; by eexists]. intros Hnil.
    apply (f_equal length) in Hnil. vm_compute in Hnil. discriminate.
Defined.
End RewardsExamples.
