(* ===== verification/AttestationTree.v ===== *)
(** * attestation_tree

    The tree whose root validators attest: one leaf for every table commitment
    and one for every account's staking lock.  The codec, the storage hashers and
    the [eth_merkle_tree] crate are classes with their documented laws.  Theorems:
    storage keys decode to the keys they were made from; every stored entry has a
    leaf in the tree and a proof that leads to the root, and only leaves of stored
    entries have one; the leaves of commitments keep apart tables whose names have
    no period, and a leaf of a lock holds exactly the staked amount. *)

From stdpp Require Import base tactics option gmap strings numbers list.
From Stdlib Require Import ZArith Lia.
From Stdlib Require Import Strings.Byte.
From S2P Require Import Prelude Bytes Text Types CommitmentScheme CommitmentMap PlainCommitment.

(** ** The code's dependencies *)

(** [codec::FullCodec]: decoding reads from the front and returns the rest. *)
Class Codec (A : Type) := {
  encode_scale : A -> bytes;
  decode_scale : bytes -> option (A * bytes);
}.
Class CodecLaws (A : Type) `{Codec A} := {
  decode_encode_scale (a : A) r : decode_scale (encode_scale a ++ r) = Some (a, r);
}.

(** [ReversibleStorageHasher]. *)
Class StorageHasher := {
  storage_hash : bytes -> bytes;
  storage_reverse : bytes -> bytes;
}.
Class StorageHasherLaws `{StorageHasher} := {
  reverse_hash k r : storage_reverse (storage_hash k ++ r) = k ++ r;
}.

(** ** hash_and_key.rs *)

(** A key tuple is a nested pair that ends in [unit]; each element of the tuple
    brings its own hasher and codec. *)
Class HashAndKeyTuple (KeyTuple : Type) := {
  decode_key_tuple_from_storage_key_suffix : bytes -> option (KeyTuple * bytes);
  storage_key_suffix_from_key_tuple : KeyTuple -> bytes;
  (** The SCALE encoding of the tuple. *)
  key_tuple_encode : KeyTuple -> bytes;
}.

#[global] Instance tuple_nil : HashAndKeyTuple unit := {|
  decode_key_tuple_from_storage_key_suffix bytes := Some (tt, bytes);
  storage_key_suffix_from_key_tuple _ := [];
  key_tuple_encode _ := [];
|}.

#[global] Instance tuple_cons `{StorageHasher} {K T : Type} `{Codec K} `{HashAndKeyTuple T}
    : HashAndKeyTuple (K * T) := {|
  decode_key_tuple_from_storage_key_suffix bytes :=
    match decode_scale (storage_reverse bytes) with
    | Some (k, rest) =>
        match decode_key_tuple_from_storage_key_suffix rest with
        | Some (t, rest) => Some ((k, t), rest)
        | None => None
        end
    | None => None
    end;
  storage_key_suffix_from_key_tuple key_tuple :=
    storage_hash (encode_scale key_tuple.1) ++ storage_key_suffix_from_key_tuple key_tuple.2;
  key_tuple_encode key_tuple := encode_scale key_tuple.1 ++ key_tuple_encode key_tuple.2;
|}.

(** ** prefix_foliate.rs *)

Record PrefixFoliate := mkPrefixFoliate {
  (** [StorageInstance::prefix_hash]. *)
  prefix_hash : bytes;
  KeyTuple : Type;
  key_tuple : HashAndKeyTuple KeyTuple;
  Value : Type;
  value_codec : Codec Value;
  leaf_encode_key : KeyTuple -> bytes;
  leaf_encode_value : Value -> bytes;
}.
#[global] Existing Instances key_tuple value_codec.

Inductive DecodeStorageError :=
| UnexpectedStoragePrefix
| UnexpectedKeyBytes
| UnexpectedValueBytes
| DecodeE.

(** [<[u8]>::strip_prefix]. *)
Definition strip_prefix_bytes (prefix l : bytes) : option bytes :=
  if bool_decide (take (length prefix) l = prefix) then Some (drop (length prefix) l) else None.

Section foliate.
Context (PF : PrefixFoliate).

Definition decode_storage_key_and_value (key_bytes value_bytes : bytes)
    : outcome DecodeStorageError (KeyTuple PF * Value PF) :=
  let? key_bytes := ok_or (strip_prefix_bytes (prefix_hash PF) key_bytes) UnexpectedStoragePrefix in
  let? (kt, key_bytes) := ok_or (decode_key_tuple_from_storage_key_suffix key_bytes) DecodeE in
  if negb (bool_decide (key_bytes = [])) then Err UnexpectedKeyBytes
  else
    let? (value, value_bytes) := ok_or (decode_scale value_bytes) DecodeE in
    if negb (bool_decide (value_bytes = [])) then Err UnexpectedValueBytes
    else Ok (kt, value).

Definition encode_key_value_leaf (key : KeyTuple PF) (value : Value PF) : bytes :=
  leaf_encode_key PF key ++ leaf_encode_value PF value.

Definition encode_prefix_leaves (key_value_pairs : list (bytes * bytes))
    : outcome DecodeStorageError (list bytes) :=
  collect (fun '(key_bytes, value_bytes) =>
    omap_ok (fun '(kt, value) => encode_key_value_leaf kt value)
      (decode_storage_key_and_value key_bytes value_bytes)) key_value_pairs.

Definition storage_key_for_prefix_key_tuple (kt : KeyTuple PF) : bytes :=
  prefix_hash PF ++ storage_key_suffix_from_key_tuple kt.
End foliate.

(** ** commitment_map_prefix_foliate.rs *)

Section commitment_map.
Context `{StorageHasher} `{Codec TableIdentifier} `{Codec TableCommitmentBytes}.

(** The derived codec of the enum: the index of the variant. *)
Definition scheme_index (C : CommitmentScheme) : byte :=
  match C with HyperKzg => x00 | DynamicDory => x01 end.

#[global] Instance scheme_codec : Codec CommitmentScheme := {|
  encode_scale C := [scheme_index C];
  decode_scale l :=
    match l with
    | x00 :: r => Some (HyperKzg, r)
    | x01 :: r => Some (DynamicDory, r)
    | _ => None
    end;
|}.

Definition ASCII_PERIOD : byte := byte_of 46.

Definition commitment_leaf_key (table : TableIdentifier) (commitment_scheme : CommitmentScheme)
    : bytes :=
  let table_identifier_utf8 := namespace table ++ [ASCII_PERIOD] ++ name table in
  let table_identifier_length_prefix := byte_of (Z.of_nat (length table_identifier_utf8)) in
  [table_identifier_length_prefix] ++ table_identifier_utf8 ++ encode_scale commitment_scheme.

Definition CommitmentMapPrefixFoliate (prefix : bytes) : PrefixFoliate := {|
  prefix_hash := prefix;
  KeyTuple := TableIdentifier * (CommitmentScheme * unit);
  key_tuple := _;
  Value := TableCommitmentBytes;
  value_codec := _;
  leaf_encode_key '(table, (commitment_scheme, _)) := commitment_leaf_key table commitment_scheme;
  leaf_encode_value value := commitment_data value;
|}.
End commitment_map.

(** ** locks_staking_prefix_foliate.rs *)

Definition STAKING_BALANCE_LOCK_ID : bytes := bs "staking ".

(** [pallet_balances::BalanceLock]. *)
Inductive Reasons := FeeReason | MiscReason | AllReason.
Record BalanceLock := mkBalanceLock { lock_id : bytes; amount : Z; reasons : Reasons }.

(** The amount of the first staking lock. *)
Definition staked_amount (locks : list BalanceLock) : Z :=
  match List.find (fun l => bool_decide (lock_id l = STAKING_BALANCE_LOCK_ID)) locks with
  | Some l => amount l
  | None => 0
  end.

Definition locks_leaf_value (locks : list BalanceLock) (info : ContractInfo) : bytes :=
  replicate 15 x00 ++ be_bytes 16 (staked_amount locks) ++ be_bytes 32 (chain_id info) ++
  info_address info.

Section locks.
Context {AccountId : Type} `{StorageHasher} `{Codec AccountId} `{Codec (list BalanceLock * ContractInfo)}.

Definition LocksStakingPrefixFoliate (prefix : bytes) : PrefixFoliate := {|
  prefix_hash := prefix;
  KeyTuple := AccountId * unit;
  key_tuple := _;
  Value := list BalanceLock * ContractInfo;
  value_codec := _;
  leaf_encode_key kt := key_tuple_encode kt;
  leaf_encode_value '(locks, info) := locks_leaf_value locks info;
|}.
End locks.

(** ** attestation_tree.rs *)

(** The [eth_merkle_tree] crate; hashes are hex text. *)
Class EthMerkleTree := {
  MerkleTree : Type;
  keccak256 : bytes -> option bytes;
  merkle_new : list bytes -> option MerkleTree;
  locate_leaf : MerkleTree -> bytes -> option nat;
  generate_proof : MerkleTree -> nat -> list bytes;
  (** [root.data], if there is a root. *)
  merkle_root : MerkleTree -> option bytes;
  hash_pair : bytes -> bytes -> option bytes;
}.

(** A proof is checked by hashing the leaf with its elements in turn; the text of
    an element starts with 0x. *)
Definition check_proof `{EthMerkleTree} (leaf : bytes) (proof : list bytes) : option bytes :=
  foldl (fun acc h => match acc with Some a => hash_pair a (drop 2 h) | None => None end)
    (Some leaf) proof.

(** The proof leads from the leaf to the root of the tree. *)
Definition proves `{EthMerkleTree} (tree : MerkleTree) (leaf : bytes) (proof : list bytes) : Prop :=
  exists root, merkle_root tree = Some root /\ check_proof leaf proof = Some root.

Class EthMerkleTreeLaws `{EthMerkleTree} := {
  (** Hex text of whole bytes can be hashed. *)
  keccak_hex b : exists h, keccak256 (hex_encode b) = Some (hex_encode h);
  (** The constructor hashes each leaf; these hashes are the leaves that are found. *)
  locate_new l t h : merkle_new l = Some t ->
    is_Some (locate_leaf t h) <-> exists x, x ∈ l /\ keccak256 x = Some h;
  proof_leads_to_root l t h i : merkle_new l = Some t -> locate_leaf t h = Some i ->
    proves t h (generate_proof t i);
}.

Inductive AttestationTreeProofError := HashLeaf | NoSuchLeaf.
Inductive AttestationTreeError :=
| DecodeStorage (source : DecodeStorageError)
| PreHashLeaf
| CreateTreeFromLeaves.

Section tree.
Context `{EthMerkleTree}.

Definition prove_leaf_pair (PF : PrefixFoliate) (attestation_tree : MerkleTree) (kt : KeyTuple PF)
    (value : Value PF) : outcome AttestationTreeProofError (list bytes) :=
  let bytes := encode_key_value_leaf PF kt value in
  let? hash := ok_or (keccak256 (hex_encode bytes)) HashLeaf in
  let? hash := ok_or (keccak256 hash) HashLeaf in
  let? leaf_index := ok_or (locate_leaf attestation_tree hash) NoSuchLeaf in
  Ok (generate_proof attestation_tree leaf_index).

Definition attestation_tree_from_prefixes (commitments_pf locks_pf : PrefixFoliate)
    (commitment_prefix_iter locks_prefix_iter : list (bytes * bytes)) (staking_contract_info : bytes)
    : outcome AttestationTreeError MerkleTree :=
  let? commitment_leaves := map_err DecodeStorage
    (encode_prefix_leaves commitments_pf commitment_prefix_iter) in
  let? locks_leaves := map_err DecodeStorage (encode_prefix_leaves locks_pf
    ((fun '(key, data) => (key, data ++ staking_contract_info)) <$> locks_prefix_iter)) in
  let? pre_hashed_leaves := collect (fun leaf_bytes => ok_or (keccak256 (hex_encode leaf_bytes)) PreHashLeaf)
    (commitment_leaves ++ locks_leaves) in
  ok_or (merkle_new pre_hashed_leaves) CreateTreeFromLeaves.
End tree.

(** ** Theorems *)

Lemma strip_prefix_app p l : strip_prefix_bytes p (p ++ l) = Some l.
Proof.
  unfold strip_prefix_bytes. rewrite take_app_length, drop_app_length.
  by rewrite bool_decide_eq_true_2.
Qed.

(** What a storage map's key type promises: its suffixes decode. *)
Class HashAndKeyTupleLaws (T : Type) `{HashAndKeyTuple T} := {
  decode_suffix (kt : T) r :
    decode_key_tuple_from_storage_key_suffix (storage_key_suffix_from_key_tuple kt ++ r) = Some (kt, r);
}.

#[global] Instance tuple_nil_laws : HashAndKeyTupleLaws unit.
Proof. split. by intros []. Qed.

#[global] Instance tuple_cons_laws `{StorageHasherLaws} {K T : Type} `{CodecLaws K}
    `{HashAndKeyTupleLaws T} : HashAndKeyTupleLaws (K * T).
Proof.
  split. intros [k t] r. simpl. rewrite <- app_assoc, reverse_hash.
  rewrite decode_encode_scale. by rewrite decode_suffix.
Qed.

#[global] Instance scheme_codec_laws : CodecLaws CommitmentScheme.
Proof. split. by intros [] r. Qed.

Lemma storage_entry_decodes (PF : PrefixFoliate) `{!HashAndKeyTupleLaws (KeyTuple PF)}
    `{!CodecLaws (Value PF)} (kt : KeyTuple PF) (v : Value PF) :
  decode_storage_key_and_value PF (storage_key_for_prefix_key_tuple PF kt) (encode_scale v) = Ok (kt, v).
Proof.
  unfold decode_storage_key_and_value, storage_key_for_prefix_key_tuple.
  rewrite strip_prefix_app. cbn [ok_or obind].
  rewrite <- (app_nil_r (storage_key_suffix_from_key_tuple kt)), decode_suffix. cbn [ok_or obind].
  rewrite <- (app_nil_r (encode_scale v)), decode_encode_scale. done.
Qed.

(** The storage key and value of an entry decode to the key and value they were
    made from, for every storage map whose hashers are reversible and whose codecs
    decode what they encode. *)
Theorem storage_entry_round_trip (PF : PrefixFoliate) `{!HashAndKeyTupleLaws (KeyTuple PF)}
    `{!CodecLaws (Value PF)} (kt : KeyTuple PF) (v : Value PF) :
  decode_storage_key_and_value PF (storage_key_for_prefix_key_tuple PF kt) (encode_scale v) = Ok (kt, v).
Proof. exact (storage_entry_decodes PF kt v). Qed.

(** An entry is decoded only from the very bytes of its key behind the prefix: a
    key with another prefix or with bytes left over is refused. *)
Lemma decode_storage_key_prefix (PF : PrefixFoliate) k v r :
  decode_storage_key_and_value PF k v = Ok r ->
  exists suffix, k = prefix_hash PF ++ suffix /\
    decode_key_tuple_from_storage_key_suffix suffix = Some (r.1, []) /\
    decode_scale v = Some (r.2, []).
Proof.
  unfold decode_storage_key_and_value, strip_prefix_bytes.
  case_bool_decide as Hp; [|done]. cbn [ok_or obind].
  destruct (decode_key_tuple_from_storage_key_suffix _) as [[kt rest]|] eqn:Hk; [|done]. cbn [ok_or obind].
  case_bool_decide as Hrest; [|done]. cbn [negb]. destruct (decode_scale v) as [[x vrest]|] eqn:Hv; [|done].
  cbn [ok_or obind]. case_bool_decide as Hvrest; [|done]. intros [= <-]. subst.
  exists (drop (length (prefix_hash PF)) k). split_and!; [|done|done].
  rewrite <- Hp at 1. by rewrite take_drop.
Qed.

Section tree_theorems.
Context `{EthMerkleTreeLaws} (commitments_pf locks_pf : PrefixFoliate).

Lemma encode_prefix_leaves_spec PF pairs leaves leaf :
  encode_prefix_leaves PF pairs = Ok leaves ->
  leaf ∈ leaves <-> exists k v kt x, (k, v) ∈ pairs /\
    decode_storage_key_and_value PF k v = Ok (kt, x) /\ leaf = encode_key_value_leaf PF kt x.
Proof.
  unfold encode_prefix_leaves. intros Hl%collect_ok. split.
  - intros Hin. apply list_elem_of_lookup in Hin as [i Hi].
    destruct (Forall2_lookup_r _ _ _ _ _ Hl Hi) as ([k v] & Hk & Hd).
    destruct (decode_storage_key_and_value PF k v) as [[kt x]|e|] eqn:Hdec; simplify_eq/=.
    exists k, v, kt, x. split; [by eapply list_elem_of_lookup_2|done].
  - intros (k & v & kt & x & Hin & Hdec & ->). apply list_elem_of_lookup in Hin as [i Hi].
    destruct (Forall2_lookup_l _ _ _ _ _ Hl Hi) as (leaf & Hleaf & Hd). rewrite Hdec in Hd.
    simplify_eq/=. by eapply list_elem_of_lookup_2.
Qed.

(** The entries behind the leaves: a stored commitment, or a stored lock with the
    contract's information appended. *)
Definition has_leaf (commitments locks : list (bytes * bytes)) (info leaf : bytes) : Prop :=
  (exists k v kt x, (k, v) ∈ commitments /\
    decode_storage_key_and_value commitments_pf k v = Ok (kt, x) /\
    leaf = encode_key_value_leaf commitments_pf kt x) \/
  (exists k v kt x, (k, v) ∈ locks /\
    decode_storage_key_and_value locks_pf k (v ++ info) = Ok (kt, x) /\
    leaf = encode_key_value_leaf locks_pf kt x).

Lemma tree_leaves commitments locks info tree :
  attestation_tree_from_prefixes commitments_pf locks_pf commitments locks info = Ok tree ->
  exists pre, merkle_new pre = Some tree /\
    forall x, x ∈ pre <-> exists leaf, has_leaf commitments locks info leaf /\
      keccak256 (hex_encode leaf) = Some x.
Proof.
  unfold attestation_tree_from_prefixes. intros (cl & Hcl%map_err_ok & Hrun)%obind_ok.
  apply obind_ok in Hrun as (ll & Hll%map_err_ok & Hrun).
  apply obind_ok in Hrun as (pre & Hpre%collect_ok & Hnew%ok_or_ok). exists pre. split; [done|].
  assert (forall leaf, leaf ∈ cl ++ ll <-> has_leaf commitments locks info leaf) as Hleaves.
  { intros leaf. rewrite elem_of_app, (encode_prefix_leaves_spec _ _ _ _ Hcl).
    rewrite (encode_prefix_leaves_spec _ _ _ _ Hll). unfold has_leaf.
    setoid_rewrite list_elem_of_fmap. split.
    - intros [?|(k & v & kt & x & ([k' v'] & [= -> ->] & Hin) & Hd)]; [by left|right].
      by exists k', v', kt, x.
    - intros [?|(k & v & kt & x & Hin & Hd)]; [by left|right].
      exists k, (v ++ info), kt, x. split; [by exists (k, v)|done]. }
  intros x. split.
  - intros Hin. apply list_elem_of_lookup in Hin as [i Hi].
    destruct (Forall2_lookup_r _ _ _ _ _ Hpre Hi) as (leaf & Hleaf & Hk%ok_or_ok).
    exists leaf. split; [|done]. apply Hleaves. by eapply list_elem_of_lookup_2.
  - intros (leaf & Hleaf & Hk). apply Hleaves, list_elem_of_lookup in Hleaf as [i Hi].
    destruct (Forall2_lookup_l _ _ _ _ _ Hpre Hi) as (x' & Hx' & Hk'%ok_or_ok).
    assert (x' = x) as -> by congruence. by eapply list_elem_of_lookup_2.
Qed.

(** The leaf's hash that a verifier computes: keccak twice. *)
Definition leaf_hash (PF : PrefixFoliate) (kt : KeyTuple PF) (x : Value PF) : option bytes :=
  match keccak256 (hex_encode (encode_key_value_leaf PF kt x)) with
  | Some h => keccak256 h
  | None => None
  end.

Lemma prove_leaf_pair_ok PF tree kt x proof :
  prove_leaf_pair PF tree kt x = Ok proof <->
  exists h i, leaf_hash PF kt x = Some h /\ locate_leaf tree h = Some i /\ proof = generate_proof tree i.
Proof.
  unfold prove_leaf_pair, leaf_hash.
  destruct (keccak256 (hex_encode _)) as [h0|]; [|naive_solver]. cbn [ok_or obind].
  destruct (keccak256 h0) as [h|]; [|naive_solver]. cbn [ok_or obind].
  destruct (locate_leaf tree h) eqn:Hl; cbn [ok_or obind]; [|naive_solver].
  split; [intros [= <-]; eauto|]. intros (h' & i & [= <-] & Hi & ->). naive_solver.
Qed.

Lemma leaf_provable PF kt x commitments locks info tree :
  attestation_tree_from_prefixes commitments_pf locks_pf commitments locks info = Ok tree ->
  has_leaf commitments locks info (encode_key_value_leaf PF kt x) ->
  exists proof h, prove_leaf_pair PF tree kt x = Ok proof /\ leaf_hash PF kt x = Some h /\
    proves tree h proof.
Proof.
  intros (pre & Hnew & Hpre)%tree_leaves Hleaf.
  destruct (keccak_hex (encode_key_value_leaf PF kt x)) as [h0 Hh0].
  destruct (keccak_hex h0) as [h Hh].
  assert (is_Some (locate_leaf tree (hex_encode h))) as [i Hi].
  { apply (locate_new pre); [done|]. exists (hex_encode h0). split; [|done]. apply Hpre. eauto. }
  exists (generate_proof tree i), (hex_encode h).
  assert (leaf_hash PF kt x = Some (hex_encode h)) as Hlh by (unfold leaf_hash; by rewrite Hh0).
  split_and!; [apply prove_leaf_pair_ok; eauto|done|by eapply proof_leads_to_root].
Qed.
End tree_theorems.

(** C5: Every stored commitment and every stored lock can be proven in the tree built
    from the storage: the proof exists, and hashing the entry's leaf with it gives
    the root. *)
Theorem stored_entries_provable `{EthMerkleTreeLaws} commitments_pf locks_pf commitments locks info tree :
  attestation_tree_from_prefixes commitments_pf locks_pf commitments locks info = Ok tree ->
  (forall k v kt x, (k, v) ∈ commitments ->
    decode_storage_key_and_value commitments_pf k v = Ok (kt, x) ->
    exists proof h, prove_leaf_pair commitments_pf tree kt x = Ok proof /\
      leaf_hash commitments_pf kt x = Some h /\ proves tree h proof) /\
  (forall k v kt x, (k, v) ∈ locks ->
    decode_storage_key_and_value locks_pf k (v ++ info) = Ok (kt, x) ->
    exists proof h, prove_leaf_pair locks_pf tree kt x = Ok proof /\
      leaf_hash locks_pf kt x = Some h /\ proves tree h proof).
Proof.
  intros Htree. split; intros k v kt x Hin Hdec; eapply leaf_provable; [done| |done|].
  - left. by exists k, v, kt, x.
  - right. by exists k, v, kt, x.
Qed.

(** C6: Without hash collisions nothing else can be proven: a pair with a proof has
    the leaf of an entry of the storage the tree was built from. *)
Theorem provable_leaves_stored `{EthMerkleTreeLaws} commitments_pf locks_pf commitments locks info tree
    (PF : PrefixFoliate) kt x proof :
  (forall a b h, keccak256 a = Some h -> keccak256 b = Some h -> a = b) ->
  attestation_tree_from_prefixes commitments_pf locks_pf commitments locks info = Ok tree ->
  prove_leaf_pair PF tree kt x = Ok proof ->
  has_leaf commitments_pf locks_pf commitments locks info (encode_key_value_leaf PF kt x).
Proof.
  intros Hinj (pre & Hnew & Hpre)%tree_leaves (h & i & Hh & Hi & _)%prove_leaf_pair_ok.
  destruct (proj1 (locate_new pre tree h Hnew) (mk_is_Some _ _ Hi)) as (y & Hy & Hyh).
  apply Hpre in Hy as (leaf & Hleaf & Hk). unfold leaf_hash in Hh.
  destruct (keccak256 (hex_encode (encode_key_value_leaf PF kt x))) as [h0|] eqn:Hh0; [|done].
  assert (h0 = y) as -> by by eapply Hinj.
  assert (encode_key_value_leaf PF kt x = leaf) as -> by (apply hex_encode_inj; by eapply Hinj). done.
Qed.

(** *** What leaves say *)

Lemma first_period_split (p : byte) (a1 a2 b1 b2 : bytes) :
  p ∉ a1 -> p ∉ a2 -> a1 ++ p :: b1 = a2 ++ p :: b2 -> a1 = a2 /\ b1 = b2.
Proof.
  revert a2. induction a1 as [|x a1 IH]; intros [|y a2] H1 H2 Heq; simplify_eq/=; [done| | |].
  - exfalso. apply H2. left.
  - exfalso. apply H1. left.
  - rewrite elem_of_cons in H1, H2. destruct (IH a2) as [-> ->]; [naive_solver..|done].
Qed.

(** A table identifier fits its bounded strings. *)
Definition ident_bounded (t : TableIdentifier) : Prop :=
  (length (namespace t) <= IDENT_LENGTH)%nat /\ (length (name t) <= IDENT_LENGTH)%nat.

(** The byte of the length of an identifier is its length: it is at most 129. *)
Lemma leaf_length_prefix t :
  ident_bounded t ->
  byte_val (byte_of (Z.of_nat (length (namespace t ++ ASCII_PERIOD :: name t)))) =
    Z.of_nat (length (namespace t ++ ASCII_PERIOD :: name t)).
Proof.
  unfold ident_bounded, IDENT_LENGTH. intros [Hns Hn]. rewrite byte_val_of. apply Z.mod_small.
  rewrite !length_app. simpl. lia.
Qed.

(** Two commitments with the same leaf are the same commitment of the same table
    and scheme, for tables whose namespace has no period. *)
Theorem commitment_leaves_distinct (t1 t2 : TableIdentifier) C1 C2 (v1 v2 : TableCommitmentBytes) :
  ident_bounded t1 -> ident_bounded t2 ->
  ASCII_PERIOD ∉ namespace t1 -> ASCII_PERIOD ∉ namespace t2 ->
  commitment_leaf_key t1 C1 ++ commitment_data v1 = commitment_leaf_key t2 C2 ++ commitment_data v2 ->
  t1 = t2 /\ C1 = C2 /\ v1 = v2.
Proof.
  intros Hb1 Hb2 Hp1 Hp2. unfold commitment_leaf_key. cbn [app encode_scale scheme_codec].
  intros [= Hlen Hrest]. apply (f_equal byte_val) in Hlen.
  rewrite (leaf_length_prefix t1), (leaf_length_prefix t2) in Hlen by done. apply Nat2Z.inj in Hlen.
  rewrite <- !app_assoc in Hrest.
  assert (namespace t1 ++ ASCII_PERIOD :: name t1 = namespace t2 ++ ASCII_PERIOD :: name t2 /\
    [scheme_index C1] ++ commitment_data v1 = [scheme_index C2] ++ commitment_data v2) as [Hid Htail].
  { apply app_inj_1; [exact Hlen|]. rewrite <- !app_assoc. exact Hrest. }
  apply first_period_split in Hid as [Hns Hn]; [|done..]. injection Htail as Hsch Hdata.
  split_and!.
  - destruct t1, t2; simpl in *; congruence.
  - by destruct C1, C2.
  - destruct v1, v2; simpl in *; congruence.
Qed.

(** With a period in a namespace two tables share a leaf key. *)
Example period_collision :
  commitment_leaf_key (mkTableIdentifier (bs "C") (bs "A.B")) HyperKzg =
  commitment_leaf_key (mkTableIdentifier (bs "B.C") (bs "A")) HyperKzg.
Proof. vm_compute. reflexivity. Qed.

(** The length of an identifier can exceed 127. *)
Example leaf_length_129 :
  let t := mkTableIdentifier (replicate 64 "A"%byte) (replicate 64 "B"%byte) in
  ident_bounded t /\ head (commitment_leaf_key t HyperKzg) = Some (byte_of 129).
Proof. split; [by split|vm_compute; reflexivity]. Qed.

(** The contract's fields and the amounts fit their types. *)
Definition info_bounded (i : ContractInfo) : Prop :=
  0 <= chain_id i < 2 ^ 256 /\ length (info_address i) = 20%nat.
Definition locks_bounded (l : list BalanceLock) : Prop :=
  Forall (fun b => 0 <= amount b < 2 ^ 128) l.

Lemma staked_amount_bounded l : locks_bounded l -> 0 <= staked_amount l < 2 ^ 128.
Proof.
  intros Hl. unfold staked_amount. destruct (List.find _ l) as [b|] eqn:Hf; [|lia].
  apply List.find_some in Hf as [Hin _]. apply list_elem_of_In in Hin.
  by apply (proj1 (Forall_forall _ _) Hl).
Qed.

(** The value of a lock's leaf has 83 bytes and determines the amount of the
    account's first staking lock, zero without one, and the contract: leaves of
    equal values are of equal amounts and contracts. *)
Theorem lock_leaf_determines l1 l2 i1 i2 :
  locks_bounded l1 -> locks_bounded l2 -> info_bounded i1 -> info_bounded i2 ->
  length (locks_leaf_value l1 i1) = 83%nat /\
  (locks_leaf_value l1 i1 = locks_leaf_value l2 i2 <->
   staked_amount l1 = staked_amount l2 /\ i1 = i2).
Proof.
  intros Hl1 Hl2 [Hc1 Ha1] [Hc2 Ha2]. unfold locks_leaf_value. split.
  { rewrite !length_app, length_replicate, !be_bytes_length, Ha1. done. }
  split; [|by intros [-> ->]]. intros Heq.
  apply app_inj_1 in Heq as [_ Heq]; [|done].
  apply app_inj_1 in Heq as [Hs Heq]; [|by rewrite !be_bytes_length].
  apply app_inj_1 in Heq as [Hc Ha]; [|by rewrite !be_bytes_length].
  apply staked_amount_bounded in Hl1, Hl2.
  split; [by apply (be_bytes_inj 16)|]. apply (be_bytes_inj 32) in Hc; [|done..].
  destruct i1, i2; simpl in *; congruence.
Qed.

(** ** Concrete instances *)

Module TreeExamples.

(** A self-delimiting codec of byte strings, and of every countable type. *)
Fixpoint enc_bytes (l : bytes) : bytes :=
  match l with
  | [] => [x00]
  | b :: l => x01 :: b :: enc_bytes l
  end.
Fixpoint dec_bytes_of (l : bytes) : option (bytes * bytes) :=
  match l with
  | x00 :: r => Some ([], r)
  | x01 :: b :: r =>
      match dec_bytes_of r with
      | Some (l, r) => Some (b :: l, r)
      | None => None
      end
  | _ => None
  end.
Lemma dec_enc_bytes l r : dec_bytes_of (enc_bytes l ++ r) = Some (l, r).
Proof. induction l as [|b l IH]; [done|]. cbn. by rewrite IH. Qed.

Definition countable_codec {A : Type} `{Countable A} : Codec A := {|
  encode_scale a := enc_bytes (positive_bytes (encode a));
  decode_scale l :=
    match dec_bytes_of l with
    | Some (b, r) => match decode (bytes_positive b) with Some a => Some (a, r) | None => None end
    | None => None
    end;
|}.
Lemma countable_codec_laws {A : Type} `{Countable A} : @CodecLaws A countable_codec.
Proof. split. intros a r. cbn. by rewrite dec_enc_bytes, bytes_positive_of, decode_encode. Qed.

#[local] Instance commitment_bytes_countable : Countable TableCommitmentBytes.
Proof. refine (inj_countable' commitment_data mkTableCommitmentBytes _). by intros []. Defined.
#[local] Instance reasons_eq_dec : EqDecision Reasons.
Proof. solve_decision. Defined.
#[local] Instance lock_eq_dec : EqDecision BalanceLock.
Proof. solve_decision. Defined.
#[local] Instance info_eq_dec : EqDecision ContractInfo.
Proof. solve_decision. Defined.
#[local] Instance reasons_countable : Countable Reasons.
Proof.
  refine (inj_countable' (fun r => match r with FeeReason => 0%nat | MiscReason => 1%nat | AllReason => 2%nat end)
    (fun n => match n with 0%nat => FeeReason | 1%nat => MiscReason | _ => AllReason end) _).
  by intros [].
Defined.
#[local] Instance lock_countable : Countable BalanceLock.
Proof.
  refine (inj_countable' (fun l => (lock_id l, amount l, reasons l))
    (fun p => mkBalanceLock p.1.1 p.1.2 p.2) _). by intros [].
Defined.
#[local] Instance info_countable : Countable ContractInfo.
Proof.
  refine (inj_countable' (fun i => (chain_id i, info_address i)) (fun p => mkContractInfo p.1 p.2) _).
  by intros [].
Defined.

#[local] Instance ident_codec : Codec TableIdentifier := countable_codec.
#[local] Instance ident_codec_laws : CodecLaws TableIdentifier := countable_codec_laws.
#[local] Instance data_codec : Codec TableCommitmentBytes := countable_codec.
#[local] Instance data_codec_laws : CodecLaws TableCommitmentBytes := countable_codec_laws.
#[local] Instance account_codec : Codec bytes := countable_codec.
#[local] Instance pair_codec : Codec (list BalanceLock * ContractInfo) := {|
  encode_scale p := encode_scale (Codec := countable_codec) p.1 ++
    encode_scale (Codec := countable_codec) p.2;
  decode_scale l :=
    match decode_scale (Codec := countable_codec) l with
    | Some (a, r) =>
        match decode_scale (Codec := countable_codec) r with
        | Some (b, r) => Some ((a, b), r)
        | None => None
        end
    | None => None
    end;
|}.

#[local] Instance blake2_128_concat : StorageHasher := {|
  storage_hash k := replicate 16 x00 ++ k;
  storage_reverse l := drop 16 l;
|}.
#[local] Instance blake2_128_concat_laws : StorageHasherLaws.
Proof. split. by intros k r. Qed.

(** A tree that is the list of its leaves, with a hash that is the identity; the
    one element of every proof is the root. *)
Definition tree_root : bytes := hex_encode (replicate 32 x00).
#[local] Instance list_tree : EthMerkleTree := {|
  MerkleTree := list bytes;
  keccak256 x := Some x;
  merkle_new l := Some l;
  locate_leaf t h := fst <$> list_find (fun x => x = h) t;
  generate_proof t i := [bs "0x" ++ tree_root];
  merkle_root t := Some tree_root;
  hash_pair a b := Some b;
|}.
#[local] Instance list_tree_laws : EthMerkleTreeLaws.
Proof.
  split.
  - intros b. by exists b.
  - intros l t h [= ->]. cbn. rewrite fmap_is_Some. split.
    + intros [[i x] (Hx & -> & _)%list_find_Some]. exists h. split; [|done].
      by eapply list_elem_of_lookup_2.
    + intros (x & Hx & [= ->]). by apply (list_find_elem_of _ _ h).
  - intros l t h i [= ->] _. by exists tree_root.
Qed.

Definition commitments_pf : PrefixFoliate := CommitmentMapPrefixFoliate (bs "commitments").
Definition locks_pf : PrefixFoliate := LocksStakingPrefixFoliate (AccountId := bytes) (bs "locks").

Definition a_table : TableIdentifier := mkTableIdentifier (bs "TABLE") (bs "SCHEMA").
Definition a_commitment : TableCommitmentBytes := mkTableCommitmentBytes (bs "data").
Definition a_key : KeyTuple commitments_pf := (a_table, (DynamicDory, tt)).
Definition an_info : ContractInfo := mkContractInfo 1028 (replicate 20 x07).
Definition some_locks : list BalanceLock :=
  [mkBalanceLock (bs "otherloc") 515 AllReason; mkBalanceLock STAKING_BALANCE_LOCK_ID 257 AllReason].

Definition stored_commitment : bytes * bytes :=
  (storage_key_for_prefix_key_tuple commitments_pf a_key, encode_scale a_commitment).
Definition stored_lock : bytes * bytes :=
  (storage_key_for_prefix_key_tuple locks_pf (bs "account", tt),
   encode_scale (Codec := countable_codec) some_locks).
Definition stored_info : bytes := encode_scale (Codec := countable_codec) an_info.

Definition the_tree : outcome AttestationTreeError MerkleTree :=
  attestation_tree_from_prefixes commitments_pf locks_pf [stored_commitment] [stored_lock] stored_info.

Lemma storage_entry_round_trip_witness :
  decode_storage_key_and_value commitments_pf stored_commitment.1 stored_commitment.2 =
    Ok (a_key, a_commitment).
Proof.
  assert (HashAndKeyTupleLaws (KeyTuple commitments_pf)) as Hk
    by exact (tuple_cons_laws (H2 := ident_codec_laws)).
  exact (@storage_entry_round_trip commitments_pf Hk data_codec_laws a_key a_commitment).
Defined.

Lemma stored_entries_provable_witness :
  match the_tree with
  | Ok tree => exists proof h, prove_leaf_pair commitments_pf tree a_key a_commitment = Ok proof /\
      leaf_hash commitments_pf a_key a_commitment = Some h /\
      proves tree h proof
  | _ => False
  end.
Proof.
  assert (is_ok the_tree = true) as Hok by (vm_compute; reflexivity).
  destruct the_tree as [tree|e|] eqn:Htree; [|done..].
  destruct (@stored_entries_provable list_tree list_tree_laws commitments_pf locks_pf [stored_commitment] [stored_lock] stored_info
    tree Htree) as [Hc _].
  apply (Hc stored_commitment.1 stored_commitment.2); [left|].
  vm_compute. reflexivity.
Defined.

Lemma provable_leaves_stored_witness :
  match the_tree with
  | Ok tree => has_leaf commitments_pf locks_pf [stored_commitment] [stored_lock] stored_info
      (encode_key_value_leaf commitments_pf a_key a_commitment)
  | _ => False
  end.
Proof.
  assert (is_ok the_tree = true) as Hok by (vm_compute; reflexivity).
  destruct the_tree as [tree|e|] eqn:Htree; [|done..].
  destruct (prove_leaf_pair commitments_pf tree a_key a_commitment) as [proof|e|] eqn:Hp.
  - refine (@provable_leaves_stored list_tree list_tree_laws commitments_pf locks_pf [stored_commitment] [stored_lock]
      stored_info tree _ _ _ proof _ Htree Hp). by intros a b h [= ->] [= ->].
  - exfalso. revert Hp. vm_compute in Htree. injection Htree as <-. vm_compute. discriminate.
  - exfalso. revert Hp. vm_compute in Htree. injection Htree as <-. vm_compute. discriminate.
Defined.

Lemma commitment_leaves_distinct_witness :
  a_table = mkTableIdentifier (name a_table) (namespace a_table) /\ DynamicDory = DynamicDory /\
  a_commitment = mkTableCommitmentBytes (bs "data").
Proof.
  apply (commitment_leaves_distinct a_table (mkTableIdentifier (name a_table) (namespace a_table))
    DynamicDory DynamicDory a_commitment (mkTableCommitmentBytes (bs "data"))).
  - by split; apply (bool_decide_unpack _).
  - by split; apply (bool_decide_unpack _).
  - by apply (bool_decide_unpack _).
  - by apply (bool_decide_unpack _).
  - reflexivity.
Defined.

Lemma lock_leaf_determines_witness : length (locks_leaf_value some_locks an_info) = 83%nat.
Proof.
  apply (lock_leaf_determines some_locks some_locks an_info an_info).
  - by repeat constructor.
  - by repeat constructor.
  - by repeat constructor.
  - by repeat constructor.
Defined.

(** The amount of the staking lock is in the leaf, big-endian. *)
Example lock_leaf_amount :
  take 31 (locks_leaf_value some_locks an_info) = replicate 29 x00 ++ [x01; x01].
Proof. vm_compute. reflexivity. Qed.
End TreeExamples.
