(* ===== verification/Rpc.v ===== *)
(** * rpc

    The node's RPCs: attestations of a block and the best recent ones, the
    commitments of a proof plan's tables with their merkle proofs, and the proof
    plan of a query.  The node's client, the SQL planner and bincode are classes
    with their documented laws.  Theorems: the best recent attestations are the
    most numerous of the last blocks and, among these, the latest; served
    commitments are the stored ones and their proofs lead to the root of the
    attestation tree at the same block; proof plans are planned from commitments
    of one scheme to all the query's tables, and the calls do not panic. *)

From stdpp Require Import base tactics option gmap strings numbers list.
From Stdlib Require Import ZArith Lia.
From Stdlib Require Import Strings.Byte.
From S2P Require Import Prelude Bytes Types IndexMap CommitmentScheme CommitmentMap.
From S2P Require Import OnChainTable ProofOfSql PlainCommitment CommitmentSql Native Runtime.
From S2P Require Import Sample AttestationCore PalletAttestation PalletCommitments.
From S2P Require Import AttestationTree.

(** ** The code's dependencies *)

(** [proof_of_sql::base::database::TableRef]. *)
Record TableRef := mkTableRef { schema_id : option bytes; table_id : bytes }.
#[global] Instance TableRef_eq_dec : EqDecision TableRef.
Proof. solve_decision. Defined.

(** The node's client: the header backend, the storage of a block and the calls of
    the runtime's interface. *)
Class Client `{Config} := {
  BlockchainError : Type;
  ApiError : Type;
  best_hash : Hash;
  client_number : Hash -> outcome BlockchainError (option Z);
  client_hash : Z -> outcome BlockchainError (option Hash);
  client_storage : Hash -> bytes -> outcome BlockchainError (option bytes);
  client_storage_pairs : Hash -> bytes -> outcome BlockchainError (list (bytes * bytes));
  (** [CommitmentsApi::table_commitments_any_scheme]. *)
  api_table_commitments_any_scheme : Hash -> list TableIdentifier ->
    outcome ApiError (option (AnyCommitmentScheme (ConcreteType (list TableCommitmentBytes))));
}.

(** [prefix_hash] of the storage items. *)
Class StoragePrefixes := {
  commitments_prefix : bytes;
  locks_prefix : bytes;
  staking_contract_prefix : bytes;
  attestations_prefix : bytes;
}.

(** sqlparser, the planner of proof-of-sql and its plans, and bincode with the
    configuration of [proof_of_sql_bincode_config]. *)
Class ProofPlanner `{ProofOfSql} := {
  Statement : Type;
  DynProofPlan : Type;
  parse_sql : bytes -> option (list Statement);
  statement_with_uppercase_identifiers : Statement -> Statement;
  (** An [IndexSet]: the references are distinct. *)
  get_table_refs_from_statement : Statement -> option (list TableRef);
  sql_to_proof_plans : forall C, list Statement -> list (TableRef * TableCommitment C) ->
    option (list DynProofPlan);
  get_table_references : DynProofPlan -> list TableRef;
  EVMProofPlan : Type;
  EVMProofPlan_new : DynProofPlan -> EVMProofPlan;
  into_inner : EVMProofPlan -> DynProofPlan;
  encode_plan : DynProofPlan -> option bytes;
  decode_plan : bytes -> option DynProofPlan;
  encode_evm_plan : EVMProofPlan -> option bytes;
  decode_evm_plan : bytes -> option EVMProofPlan;
}.

(** ** rpc/src/attestation *)

Section attestation.
Context `{Config} `{Client} `{StoragePrefixes} `{StorageHasher} `{Codec Z}
  `{Codec (list (Attestation Hash))}.

Inductive AttestationApiError :=
| ChainQuery (source : BlockchainError)
| BlockNumberQuery
| BlockHashQuery
| DecodeAttestations.

Record AttestationsResponse := mkAttestationsResponse {
  attestations : list (Attestation Hash);
  attestations_for : Hash;
  attestations_for_block_number : Z;
  attestations_at : Hash;
}.

Definition storage_key_for_attestations_for_block_number (block_number : Z) : bytes :=
  attestations_prefix ++ storage_hash (encode_scale block_number).

(** [Vec::<u8>::new().encode()]: the length, zero. *)
Definition encoded_empty_vec : bytes := [x00].

Definition v1_attestations_for_block (attestations_for : Hash) (at_ : option Hash)
    : outcome AttestationApiError AttestationsResponse :=
  let at_ := default best_hash at_ in
  let? number := map_err ChainQuery (client_number attestations_for) in
  let? attestations_for_block_number := ok_or number BlockNumberQuery in
  let? stored := map_err ChainQuery (client_storage at_
    (storage_key_for_attestations_for_block_number attestations_for_block_number)) in
  let attestations_bytes := default encoded_empty_vec stored in
  let? attestations := ok_or (fst <$> decode_scale attestations_bytes) DecodeAttestations in
  Ok (mkAttestationsResponse attestations attestations_for attestations_for_block_number at_).

(** [MINUTES] of the runtime: blocks of three seconds. *)
Definition MINUTES : Z := 60000 / 3000.

Definition response_key (r : AttestationsResponse) : nat * Z :=
  (length (attestations r), attestations_for_block_number r).

(** The lexicographic order of pairs. *)
Definition key_gt (a b : nat * Z) : bool :=
  (b.1 <? a.1)%nat || ((a.1 =? b.1)%nat && (b.2 <? a.2)).

(** [Iterator::max_by_key]: of equal elements the last. *)
Definition max_by_key {A} (key : A -> nat * Z) (l : list A) : option A :=
  match l with
  | [] => None
  | x :: l => Some (foldl (fun x y => if key_gt (key x) (key y) then x else y) x l)
  end.

Definition v1_best_recent_attestations (at_ : option Hash)
    : outcome AttestationApiError AttestationsResponse :=
  let at_ := default best_hash at_ in
  let? number := map_err ChainQuery (client_number at_) in
  let? end_block_number := ok_or number BlockNumberQuery in
  let start_block_number := Z.max 0 (end_block_number - MINUTES) in
  let? responses := collect (fun block_number =>
      let? hash := map_err ChainQuery (client_hash block_number) in
      let? attestations_for := ok_or hash BlockHashQuery in
      v1_attestations_for_block attestations_for (Some at_))
    (seqZ start_block_number (end_block_number - start_block_number + 1)) in
  unwrap_option (max_by_key response_key responses).
End attestation.

(** ** rpc/src/commitments *)

Definition PROOF_PLAN_SIZE_LIMIT : nat := 65536.
Definition NUM_TABLES_LIMIT : nat := 64.
Definition QUERY_SIZE_LIMIT : nat := 65536.
Definition MAX_TABLES_IN_TABLE_COMMITMENTS_QUERY : nat := 64.

Definition table_ref_to_identifier `{UnicodeData} (r : TableRef)
    : outcome TableIdentifierConversionError TableIdentifier :=
  table_identifier_try_from_table_ref (schema_id r) (table_id r).

Section commitments.
Context `{Config} `{Client} `{StoragePrefixes} `{StorageHasher}.
Context `{UnicodeData} `{ProofOfSql} `{ProofPlanner} `{EthMerkleTree}.
Context `{Codec TableIdentifier} `{Codec TableCommitmentBytes} `{Codec AccountId}
  `{Codec (list BalanceLock * ContractInfo)}.

Inductive CommitmentsApiError :=
| ProofPlanSizeLimit (proof_plan_size : nat)
| DeserializeProofPlan
| TableIdentifierConversion (source : TableIdentifierConversionError)
| NumTablesLimit (num_tables : nat)
| StorageE (source : BlockchainError)
| NoSuchCommitment
| CommitmentDecode
| AttestationTreeE (source : AttestationTreeError)
| AttestationTreeProof (source : AttestationTreeProofError)
| NoStakingContract
| QuerySizeLimit (query_size : nat)
| QueryParse
| NotOneStatement (num_statements : nat)
| ProofOfSqlIncompatibleRelation
| RuntimeApi (source : ApiError)
| UnexpectedTableCommitmentMismap (num_tables num_commitments : nat)
| DeserializeTableCommitment
| Planner
| IncompleteCommitmentCoverage
| EncodeProofPlan.

Record VerifiableCommitment := mkVerifiableCommitment {
  commitment : bytes;
  merkle_proof : list bytes;
}.
Record VerifiableCommitmentsResponse := mkVerifiableCommitmentsResponse {
  verifiable_commitments : list (bytes * VerifiableCommitment);
  commitments_at : Hash;
}.
Record ProofPlanResponse := mkProofPlanResponse { proof_plan : bytes; plan_at : Hash }.

(** [StatementAndAssociatedTableRefs]. *)
Record StatementAndAssociatedTableRefs := mkStatementAndTableRefs {
  statement : Statement;
  table_refs : list TableRef;
}.
Definition statement_try_from (s : Statement) : option StatementAndAssociatedTableRefs :=
  mkStatementAndTableRefs s <$> get_table_refs_from_statement s.

Definition try_from_bincode_as_dyn_proof_plan (bytes : bytes) : option DynProofPlan :=
  match decode_evm_plan bytes with
  | Some proof_plan => Some (into_inner proof_plan)
  | None => decode_plan bytes
  end.

Definition commitments_pf : PrefixFoliate := CommitmentMapPrefixFoliate commitments_prefix.
Definition locks_pf : PrefixFoliate := LocksStakingPrefixFoliate (AccountId := AccountId) locks_prefix.

(** The tree of the storage at a block. *)
Definition attestation_tree_at (at_ : Hash) : outcome CommitmentsApiError MerkleTree :=
  let? commitments_prefix_iter :=
    map_err StorageE (client_storage_pairs at_ (prefix_hash commitments_pf)) in
  let? locks_prefix_iter := map_err StorageE (client_storage_pairs at_ (prefix_hash locks_pf)) in
  let? info := map_err StorageE (client_storage at_ staking_contract_prefix) in
  let? storage_contract_info := ok_or info NoStakingContract in
  map_err AttestationTreeE (attestation_tree_from_prefixes commitments_pf locks_pf
    commitments_prefix_iter locks_prefix_iter storage_contract_info).

(** The closure that reads the commitment of a table. *)
Definition fetch_commitment (at_ : Hash) (commitment_scheme : CommitmentScheme)
    (table_identifier : TableIdentifier)
    : outcome CommitmentsApiError (TableIdentifier * TableCommitmentBytes) :=
  let storage_key := storage_key_for_prefix_key_tuple commitments_pf
    (table_identifier, (commitment_scheme, tt)) in
  let? stored := map_err StorageE (client_storage at_ storage_key) in
  let? storage_bytes := ok_or stored NoSuchCommitment in
  let? table_commitment_bytes := ok_or (fst <$> decode_scale storage_bytes) CommitmentDecode in
  Ok (table_identifier, table_commitment_bytes).

(** The closure that proves the commitment of a table. *)
Definition prove_commitment (attestation_tree : MerkleTree) (commitment_scheme : CommitmentScheme)
    (c : TableIdentifier * TableCommitmentBytes)
    : outcome CommitmentsApiError (bytes * VerifiableCommitment) :=
  let '(table_identifier, table_commitment_bytes) := c in
  let? merkle_proof := map_err AttestationTreeProof (prove_leaf_pair commitments_pf attestation_tree
    (table_identifier, (commitment_scheme, tt)) table_commitment_bytes) in
  let? id := unwrap_option (table_identifier_to_string table_identifier) in
  Ok (id, mkVerifiableCommitment (commitment_data table_commitment_bytes) merkle_proof).

Definition v1_verifiable_commitments_for_proof_plan (proof_plan : bytes)
    (commitment_scheme : CommitmentScheme) (at_ : option Hash)
    : outcome CommitmentsApiError VerifiableCommitmentsResponse :=
  let proof_plan_size := length proof_plan in
  if (PROOF_PLAN_SIZE_LIMIT <? proof_plan_size)%nat then Err (ProofPlanSizeLimit proof_plan_size)
  else
    let? proof_plan := ok_or (try_from_bincode_as_dyn_proof_plan proof_plan) DeserializeProofPlan in
    let? table_identifiers := map_err TableIdentifierConversion
      (collect table_ref_to_identifier (get_table_references proof_plan)) in
    let num_tables := length table_identifiers in
    if (NUM_TABLES_LIMIT <? num_tables)%nat then Err (NumTablesLimit num_tables)
    else
      let at_ := default best_hash at_ in
      let? table_commitments := collect (fetch_commitment at_ commitment_scheme) table_identifiers in
      let? attestation_tree := attestation_tree_at at_ in
      let? verifiable_commitments :=
        collect (prove_commitment attestation_tree commitment_scheme) table_commitments in
      Ok (mkVerifiableCommitmentsResponse (imap_from_iter verifiable_commitments) at_).

Definition proof_plan_for_query_and_commitments (C : CommitmentScheme)
    (statement' : StatementAndAssociatedTableRefs) (table_commitments : list TableCommitmentBytes)
    : outcome CommitmentsApiError DynProofPlan :=
  let num_tables := length (table_refs statement') in
  let num_commitments := length table_commitments in
  if negb (num_tables =? num_commitments)%nat
  then Err (UnexpectedTableCommitmentMismap num_tables num_commitments)
  else
    let? table_commitments_typed := map_err (fun _ => DeserializeTableCommitment)
      (collect (table_commitment_from_bytes C) table_commitments) in
    let query_commitments :=
      imap_from_iter (combine (table_refs statement') table_commitments_typed) in
    let? plans := ok_or (sql_to_proof_plans C [statement statement'] query_commitments) Planner in
    unwrap_option (last plans).

Definition v1_proof_plan (query : bytes) (at_ : option Hash)
    : outcome CommitmentsApiError ProofPlanResponse :=
  let query_size := length query in
  if (QUERY_SIZE_LIMIT <? query_size)%nat then Err (QuerySizeLimit query_size)
  else
    let? statements := ok_or (parse_sql query) QueryParse in
    let? statement := match statements with
      | [statement] => Ok statement
      | _ => Err (NotOneStatement (length statements))
      end in
    let statement := statement_with_uppercase_identifiers statement in
    let? statement' := ok_or (statement_try_from statement) ProofOfSqlIncompatibleRelation in
    let num_tables := length (table_refs statement') in
    if (NUM_TABLES_LIMIT <? num_tables)%nat then Err (NumTablesLimit num_tables)
    else
      let? table_identifiers := map_err TableIdentifierConversion
        (collect table_ref_to_identifier (table_refs statement')) in
      let? table_identifiers := unwrap_option
        (if (length table_identifiers <=? MAX_TABLES_IN_TABLE_COMMITMENTS_QUERY)%nat
         then Some table_identifiers else None) in
      let at_ := default best_hash at_ in
      let? covered := map_err RuntimeApi (api_table_commitments_any_scheme at_ table_identifiers) in
      let? any := ok_or covered IncompleteCommitmentCoverage in
      let? proof_plan := any_unwrap (any_map (U := ConcreteType _) any
        (fun C => proof_plan_for_query_and_commitments C statement')) in
      let? proof_plan_bytes := ok_or (encode_plan proof_plan) EncodeProofPlan in
      Ok (mkProofPlanResponse proof_plan_bytes at_).

Definition v1_evm_proof_plan (query : bytes) (at_ : option Hash)
    : outcome CommitmentsApiError ProofPlanResponse :=
  let? proof_plan_response := v1_proof_plan query at_ in
  let? dyn_proof_plan := ok_or (decode_plan (proof_plan proof_plan_response)) DeserializeProofPlan in
  let evm_proof_plan := EVMProofPlan_new dyn_proof_plan in
  let? proof_plan_bytes := ok_or (encode_evm_plan evm_proof_plan) EncodeProofPlan in
  Ok (mkProofPlanResponse proof_plan_bytes (plan_at proof_plan_response)).

(** *** Error codes *)

Definition BASE_ERROR : Z := 254000.
Definition error_code (error : CommitmentsApiError) : Z :=
  BASE_ERROR + match error with
  | ProofPlanSizeLimit _ => 0
  | DeserializeProofPlan => 1
  | TableIdentifierConversion _ => 2
  | NumTablesLimit _ => 3
  | StorageE _ => 4
  | NoSuchCommitment => 5
  | CommitmentDecode => 6
  | AttestationTreeE _ => 7
  | AttestationTreeProof _ => 8
  | NoStakingContract => 9
  | QuerySizeLimit _ => 10
  | QueryParse => 11
  | NotOneStatement _ => 12
  | ProofOfSqlIncompatibleRelation => 13
  | RuntimeApi _ => 14
  | UnexpectedTableCommitmentMismap _ _ => 15
  | DeserializeTableCommitment => 16
  | Planner => 17
  | IncompleteCommitmentCoverage => 18
  | EncodeProofPlan => 19
  end.
End commitments.

(** ** Theorems: attestations *)

(** What the code relies on of the client: calls return, block numbers are
    unsigned, and the hash of a number is the hash of the block with this number. *)
Class ClientLaws `{Client} := {
  number_no_panic h : client_number h <> Panic;
  hash_no_panic n : client_hash n <> Panic;
  storage_no_panic h k : client_storage h k <> Panic;
  pairs_no_panic h p : client_storage_pairs h p <> Panic;
  api_no_panic h l : api_table_commitments_any_scheme h l <> Panic;
  number_unsigned h n : client_number h = Ok (Some n) -> 0 <= n;
  number_of_hash n h : client_hash n = Ok (Some h) -> client_number h = Ok (Some n);
}.

Definition key_le (a b : nat * Z) : Prop := (a.1 < b.1)%nat \/ a.1 = b.1 /\ a.2 <= b.2.

Lemma key_gt_false a b : key_gt a b = false <-> key_le a b.
Proof.
  unfold key_gt, key_le. rewrite orb_false_iff, andb_false_iff.
  rewrite Nat.ltb_ge, Nat.eqb_neq, Z.ltb_ge. lia.
Qed.

Lemma key_gt_true a b : key_gt a b = true -> key_le b a.
Proof.
  unfold key_gt, key_le. rewrite orb_true_iff, andb_true_iff.
  rewrite Nat.ltb_lt, Nat.eqb_eq, Z.ltb_lt. lia.
Qed.

(** [max_by_key] gives an element with the greatest key. *)
Lemma max_by_key_spec {A} (key : A -> nat * Z) l m :
  max_by_key key l = Some m -> m ∈ l /\ forall x, x ∈ l -> key_le (key x) (key m).
Proof.
  destruct l as [|x l]; [done|]. cbn [max_by_key]. intros [= <-]. revert x.
  induction l as [|y l IH]; intros x; cbn [foldl].
  { split; [left|]. intros z ->%list_elem_of_singleton. by apply key_gt_false; unfold key_gt; rewrite
      Nat.ltb_irrefl, Z.ltb_irrefl, andb_false_r. }
  destruct (key_gt (key x) (key y)) eqn:Hgt.
  - destruct (IH x) as [Hin Hmax]. split; [set_solver|].
    intros z [->|[->|Hz]%elem_of_cons]%elem_of_cons; [apply Hmax; left| |apply Hmax; by right].
    apply key_gt_true in Hgt. specialize (Hmax x ltac:(left)). unfold key_le in *. lia.
  - destruct (IH y) as [Hin Hmax]. split; [set_solver|].
    intros z [->|Hz]%elem_of_cons; [|by apply Hmax].
    apply key_gt_false in Hgt. specialize (Hmax y ltac:(left)). unfold key_le in *. lia.
Qed.

Section attestation_theorems.
Context `{Config} `{!Client} `{!ClientLaws} `{StoragePrefixes} `{StorageHasher} `{Codec Z}
  `{Codec (list (Attestation Hash))}.

Lemma attestations_for_block_ok h at_ r :
  v1_attestations_for_block h at_ = Ok r ->
  attestations_for r = h /\ attestations_at r = default best_hash at_ /\
  client_number h = Ok (Some (attestations_for_block_number r)) /\
  exists stored, client_storage (default best_hash at_)
      (storage_key_for_attestations_for_block_number (attestations_for_block_number r)) = Ok stored /\
    fst <$> decode_scale (default encoded_empty_vec stored) = Some (attestations r).
Proof.
  unfold v1_attestations_for_block. intros (o & Ho%map_err_ok & Hrun)%obind_ok.
  apply obind_ok in Hrun as (n & Hn%ok_or_ok & Hrun).
  apply obind_ok in Hrun as (stored & Hs%map_err_ok & Hrun).
  apply obind_ok in Hrun as (l & Hl%ok_or_ok & [= <-]). subst o. cbn. eauto 10.
Qed.

Lemma attestations_for_block_no_panic h at_ : v1_attestations_for_block h at_ <> Panic.
Proof.
  unfold v1_attestations_for_block.
  apply obind_not_panic; [apply map_err_no_panic, number_no_panic|]. intros o _.
  apply obind_not_panic; [apply ok_or_no_panic|]. intros n _.
  apply obind_not_panic; [apply map_err_no_panic, storage_no_panic|]. intros s _.
  apply obind_not_panic; [apply ok_or_no_panic|]. done.
Qed.

Lemma best_recent_no_panic at_ : v1_best_recent_attestations at_ <> Panic.
Proof.
  unfold v1_best_recent_attestations.
  apply obind_not_panic; [apply map_err_no_panic, number_no_panic|]. intros o Ho%map_err_ok.
  apply obind_not_panic; [apply ok_or_no_panic|]. intros n ->%ok_or_ok.
  apply number_unsigned in Ho.
  apply obind_not_panic.
  { apply collect_no_panic. intros m _.
    apply obind_not_panic; [apply map_err_no_panic, hash_no_panic|]. intros h _.
    apply obind_not_panic; [apply ok_or_no_panic|]. intros a _. apply attestations_for_block_no_panic. }
  intros l Hl%collect_length. rewrite length_seqZ in Hl. change MINUTES with 20 in Hl.
  destruct l as [|r l]; [|done]. simpl in Hl. lia.
Qed.

(** The best recent attestations are found without panicking; they are of a
    block at most twenty blocks before the block of the query, stored at that
    block, and every block of this range has fewer attestations, or as many and is
    not later. *)
Theorem best_recent_attestations_spec at_ :
  match v1_best_recent_attestations at_ with
  | Ok r => exists n, client_number (default best_hash at_) = Ok (Some n) /\
      Z.max 0 (n - 20) <= attestations_for_block_number r <= n /\
      client_hash (attestations_for_block_number r) = Ok (Some (attestations_for r)) /\
      attestations_at r = default best_hash at_ /\
      forall m, Z.max 0 (n - 20) <= m <= n ->
      exists h r', client_hash m = Ok (Some h) /\
        v1_attestations_for_block h (Some (default best_hash at_)) = Ok r' /\
        attestations_for_block_number r' = m /\
        key_le (length (attestations r'), m)
          (length (attestations r), attestations_for_block_number r)
  | Err _ => True
  | Panic => False
  end.
Proof.
  pose proof (best_recent_no_panic at_) as Hnp.
  destruct (v1_best_recent_attestations at_) as [r|e|] eqn:Hrun; [|done..]. clear Hnp.
  unfold v1_best_recent_attestations in Hrun. apply obind_ok in Hrun as (o & Ho%map_err_ok & Hrun).
  apply obind_ok in Hrun as (n & ->%ok_or_ok & Hrun). exists n. split; [done|].
  apply obind_ok in Hrun as (l & Hl%collect_ok & Hrun). change MINUTES with 20 in *.
  destruct (max_by_key response_key l) as [m|] eqn:Hmax; [|done]. injection Hrun as ->.
  apply max_by_key_spec in Hmax as [Hin Hmax].
  assert (Forall2 (fun x r' => exists h, client_hash x = Ok (Some h) /\
    v1_attestations_for_block h (Some (default best_hash at_)) = Ok r' /\
    attestations_for_block_number r' = x) (seqZ (Z.max 0 (n - 20)) (n - Z.max 0 (n - 20) + 1)) l) as Hr.
  { eapply Forall2_impl; [exact Hl|]. intros x r' (h & Hh%map_err_ok & Hrun)%obind_ok.
    apply obind_ok in Hrun as (h' & ->%ok_or_ok & Hrun). exists h'. split_and!; [done..|].
    apply attestations_for_block_ok in Hrun as (_ & _ & Hnum & _).
    apply number_of_hash in Hh. congruence. }
  clear Hl. split_and!.
  all: apply list_elem_of_lookup in Hin as [i Hi].
  all: destruct (Forall2_lookup_r _ _ _ _ _ Hr Hi) as (x & Hx & h & Hh & Hrr & Hnum).
  all: apply lookup_seqZ in Hx; pose proof (attestations_for_block_ok _ _ _ Hrr) as (Hf & Ha & _).
  - lia.
  - lia.
  - congruence.
  - done.
  - intros y Hy. assert (seqZ (Z.max 0 (n - 20)) (n - Z.max 0 (n - 20) + 1) !!
      Z.to_nat (y - Z.max 0 (n - 20)) = Some y) as Hyl by (apply lookup_seqZ; lia).
    destruct (Forall2_lookup_l _ _ _ _ _ Hr Hyl) as (r' & Hr' & h' & Hh' & Hrr' & Hnum').
    exists h', r'. split_and!; [done..|]. rewrite <- Hnum' at 1.
    apply Hmax. by eapply list_elem_of_lookup_2.
Qed.
End attestation_theorems.

(** *** The state behind the client

    The storage of a block is the runtime's state: an entry of a storage map is
    its encoded value at the prefix of the map and the hashed key, the pairs with a
    prefix are the entries of the map, and calls of the runtime's interface run on
    this state. *)
Class ClientState `{Config} `{!Client} `{StoragePrefixes} `{StorageHasher} `{Codec Z}
    `{Codec (list (Attestation Hash))} `{Codec TableIdentifier} `{Codec TableCommitmentBytes} := {
  state_at : Hash -> Storage;
  storage_attestations h n o :
    client_storage h (storage_key_for_attestations_for_block_number n) = Ok o ->
    o = encode_scale <$> Attestations (state_at h) !! n;
  storage_commitment h t C o :
    client_storage h (storage_key_for_prefix_key_tuple commitments_pf (t, (C, tt))) = Ok o ->
    o = encode_scale <$> table_commitment (state_at h) t C;
  pairs_commitments h l k v :
    client_storage_pairs h commitments_prefix = Ok l ->
    (k, v) ∈ l <-> exists t C c, table_commitment (state_at h) t C = Some c /\
      k = storage_key_for_prefix_key_tuple commitments_pf (t, (C, tt)) /\ v = encode_scale c;
  api_commitments h l o :
    api_table_commitments_any_scheme h l = Ok o ->
    o = table_commitments_any_scheme (state_at h) l;
  decode_empty_attestations : decode_scale (A := list (Attestation Hash)) encoded_empty_vec = Some ([], []);
}.

Section served_attestations.
Context `{Config} `{!Client} `{!ClientLaws} `{StoragePrefixes} `{StorageHasher} `{Codec Z}
  `{Codec (list (Attestation Hash))} `{!CodecLaws (list (Attestation Hash))}
  `{Codec TableIdentifier} `{Codec TableCommitmentBytes} `{!ClientState} `{EthCrypto}.

(** The attestations of a block that are served are those the pallet stores for its
    number: as many as the pallet admits, from distinct keys, for this block, with
    signatures that verify. *)
Theorem served_attestations_stored h at_ r :
  attestations_wf (state_at (default best_hash at_)) ->
  v1_attestations_for_block h at_ = Ok r ->
  client_number h = Ok (Some (attestations_for_block_number r)) /\
  attestations r =
    default [] (Attestations (state_at (default best_hash at_)) !! attestations_for_block_number r) /\
  (length (attestations r) <= MAX_ATTESTATIONS)%nat /\ NoDup (att_pub_key <$> attestations r) /\
  Forall (attestation_valid (attestations_for_block_number r)) (attestations r).
Proof.
  intros Hwf (_ & _ & Hn & stored & Hs & Hd)%attestations_for_block_ok. split; [done|].
  apply storage_attestations in Hs as ->.
  destruct (Attestations _ !! attestations_for_block_number r) as [l|] eqn:Hl; cbn in Hd |- *.
  - rewrite <- (app_nil_r (encode_scale l)), decode_encode_scale in Hd. cbn in Hd. injection Hd as <-.
    split; [done|]. exact (Hwf _ _ Hl).
  - rewrite decode_empty_attestations in Hd. cbn in Hd. injection Hd as <-. cbn.
    split_and!; [done|lia|constructor..].
Qed.
End served_attestations.

(** ** Theorems: commitments and proof plans *)

(** What the code relies on of the planner: one plan for one statement, sets of
    references, text in references, and an encoding that decodes to nothing else. *)
Class ProofPlannerLaws `{UnicodeData} `{ProofPlanner} := {
  one_plan_per_statement C st q plans :
    sql_to_proof_plans C [st] q = Some plans -> exists p, plans = [p];
  statement_refs_distinct st l : get_table_refs_from_statement st = Some l -> NoDup l;
  references_utf8 p r : r ∈ get_table_references p ->
    utf8_valid (to_uppercase (table_id r)) = true /\
    forall s, schema_id r = Some s -> utf8_valid (to_uppercase s) = true;
  plan_decodes p b q : encode_plan p = Some b -> decode_plan b = Some q -> q = p;
  evm_plan_decodes p b q : encode_evm_plan p = Some b -> decode_evm_plan b = Some q -> q = p;
  evm_into_inner p : into_inner (EVMProofPlan_new p) = p;
}.

Section commitments_theorems.
Context `{Config} `{!Client} `{!ClientLaws} `{StoragePrefixes} `{StorageHasher}.
Context `{UnicodeData} `{ProofOfSql} `{!ProofPlanner} `{!ProofPlannerLaws} `{EthMerkleTree}.
Context `{Codec TableIdentifier} `{Codec TableCommitmentBytes} `{Codec AccountId}
  `{Codec (list BalanceLock * ContractInfo)}.

Lemma collect_decode_no_panic PF l : encode_prefix_leaves PF l <> Panic.
Proof.
  apply collect_no_panic. intros [k v] _. unfold decode_storage_key_and_value.
  destruct (strip_prefix_bytes _ k); [|done]. cbn [ok_or obind].
  destruct (decode_key_tuple_from_storage_key_suffix _) as [[kt r]|]; [|done]. cbn [ok_or obind].
  destruct (negb _); [done|]. destruct (decode_scale v) as [[x y]|]; [|done]. cbn [ok_or obind].
  by destruct (negb _).
Qed.

Lemma attestation_tree_at_no_panic h : attestation_tree_at h <> Panic.
Proof.
  unfold attestation_tree_at, attestation_tree_from_prefixes.
  repeat (apply obind_not_panic; [|intros ? _]); try apply map_err_no_panic;
    try apply ok_or_no_panic; try apply pairs_no_panic; try apply storage_no_panic.
  repeat (apply obind_not_panic; [|intros ? _]); try apply map_err_no_panic;
    try apply ok_or_no_panic; try apply collect_decode_no_panic.
  apply collect_no_panic. intros x _. apply ok_or_no_panic.
Qed.

Lemma table_ref_to_identifier_no_panic r : table_ref_to_identifier r <> Panic.
Proof.
  unfold table_ref_to_identifier, table_identifier_try_from_table_ref.
  repeat (apply obind_not_panic; [apply ok_or_no_panic|intros ? _]). done.
Qed.

Lemma fetch_commitment_no_panic h C t : fetch_commitment h C t <> Panic.
Proof.
  unfold fetch_commitment. apply obind_not_panic; [apply map_err_no_panic, storage_no_panic|].
  intros ? _. repeat (apply obind_not_panic; [apply ok_or_no_panic|intros ? _]). done.
Qed.

Lemma fetch_commitment_ok h C t p :
  fetch_commitment h C t = Ok p -> p.1 = t /\ exists b,
    client_storage h (storage_key_for_prefix_key_tuple commitments_pf (t, (C, tt))) = Ok (Some b) /\
    fst <$> decode_scale b = Some p.2.
Proof.
  unfold fetch_commitment. intros (o & Ho%map_err_ok & Hrun)%obind_ok.
  apply obind_ok in Hrun as (b & ->%ok_or_ok & Hrun).
  apply obind_ok in Hrun as (c & Hc%ok_or_ok & [= <-]). eauto.
Qed.

Lemma prove_leaf_pair_no_panic PF tree kt x : prove_leaf_pair PF tree kt x <> Panic.
Proof. unfold prove_leaf_pair. repeat (apply obind_not_panic; [apply ok_or_no_panic|intros ? _]). done. Qed.

(** A reference that converts gives an identifier that prints. *)
Lemma reference_prints p r t :
  r ∈ get_table_references p -> table_ref_to_identifier r = Ok t ->
  is_Some (table_identifier_to_string t).
Proof.
  intros [Ht Hs]%references_utf8.
  unfold table_ref_to_identifier, table_identifier_try_from_table_ref.
  intros (s & Hsch%ok_or_ok & Hrun)%obind_ok.
  apply obind_ok in Hrun as (ns & Hns%ok_or_ok & Hrun).
  apply obind_ok in Hrun as (nm & Hnm%ok_or_ok & [= <-]).
  apply try_from_bounded_some in Hns as [-> _]. apply try_from_bounded_some in Hnm as [-> _].
  unfold table_identifier_to_string, from_utf8. cbn [name namespace].
  rewrite (Hs _ Hsch), Ht. by eexists.
Qed.

Lemma identifiers_print p tables t :
  collect table_ref_to_identifier (get_table_references p) = Ok tables -> t ∈ tables ->
  is_Some (table_identifier_to_string t).
Proof.
  intros Hc%collect_ok Ht. apply list_elem_of_lookup in Ht as [i Hi].
  destruct (Forall2_lookup_r _ _ _ _ _ Hc Hi) as (r & Hr & Hrt).
  eapply reference_prints; [|exact Hrt]. by eapply list_elem_of_lookup_2.
Qed.

Lemma verifiable_commitments_no_panic plan C at_ :
  v1_verifiable_commitments_for_proof_plan plan C at_ <> Panic.
Proof.
  unfold v1_verifiable_commitments_for_proof_plan. destruct (_ <? _)%nat; [done|].
  apply obind_not_panic; [apply ok_or_no_panic|]. intros p _.
  apply obind_not_panic.
  { apply map_err_no_panic, collect_no_panic. intros r _. apply table_ref_to_identifier_no_panic. }
  intros tables Htables%map_err_ok. destruct (_ <? _)%nat; [done|].
  apply obind_not_panic; [apply collect_no_panic; intros t _; apply fetch_commitment_no_panic|].
  intros cs Hcs%collect_ok. apply obind_not_panic; [apply attestation_tree_at_no_panic|].
  intros tree _. apply obind_not_panic; [|done]. apply collect_no_panic. intros [t c] Hin.
  unfold prove_commitment. apply obind_not_panic.
  { apply map_err_no_panic, prove_leaf_pair_no_panic. }
  intros proof _. apply obind_not_panic; [|done].
  apply list_elem_of_lookup in Hin as [i Hi].
  destruct (Forall2_lookup_r _ _ _ _ _ Hcs Hi) as (t' & Ht' & [Heq _]%fetch_commitment_ok).
  cbn in Heq. subst t'. destruct (identifiers_print p tables t) as [id ->]; [done|
    by eapply list_elem_of_lookup_2|done].
Qed.
End commitments_theorems.

Section served_commitments.
Context `{Config} `{!Client} `{StoragePrefixes} `{StorageHasher} `{Codec Z}
  `{Codec (list (Attestation Hash))}.
Context `{UnicodeData} `{ProofOfSql} `{!ProofPlanner} `{!ProofPlannerLaws}
  `{EthMerkleTree} `{!EthMerkleTreeLaws}.
Context `{Codec TableIdentifier} `{Codec TableCommitmentBytes} `{!CodecLaws TableCommitmentBytes}
  `{Codec AccountId} `{Codec (list BalanceLock * ContractInfo)} `{!ClientState}.

(** The commitment of a table that a response shows is the one in storage, and its
    proof leads from its leaf to the root of the tree. *)
Definition commitment_proven (h : Hash) (tree : MerkleTree) (C : CommitmentScheme)
    (t : TableIdentifier) (vc : VerifiableCommitment) : Prop :=
  exists c leaf, table_commitment (state_at h) t C = Some c /\ commitment vc = commitment_data c /\
    leaf_hash commitments_pf (t, (C, tt)) c = Some leaf /\
    proves tree leaf (merkle_proof vc).

Lemma proof_sound PF pre tree kt x proof :
  merkle_new pre = Some tree -> prove_leaf_pair PF tree kt x = Ok proof ->
  exists leaf, leaf_hash PF kt x = Some leaf /\ proves tree leaf proof.
Proof.
  intros Hnew (leaf & i & Hl & Hi & ->)%prove_leaf_pair_ok. exists leaf. split; [done|].
  by eapply proof_leads_to_root.
Qed.

Lemma attestation_tree_at_new h tree :
  attestation_tree_at h = Ok tree -> exists pre, merkle_new pre = Some tree.
Proof.
  unfold attestation_tree_at. intros (cs & _ & Hrun)%obind_ok.
  apply obind_ok in Hrun as (ls & _ & Hrun). apply obind_ok in Hrun as (o & _ & Hrun).
  apply obind_ok in Hrun as (info & _ & Hrun%map_err_ok).
  destruct (tree_leaves _ _ _ _ _ _ Hrun) as (pre & Hnew & _). eauto.
Qed.

Lemma fetch_commitment_stored h C t p :
  fetch_commitment h C t = Ok p -> p.1 = t /\ table_commitment (state_at h) t C = Some p.2.
Proof.
  intros (Ht & b & Hb & Hd)%fetch_commitment_ok. split; [done|].
  apply storage_commitment in Hb. destruct (table_commitment (state_at h) t C) as [c|]; [|done].
  injection Hb as ->. rewrite <- (app_nil_r (encode_scale c)), decode_encode_scale in Hd. done.
Qed.

Lemma prove_commitment_ok h C tree t c id vc :
  attestation_tree_at h = Ok tree -> table_commitment (state_at h) t C = Some c ->
  prove_commitment tree C (t, c) = Ok (id, vc) ->
  table_identifier_to_string t = Some id /\ commitment_proven h tree C t vc.
Proof.
  intros (pre & Hnew)%attestation_tree_at_new Hc (proof & Hp%map_err_ok & Hrun)%obind_ok.
  apply obind_ok in Hrun as (id' & Hid & [= <- <-]).
  destruct (table_identifier_to_string t) as [id0|]; [|done]. injection Hid as ->. split; [done|].
  destruct (proof_sound _ _ _ _ _ _ Hnew Hp) as (leaf & Hleaf & Hcheck). by exists c, leaf.
Qed.

(** C7: A response shows, at the block of the query, a commitment for every table of
    the proof plan and for no other: each one is the commitment of the requested
    scheme in the storage of that block, with a proof that leads to the root of
    that block's attestation tree. *)
Theorem verifiable_commitments_proven plan C at_ r :
  v1_verifiable_commitments_for_proof_plan plan C at_ = Ok r ->
  commitments_at r = default best_hash at_ /\
  exists p tables tree,
    try_from_bincode_as_dyn_proof_plan plan = Some p /\
    collect table_ref_to_identifier (get_table_references p) = Ok tables /\
    attestation_tree_at (commitments_at r) = Ok tree /\
    (forall t, t ∈ tables -> exists id, table_identifier_to_string t = Some id /\
      id ∈ imap_keys (verifiable_commitments r)) /\
    (forall id vc, imap_get (verifiable_commitments r) id = Some vc ->
      exists t, t ∈ tables /\ table_identifier_to_string t = Some id /\
        commitment_proven (commitments_at r) tree C t vc).
Proof.
  unfold v1_verifiable_commitments_for_proof_plan. destruct (_ <? _)%nat; [done|].
  intros (p & Hp%ok_or_ok & Hrun)%obind_ok.
  apply obind_ok in Hrun as (tables & Htables%map_err_ok & Hrun). destruct (_ <? _)%nat; [done|].
  apply obind_ok in Hrun as (cs & Hcs%collect_ok & Hrun).
  apply obind_ok in Hrun as (tree & Htree & Hrun).
  apply obind_ok in Hrun as (vs & Hvs%collect_ok & [= <-]). cbn. split; [done|].
  assert (Forall2 (fun t v => table_identifier_to_string t = Some v.1 /\
    commitment_proven (default best_hash at_) tree C t v.2) tables vs) as Hall.
  { clear Hp Htables. revert vs Hvs. induction Hcs as [|t [t' c] ts cs Ht _ IH]; intros vs Hvs.
    - apply Forall2_nil_inv_l in Hvs as ->. constructor.
    - apply Forall2_cons_inv_l in Hvs as ([id vc] & vs' & Hv & Hvs & ->).
      apply fetch_commitment_stored in Ht as [Heq Hc]. cbn in Heq, Hc. subst t'.
      constructor; [by eapply prove_commitment_ok|by apply IH]. }
  exists p, tables, tree. split_and!; [done..| |].
  - intros t Ht. apply list_elem_of_lookup in Ht as [i Hi].
    destruct (Forall2_lookup_l _ _ _ _ _ Hall Hi) as ([id vc] & Hv & Hid & _). exists id.
    split; [done|]. apply imap_extend_keys. right. apply list_elem_of_fmap.
    exists (id, vc). split; [done|]. by eapply list_elem_of_lookup_2.
  - intros id vc Hget. apply imap_get_elem in Hget; [|apply imap_from_iter_nodup].
    assert (Forall (fun v => v ∈ vs) (imap_from_iter vs)) as Hsub.
    { apply imap_extend_forall; [by intros k k' v Hv ->|constructor|by apply Forall_forall]. }
    apply (proj1 (Forall_forall _ _) Hsub) in Hget. apply list_elem_of_lookup in Hget as [i Hi].
    destruct (Forall2_lookup_r _ _ _ _ _ Hall Hi) as (t & Ht & Hid & Hpr). exists t.
    split_and!; [by eapply list_elem_of_lookup_2|done|done].
Qed.

Context `{!CodecLaws TableIdentifier} `{!StorageHasherLaws}.

(** The pairs of the tree's storage hold every stored commitment. *)
Lemma stored_commitment_leaf h tree t C c :
  attestation_tree_at h = Ok tree -> table_commitment (state_at h) t C = Some c ->
  is_ok (prove_leaf_pair commitments_pf tree (t, (C, tt)) c) = true.
Proof.
  unfold attestation_tree_at. intros (cs & Hcs%map_err_ok & Hrun)%obind_ok Hc.
  apply obind_ok in Hrun as (ls & _ & Hrun). apply obind_ok in Hrun as (o & _ & Hrun).
  apply obind_ok in Hrun as (info & _ & Hrun%map_err_ok).
  assert (HashAndKeyTupleLaws (KeyTuple commitments_pf)) by exact tuple_cons_laws.
  assert (CodecLaws (Value commitments_pf)) by assumption.
  destruct (leaf_provable commitments_pf locks_pf commitments_pf (t, (C, tt)) c cs ls info tree)
    as (proof & leaf & -> & _); [done| |done].
  left. exists (storage_key_for_prefix_key_tuple commitments_pf (t, (C, tt))), (encode_scale c),
    (t, (C, tt)), c. split_and!; [|by apply (storage_entry_decodes commitments_pf)|done].
  apply (pairs_commitments h cs); [done|]. by exists t, C, c.
Qed.

(** The other direction: where the client answers, a plan within the limits whose
    tables all have a commitment of the scheme at a block with a tree is served. *)
Theorem stored_commitments_served plan C at_ p tables tree :
  (length plan <= PROOF_PLAN_SIZE_LIMIT)%nat -> try_from_bincode_as_dyn_proof_plan plan = Some p ->
  collect table_ref_to_identifier (get_table_references p) = Ok tables ->
  (length tables <= NUM_TABLES_LIMIT)%nat -> attestation_tree_at (default best_hash at_) = Ok tree ->
  (forall k, is_ok (client_storage (default best_hash at_) k) = true) ->
  (forall t, t ∈ tables -> is_Some (table_commitment (state_at (default best_hash at_)) t C)) ->
  is_ok (v1_verifiable_commitments_for_proof_plan plan C at_) = true.
Proof.
  intros Hlen Hp Htables Hnum Htree Hread Hstored. unfold v1_verifiable_commitments_for_proof_plan.
  rewrite (proj2 (Nat.ltb_ge _ _) Hlen), Hp. cbn [ok_or obind]. rewrite Htables. cbn [map_err obind].
  rewrite (proj2 (Nat.ltb_ge _ _) Hnum). set (h := default best_hash at_) in *.
  pose (commitment_of := fun t => default (mkTableCommitmentBytes []) (table_commitment (state_at h) t C)).
  rewrite (collect_total _ (fun t => (t, commitment_of t))).
  2: { intros t [c Hc]%Hstored. unfold fetch_commitment, commitment_of. rewrite Hc. cbn [default].
    specialize (Hread (storage_key_for_prefix_key_tuple commitments_pf (t, (C, tt)))).
    destruct (client_storage h _) as [o|e|] eqn:Ho; [|done..]. apply storage_commitment in Ho as ->.
    rewrite Hc. cbn [fmap option_fmap option_map map_err obind ok_or].
    rewrite <- (app_nil_r (encode_scale c)), decode_encode_scale. done. }
  cbn [obind]. rewrite Htree. cbn [obind].
  pose (proof_of := fun t => match prove_leaf_pair commitments_pf tree (t, (C, tt)) (commitment_of t) with
    | Ok x => x | _ => [] end).
  pose (vc_of := fun p : TableIdentifier * TableCommitmentBytes =>
    (default [] (table_identifier_to_string p.1),
     mkVerifiableCommitment (commitment_data p.2) (proof_of p.1))).
  rewrite (collect_total _ vc_of); [done|].
  intros q (t & -> & Ht)%list_elem_of_fmap. unfold prove_commitment, vc_of, proof_of, commitment_of.
  destruct (Hstored t Ht) as [c Hc]. cbn [fst snd]. rewrite Hc. cbn [from_option id].
  pose proof (stored_commitment_leaf h tree t C c Htree Hc) as Hok.
  destruct (prove_leaf_pair commitments_pf tree (t, (C, tt)) c) as [proof|e|]; [|done..].
  cbn [map_err obind]. by destruct (identifiers_print p tables t Htables Ht) as [id ->].
Qed.
End served_commitments.

Section served_plans.
Context `{Config} `{!Client} `{!ClientLaws} `{StoragePrefixes} `{StorageHasher} `{Codec Z}
  `{Codec (list (Attestation Hash))}.
Context `{UnicodeData} `{ProofOfSql} `{!ProofPlanner} `{!ProofPlannerLaws} `{EthMerkleTree}.
Context `{Codec TableIdentifier} `{Codec TableCommitmentBytes} `{!ClientState}.

(** A plan for a statement, from commitments of one scheme that the state has for
    all tables of the statement, in the order of the statement's references. *)
Definition planned (h : Hash) (st : Statement) (plan : DynProofPlan) : Prop :=
  exists refs tables C typed,
    get_table_refs_from_statement st = Some refs /\ (length refs <= NUM_TABLES_LIMIT)%nat /\
    Forall2 (fun r t => table_ref_to_identifier r = Ok t) refs tables /\
    Forall2 (fun t c => exists b, table_commitment (state_at h) t C = Some b /\
      bincode_decode C (commitment_data b) = Some c) tables typed /\
    sql_to_proof_plans C [st] (combine refs typed) = Some [plan].

Lemma typed_commitments C (bs : list TableCommitmentBytes) typed :
  collect (table_commitment_from_bytes C) bs = Ok typed ->
  Forall2 (fun b c => bincode_decode C (commitment_data b) = Some c) bs typed.
Proof. intros Hc%collect_ok. eapply Forall2_impl; [exact Hc|]. intros b c Hb%ok_or_ok. done. Qed.

Lemma plan_for_commitments_no_panic C st l : proof_plan_for_query_and_commitments C st l <> Panic.
Proof.
  unfold proof_plan_for_query_and_commitments. destruct (negb _); [done|].
  apply obind_not_panic.
  { apply map_err_no_panic, collect_no_panic. intros b _. apply ok_or_no_panic. }
  intros typed _. apply obind_not_panic; [apply ok_or_no_panic|].
  intros plans (p & ->)%ok_or_ok%one_plan_per_statement. done.
Qed.

Lemma plan_for_commitments_ok C st l plan :
  NoDup (table_refs st) -> proof_plan_for_query_and_commitments C st l = Ok plan ->
  exists typed, Forall2 (fun b c => bincode_decode C (commitment_data b) = Some c) l typed /\
    sql_to_proof_plans C [statement st] (combine (table_refs st) typed) = Some [plan].
Proof.
  intros Hnd. unfold proof_plan_for_query_and_commitments.
  destruct (length (table_refs st) =? length l)%nat eqn:Hlen; [|done]. cbn [negb].
  intros (typed & Ht%map_err_ok%typed_commitments & Hrun)%obind_ok.
  apply obind_ok in Hrun as (plans & Hp%ok_or_ok & Hrun). exists typed. split; [done|].
  destruct (one_plan_per_statement _ _ _ _ Hp) as (p & ->). injection Hrun as ->.
  rewrite imap_from_iter_id in Hp; [done|]. apply Nat.eqb_eq in Hlen. apply Forall2_length in Ht.
  unfold imap_keys. rewrite <- (fst_zip (table_refs st) typed) in Hnd by lia. exact Hnd.
Qed.

Lemma proof_plan_no_panic query at_ : v1_proof_plan query at_ <> Panic.
Proof.
  unfold v1_proof_plan. destruct (_ <? _)%nat; [done|].
  apply obind_not_panic; [apply ok_or_no_panic|]. intros sts _.
  apply obind_not_panic; [by destruct sts as [|? []]|]. intros st _.
  apply obind_not_panic; [apply ok_or_no_panic|]. intros st' _.
  destruct (NUM_TABLES_LIMIT <? _)%nat eqn:Hnum; [done|]. apply Nat.ltb_ge in Hnum.
  apply obind_not_panic.
  { apply map_err_no_panic, collect_no_panic. intros r _. apply table_ref_to_identifier_no_panic. }
  intros tables Ht%map_err_ok%collect_length.
  apply obind_not_panic; [by rewrite (proj2 (Nat.leb_le _ _)) by (rewrite Ht; exact Hnum)|].
  intros tables' _. apply obind_not_panic; [apply map_err_no_panic, api_no_panic|]. intros cov _.
  apply obind_not_panic; [apply ok_or_no_panic|]. intros any _.
  apply obind_not_panic; [destruct any; apply plan_for_commitments_no_panic|]. intros plan _.
  apply obind_not_panic; [apply ok_or_no_panic|]. done.
Qed.

Lemma proof_plan_ok query at_ r :
  v1_proof_plan query at_ = Ok r ->
  plan_at r = default best_hash at_ /\
  exists st plan, parse_sql query = Some [st] /\
    planned (plan_at r) (statement_with_uppercase_identifiers st) plan /\
    encode_plan plan = Some (proof_plan r).
Proof.
  unfold v1_proof_plan. destruct (_ <? _)%nat; [done|]. intros (sts & Hsts%ok_or_ok & Hrun)%obind_ok.
  apply obind_ok in Hrun as (st & Hst & Hrun).
  destruct sts as [|st0 [|? ?]]; [done| |done]. injection Hst as ->.
  apply obind_ok in Hrun as (st' & Hst'%ok_or_ok & Hrun).
  destruct (NUM_TABLES_LIMIT <? _)%nat eqn:Hnum; [done|]. apply Nat.ltb_ge in Hnum.
  apply obind_ok in Hrun as (tables & Htables%map_err_ok & Hrun).
  apply obind_ok in Hrun as (tables' & Heq & Hrun). destruct (_ <=? _)%nat; [|done]. injection Heq as <-.
  apply obind_ok in Hrun as (o & Ho%map_err_ok%api_commitments & Hrun).
  apply obind_ok in Hrun as (any & ->%ok_or_ok & Hrun). symmetry in Ho.
  apply obind_ok in Hrun as (plan & Hplan & Hrun). apply obind_ok in Hrun as (b & Hb%ok_or_ok & [= <-]).
  cbn. split; [done|]. exists st, plan. split_and!; [done| |done].
  unfold statement_try_from in Hst'. apply fmap_Some in Hst' as (refs & Hrefs & ->). cbn in *.
  pose proof (table_commitments_any_scheme_spec (state_at (default best_hash at_)) tables) as Hspec.
  rewrite Ho in Hspec. destruct Hspec as [Hcs _].
  assert (proof_plan_for_query_and_commitments (to_scheme any)
    (mkStatementAndTableRefs (statement_with_uppercase_identifiers st) refs) (any_unwrap any) = Ok plan)
    as (typed & Htyped & Hsql)%plan_for_commitments_ok by (by destruct any).
  2: { by eapply statement_refs_distinct. }
  exists refs, tables, (to_scheme any), typed.
  split_and!; [done|done|by apply collect_ok| |done].
  eapply Forall2_trans; [|exact Hcs|exact Htyped]. cbn. eauto.
Qed.

(** The runtime's answer has a commitment for every reference. *)
Lemma mismap_unreachable query at_ a b :
  v1_proof_plan query at_ <> Err (UnexpectedTableCommitmentMismap a b).
Proof.
  unfold v1_proof_plan. destruct (_ <? _)%nat; [done|].
  intros [(_ & ?)%ok_or_err|(sts & _ & Hrun)]%obind_err; [done|].
  apply obind_err in Hrun as [Hrun|(st & _ & Hrun)]; [by destruct sts as [|? []]|].
  apply obind_err in Hrun as [(_ & ?)%ok_or_err|(st' & _ & Hrun)]; [done|].
  destruct (NUM_TABLES_LIMIT <? _)%nat; [done|].
  apply obind_err in Hrun as [(? & _ & ?)%map_err_err|(tables & Htables%map_err_ok & Hrun)]; [done|].
  apply obind_err in Hrun as [Hrun|(tables' & Heq & Hrun)]; [by destruct (_ <=? _)%nat|].
  destruct (_ <=? _)%nat; [|done]. injection Heq as <-.
  apply obind_err in Hrun as [(? & _ & ?)%map_err_err|(o & Ho%map_err_ok%api_commitments & Hrun)]; [done|].
  apply obind_err in Hrun as [(_ & ?)%ok_or_err|(any & ->%ok_or_ok & Hrun)]; [done|]. symmetry in Ho.
  apply obind_err in Hrun as [Hrun|(plan & _ & Hrun)];
    [|by apply obind_err in Hrun as [(_ & ?)%ok_or_err|(? & _ & ?)]].
  pose proof (table_commitments_any_scheme_spec (state_at (default best_hash at_)) tables) as Hspec.
  rewrite Ho in Hspec. destruct Hspec as [Hcs%Forall2_length _].
  apply collect_length in Htables. rewrite Htables in Hcs.
  assert (exists C, proof_plan_for_query_and_commitments C st' (any_unwrap any) =
    Err (UnexpectedTableCommitmentMismap a b)) as [C Hmis]
    by (exists (to_scheme any); by destruct any).
  unfold proof_plan_for_query_and_commitments in Hmis. rewrite Hcs, Nat.eqb_refl in Hmis. cbn [negb] in Hmis.
  apply obind_err in Hmis as [(? & _ & ?)%map_err_err|(typed & _ & Hmis)]; [done|].
  apply obind_err in Hmis as [(_ & ?)%ok_or_err|(plans & _ & Hmis)]; [done|]. by destruct (last plans).
Qed.

(** A query of one statement within the limits gets the plan of its statement, with
    identifiers in upper case, from commitments of one scheme that the state of the
    block has for all the statement's tables.  The call never panics, and the
    number of the runtime's commitments is never unexpected. *)
Theorem proof_plan_spec query at_ :
  match v1_proof_plan query at_ with
  | Panic => False
  | Err e => forall a b, e <> UnexpectedTableCommitmentMismap a b
  | Ok r => plan_at r = default best_hash at_ /\
      exists st plan, parse_sql query = Some [st] /\
        planned (plan_at r) (statement_with_uppercase_identifiers st) plan /\
        encode_plan plan = Some (proof_plan r)
  end.
Proof.
  pose proof (proof_plan_no_panic query at_) as Hnp.
  destruct (v1_proof_plan query at_) as [r|e|] eqn:Hrun; [by apply proof_plan_ok| |done].
  intros a b ->. by apply mismap_unreachable in Hrun.
Qed.

(** The EVM plan of a query is the EVM form of the plan that [v1_proof_plan] gives
    for it at the same block, and the commitments call reads back that very plan,
    whenever it reads an EVM plan. *)
Theorem evm_proof_plan_spec query at_ r :
  v1_evm_proof_plan query at_ = Ok r ->
  exists plan b, v1_proof_plan query at_ = Ok (mkProofPlanResponse b (plan_at r)) /\
    encode_plan plan = Some b /\ encode_evm_plan (EVMProofPlan_new plan) = Some (proof_plan r) /\
    (is_Some (decode_evm_plan (proof_plan r)) ->
     try_from_bincode_as_dyn_proof_plan (proof_plan r) = Some plan).
Proof.
  unfold v1_evm_proof_plan. intros ([b h] & Hplan & Hrun)%obind_ok.
  apply obind_ok in Hrun as (plan & Hd%ok_or_ok & Hrun).
  apply obind_ok in Hrun as (eb & He%ok_or_ok & [= <-]). cbn in *.
  destruct (proof_plan_ok _ _ _ Hplan) as (_ & st & plan' & _ & _ & Henc). cbn in Henc.
  pose proof (plan_decodes _ _ _ Henc Hd) as ->. exists plan', b. split_and!; [done..|].
  intros [q Hq]. unfold try_from_bincode_as_dyn_proof_plan. rewrite Hq.
  rewrite (evm_plan_decodes _ _ _ He Hq). by rewrite evm_into_inner.
Qed.
End served_plans.

(** ** Concrete instances *)

Module RpcExamples.
#[local] Existing Instance sample_config.
#[local] Existing Instance toy_crypto.
#[local] Existing Instance ascii_unicode.
#[local] Existing Instance plain_proof_of_sql.
#[local] Existing Instance TreeExamples.ident_codec.
#[local] Existing Instance TreeExamples.ident_codec_laws.
#[local] Existing Instance TreeExamples.data_codec.
#[local] Existing Instance TreeExamples.data_codec_laws.
#[local] Existing Instance TreeExamples.pair_codec.
#[local] Existing Instance TreeExamples.blake2_128_concat.
#[local] Existing Instance TreeExamples.blake2_128_concat_laws.
#[local] Existing Instance TreeExamples.list_tree.
#[local] Existing Instance TreeExamples.list_tree_laws.
#[local] Instance account_codec : Codec (@AccountId sample_config) := TreeExamples.countable_codec.
#[local] Instance number_codec : Codec Z := TreeExamples.countable_codec.
#[local] Instance number_codec_laws : CodecLaws Z := TreeExamples.countable_codec_laws.

Definition attestation_fields (a : Attestation bytes) : list bytes :=
  let '(EthereumAttestation g p d r n h) := a in
  [sig_r g; sig_s g; positive_bytes (encode (sig_v g)); p; d; r; positive_bytes (encode n); h].
Definition fields_attestation (l : list bytes) : option (Attestation bytes) :=
  match l with
  | [r0; s0; v0; p; d; r; n; h] =>
      v0 ← decode (bytes_positive v0); n ← decode (bytes_positive n);
      Some (EthereumAttestation (mkEthereumSignature r0 s0 v0) p d r n h)
  | _ => None
  end.
#[local] Instance attestation_countable : Countable (Attestation bytes).
Proof.
  refine (inj_countable attestation_fields fields_attestation _). intros [[r0 s0 v0] p d r n h].
  cbn [attestation_fields fields_attestation sig_r sig_s sig_v].
  by rewrite !bytes_positive_of, !decode_encode.
Defined.
#[local] Instance attestations_codec : Codec (list (Attestation (@Hash sample_config))) :=
  TreeExamples.countable_codec (A := list (Attestation bytes)).
#[local] Instance attestations_codec_laws : CodecLaws (list (Attestation (@Hash sample_config))) :=
  TreeExamples.countable_codec_laws (A := list (Attestation bytes)).

#[local] Instance prefixes : StoragePrefixes := {|
  commitments_prefix := bs "commitments";
  locks_prefix := bs "locks";
  staking_contract_prefix := bs "staking";
  attestations_prefix := bs "attestations";
|}.

(** A chain of 256 blocks whose hashes are the bytes of their numbers, all with one
    state. *)
Section chain.
Context (st : Storage).

Definition read_storage (k : bytes) : option bytes :=
  match strip_prefix_bytes attestations_prefix k, strip_prefix_bytes commitments_prefix k with
  | Some suffix, _ =>
      match decode_scale (storage_reverse suffix) with
      | Some (n, []) => encode_scale <$> Attestations st !! n
      | _ => None
      end
  | _, Some suffix =>
      match decode_key_tuple_from_storage_key_suffix (KeyTuple := KeyTuple commitments_pf) suffix with
      | Some ((t, (C, _)), []) => encode_scale <$> table_commitment st t C
      | _ => None
      end
  | _, _ => if bool_decide (k = staking_contract_prefix)
            then Some TreeExamples.stored_info
            else None
  end.

#[local] Instance chain_client : Client := {|
  BlockchainError := unit;
  ApiError := unit;
  best_hash := [byte_of 10];
  client_number h := Ok match h with [b] => Some (byte_val b) | _ => None end;
  client_hash n := Ok (if bool_decide (0 <= n < 256) then Some [byte_of n] else None);
  client_storage _ k := Ok (read_storage k);
  client_storage_pairs _ p :=
    Ok (if bool_decide (p = commitments_prefix)
        then (fun '(t, C, c) => (storage_key_for_prefix_key_tuple commitments_pf (t, (C, tt)),
                encode_scale c)) <$> map_to_list (CommitmentStorageMap st)
        else []);
  api_table_commitments_any_scheme _ l := Ok (table_commitments_any_scheme st l);
|}.

#[local] Instance chain_client_laws : ClientLaws.
Proof.
  split; try done; cbn.
  - intros [|b []] n; [done| |done]. intros [= <-]. apply byte_val_range.
  - intros n h. case_bool_decide; [|done]. intros [= <-]. by rewrite byte_val_of, Z.mod_small.
Qed.

#[local] Instance chain_state : ClientState.
Proof.
  refine {| state_at := fun _ : Hash => st |}; cbn [client_storage chain_client].
  - intros h n o [= <-]. unfold read_storage, storage_key_for_attestations_for_block_number.
    rewrite strip_prefix_app. rewrite <- (app_nil_r (storage_hash _)), reverse_hash.
    by rewrite decode_encode_scale.
  - intros h t C o [= <-]. unfold read_storage.
    assert (strip_prefix_bytes attestations_prefix
      (storage_key_for_prefix_key_tuple commitments_pf (t, (C, tt))) = None) as ->.
    { unfold strip_prefix_bytes, storage_key_for_prefix_key_tuple. by rewrite bool_decide_eq_false_2. }
    unfold storage_key_for_prefix_key_tuple. rewrite strip_prefix_app.
    rewrite <- (app_nil_r (storage_key_suffix_from_key_tuple _)).
    by rewrite decode_suffix.
  - intros h l k v [= <-]. rewrite list_elem_of_fmap. split.
    + intros ([[t C] c] & [= -> ->] & Hin%elem_of_map_to_list). eauto 10.
    + intros (t & C & c & Hc & -> & ->). exists (t, C, c). split; [done|]. by apply elem_of_map_to_list.
  - by intros h l o [= <-].
  - reflexivity.
Defined.
End chain.

(** A table with commitments, and an attestation of block 9. *)
Definition rpc_state : Storage :=
  fst (dispatch_attestation (Signed alice) (AttestBlockCall 9 (attestation_for 9))
    (set_CommitmentStorageMap (CommitmentStorageMap created_storage) attestation_sample)).
#[local] Instance rpc_client : Client := chain_client rpc_state.
#[local] Instance rpc_client_laws : ClientLaws := chain_client_laws rpc_state.
#[local] Instance rpc_client_state : ClientState := chain_state rpc_state.

(** A statement is the list of its references and its own plan. *)
#[local] Instance table_ref_countable : Countable TableRef.
Proof.
  refine (inj_countable' (fun r => (schema_id r, table_id r)) (fun p => mkTableRef p.1 p.2) _).
  by intros [].
Defined.

Definition utf8_ref (r : TableRef) : bool :=
  utf8_valid (to_uppercase (table_id r)) &&
  match schema_id r with Some s => utf8_valid (to_uppercase s) | None => true end.

#[local] Instance list_planner : ProofPlanner := {|
  Statement := list TableRef;
  DynProofPlan := list TableRef;
  parse_sql q := Some [[mkTableRef (Some (bs "ANIMALS")) q]];
  statement_with_uppercase_identifiers st := st;
  get_table_refs_from_statement st := Some (remove_dups st);
  sql_to_proof_plans _ sts _ := Some sts;
  get_table_references p := List.filter utf8_ref p;
  EVMProofPlan := list TableRef;
  EVMProofPlan_new p := p;
  into_inner p := p;
  encode_plan p := Some (encode_scale (Codec := TreeExamples.countable_codec) p);
  decode_plan b := fst <$> decode_scale (Codec := TreeExamples.countable_codec) b;
  encode_evm_plan p := Some (x02 :: encode_scale (Codec := TreeExamples.countable_codec) p);
  decode_evm_plan b :=
    match b with
    | x02 :: r => fst <$> decode_scale (Codec := TreeExamples.countable_codec) r
    | _ => None
    end;
|}.

Lemma decode_code (p q : list TableRef) :
  fst <$> decode_scale (Codec := TreeExamples.countable_codec)
    (encode_scale (Codec := TreeExamples.countable_codec) p) = Some q -> q = p.
Proof.
  rewrite <- (app_nil_r (encode_scale p)).
  rewrite (@decode_encode_scale _ _ TreeExamples.countable_codec_laws). by intros [= <-].
Qed.

#[local] Instance list_planner_laws : ProofPlannerLaws.
Proof.
  split; cbn.
  - intros C st q plans [= <-]. eauto.
  - intros st l [= <-]. apply NoDup_remove_dups.
  - intros p r Hr. apply list_elem_of_In, filter_In in Hr as [_ Hr]. unfold utf8_ref in Hr.
    apply andb_true_iff in Hr as [Hn Hs]. split; [done|]. intros s Hr. by rewrite Hr in Hs.
  - intros p b q [= <-]. apply decode_code.
  - intros p b q [= <-]. apply decode_code.
  - done.
Qed.

Definition sample_ref : TableRef :=
  mkTableRef (Some (namespace sample_table_identifier)) (name sample_table_identifier).
Definition sample_plan : bytes := x02 :: encode_scale (Codec := TreeExamples.countable_codec) [sample_ref].

Lemma best_recent_attestations_spec_witness :
  match v1_best_recent_attestations None with
  | Ok r => attestations_for_block_number r = 9 /\ length (attestations r) = 1%nat /\
      exists n, client_number best_hash = Ok (Some n) /\ attestations_for_block_number r <= n
  | _ => False
  end.
Proof.
  pose proof (best_recent_attestations_spec None) as Hspec.
  assert (to_option (omap_ok response_key (v1_best_recent_attestations None)) = Some (1%nat, 9)) as Hkey
    by (vm_compute; reflexivity).
  destruct (v1_best_recent_attestations None) as [r|e|]; [|done..]. injection Hkey as Hlen Hnum.
  destruct Hspec as (n & Hn & Hr & _). split_and!; [done..|]. exists n. split; [done|]. lia.
Defined.

Lemma rpc_state_wf : attestations_wf rpc_state.
Proof.
  assert (Attestations rpc_state = {[9 := [attestation_for 9]]}) as Hatt.
  { apply (bool_decide_unpack _). vm_compute. exact I. }
  unfold attestations_wf. rewrite Hatt. apply map_Forall_singleton. split_and!.
  - cbn. unfold MAX_ATTESTATIONS. lia.
  - apply NoDup_singleton.
  - apply Forall_singleton. split; [done|]. vm_compute. reflexivity.
Qed.

Definition block_9 : Hash := ([byte_of 9] : bytes).

Lemma served_attestations_stored_witness :
  match v1_attestations_for_block block_9 None with
  | Ok r => attestations r = default [] (Attestations rpc_state !! attestations_for_block_number r)
  | _ => False
  end.
Proof.
  assert (is_ok (v1_attestations_for_block block_9 None) = true) as Hok by (vm_compute; reflexivity).
  destruct (v1_attestations_for_block block_9 None) as [r|e|] eqn:Hrun; [|done..].
  exact (proj1 (proj2 (served_attestations_stored block_9 None r rpc_state_wf Hrun))).
Defined.

Lemma verifiable_commitments_proven_witness :
  match v1_verifiable_commitments_for_proof_plan sample_plan DynamicDory None with
  | Ok r => commitments_at r = [byte_of 10] /\ length (verifiable_commitments r) = 1%nat
  | _ => False
  end.
Proof.
  assert (to_option (omap_ok (fun r => length (verifiable_commitments r))
    (v1_verifiable_commitments_for_proof_plan sample_plan DynamicDory None)) = Some 1%nat) as Hlen
    by (vm_compute; reflexivity).
  destruct (v1_verifiable_commitments_for_proof_plan sample_plan DynamicDory None) as [r|e|] eqn:Hrun;
    [|done..]. injection Hlen as Hlen. split; [|done].
  exact (proj1 (verifiable_commitments_proven sample_plan DynamicDory None r Hrun)).
Defined.

Definition sample_plan_tables : DynProofPlan := ([sample_ref] : list TableRef).

Lemma stored_commitments_served_witness :
  is_ok (v1_verifiable_commitments_for_proof_plan sample_plan DynamicDory None) = true.
Proof.
  assert (exists tree, attestation_tree_at best_hash = Ok tree) as [tree Hrun].
  { assert (is_ok (attestation_tree_at best_hash) = true) as Htree by (vm_compute; reflexivity).
    destruct (attestation_tree_at best_hash) as [tree|e|]; [by exists tree|done..]. }
  apply (stored_commitments_served sample_plan DynamicDory None sample_plan_tables
    [sample_table_identifier] tree).
  - apply Nat.leb_le. vm_compute. reflexivity.
  - vm_compute. reflexivity.
  - reflexivity.
  - apply Nat.leb_le. reflexivity.
  - exact Hrun.
  - done.
  - intros t ->%list_elem_of_singleton. apply (bool_decide_unpack _). vm_compute. exact I.
Defined.

Lemma proof_plan_spec_witness :
  match v1_proof_plan (bs "POPULATION") None with
  | Ok r => plan_at r = [byte_of 10]
  | _ => False
  end.
Proof.
  pose proof (proof_plan_spec (bs "POPULATION") None) as Hspec.
  assert (is_ok (v1_proof_plan (bs "POPULATION") None) = true) as Hok by (vm_compute; reflexivity).
  destruct (v1_proof_plan (bs "POPULATION") None) as [r|e|]; [|done..]. exact (proj1 Hspec).
Defined.

Lemma evm_proof_plan_spec_witness :
  match v1_evm_proof_plan (bs "POPULATION") None with
  | Ok r => exists plan, encode_evm_plan (EVMProofPlan_new plan) = Some (proof_plan r)
  | _ => False
  end.
Proof.
  assert (is_ok (v1_evm_proof_plan (bs "POPULATION") None) = true) as Hok by (vm_compute; reflexivity).
  destruct (v1_evm_proof_plan (bs "POPULATION") None) as [r|e|] eqn:Hrun; [|done..].
  destruct (evm_proof_plan_spec _ _ _ Hrun) as (plan & b & _ & _ & He & _). by exists plan.
Defined.
End RpcExamples.
