(* ===== verification/KeyFiles.v ===== *)
(** * Key files

    The three programs that sign (watcher, event-forwarder, translation-layer) read
    their keys from files that hold the key in hexadecimal.  Files are a function
    from paths to contents; the key formats of the libraries are parameters.
    Theorems: a file with the hexadecimal text of a key, between white space, loads
    this key in every program; and exactly the files whose text decodes to another
    length than 32 bytes make the two readers of Ethereum keys panic, as does, in
    event-forwarder, a text of the right length that is no key. *)

From stdpp Require Import base tactics option strings numbers list.
From Stdlib Require Import ZArith Lia.
From Stdlib Require Import Strings.Byte.
From S2P Require Import Prelude Bytes Text Types AttestationCore.

(** [subxt_signer::sr25519::Keypair]: a key of 32 bytes, and the account of its public
    key. *)
Class Sr25519 := {
  Keypair : Type;
  from_secret_key : bytes -> option Keypair;
  to_account_id : Keypair -> bytes;
}.

(** The contents of the files that can be opened and read. *)
Definition Files := bytes -> option bytes.

(** [read_to_string] fails on text that is not UTF-8. *)
Definition read_to_string (files : Files) (path : bytes) : option bytes :=
  content ← files path; from_utf8 content.

Section keys.
Context `{EthCrypto} `{Sr25519} (files : Files).

(** [GenericArray::from_slice] asserts the length. *)
Definition generic_array_32 {E} (slice : bytes) : outcome E bytes :=
  if (length slice =? 32)%nat then Ok slice else Panic.

(** ** watcher/src/main.rs *)

Inductive WatcherKeyError :=
| FileReadError
| EthereumHexDecodeError
| KeySigningKeyParseError
| HexDecodeError
| KeyInvalidLength
| KeyKeypairCreationError.

Definition watcher_load_ethereum_key (path : bytes) : outcome WatcherKeyError SigningKey :=
  let? hex_string := ok_or (read_to_string files path) FileReadError in
  let? key_bytes := ok_or (hex_decode (trim hex_string)) EthereumHexDecodeError in
  let? key_array := generic_array_32 key_bytes in
  ok_or (signing_key_from_bytes key_array) KeySigningKeyParseError.

Definition watcher_load_substrate_key (file_path : bytes) : outcome WatcherKeyError Keypair :=
  let? hex_string := ok_or (read_to_string files file_path) FileReadError in
  let? key_bytes := ok_or (hex_decode (trim hex_string)) HexDecodeError in
  if negb (length key_bytes =? 32)%nat then Err KeyInvalidLength
  else ok_or (from_secret_key key_bytes) KeyKeypairCreationError.

(** ** event-forwarder/src/main.rs and translation-layer/src/signer.rs *)

Inductive KeyFileError :=
| KeyFileRead (path : bytes)
| KeyParse
| InvalidKeyLength (length : nat)
| KeypairCreationError.

Definition forwarder_load_ethereum_key (path : bytes) : outcome KeyFileError SigningKey :=
  let? hex_string := ok_or (read_to_string files path) (KeyFileRead path) in
  let? key_bytes := ok_or (hex_decode (trim hex_string)) KeyParse in
  let? key_array := generic_array_32 key_bytes in
  unwrap_option (signing_key_from_bytes key_array).

Definition forwarder_load_substrate_key (file_path : bytes) : outcome KeyFileError Keypair :=
  let? hex_string := ok_or (read_to_string files file_path) (KeyFileRead file_path) in
  let? key_bytes := ok_or (hex_decode (trim hex_string)) KeyParse in
  if negb (length key_bytes =? 32)%nat then Err (InvalidKeyLength (length key_bytes))
  else ok_or (from_secret_key key_bytes) KeypairCreationError.

Definition translation_load_substrate_key (file_path : bytes) : outcome KeyFileError Keypair :=
  let? hex_string := ok_or (read_to_string files file_path) (KeyFileRead file_path) in
  let? key_bytes := ok_or (hex_decode (trim hex_string)) KeyParse in
  if negb (length key_bytes =? 32)%nat then Err (InvalidKeyLength (length key_bytes))
  else ok_or (from_secret_key key_bytes) KeypairCreationError.
End keys.

(** ** Lemmas *)

Definition ascii_space (b : byte) : bool := bool_decide (b ∈ [x09; x0a; x0b; x0c; x0d; x20]).

Lemma ascii_space_spec b : is_ascii b = true -> is_whitespace [b] = ascii_space b.
Proof. by destruct b. Qed.

Lemma ascii_space_ascii b : ascii_space b = true -> is_ascii b = true.
Proof. by destruct b. Qed.

Lemma drop_while_all {A} (f : A -> bool) l r :
  forallb f l = true -> drop_while f (l ++ r) = drop_while f r.
Proof. induction l as [|x l IH]; [done|]. cbn. intros [-> ?]%andb_prop. by apply IH. Qed.

Lemma drop_while_none {A} (f : A -> bool) x l : f x = false -> drop_while f (x :: l) = x :: l.
Proof. cbn. by intros ->. Qed.

Lemma concat_singletons (l : bytes) : concat ((fun b => [b]) <$> l) = l.
Proof. induction l as [|b l IH]; [done|]. cbn. f_equal. exact IH. Qed.

Lemma spaces_white w :
  forallb ascii_space w = true -> forallb is_whitespace ((fun b => [b]) <$> w) = true.
Proof.
  induction w as [|b w IH]; [done|]. cbn. intros [Hb Hw]%andb_prop.
  rewrite ascii_space_spec, Hb by (by apply ascii_space_ascii). by apply IH.
Qed.

Lemma forallb_impl {A} (f g : A -> bool) l :
  (forall x, f x = true -> g x = true) -> forallb f l = true -> forallb g l = true.
Proof. rewrite !forallb_forall. auto. Qed.

Lemma forallb_reverse {A} (f : A -> bool) l : forallb f (reverse l) = forallb f l.
Proof.
  induction l as [|x l IH]; [done|]. rewrite reverse_cons, forallb_app, IH. cbn.
  by rewrite andb_true_r, andb_comm.
Qed.

(** Trimming leaves a text without white space alone, and nothing else. *)
Lemma trim_between w1 core w2 :
  forallb ascii_space w1 = true -> forallb ascii_space w2 = true -> core <> [] ->
  forallb (fun b => is_ascii b && negb (ascii_space b)) core = true ->
  trim (w1 ++ core ++ w2) = core.
Proof.
  intros Hw1 Hw2 Hne Hcore.
  assert (forall w, forallb ascii_space w = true -> forallb is_ascii w = true) as Hasc.
  { intros w. apply forallb_impl, ascii_space_ascii. }
  assert (forallb is_ascii core = true) as Hca.
  { revert Hcore. apply forallb_impl. by intros b [? _]%andb_prop. }
  assert (forall b l, core = b :: l \/ core = l ++ [b] -> is_whitespace [b] = false) as Hblack.
  { intros b l Hb. rewrite forallb_forall in Hcore.
    assert (List.In b core) as Hin by (destruct Hb as [->| ->]; [by left|by apply in_or_app; right; left]).
    apply Hcore in Hin. apply andb_prop in Hin as [Ha Hs]. rewrite ascii_space_spec by done. by destruct (ascii_space b). }
  assert (trim_start (w1 ++ core ++ w2) = core ++ w2) as Hstart.
  { unfold trim_start. rewrite utf8_chars_ascii by (rewrite !forallb_app, Hca, !Hasc by done; done).
    rewrite !fmap_app, drop_while_all by (by apply spaces_white).
    rewrite <- fmap_app. destruct core as [|b core']; [done|]. cbn [app]. rewrite fmap_cons.
    rewrite drop_while_none by (eapply Hblack; by left).
    apply (concat_singletons (b :: core' ++ w2)). }
  unfold trim. rewrite Hstart. unfold trim_end.
  rewrite utf8_chars_ascii by (rewrite forallb_app, Hca, Hasc by done; done).
  rewrite fmap_app, reverse_app, drop_while_all by (rewrite forallb_reverse; by apply spaces_white).
  destruct core as [|b core'] using rev_ind; [done|]. rewrite fmap_app, reverse_app. cbn [fmap list_fmap reverse].
  change (reverse [[b]]) with [[b]]. cbn [app].
  rewrite drop_while_none by (eapply Hblack; by right).
  rewrite reverse_cons, reverse_involutive.
  rewrite <- (concat_singletons (core' ++ [b])). by rewrite fmap_app.
Qed.

Lemma hex_encode_black k :
  forallb (fun b => is_ascii b && negb (ascii_space b)) (hex_encode k) = true.
Proof.
  induction k as [|b k IH]; [done|].
  change (hex_encode (b :: k)) with
    (hex_digit (byte_val b / 16) :: hex_digit (byte_val b mod 16) :: hex_encode k).
  cbn [forallb]. rewrite IH. by destruct b.
Qed.

(** A file that holds a key of 32 bytes, with white space around it. *)
Definition holds_key (files : Files) (path k : bytes) : Prop :=
  length k = 32%nat /\ exists w1 w2, forallb ascii_space w1 = true /\ forallb ascii_space w2 = true /\
    files path = Some (w1 ++ hex_encode k ++ w2).

Lemma key_file_text files path k :
  holds_key files path k ->
  exists content, read_to_string files path = Some content /\ hex_decode (trim content) = Some k.
Proof.
  intros (Hlen & w1 & w2 & Hw1 & Hw2 & Hfile). exists (w1 ++ hex_encode k ++ w2). split.
  - unfold read_to_string. rewrite Hfile. cbn. apply from_utf8_some. split; [done|].
    apply utf8_valid_ascii. rewrite !forallb_app, !andb_true_iff.
    split_and!; eapply forallb_impl; [exact ascii_space_ascii|done| |apply hex_encode_black|
      exact ascii_space_ascii|done]. by intros b [? _]%andb_prop.
  - rewrite trim_between; [apply hex_decode_encode|done|done| |apply hex_encode_black].
    intros Hnil%(f_equal length). rewrite hex_encode_length in Hnil. cbn in Hnil. lia.
Qed.

(** ** Theorems *)

Section theorems.
Context `{EthCrypto} `{Sr25519} (files : Files).

(** A file with the hexadecimal text of a key, between white space, loads this key in
    every program. *)
Theorem key_file_loads path k :
  holds_key files path k ->
  watcher_load_ethereum_key files path = ok_or (signing_key_from_bytes k) KeySigningKeyParseError /\
  forwarder_load_ethereum_key files path = unwrap_option (signing_key_from_bytes k) /\
  watcher_load_substrate_key files path = ok_or (from_secret_key k) KeyKeypairCreationError /\
  forwarder_load_substrate_key files path = ok_or (from_secret_key k) KeypairCreationError /\
  translation_load_substrate_key files path = ok_or (from_secret_key k) KeypairCreationError.
Proof.
  intros Hk. destruct (key_file_text _ _ _ Hk) as (content & Hr & Hd). destruct Hk as [Hlen _].
  unfold watcher_load_ethereum_key, forwarder_load_ethereum_key, watcher_load_substrate_key,
    forwarder_load_substrate_key, translation_load_substrate_key, generic_array_32.
  rewrite Hr. cbn. rewrite Hd. cbn. rewrite Hlen. done.
Qed.

(** The readers of Ethereum keys panic exactly on a text that decodes to another length
    than that of a key and, in event-forwarder, on 32 bytes that are no key; the readers
    of Substrate keys never do. *)
Theorem key_file_panics path :
  (watcher_load_ethereum_key files path = Panic <->
   exists content b, read_to_string files path = Some content /\
     hex_decode (trim content) = Some b /\ length b <> 32%nat) /\
  (forwarder_load_ethereum_key files path = Panic <->
   exists content b, read_to_string files path = Some content /\
     hex_decode (trim content) = Some b /\
     (length b <> 32%nat \/ signing_key_from_bytes b = None)) /\
  watcher_load_substrate_key files path <> Panic /\
  forwarder_load_substrate_key files path <> Panic /\
  translation_load_substrate_key files path <> Panic.
Proof.
  unfold watcher_load_ethereum_key, forwarder_load_ethereum_key, watcher_load_substrate_key,
    forwarder_load_substrate_key, translation_load_substrate_key, generic_array_32.
  destruct (read_to_string files path) as [content|]; cbn; [|naive_solver].
  destruct (hex_decode (trim content)) as [b|] eqn:Hd; cbn; [|naive_solver].
  destruct (Nat.eqb_spec (length b) 32) as [Hl|Hl]; cbn; [|naive_solver].
  destruct (signing_key_from_bytes b) eqn:Hs, (from_secret_key b); cbn; naive_solver.
Qed.
End theorems.

(** ** Examples *)

Section examples.
#[local] Existing Instance toy_crypto.

#[local] Instance bytes_keypair : Sr25519 := {|
  Keypair := bytes;
  from_secret_key k := Some k;
  to_account_id k := k;
|}.

Definition key_bytes : bytes := x02 :: replicate 31 x00.

(** A key with a line end, one byte of it, and 32 bytes that are no key. *)
Definition sample_files : Files := fun path =>
  if decide (path = bs "eth.key") then Some (hex_encode key_bytes ++ [x0a])
  else if decide (path = bs "short.key") then Some (bs "02")
  else if decide (path = bs "bad.key") then Some (hex_encode (replicate 32 xff))
  else None.

Lemma sample_holds_key : holds_key sample_files (bs "eth.key") key_bytes.
Proof. split; [done|]. exists [], [x0a]. done. Qed.

Lemma key_file_loads_witness :
  watcher_load_substrate_key sample_files (bs "eth.key") = Ok key_bytes.
Proof. destruct (key_file_loads sample_files _ _ sample_holds_key) as (_ & _ & -> & _). done. Defined.

(** The comment in event-forwarder that the [unwrap] is safe because the length is right
    is wrong on both counts. *)
Example forwarder_key_unwrap_fails :
  forwarder_load_ethereum_key sample_files (bs "short.key") = Panic /\
  forwarder_load_ethereum_key sample_files (bs "bad.key") = Panic /\
  watcher_load_ethereum_key sample_files (bs "short.key") = Panic /\
  watcher_load_ethereum_key sample_files (bs "bad.key") = Err KeySigningKeyParseError /\
  forwarder_load_substrate_key sample_files (bs "short.key") = Err (InvalidKeyLength 1).
Proof. by vm_compute. Qed.
End examples.
