(* ===== verification/Watcher.v ===== *)
(** * watcher

    The attestor's client: it signs the root of every finalized block's tree and
    submits the attestation, prints the registration of its key, and verifies the
    attestations of a block.  Theorems: the attestation of a registered watcher is
    the one the attestation pallet accepts and stores; the registration it prints
    is accepted by the keystore; and the [verify] command rejects the attestations
    that the chain accepts, because it builds another message. *)

From stdpp Require Import base tactics option gmap strings numbers list.
From Stdlib Require Import ZArith Lia.
From Stdlib Require Import Strings.Byte.
From S2P Require Import Prelude Bytes Types CommitmentScheme CommitmentMap Runtime Sample.
From S2P Require Import PalletPermissions PalletKeystore PalletAttestation AttestationTree Rpc.
From S2P Require Import AttestationCore.

(** ** The code's dependencies *)

(** The backend of a [subxt] client. *)
Class SubxtBackend `{Config} := {
  SubxtError : Type;
  storage_fetch_descendant_values : bytes -> Hash -> outcome SubxtError (list (bytes * bytes));
  storage_fetch_value : bytes -> Hash -> outcome SubxtError (option bytes);
}.

(** [SigningKey::to_bytes] and [VerifyingKey::to_sec1_bytes], which for this curve
    is the compressed point. *)
Class KeyBytes `{EthCrypto} := {
  signing_key_to_bytes : SigningKey -> bytes;
  to_sec1_bytes : VerifyingKey -> bytes;
}.
Class KeyBytesLaws `{KeyBytes} := {
  signing_key_bytes k : signing_key_from_bytes (signing_key_to_bytes k) = Some k;
  sec1_bytes vk : to_sec1_bytes vk = to_encoded_point vk true;
}.

(** A block: its number and hash. *)
Record Header `{Config} := mkHeader { header_number : Z; header_hash : Hash }.

(** ** watcher/src/attestation/fetch.rs *)

Section fetch.
Context `{Config} `{!SubxtBackend} `{StoragePrefixes}.

Inductive FetchError :=
| LocksStorageIteration (source : SubxtError)
| CommitmentStorageIteration (source : SubxtError)
| StakingContractFetch (source : SubxtError)
| FetchNoStakingContract.

(** The three reads of [try_join!], of which the first in this order to fail gives
    the error. *)
Definition commitments_and_locks_and_staking_contract_info (block_hash : Hash)
    : outcome FetchError (list (bytes * bytes) * list (bytes * bytes) * bytes) :=
  let? commitments := map_err CommitmentStorageIteration
    (storage_fetch_descendant_values commitments_prefix block_hash) in
  let? locks := map_err LocksStorageIteration
    (storage_fetch_descendant_values locks_prefix block_hash) in
  let? maybe_staking_contract := map_err StakingContractFetch
    (storage_fetch_value staking_contract_prefix block_hash) in
  let? info := ok_or maybe_staking_contract FetchNoStakingContract in
  Ok (commitments, locks, info).
End fetch.

(** ** watcher/src/main.rs *)

Section watcher.
Context `{Config} `{!SubxtBackend} `{StoragePrefixes} `{StorageHasher} `{EthMerkleTree}.
Context `{Codec TableIdentifier} `{Codec TableCommitmentBytes} `{Codec AccountId}
  `{Codec (list BalanceLock * ContractInfo)}.
Context `{EthCrypto} `{!KeyBytes}.

(** The errors that the functions below return. *)
Inductive WatcherError :=
| SigningKeyParseError
| AttestationCreationError
| StateRootMismatch
| SxtCoreAttestationError (source : AttestationError).

Definition generate_signature (private_key : SigningKey) (message : bytes)
    : outcome WatcherError EthereumSignature :=
  map_err (fun _ => AttestationCreationError)
    (sign_eth_message (signing_key_to_bytes private_key) message).

Definition get_proposed_pub_key (private_key : SigningKey) : outcome WatcherError bytes :=
  let pub_key := to_sec1_bytes (verifying_key private_key) in
  if (length pub_key =? 33)%nat then Ok pub_key else Err SigningKeyParseError.

Definition create_attestation (header : Header) (private_key : SigningKey)
    (signature : EthereumSignature) (state_root : bytes)
    : outcome WatcherError (Attestation Hash) :=
  let? proposed_pub_key := get_proposed_pub_key private_key in
  let? address20 := map_err SxtCoreAttestationError
    (uncompressed_public_key_to_address proposed_pub_key) in
  Ok (EthereumAttestation signature proposed_pub_key address20 state_root
    (header_number header) (header_hash header)).

(** The tree's root of a block, or why there is none; all these errors are logged
    and the block is skipped. *)
Inductive SkipReason :=
| BlockError
| FetchFailed
| TreeFailed
| EmptyRoot
| SignatureFailed
| AttestationFailed.

(** The submission of a block: the call's arguments, or a reason to skip it. *)
Definition process_block (block_result : outcome SubxtError Header) (private_key : SigningKey)
    : outcome SkipReason (Z * Attestation Hash) :=
  let? block := map_err (fun _ => BlockError) block_result in
  let? (commitments, locks, contract_info) := map_err (fun _ => FetchFailed)
    (commitments_and_locks_and_staking_contract_info (header_hash block)) in
  let? tree := map_err (fun _ => TreeFailed)
    (attestation_tree_from_prefixes commitments_pf locks_pf commitments locks contract_info) in
  let? state_root := ok_or (merkle_root tree) EmptyRoot in
  let? hex_decoded_state_root := unwrap_option (hex_decode state_root) in
  let message := create_attestation_message hex_decoded_state_root (header_number block) in
  let? signature := map_err (fun _ => SignatureFailed) (generate_signature private_key message) in
  let? attestation := map_err (fun _ => AttestationFailed)
    (create_attestation block private_key signature hex_decoded_state_root) in
  Ok (header_number block, attestation).

Definition register (eth_signing_key : SigningKey) (account_id : bytes)
    : outcome WatcherError RegisterExternalAddress :=
  let private_key := signing_key_to_bytes eth_signing_key in
  let public_key := to_sec1_bytes (verifying_key eth_signing_key) in
  map_err SxtCoreAttestationError
    (create_ethereum_attestation_registration account_id private_key public_key).

Definition create_message (state_root : bytes) (block_number : Z) : bytes :=
  state_root ++ le_bytes 4 block_number.

(** The loop of [verify_attestations], with the root of the first attestation. *)
Fixpoint verify_attestations_from (first_state_root : option bytes)
    (attestations : list (Attestation Hash)) : outcome WatcherError unit :=
  match attestations with
  | [] => Ok tt
  | EthereumAttestation signature proposed_pub_key _ state_root block_number _ :: attestations =>
      let msg := create_message state_root block_number in
      let? _ := map_err SxtCoreAttestationError
        (verify_eth_signature msg signature proposed_pub_key) in
      match first_state_root with
      | Some first_root =>
          if bool_decide (first_root = state_root)
          then verify_attestations_from first_state_root attestations
          else Err StateRootMismatch
      | None => verify_attestations_from (Some state_root) attestations
      end
  end.
Definition verify_attestations (attestations : list (Attestation Hash)) : outcome WatcherError unit :=
  verify_attestations_from None attestations.
End watcher.

(** ** Theorems *)

Section watcher_theorems.
Context `{Config} `{!SubxtBackend} `{StoragePrefixes} `{StorageHasher} `{EthMerkleTree}.
Context `{Codec TableIdentifier} `{Codec TableCommitmentBytes} `{Codec AccountId}
  `{Codec (list BalanceLock * ContractInfo)}.
Context `{EthCrypto} `{!EthCryptoLaws} `{!KeyBytes} `{!KeyBytesLaws}.

(** The tree of a block's storage. *)
Definition block_tree (h : Hash) (tree : MerkleTree) : Prop :=
  exists commitments locks info,
    commitments_and_locks_and_staking_contract_info h = Ok (commitments, locks, info) /\
    attestation_tree_from_prefixes commitments_pf locks_pf commitments locks info = Ok tree.

Lemma get_proposed_pub_key_ok k pk :
  get_proposed_pub_key k = Ok pk -> pk = to_encoded_point (verifying_key k) true.
Proof.
  unfold get_proposed_pub_key. destruct (_ =? _)%nat; [|done]. intros [= <-]. apply sec1_bytes.
Qed.

(** An attestation names the block, its hash and the root of its tree, carries the
    watcher's key, and its signature verifies. *)
Lemma process_block_ok header key n a :
  process_block (Ok header) key = Ok (n, a) ->
  n = header_number header /\ att_block_number a = n /\
  att_pub_key a = to_encoded_point (verifying_key key) true /\ attestation_valid n a /\
  exists tree root, block_tree (header_hash header) tree /\ merkle_root tree = Some root /\
    hex_decode root = Some (att_state_root a).
Proof.
  unfold process_block. cbn [map_err obind].
  intros ([[commitments locks] info] & Hf%map_err_ok & Hrun)%obind_ok.
  apply obind_ok in Hrun as (tree & Ht%map_err_ok & Hrun).
  apply obind_ok in Hrun as (root & Hroot%ok_or_ok & Hrun).
  apply obind_ok in Hrun as (decoded & Hd & Hrun).
  apply obind_ok in Hrun as (sg & Hsg%map_err_ok%map_err_ok & Hrun).
  apply obind_ok in Hrun as (a' & Ha%map_err_ok & [= <- <-]).
  apply obind_ok in Ha as (pk & Hpk%get_proposed_pub_key_ok & Ha).
  apply obind_ok in Ha as (addr & _ & [= <-]). cbn [att_block_number att_pub_key att_state_root].
  split_and!; [done..| |].
  - split; [done|]. cbn [att_state_root att_signature att_pub_key]. subst pk.
    eapply sign_verify; [apply signing_key_bytes|exact Hsg].
  - exists tree, root. split_and!; [by exists commitments, locks, info|done|].
    by destruct (hex_decode root) as [d|]; [injection Hd as ->|].
Qed.

(** C8: The attestation that a watcher makes for a finalized block is accepted by the
    attestation pallet, when the watcher's account may attest and its key is
    registered, the block is in the past, and the block has room and no attestation
    of this key; it is stored last among the block's attestations, and it attests
    the root of the block's tree. *)
Theorem watcher_attestation_accepted header key n a s who k :
  process_block (Ok header) key = Ok (n, a) ->
  n < frame_system.block_number (system s) ->
  permissioned s (Signed who) (AttestationPallet AttestBlock) ->
  stored_key s who = Some k -> pub_key k = to_encoded_point (verifying_key key) true ->
  pub_key k ∉ att_pub_key <$> default [] (Attestations s !! n) ->
  (length (default [] (Attestations s !! n)) < MAX_ATTESTATIONS)%nat ->
  snd (dispatch_attestation (Signed who) (AttestBlockCall n a) s) = Ok tt /\
  Attestations (fst (dispatch_attestation (Signed who) (AttestBlockCall n a) s)) =
    <[n := default [] (Attestations s !! n) ++ [a]]> (Attestations s) /\
  exists tree root, block_tree (header_hash header) tree /\ merkle_root tree = Some root /\
    hex_decode root = Some (att_state_root a).
Proof.
  intros (Hnum & Hn & Hpk & Hv & Htree)%process_block_ok Hlt Hperm Hk Hkey Hnew Hlen.
  assert (dispatch_attestation (Signed who) (AttestBlockCall n a) s =
    (push_event (AttestationEvent (pallet_attestation.BlockAttested n a who))
      (set_Attestations (<[n := default [] (Attestations s !! n) ++ [a]]> (Attestations s)) s), Ok tt))
    as ->; [|done].
  unfold dispatch_attestation, dispatch. rewrite transactional_ok. rewrite <- Hn.
  apply (attest_block_accepts s who (att_block_number a) a k); rewrite ?Hn; congruence || done.
Qed.

(** The registration that a watcher prints is accepted by the keystore for its
    account, and the key it stores is the one the watcher's attestations carry. *)
Theorem watcher_registration_accepted key who reg s :
  register key (encode_account who) = Ok reg -> stored_key s who = None ->
  snd (dispatch_keystore Root (RegisterKey who reg) s) = Ok tt /\
  exists k, stored_key (fst (dispatch_keystore Root (RegisterKey who reg) s)) who = Some k /\
    pub_key k = to_encoded_point (verifying_key key) true.
Proof.
  unfold register, create_ethereum_attestation_registration. intros Hreg%map_err_ok Hnone.
  apply obind_ok in Hreg as (sg & Hsg & Hreg). apply obind_ok in Hreg as (addr & _ & Hreg).
  destruct (_ =? _)%nat; [|done]. injection Hreg as <-.
  assert (verify_eth_signature (encode_account who) sg (to_sec1_bytes (verifying_key key)) = Ok tt) as Hv.
  { rewrite sec1_bytes. eapply sign_verify; [apply signing_key_bytes|exact Hsg]. }
  unfold dispatch_keystore, dispatch, transactional. rewrite register_key_run, Hv, Hnone. cbn.
  split; [done|]. unfold stored_key. cbn. rewrite lookup_insert_eq. cbn.
  eexists. split; [done|]. apply sec1_bytes.
Qed.
End watcher_theorems.

(** Two messages of one attestation: the number as four little-endian bytes, or as
    eight big-endian ones. *)
Lemma messages_differ state_root n :
  create_message state_root n <> create_attestation_message state_root n.
Proof.
  intros Heq%(f_equal length). unfold create_message, create_attestation_message in Heq.
  rewrite !length_app, be_bytes_length, le_bytes_length in Heq. lia.
Qed.

Lemma verify_eth_signature_ok `{EthCrypto} msg sg pk :
  verify_eth_signature msg sg pk = Ok tt ->
  exists signature rid vk, signature_from_scalars (sig_r sg) (sig_s sg) = Some signature /\
    recovery_id_try_from (sig_v sg) = Some rid /\
    recover_from_digest (hash_eth_msg msg) signature rid = Some vk /\ from_sec1_bytes pk = Some vk.
Proof.
  unfold verify_eth_signature. intros (signature & Hs%ok_or_ok & Hrun)%obind_ok.
  apply obind_ok in Hrun as (rid & Hrid%ok_or_ok & Hrun).
  apply obind_ok in Hrun as (vk & Hvk%ok_or_ok & Hrun).
  apply obind_ok in Hrun as (vk' & Hvk'%ok_or_ok & Hrun).
  case_bool_decide; [|done]. subst. by exists signature, rid, vk'.
Qed.

(** The [verify] command rejects what the chain accepts: it checks the signature of
    an attestation over another message than the one that is signed, so unless the
    hashes of the two collide, a list with a valid attestation at its head is
    reported as invalid. *)
Theorem watcher_verify_rejects `{Config} `{EthCrypto} n a l :
  attestation_valid n a ->
  (forall d1 d2 sg r vk, recover_from_digest d1 sg r = Some vk ->
    recover_from_digest d2 sg r = Some vk -> d1 = d2) ->
  hash_eth_msg (create_message (att_state_root a) n) <>
    hash_eth_msg (create_attestation_message (att_state_root a) n) ->
  exists e, verify_attestations (a :: l) = Err (SxtCoreAttestationError e).
Proof.
  destruct a as [sg pk addr root m bh].
  cbn [att_block_number att_state_root att_signature att_pub_key].
  intros [<- Hv] Hbind Hhash. cbn [att_block_number att_state_root att_signature att_pub_key] in *.
  unfold verify_attestations. cbn [verify_attestations_from].
  pose proof (verify_eth_signature_no_panic (create_message root m) sg pk) as Hnp.
  destruct (verify_eth_signature (create_message root m) sg pk) as [[]|e|] eqn:Hw; [|by eexists|done].
  apply verify_eth_signature_ok in Hv as (s1 & r1 & vk1 & Hs1 & Hr1 & Hd1 & Hk1).
  apply verify_eth_signature_ok in Hw as (s2 & r2 & vk2 & Hs2 & Hr2 & Hd2 & Hk2).
  exfalso. apply Hhash. simplify_eq. by eapply Hbind.
Qed.

(** ** Concrete instances *)

Module WatcherExamples.
#[local] Existing Instance sample_config.
#[local] Existing Instance toy_crypto.
#[local] Existing Instance toy_crypto_laws.
#[local] Existing Instance TreeExamples.ident_codec.
#[local] Existing Instance TreeExamples.data_codec.
#[local] Existing Instance TreeExamples.pair_codec.
#[local] Existing Instance TreeExamples.blake2_128_concat.
#[local] Existing Instance TreeExamples.list_tree.
#[local] Existing Instance RpcExamples.account_codec.
#[local] Existing Instance RpcExamples.prefixes.

#[local] Instance toy_key_bytes : KeyBytes := {|
  signing_key_to_bytes k := byte_of (toy_id_val k) :: replicate 31 x00;
  to_sec1_bytes vk := to_encoded_point vk true;
|}.
#[local] Instance toy_key_bytes_laws : KeyBytesLaws.
Proof. split; [by intros []|done]. Qed.

(** A chain whose storage has one commitment. *)
#[local] Instance backend : SubxtBackend := {|
  SubxtError := unit;
  storage_fetch_descendant_values p _ :=
    Ok (if bool_decide (p = commitments_prefix) then
          [(storage_key_for_prefix_key_tuple commitments_pf (TreeExamples.a_table, (DynamicDory, tt)),
            encode_scale TreeExamples.a_commitment)] else []);
  storage_fetch_value _ _ := Ok (Some TreeExamples.stored_info);
|}.

Definition watcher_key : @SigningKey toy_crypto := Id2.
Definition header_9 : Header := mkHeader _ 9 ([] : bytes).
Definition watcher_attestation : Attestation Hash :=
  match process_block (Ok header_9) watcher_key with Ok (_, a) => a | _ => attestation_for 0 end.

Lemma watcher_attestation_accepted_witness :
  snd (dispatch_attestation (Signed alice) (AttestBlockCall 9 watcher_attestation)
    attestation_sample) = Ok tt.
Proof.
  apply (watcher_attestation_accepted header_9 watcher_key 9 watcher_attestation attestation_sample alice
    (mkEthereumKey toy_public_key (replicate 20 x00))).
  - vm_compute. reflexivity.
  - vm_compute. reflexivity.
  - vm_compute. reflexivity.
  - vm_compute. reflexivity.
  - vm_compute. reflexivity.
  - apply (bool_decide_unpack _). vm_compute. exact I.
  - apply Nat.ltb_lt. vm_compute. reflexivity.
Defined.

Definition watcher_registration : RegisterExternalAddress :=
  match register watcher_key (encode_account alice) with
  | Ok reg => reg
  | _ => EthereumAddress toy_signature [] []
  end.

Lemma watcher_registration_accepted_witness :
  snd (dispatch_keystore Root (RegisterKey alice watcher_registration) sample_storage) = Ok tt.
Proof.
  apply (watcher_registration_accepted watcher_key alice watcher_registration sample_storage);
    vm_compute; reflexivity.
Defined.
End WatcherExamples.

(** A signature scheme whose signatures are the signed digests. *)
Module DigestExamples.
#[local] Existing Instance sample_config.
Definition digest_crypto : EthCrypto := {|
  Signature := bytes;
  RecoveryId := unit;
  VerifyingKey := unit;
  SigningKey := unit;
  signature_from_scalars r _ := Some r;
  signature_r sg := sg;
  signature_s sg := sg;
  recovery_id_try_from _ := Some tt;
  recovery_id_into _ := 0;
  keccak256 m := m;
  from_sec1_bytes _ := Some tt;
  to_encoded_point _ _ := [];
  recover_from_digest d sg _ := if bool_decide (d = sg) then Some tt else None;
  signing_key_from_bytes _ := Some tt;
  verifying_key _ := tt;
  sign_digest_recoverable _ d := Some (d, tt);
|}.
#[local] Existing Instance digest_crypto.

Definition digest_attestation : Attestation Hash :=
  @EthereumAttestation (@Hash sample_config)
    (mkEthereumSignature (hash_eth_msg (create_attestation_message (replicate 32 x00) 9)) [] 0)
    [] [] (replicate 32 x00) 9 ([] : bytes).

Lemma watcher_verify_rejects_witness :
  attestation_valid 9 digest_attestation /\
  exists e, verify_attestations [digest_attestation] = Err (SxtCoreAttestationError e).
Proof.
  assert (attestation_valid 9 digest_attestation) as Hv by (split; vm_compute; reflexivity).
  split; [exact Hv|]. apply (watcher_verify_rejects 9 digest_attestation []); [exact Hv| |].
  - intros d1 d2 sg r vk. cbn. do 2 case_bool_decide; congruence.
  - apply (bool_decide_unpack _). vm_compute. exact I.
Defined.
End DigestExamples.
