(* ===== verification/EventForwarder.v ===== *)
(** * event-forwarder

    The process that follows the chain block by block, forwards the unbondings of
    attested blocks to the contract on Ethereum, and marks each block as forwarded
    on the chain.  The state is what the process sends: transactions to the chain,
    calls of the contract, and signals on the channel between the processor and the
    stream of blocks.  Theorems: a block is marked with the nonces that follow one
    another, with at most four attempts; blocks are processed in order and without
    gaps, and no block follows one that was not marked; the stream stops at the first
    block that fails or does not exist yet; and no call ever reaches the contract,
    because the locks of an account are read back in another encoding than the one
    they are written in. *)

From stdpp Require Import base tactics option gmap strings numbers list.
From Stdlib Require Import ZArith Lia.
From Stdlib Require Import Strings.Byte.
From S2P Require Import Prelude Bytes Text Types CommitmentScheme CommitmentMap Runtime Sample.
From S2P Require Import PalletAttestation AttestationTree Rpc Watcher.

(** ** The code's dependencies *)

(** [attestations::events::BlockAttested] and [staking::events::Unbonded]. *)
Record BlockAttested `{Config} := mkBlockAttested {
  attested_number : Z;
  attested : Attestation Hash;
}.
Inductive ChainEvent `{Config} :=
| EvBlockAttested (e : BlockAttested)
| EvUnbonded (stash : AccountId) (unbonded_amount : Z)
| EvOther.

(** The arguments of [sxtFulfillUnstake]. *)
Record UnstakeCall := mkUnstakeCall {
  staker : bytes;
  unstake_amount : Z;
  sxt_block_number : Z;
  unstake_proof : list bytes;
  r_values : list bytes;
  s_values : list bytes;
  v_values : list Z;
}.

(** The [subxt] client of the chain and the [alloy] client of the contract: each
    call may take place in another state of the world. *)
Class ForwarderClient `{Config} `{!SubxtBackend} := {
  ApiState : Type;
  (** [chain_getBlockHash], and the hash it is parsed to. *)
  get_block_hash : Z -> M ApiState SubxtError (option bytes);
  h256_from_str : bytes -> option Hash;
  invalid_hash_error : SubxtError;
  blocks_at : Hash -> M ApiState SubxtError Header;
  (** The events of a block that decode. *)
  block_events : Header -> M ApiState SubxtError (list ChainEvent);
  fetch_locks : Hash -> AccountId -> M ApiState SubxtError (option (list BalanceLock));
  (** [sign_and_submit_then_watch] of [mark_block_forwarded], with the block and the
      nonce. *)
  submit_forwarded : Z -> Z -> M ApiState SubxtError unit;
  (** [send] of the contract's call. *)
  send_unstake : UnstakeCall -> M ApiState unit unit;
}.

(** The codec's encoding of an optional list of locks and its decoding of a list. *)
Class LocksScale := {
  encode_locks : list BalanceLock -> bytes;
  encode_option_locks : option (list BalanceLock) -> bytes;
  decode_locks : bytes -> option (list BalanceLock * bytes);
}.

(** ** The process *)

Record World `{ForwarderClient} := mkWorld {
  api_state : ApiState;
  (** The transactions submitted, by block and nonce, and whether they were accepted. *)
  submissions : list (Z * Z * bool);
  unstakes : list UnstakeCall;
  (** The signals that are sent and not yet received. *)
  channel : list bool;
  (** The numbers of the blocks given to the processor. *)
  processed : list Z;
  (** [initial_nonce] of the processor. *)
  initial_nonce : Z;
}.

Section forwarder.
Context `{Config} `{!SubxtBackend} `{!ForwarderClient} `{StoragePrefixes} `{StorageHasher}
  `{EthMerkleTree} `{!LocksScale}.
Context `{Codec TableIdentifier} `{Codec TableCommitmentBytes} `{Codec AccountId}
  `{Codec (list BalanceLock * ContractInfo)} `{Codec ContractInfo}.

Definition with_api (a : ApiState) (w : World) : World :=
  mkWorld _ _ _ a (submissions w) (unstakes w) (channel w) (processed w) (initial_nonce w).
Definition log_submission (p : Z * Z * bool) (w : World) : World :=
  mkWorld _ _ _ (api_state w) (submissions w ++ [p]) (unstakes w) (channel w) (processed w) (initial_nonce w).
Definition log_unstake (c : UnstakeCall) (w : World) : World :=
  mkWorld _ _ _ (api_state w) (submissions w) (unstakes w ++ [c]) (channel w) (processed w) (initial_nonce w).
Definition with_channel (q : list bool) (w : World) : World :=
  mkWorld _ _ _ (api_state w) (submissions w) (unstakes w) q (processed w) (initial_nonce w).
Definition log_processed (n : Z) (w : World) : World :=
  mkWorld _ _ _ (api_state w) (submissions w) (unstakes w) (channel w) (processed w ++ [n]) (initial_nonce w).
Definition with_nonce (n : Z) (w : World) : World :=
  mkWorld _ _ _ (api_state w) (submissions w) (unstakes w) (channel w) (processed w) n.

Definition is_inl {A B} (r : A + B) : bool := match r with inl _ => true | inr _ => false end.

(** A call of the clients. *)
Definition mapi {E A} (m : M ApiState E A) : M World E A := fun w =>
  let '(a, o) := m (api_state w) in (with_api a w, o).

(** *** block_processing.rs *)

Inductive BlockProcessingError :=
| FetchAttestation (source : SubxtError)
| FetchAttestedBlock (block_number : Z) (source : SubxtError)
| BlockForwardingError (source : option SubxtError).

Definition fetch_attested_block (attestation : BlockAttested) : M World BlockProcessingError Header :=
  match attested attestation with
  | EthereumAttestation _ _ _ _ block_number block_hash =>
      mmap_err (FetchAttestedBlock block_number) (mapi (blocks_at block_hash))
  end.

Definition fetch_block_attestations (block : Header) : M World BlockProcessingError (list BlockAttested) :=
  let* events := mmap_err FetchAttestation (mapi (block_events block)) in
  mret (omap (fun e => match e with EvBlockAttested a => Some a | _ => None end) events).

Definition fetch_unbonding_events (block : Header) : M World BlockProcessingError (list AccountId) :=
  let* events := mmap_err FetchAttestation (mapi (block_events block)) in
  mret (omap (fun e => match e with EvUnbonded stash _ => Some stash | _ => None end) events).

(** One element of a proof; all the errors are the same for the caller. *)
Definition convert_proof_element (hex_str : bytes) : option bytes :=
  let hex_str := trim_0x hex_str in
  if negb (length hex_str =? 64)%nat then None
  else
    match hex_decode hex_str with
    | Some decoded => if (length decoded =? 32)%nat then Some decoded else None
    | None => None
    end.
Definition convert_proof (proof_strings : list bytes) : option (list bytes) :=
  mapM convert_proof_element proof_strings.

Definition MAX_RETRIES : nat := 3.

Fixpoint forward_attempts (block_number initial_nonce : Z) (attempts : list nat)
    : M World BlockProcessingError Z :=
  match attempts with
  | [] => mfail (BlockForwardingError None)
  | attempt :: attempts =>
      let nonce_value := (initial_nonce + Z.of_nat attempt) mod 2 ^ 64 in
      let* r := mtry (mapi (submit_forwarded block_number nonce_value)) in
      mmodify (log_submission (block_number, nonce_value, is_inl r)) ;;;
      match r with
      | inl _ => mret ((nonce_value + 1) mod 2 ^ 64)
      | inr err => if (attempt <? MAX_RETRIES)%nat
                   then forward_attempts block_number initial_nonce attempts
                   else mfail (BlockForwardingError (Some err))
      end
  end.
Definition mark_block_forwarded (block_number initial_nonce : Z) : M World BlockProcessingError Z :=
  forward_attempts block_number initial_nonce (seq 0 (MAX_RETRIES + 1)).

(** The channel of the process is there; its only receiver is the stream. *)
Definition send_channel_update {E} : M World E unit :=
  mmodify (fun w => with_channel (channel w ++ [true]) w).

(** *** event_forwarder.rs *)

Inductive ForwarderError :=
| FetchCommitmentsAndAccounts (source : FetchError)
| ConstructingMerkleTree (source : AttestationTreeError)
| EmptyMerkleRoot
| DecodeStateRootError
| FetchLocksError (account_id : AccountId) (source : SubxtError)
| NoStakingLockError (account_id : AccountId)
| DecodeStakingContractInfo
| AccountBalanceProof (source : AttestationTreeProofError)
| InvalidProofLength
| BlockProcessing (source : BlockProcessingError).

(** [FixedBytes::<N>::from_slice] panics on another length. *)
Definition fixed_bytes {E} (n : nat) (l : bytes) : outcome E bytes :=
  if (length l =? n)%nat then Ok l else Panic.

Definition extract_state_root (tree : MerkleTree) : outcome ForwarderError bytes :=
  let? state_root := ok_or (merkle_root tree) EmptyMerkleRoot in
  let? decoded_root := ok_or (hex_decode state_root) DecodeStateRootError in
  fixed_bytes 32 decoded_root.

(** The four vectors, element by element. *)
Definition signature_entry (attestation : BlockAttested)
    : outcome ForwarderError (bytes * bytes * Z * bytes) :=
  match attested attestation with
  | EthereumAttestation signature _ address20 _ _ _ =>
      let v := if sig_v signature =? 0 then 27 else 28 in
      let? r := fixed_bytes 32 (sig_r signature) in
      let? s := fixed_bytes 32 (sig_s signature) in
      let? address := fixed_bytes 20 address20 in
      Ok (r, s, v, address)
  end.
Definition extract_signature_data (attestations : list BlockAttested)
    : outcome ForwarderError (list (bytes * bytes * Z * bytes)) :=
  collect signature_entry attestations.

Definition process_unstake (attestation : BlockAttested) (stash : AccountId)
    (staking_contract_info : bytes) (tree : MerkleTree)
    (signatures : list (bytes * bytes * Z * bytes)) (attested_block : Header)
    : M World ForwarderError unit :=
  let* balance_locks := mmap_err (FetchLocksError stash)
    (mapi (fetch_locks (header_hash attested_block) stash)) in
  let staker := drop 12 (encode_account stash) in
  let* (balance_locks, _) := mlift (unwrap_option (decode_locks (encode_option_locks balance_locks))) in
  let* (info, _) := mlift (ok_or (decode_scale staking_contract_info) DecodeStakingContractInfo) in
  let* lock := mlift (ok_or
    (List.find (fun l => bool_decide (lock_id l = STAKING_BALANCE_LOCK_ID)) balance_locks)
    (NoStakingLockError stash)) in
  let* proof := mlift (map_err AccountBalanceProof
    (prove_leaf_pair locks_pf tree (stash, tt) (balance_locks, info))) in
  let* proof := mlift (ok_or (convert_proof proof) InvalidProofLength) in
  let call := mkUnstakeCall staker (amount lock) (attested_number attestation) proof
    (signatures.*1.*1.*1) (signatures.*1.*1.*2) (signatures.*1.*2) in
  mmodify (log_unstake call) ;;;
  let* _ := mtry (mapi (send_unstake call)) in
  mret tt.

(** [stash.0[..12] == [0; 12]]. *)
Definition ethereum_stash (stash : AccountId) : bool :=
  bool_decide (take 12 (encode_account stash) = replicate 12 x00).

Definition process_unbondings (attestations : list BlockAttested) (unbondings : list AccountId)
    (attested_block : Header) : M World ForwarderError unit :=
  let* first_attestation := mlift (unwrap_option (head attestations)) in
  let* (commitments, locks_staking, contract_info) := mlift (map_err FetchCommitmentsAndAccounts
    (commitments_and_locks_and_staking_contract_info (header_hash attested_block))) in
  let* tree := mlift (map_err ConstructingMerkleTree
    (attestation_tree_from_prefixes commitments_pf locks_pf commitments locks_staking contract_info)) in
  let* _ := mlift (extract_state_root tree) in
  let* signatures := mlift (extract_signature_data attestations) in
  miter (fun stash =>
    if ethereum_stash stash
    then process_unstake first_attestation stash contract_info tree signatures attested_block
    else mret tt) unbondings.

Definition update_progress (block_number : Z) : M World ForwarderError unit :=
  let* nonce := mget initial_nonce in
  let* new_nonce := mmap_err BlockProcessing (mark_block_forwarded block_number nonce) in
  mmodify (with_nonce new_nonce) ;;;
  send_channel_update.

Definition process_attestation (attestations : list BlockAttested) (attested_block_number : Z)
    : M World ForwarderError unit :=
  match head attestations with
  | None => update_progress attested_block_number
  | Some attestation =>
      let* attested_block := mmap_err BlockProcessing (fetch_attested_block attestation) in
      let* unbondings := mmap_err BlockProcessing (fetch_unbonding_events attested_block) in
      (if bool_decide (unbondings = []) then mret tt
       else process_unbondings attestations unbondings attested_block) ;;;
      update_progress attested_block_number
  end.

(** The processor logs its errors. *)
Definition process_block (block : Header) : M World unit unit :=
  let* attestations := mtry (fetch_block_attestations block) in
  match attestations with
  | inr _ => mret tt
  | inl attestations =>
      let* _ := mtry (process_attestation attestations (header_number block)) in
      mret tt
  end.

(** *** chain_listener.rs *)

Definition fetch_block (block_number : Z) : M World SubxtError (option Header) :=
  let* block_hash := mapi (get_block_hash block_number) in
  match block_hash with
  | Some block_hash =>
      let* block_hash := mlift (ok_or (h256_from_str block_hash) invalid_hash_error) in
      let* block := mapi (blocks_at block_hash) in
      mret (Some block)
  | None => mret None
  end.

(** The stream yields a block that it could fetch, and [run] processes it. *)
Definition yield_block (current_block : Z) : M World unit unit :=
  let* block := mtry (fetch_block current_block) in
  match block with
  | inl (Some block) => mmodify (log_processed current_block) ;;; process_block block
  | _ => mret tt
  end.

(** Where the stream is: waiting for a signal that only the processor can send, or
    still to go on. *)
Inductive stream_status := Waiting (current_block : Z) | Running (current_block : Z).

(** The loop of the stream, for a number of signals. *)
Fixpoint stream_loop (fuel : nat) (current_block : Z) : M World unit stream_status :=
  match fuel with
  | O => mret (Running current_block)
  | S fuel =>
      let* signals := mget channel in
      match signals with
      | [] => mret (Waiting current_block)
      | signal :: signals =>
          mmodify (with_channel signals) ;;;
          if (signal : bool) then
            let current_block := (current_block + 1) mod 2 ^ 32 in
            yield_block current_block ;;; stream_loop fuel current_block
          else stream_loop fuel current_block
      end
  end.

(** [ChainListener::run] with an [IncrementingBlockStream]. *)
Definition run (start_block : Z) (fuel : nat) : M World unit stream_status :=
  yield_block start_block ;;; stream_loop fuel start_block.

(** *** main.rs *)

(** The block after the last one that is marked, and the first block of the chain
    when none is. *)
Definition fetch_start_block (last_forwarded_block : option Z) : Z :=
  let last_forwarded_block := default 0 last_forwarded_block in
  if last_forwarded_block =? 0 then 0 else (last_forwarded_block + 1) mod 2 ^ 32.
End forwarder.

(** ** Laws *)

(** What the process relies on of its clients: calls return, a list of locks is
    bounded, and the hash of a number is the hash of the block with this number. *)
Class ForwarderClientLaws `{ForwarderClient} := {
  submit_no_panic n k a : snd (submit_forwarded n k a) <> Panic;
  locks_bounded_50 h who a l :
    snd (fetch_locks h who a) = Ok (Some l) -> (length l <= 50)%nat;
  block_of_number n a a1 h hash a2 b :
    get_block_hash n a = (a1, Ok (Some h)) -> h256_from_str h = Some hash ->
    blocks_at hash a1 = (a2, Ok b) -> header_number b = n;
}.

(** The codec's documentation: an option is a byte and its content; a list is its
    compact length and its elements, of which a lock takes 25 bytes; a compact length
    of one byte has the low bits 00, and one of two bytes has the low bits 01. *)
Class LocksScaleLaws `{LocksScale} := {
  option_none : encode_option_locks None = [x00];
  option_some l : encode_option_locks (Some l) = x01 :: encode_locks l;
  short_list l : (length l < 64)%nat ->
    exists body, encode_locks l = byte_of (4 * Z.of_nat (length l)) :: body /\
      length body = (25 * length l)%nat;
  decode_empty_list : decode_locks [x00] = Some ([], []);
  decode_two_bytes b0 b1 r l rest :
    byte_val b0 mod 4 = 1 -> decode_locks (b0 :: b1 :: r) = Some (l, rest) ->
    Z.of_nat (length l) = (byte_val b0 + 256 * byte_val b1) / 4 /\
    length r = (25 * length l + length rest)%nat;
}.

(** An optional list of locks does not read back as a list with locks. *)
Lemma option_locks_read_back `{LocksScaleLaws} o l rest :
  (forall l, o = Some l -> (length l <= 50)%nat) ->
  decode_locks (encode_option_locks o) = Some (l, rest) -> l = [].
Proof.
  intros Hlen. destruct o as [l0|]; [|rewrite option_none, decode_empty_list; by intros [= <- _]].
  specialize (Hlen l0 eq_refl). rewrite option_some.
  destruct (short_list l0) as (body & -> & Hbody); [lia|]. intros Hd.
  apply decode_two_bytes in Hd as [Hl Hr]; [|done]. rewrite byte_val_of, Z.mod_small in Hl by lia.
  change (byte_val x01) with 1 in Hl.
  assert (Z.of_nat (length l) = 256 * Z.of_nat (length l0)) as Hl'.
  { rewrite Hl. replace (1 + 256 * (4 * Z.of_nat (length l0))) with
      (1 + (256 * Z.of_nat (length l0)) * 4) by lia. rewrite Z.div_add by lia. done. }
  destruct l; [done|]. cbn [length] in *. lia.
Qed.

Lemma option_locks_not_read_back `{LocksScaleLaws} l :
  l <> [] -> (length l <= 50)%nat -> decode_locks (encode_option_locks (Some l)) = None.
Proof.
  intros Hne Hlen. destruct (decode_locks _) as [[l' rest]|] eqn:Hd; [|done]. exfalso.
  pose proof Hd as ->%option_locks_read_back; [|by intros l0 [= <-]].
  rewrite option_some in Hd. destruct (short_list l) as (body & He & Hbody); [lia|].
  rewrite He in Hd. apply decode_two_bytes in Hd as [Hl _]; [|done].
  rewrite byte_val_of, Z.mod_small in Hl by lia. change (byte_val x01) with 1 in Hl.
  destruct l; [done|]. cbn [length] in *.
  assert (0 < (1 + 256 * (4 * Z.of_nat (S (length l)))) / 4); [|lia].
  apply Z.div_str_pos. lia.
Qed.

(** ** No call reaches the contract *)

Section no_unstake.
Context `{Config} `{!SubxtBackend} `{!ForwarderClient} `{!ForwarderClientLaws} `{StoragePrefixes}
  `{StorageHasher} `{EthMerkleTree} `{!LocksScale} `{!LocksScaleLaws}.
Context `{Codec TableIdentifier} `{Codec TableCommitmentBytes} `{Codec AccountId}
  `{Codec (list BalanceLock * ContractInfo)} `{Codec ContractInfo}.

Lemma preserves_mapi {E A} (I : World -> Prop) (m : M ApiState E A) :
  (forall a w, I w -> I (with_api a w)) -> preserves I (mapi m).
Proof. intros HI w Hw. unfold mapi. destruct (m (api_state w)) as [a o]. by apply HI. Qed.

(** Steps that leave a part of the world alone. *)
Ltac keeps :=
  repeat first
    [ lazymatch goal with |- preserves _ (mbind _ _) => apply preserves_bind; [|intros] end
    | apply preserves_map_err
    | apply preserves_try
    | apply preserves_mapi; by intros
    | apply preserves_modify; by intros
    | apply preserves_ret | apply preserves_fail | apply preserves_get | apply preserves_lift
    | done ].

(** Reading the locks of an account never ends with a call. *)
Lemma process_unstake_silent e stash info tree sigs b u :
  preserves (fun w => unstakes w = u) (process_unstake e stash info tree sigs b).
Proof.
  intros w Hw. unfold process_unstake, mbind, mmap_err, mapi, mlift.
  destruct (fetch_locks (header_hash b) stash (api_state w)) as [a [o|e'|]] eqn:Hf; [|done..]. cbn.
  destruct (decode_locks (encode_option_locks o)) as [[l rest]|] eqn:Hd; [|done]. cbn.
  assert (l = []) as ->.
  { eapply option_locks_read_back; [|exact Hd]. intros l0 ->.
    eapply locks_bounded_50. by rewrite Hf. }
  by destruct (decode_scale info) as [[x y]|].
Qed.

Lemma forward_attempts_silent n k l u :
  preserves (fun w => unstakes w = u) (forward_attempts n k l).
Proof.
  induction l as [|i l IH]; cbn [forward_attempts]; [keeps|].
  apply preserves_bind; [keeps|intros r]. apply preserves_bind; [keeps|intros _].
  destruct r as [?|?]; [keeps|]. destruct (_ <? _)%nat; [exact IH|keeps].
Qed.

Lemma update_progress_silent n u : preserves (fun w => unstakes w = u) (update_progress n).
Proof.
  apply preserves_bind; [keeps|intros k].
  apply preserves_bind; [apply preserves_map_err, forward_attempts_silent|intros k']. keeps.
Qed.

Lemma process_attestation_silent l n u :
  preserves (fun w => unstakes w = u) (process_attestation l n).
Proof.
  unfold process_attestation. destruct (head l) as [a|]; [|apply update_progress_silent].
  unfold fetch_attested_block, fetch_unbonding_events. destruct (attested a).
  apply preserves_bind; [keeps|intros b]. apply preserves_bind; [keeps|intros l'].
  apply preserves_bind; [|intros _; apply update_progress_silent]. case_bool_decide; [keeps|].
  unfold process_unbondings. apply preserves_bind; [keeps|intros e].
  apply preserves_bind; [keeps|intros [[cs ls] info]]. keeps. apply preserves_iter. intros stash. destruct (ethereum_stash stash); keeps.
  apply process_unstake_silent.
Qed.

Lemma yield_block_silent n u : preserves (fun w => unstakes w = u) (yield_block n).
Proof.
  unfold yield_block, fetch_block. apply preserves_bind; [|intros [[b|]|]; [|keeps..]].
  - apply preserves_try, preserves_bind; [keeps|intros [h|]; keeps].
  - apply preserves_bind; [keeps|intros _]. unfold process_block, fetch_block_attestations.
    apply preserves_bind; [keeps|intros [l|]; keeps]. apply process_attestation_silent.
Qed.

Lemma stream_loop_silent fuel n u : preserves (fun w => unstakes w = u) (stream_loop fuel n).
Proof.
  revert n. induction fuel as [|fuel IH]; intros n; cbn [stream_loop]; [keeps|].
  apply preserves_bind; [keeps|intros [|[|] q]]; [keeps|..].
  - apply preserves_bind; [keeps|intros _].
    apply preserves_bind; [apply yield_block_silent|intros _]. apply IH.
  - apply preserves_bind; [keeps|intros _]. apply IH.
Qed.

(** However long the process runs, and whatever the chain holds, it sends no call
    to the contract: the locks of an account, which it needs for the call, are
    encoded as an optional list and decoded as a list, which gives no lock or
    panics. *)
Theorem no_unstake_forwarded start fuel w : unstakes (fst (run start fuel w)) = unstakes w.
Proof.
  assert (preserves (fun w' => unstakes w' = unstakes w) (run start fuel)) as Hr; [|by apply Hr].
  apply preserves_bind; [apply yield_block_silent|]. intros _. apply stream_loop_silent.
Qed.

(** An account that has locks makes the process panic, where [expect] says that the
    decoding should always work. *)
Theorem unstake_of_locked_account_panics e stash info tree sigs b w a l :
  fetch_locks (header_hash b) stash (api_state w) = (a, Ok (Some l)) -> l <> [] ->
  process_unstake e stash info tree sigs b w = (with_api a w, Panic).
Proof.
  intros Hf Hl. unfold process_unstake, mbind, mmap_err, mapi, mlift. rewrite Hf. cbn.
  rewrite option_locks_not_read_back; [done..|]. eapply locks_bounded_50. by rewrite Hf.
Qed.
End no_unstake.

(** ** The order of blocks *)

Section order.
Context `{Config} `{!SubxtBackend} `{!ForwarderClient} `{!ForwarderClientLaws} `{StoragePrefixes}
  `{StorageHasher} `{EthMerkleTree} `{!LocksScale}.
Context `{Codec TableIdentifier} `{Codec TableCommitmentBytes} `{Codec AccountId}
  `{Codec (list BalanceLock * ContractInfo)} `{Codec ContractInfo}.

Lemma forward_attempts_cons n k i l w :
  forward_attempts n k (i :: l) w =
  let nonce := (k + Z.of_nat i) mod 2 ^ 64 in
  let w1 := with_api (fst (submit_forwarded n nonce (api_state w))) w in
  match snd (submit_forwarded n nonce (api_state w)) with
  | Ok _ => (log_submission (n, nonce, true) w1, Ok ((nonce + 1) mod 2 ^ 64))
  | Err e => let w2 := log_submission (n, nonce, false) w1 in
             if (i <? MAX_RETRIES)%nat then forward_attempts n k l w2
             else (w2, Err (BlockForwardingError (Some e)))
  | Panic => (w1, Panic)
  end.
Proof.
  cbn [forward_attempts]. unfold mbind, mmodify, mtry, mapi.
  destruct (submit_forwarded n _ _) as [a [[]|e|]]; cbn [fst snd]; [done| |done].
  by destruct (i <? MAX_RETRIES)%nat.
Qed.

Lemma forward_attempts_run n k i d w :
  (i + d = 3)%nat ->
  let '(w', o) := forward_attempts n k (seq i (S d)) w in
  exists j, (i <= j <= 3)%nat /\
    submissions w' = submissions w ++
      ((fun x => (n, (k + Z.of_nat x) mod 2 ^ 64, is_ok o && (x =? j)%nat)) <$> seq i (S (j - i))) /\
    channel w' = channel w /\ processed w' = processed w /\ initial_nonce w' = initial_nonce w /\
    match o with
    | Ok r => r = ((k + Z.of_nat j) mod 2 ^ 64 + 1) mod 2 ^ 64
    | Err (BlockForwardingError (Some _)) => j = 3%nat
    | _ => False
    end.
Proof.
  revert i w. induction d as [|d IH]; intros i w Hi; cbn [seq]; rewrite forward_attempts_cons;
    cbv zeta; set (nonce := (k + Z.of_nat i) mod 2 ^ 64);
    pose proof (submit_no_panic n nonce (api_state w)) as Hnp;
    set (w1 := with_api _ _); destruct (snd (submit_forwarded _ _ _)) as [[]|e|]; try done;
    try (exists i; rewrite Nat.sub_diag; cbn [seq fmap list_fmap is_ok andb]; rewrite Nat.eqb_refl;
         by split_and!; [lia..|done|done|done|done|done]).
  - assert (i = 3%nat) as -> by lia. exists 3%nat. split_and!; [lia..|done|done|done|done|done].
  - rewrite (proj2 (Nat.ltb_lt _ _)) by (unfold MAX_RETRIES; lia). set (w2 := log_submission _ _).
    specialize (IH (S i) w2 ltac:(lia)). cbn [seq] in IH. destruct (forward_attempts n k _ _) as [w' o].
    destruct IH as (j & Hj & Hs & Hc & Hp & Hn & Ho). exists j.
    split_and!; [lia..| |done|done|done|done].
    rewrite Hs. subst w2 w1. cbn [submissions with_api log_submission]. rewrite <- app_assoc.
    replace (j - i)%nat with (S (j - S i)) by lia. f_equal. cbn [seq fmap list_fmap app].
    rewrite (proj2 (Nat.eqb_neq i j)) by lia. by rewrite andb_false_r.
Qed.

(** Marking a block uses the nonces that follow one another, four at most, and stops
    at the first transaction that is accepted: the result is the next nonce; after
    four failures it is the error of the last. *)
Theorem mark_block_forwarded_spec n k w :
  0 <= k -> k + 4 < 2 ^ 64 ->
  let '(w', o) := mark_block_forwarded n k w in
  exists j, (j <= 3)%nat /\
    submissions w' = submissions w ++
      ((fun x => (n, k + Z.of_nat x, is_ok o && (x =? j)%nat)) <$> seq 0 (S j)) /\
    match o with
    | Ok next => next = k + Z.of_nat j + 1
    | Err (BlockForwardingError (Some _)) => j = 3%nat
    | _ => False
    end.
Proof.
  intros Hk Hlt. pose proof (forward_attempts_run n k 0 3 w eq_refl) as Hrun.
  unfold mark_block_forwarded. destruct (forward_attempts _ _ _ w) as [w' o].
  destruct Hrun as (j & Hj & Hs & _ & _ & _ & Ho). exists j. split_and!; [lia| |].
  - rewrite Hs, Nat.sub_0_r. f_equal. apply list_fmap_ext. intros i x Hx%lookup_seq.
    do 2 f_equal. apply Z.mod_small. lia.
  - destruct o as [r|[| |[e|]]|]; try done. rewrite Ho, (Z.mod_small (k + _)), Z.mod_small by lia. done.
Qed.

(** Steps that send nothing but calls to the contract. *)
Definition quiet (w w' : World) : Prop :=
  channel w' = channel w /\ processed w' = processed w /\ submissions w' = submissions w.

(** The blocks of the transactions that were accepted. *)
Definition accepted (w : World) : list Z :=
  omap (fun t : Z * Z * bool => if t.2 then Some t.1.1 else None) (submissions w).

Lemma accepted_elem n w : n ∈ accepted w <-> exists k, (n, k, true) ∈ submissions w.
Proof.
  unfold accepted. rewrite list_elem_of_omap. split.
  - intros ([[m k] []] & Hin & Hn); simplify_eq/=. by exists k.
  - intros [k Hk]. by exists (n, k, true).
Qed.

(** A step that may mark block [n]: it signals exactly if it succeeds, and exactly then
    one transaction for the block was accepted. *)
Definition marks {E} (n : Z) (w : World) (r : World * outcome E unit) : Prop :=
  processed (fst r) = processed w /\
  match snd r with
  | Ok _ => channel (fst r) = channel w ++ [true] /\ accepted (fst r) = accepted w ++ [n]
  | _ => channel (fst r) = channel w /\ accepted (fst r) = accepted w
  end.

Lemma quiet_bind {E A} (m : M World E A) (f : A -> M World E unit) n w w1 :
  quiet w w1 -> preserves (quiet w) m -> (forall a w2, quiet w w2 -> marks n w (f a w2)) ->
  marks n w (mbind m f w1).
Proof.
  intros Hw1 Hm Hf. specialize (Hm w1 Hw1). unfold mbind.
  destruct (m w1) as [w2 [a|e|]]; cbn [fst] in Hm; [by apply Hf|..];
    destruct Hm as (Hc & Hp & Hs); (split; [done|]); (split; [done|]); unfold accepted; cbn [fst]; by rewrite Hs.
Qed.

Ltac stays :=
  repeat first
    [ lazymatch goal with |- preserves _ (mbind _ _) => apply preserves_bind; [|intros] end
    | apply preserves_map_err
    | apply preserves_try
    | apply preserves_mapi; by intros
    | apply preserves_modify; by intros
    | apply preserves_ret | apply preserves_fail | apply preserves_get | apply preserves_lift ].

(** Of the attempts only the last can be accepted. *)
Lemma accepted_attempts n k (ok : bool) j :
  omap (fun t : Z * Z * bool => if t.2 then Some t.1.1 else None)
    ((fun x => (n, (k + Z.of_nat x) mod 2 ^ 64, ok && (x =? j)%nat)) <$> seq 0 (S j)) =
  if ok then [n] else [].
Proof.
  rewrite seq_S, fmap_app, omap_app. cbn. rewrite Nat.eqb_refl, andb_true_r.
  assert (forall l, Forall (fun x => x < j)%nat l -> omap (fun t : Z * Z * bool => if t.2 then Some t.1.1 else None)
    ((fun x => (n, (k + Z.of_nat x) mod 2 ^ 64, ok && (x =? j)%nat)) <$> l) = []) as Hnone.
  { intros l Hl. induction Hl as [|x l Hx Hl IH]; [done|]. cbn.
    rewrite (proj2 (Nat.eqb_neq x j)) by lia. rewrite andb_false_r. exact IH. }
  rewrite Hnone by (apply Forall_forall; intros x Hx%elem_of_seq; lia). by destruct ok.
Qed.

Lemma update_progress_marks n w w1 : quiet w w1 -> marks n w (update_progress n w1).
Proof.
  intros (Hc & Hp & Hs). unfold update_progress, mark_block_forwarded, mmap_err, mbind, mget.
  pose proof (forward_attempts_run n (initial_nonce w1) 0 3 w1 eq_refl) as Hrun.
  change (MAX_RETRIES + 1)%nat with 4%nat.
  destruct (forward_attempts n (initial_nonce w1) (seq 0 4) w1) as [w2 o].
  destruct Hrun as (j & Hj & Hsub & Hc2 & Hp2 & _ & Ho). rewrite Nat.sub_0_r in Hsub.
  assert (accepted w2 = accepted w ++ if is_ok o then [n] else []) as Ha.
  { unfold accepted. rewrite Hsub, Hs, omap_app. f_equal. apply accepted_attempts. }
  destruct o as [k|e|]; cbn [map_err is_ok] in *; unfold marks; cbn; rewrite ?Hc2, ?Hp2, ?Hc, ?Hp;
    rewrite ?app_nil_r in Ha; done.
Qed.

Lemma process_unstake_quiet e stash info tree sigs b w :
  preserves (quiet w) (process_unstake e stash info tree sigs b).
Proof.
  unfold process_unstake. apply preserves_bind; [stays|intros l].
  apply preserves_bind; [stays|intros [l' ?]]. apply preserves_bind; [stays|intros [i ?]]. stays.
Qed.

Lemma process_attestation_marks l n w : marks n w (process_attestation l n w).
Proof.
  unfold process_attestation. destruct (head l) as [a|]; [|by apply update_progress_marks].
  unfold fetch_attested_block, fetch_unbonding_events. destruct (attested a).
  apply quiet_bind; [done|stays|]. intros b w1 Hw1.
  apply quiet_bind; [done|stays|]. intros us w2 Hw2.
  apply quiet_bind; [done| |intros _ w3 Hw3; by apply update_progress_marks].
  case_bool_decide; [stays|]. unfold process_unbondings. apply preserves_bind; [stays|intros e].
  apply preserves_bind; [stays|intros [[cs ls] info]]. stays. apply preserves_iter.
  intros stash. destruct (ethereum_stash stash); [apply process_unstake_quiet|stays].
Qed.

(** The same without the outcome. *)
Definition stepped (n : Z) (w w' : World) : Prop :=
  processed w' = processed w /\
  (channel w' = channel w /\ accepted w' = accepted w \/
   channel w' = channel w ++ [true] /\ accepted w' = accepted w ++ [n]).

Lemma quiet_stepped n w w' : quiet w w' -> stepped n w w'.
Proof. intros (Hc & Hp & Hs). split; [done|]. left. unfold accepted. by rewrite Hs. Qed.

Lemma quiet_stepped_trans n w w1 w' : quiet w w1 -> stepped n w1 w' -> stepped n w w'.
Proof. unfold quiet, stepped, accepted. by intros (-> & -> & ->). Qed.

Lemma marks_stepped {E} n w (r : World * outcome E unit) : marks n w r -> stepped n w (fst r).
Proof. intros (Hp & Hc). split; [done|]. destruct (snd r); auto. Qed.

Lemma process_block_stepped b w : stepped (header_number b) w (fst (process_block b w)).
Proof.
  unfold process_block. unfold mbind at 1, mtry at 1.
  assert (preserves (quiet w) (fetch_block_attestations b)) as Hf
    by (unfold fetch_block_attestations; stays).
  specialize (Hf w ltac:(done)). destruct (fetch_block_attestations b w) as [w1 [l|e|]];
    cbn [fst] in *; [|by apply quiet_stepped..].
  eapply quiet_stepped_trans; [exact Hf|]. unfold mbind, mtry.
  pose proof (process_attestation_marks l (header_number b) w1) as Hm%marks_stepped.
  by destruct (process_attestation l (header_number b) w1) as [w2 []].
Qed.

Lemma fetch_block_quiet n w : preserves (quiet w) (fetch_block n).
Proof. unfold fetch_block. apply preserves_bind; [stays|intros [h|]; stays]. Qed.

Lemma fetch_block_number n w w' b : fetch_block n w = (w', Ok (Some b)) -> header_number b = n.
Proof.
  unfold fetch_block, mapi. intros (s1 & h & Hh & Hrun)%mbind_ok.
  destruct (get_block_hash n (api_state w)) as [a1 o1] eqn:Ha1. injection Hh as <- ->.
  destruct h as [h|]; [|done]. unfold mlift, mbind in Hrun. cbn [api_state with_api] in Hrun.
  destruct (h256_from_str h) as [hash|] eqn:Hhash; [|done]. cbn [ok_or] in Hrun.
  cbn [api_state with_api] in Hrun. destruct (blocks_at hash a1) as [a2 [b'|?|]] eqn:Ha2; [|done..].
  injection Hrun as _ ->. by eapply block_of_number.
Qed.

(** A block that the stream yields is processed once; the processor signals only if
    it has marked the block. *)
Lemma yield_block_spec n w :
  channel w = [] ->
  let w' := fst (yield_block n w) in
  processed w' = processed w /\ channel w' = [] /\ accepted w' = accepted w \/
  processed w' = processed w ++ [n] /\
  (channel w' = [] /\ accepted w' = accepted w \/ channel w' = [true] /\ accepted w' = accepted w ++ [n]).
Proof.
  intros Hc. unfold yield_block, mbind, mtry, mmodify.
  pose proof (fetch_block_quiet n w w ltac:(done)) as Hq.
  destruct (fetch_block n w) as [w1 o] eqn:Hrun. cbn [fst] in Hq.
  destruct Hq as (Hc1 & Hp1 & Hs1). rewrite Hc in Hc1.
  assert (accepted w1 = accepted w) as Ha1 by (unfold accepted; by rewrite Hs1).
  destruct o as [[b|]|e|]; cbn [fst mret]; [|by left..].
  apply fetch_block_number in Hrun.
  destruct (process_block_stepped b (log_processed n w1)) as (Hp2 & Hc2). rewrite Hrun in Hc2.
  change (accepted (log_processed n w1)) with (accepted w1) in Hc2.
  cbn [processed channel log_processed] in *. rewrite Hc1, Ha1 in Hc2. rewrite Hp1 in *.
  right. by split.
Qed.

(** Up to block [n], all blocks are processed and marked, after those that were marked
    before the process. *)
Definition followed (before : list Z) (start n : Z) (w : World) : Prop :=
  processed w = seqZ start (n - start + 1) /\ accepted w = before ++ seqZ start (n - start + 1).

(** Up to some block all blocks are processed, and they are marked but perhaps the last. *)
Definition in_order (before : list Z) (start : Z) (w : World) : Prop :=
  exists k j, 0 <= j /\ j <= k <= j + 1 /\ processed w = seqZ start k /\
    accepted w = before ++ seqZ start j.

Definition signalled (before : list Z) (start n : Z) (w : World) : Prop :=
  channel w = [] /\ in_order before start w \/ channel w = [true] /\ followed before start n w.

Lemma followed_in_order before start n w :
  start - 1 <= n -> followed before start n w -> in_order before start w.
Proof. intros Hn [Hp Hm]. exists (n - start + 1), (n - start + 1). split_and!; lia || done. Qed.

Lemma yield_block_signalled before start n w :
  start <= n -> channel w = [] -> followed before start (n - 1) w ->
  signalled before start n (fst (yield_block n w)).
Proof.
  intros Hn Hc [Hp Hm]. pose proof (yield_block_spec n w Hc) as Hy. cbv zeta in *.
  set (w' := fst (yield_block n w)) in *.
  replace (n - 1 - start + 1) with (n - start) in * by lia.
  assert (seqZ start (n - start) ++ [n] = seqZ start (n - start + 1)) as Hseq.
  { rewrite (seqZ_app start (n - start) 1) by lia. f_equal.
    change (seqZ ?a 1) with [a]. f_equal. lia. }
  destruct Hy as [(Hp' & Hc' & Ha')|[Hp' [[Hc' Ha']|[Hc' Ha']]]]; rewrite Hp in Hp'; rewrite Hm in Ha'.
  - left. split; [done|]. exists (n - start), (n - start). split_and!; lia || done.
  - left. split; [done|]. exists (n - start + 1), (n - start). rewrite Hp'. split_and!; lia || done.
  - right. split; [done|]. split; [by rewrite Hp'|]. by rewrite Ha', <- app_assoc, Hseq.
Qed.

Lemma signalled_in_order before start n w :
  start - 1 <= n -> signalled before start n w -> in_order before start w.
Proof. intros Hn [[_ Ho]|[_ Hf]]; [done|by eapply followed_in_order]. Qed.

Lemma stream_loop_in_order fuel before start n w :
  0 <= start <= n -> n + Z.of_nat fuel < 2 ^ 32 -> signalled before start n w ->
  in_order before start (fst (stream_loop fuel n w)).
Proof.
  revert n w. induction fuel as [|fuel IH]; intros n w Hn Hlt Hw; cbn [stream_loop].
  { eapply signalled_in_order; [|done]. lia. }
  unfold mbind at 1, mget. destruct Hw as [[Hc Ho]|[Hc Hf]]; rewrite Hc; [done|].
  unfold mbind at 1, mmodify. rewrite Z.mod_small by lia.
  pose proof (yield_block_signalled before start (n + 1) (with_channel [] w)) as Hy.
  unfold mbind. destruct (yield_block (n + 1) _) as [w1 o].
  assert (signalled before start (n + 1) w1) as Hw1.
  { apply Hy; [lia|done|]. by replace (n + 1 - 1) with n by lia. }
  destruct o; [apply IH; [lia..|done]|eapply signalled_in_order; [|done]; cbn; lia..].
Qed.

Lemma run_in_order start fuel w :
  0 <= start -> start + Z.of_nat fuel < 2 ^ 32 -> channel w = [] -> processed w = [] ->
  in_order (accepted w) start (fst (run start fuel w)).
Proof.
  intros Hs Hlt Hc Hp.
  assert (signalled (accepted w) start start (fst (yield_block start w))) as Hy.
  { apply yield_block_signalled; [lia|done|]. split; rewrite ?Hp;
      replace (start - 1 - start + 1) with 0 by lia; [done|by rewrite app_nil_r]. }
  unfold run, mbind. destruct (yield_block start w) as [w1 o].
  destruct o; [by apply stream_loop_in_order; [lia..|]|eapply signalled_in_order; [|done]; lia..].
Qed.


(** ** Stalls *)

Lemma fetch_missing_block n w a :
  get_block_hash n (api_state w) = (a, Ok None) -> yield_block n w = (with_api a w, Ok tt).
Proof. intros Hn. unfold yield_block, fetch_block, mbind, mtry, mapi. by rewrite Hn. Qed.

Lemma wait_without_signal n fuel w w1 :
  channel w = [true] -> 0 <= n < 2 ^ 32 - 1 ->
  yield_block (n + 1) (with_channel [] w) = (w1, Ok tt) -> channel w1 = [] ->
  stream_loop (2 + fuel) n w = (w1, Ok (Waiting (n + 1))).
Proof.
  intros Hc Hn Hy Hc1. cbn [stream_loop Nat.add]. unfold mbind, mget, mmodify. rewrite Hc.
  rewrite Z.mod_small by lia. by rewrite Hy, Hc1.
Qed.

(** Once the signal for a block is received and the chain does not have the next
    block yet, the process waits for ever: nothing asks for the block again. *)
Theorem stream_stalls_at_head n fuel w a :
  channel w = [true] -> 0 <= n < 2 ^ 32 - 1 ->
  get_block_hash (n + 1) (api_state w) = (a, Ok None) ->
  stream_loop (2 + fuel) n w = (with_channel [] (with_api a w), Ok (Waiting (n + 1))).
Proof.
  intros Hc Hn Hh. apply wait_without_signal; [done..| |done].
  by apply (fetch_missing_block (n + 1) (with_channel [] w)).
Qed.

(** A block that is not marked, because one of the calls for it failed, is not tried
    again: the process waits for a signal that nothing sends. *)
Theorem unmarked_block_stalls n fuel w w1 :
  channel w = [true] -> 0 <= n < 2 ^ 32 - 1 ->
  yield_block (n + 1) (with_channel [] w) = (w1, Ok tt) ->
  (forall nonce, (n + 1, nonce, true) ∉ submissions w1) ->
  stream_loop (2 + fuel) n w = (w1, Ok (Waiting (n + 1))).
Proof.
  intros Hc Hn Hy Hm. apply wait_without_signal; [done..|].
  pose proof (yield_block_spec (n + 1) (with_channel [] w) eq_refl) as Hc1. rewrite Hy in Hc1.
  destruct Hc1 as [(_ & Hc1 & _)|[_ [[Hc1 _]|[_ Ha]]]]; [done..|].
  destruct (proj1 (accepted_elem (n + 1) w1)) as [k Hk]; [|by destruct (Hm k)].
  cbn [fst] in Ha. rewrite Ha. apply elem_of_app. right. by apply list_elem_of_singleton.
Qed.
End order.

(** ** A concrete chain *)

Module ForwarderExamples.
#[local] Existing Instance sample_config.
#[local] Existing Instance TreeExamples.ident_codec.
#[local] Existing Instance TreeExamples.data_codec.
#[local] Existing Instance TreeExamples.pair_codec.
#[local] Existing Instance TreeExamples.blake2_128_concat.
#[local] Existing Instance TreeExamples.list_tree.
#[local] Existing Instance RpcExamples.account_codec.
#[local] Existing Instance RpcExamples.prefixes.
#[local] Existing Instance WatcherExamples.backend.
#[local] Instance info_codec : Codec ContractInfo :=
  TreeExamples.countable_codec (H := TreeExamples.info_countable).

(** A lock is 25 bytes: its name, its amount and its reasons. *)
Definition encode_lock (l : BalanceLock) : bytes :=
  take 8 (lock_id l ++ replicate 8 x00) ++ le_bytes 16 (amount l) ++
  [match reasons l with FeeReason => x00 | MiscReason => x01 | AllReason => x02 end].
Definition decode_lock (l : bytes) : BalanceLock :=
  mkBalanceLock (take 8 l) (le_val (take 16 (drop 8 l)))
    (match drop 24 l with x00 :: _ => FeeReason | x01 :: _ => MiscReason | _ => AllReason end).
Fixpoint decode_n_locks (n : nat) (l : bytes) : option (list BalanceLock * bytes) :=
  match n with
  | O => Some ([], l)
  | S n =>
      if (length l <? 25)%nat then None
      else
        match decode_n_locks n (drop 25 l) with
        | Some (ls, r) => Some (decode_lock (take 25 l) :: ls, r)
        | None => None
        end
  end.

#[local] Instance locks_scale : LocksScale := {|
  encode_locks l :=
    let n := Z.of_nat (length l) in
    (if n <? 64 then [byte_of (4 * n)] else le_bytes 2 (4 * n + 1)) ++ (l ≫= encode_lock);
  encode_option_locks o :=
    match o with
    | None => [x00]
    | Some l =>
        let n := Z.of_nat (length l) in
        x01 :: (if n <? 64 then [byte_of (4 * n)] else le_bytes 2 (4 * n + 1)) ++ (l ≫= encode_lock)
    end;
  decode_locks l :=
    match l with
    | b0 :: r =>
        if byte_val b0 mod 4 =? 0 then decode_n_locks (Z.to_nat (byte_val b0 / 4)) r
        else
          match r with
          | b1 :: r => if byte_val b0 mod 4 =? 1
                       then decode_n_locks (Z.to_nat ((byte_val b0 + 256 * byte_val b1) / 4)) r
                       else None
          | [] => None
          end
    | [] => None
    end;
|}.

Lemma encode_lock_length l : length (encode_lock l) = 25%nat.
Proof.
  unfold encode_lock. rewrite !length_app, length_take, length_app, length_replicate, le_bytes_length.
  cbn [length]. lia.
Qed.

Lemma decode_n_locks_length n l ls r :
  decode_n_locks n l = Some (ls, r) ->
  length ls = n /\ length l = (25 * n + length r)%nat.
Proof.
  revert l ls. induction n as [|n IH]; intros l ls; cbn [decode_n_locks]; [intros [= <- <-]; cbn; lia|].
  destruct (Nat.ltb_spec (length l) 25); [done|].
  destruct (decode_n_locks n (drop 25 l)) as [[ls' r']|] eqn:Hd; [|done]. intros [= <- <-].
  apply IH in Hd as [<- Hl]. rewrite length_drop in Hl. cbn. lia.
Qed.

#[local] Instance locks_scale_laws : LocksScaleLaws.
Proof.
  split; [done|done| |done|].
  - intros l Hl. exists (l ≫= encode_lock). cbn [encode_locks locks_scale].
    rewrite (proj2 (Z.ltb_lt _ _)) by lia. split; [done|].
    clear Hl. induction l as [|b l IH]; [done|].
    rewrite bind_cons, length_app, encode_lock_length, IH. cbn [length]. lia.
  - intros b0 b1 r l rest H1. cbn [decode_locks locks_scale]. rewrite H1. cbn [Z.eqb Pos.eqb].
    intros [Hn Hr]%decode_n_locks_length. pose proof (byte_val_range b0). pose proof (byte_val_range b1).
    rewrite <- Hn in Hr. split; [|done]. rewrite Hn, Z2Nat.id; [done|]. apply Z.div_pos; lia.
Qed.

(** Twelve blocks, whose hashes are the bytes of their numbers.  Block 10 has an
    attestation of block 9, in which an account unbonds.  The state counts the
    transactions; every third one fails. *)
Definition staker_account : @AccountId sample_config := replicate 12 x00 ++ replicate 20 x07.
Definition attestation_of_9 : BlockAttested :=
  mkBlockAttested _ 9 (@EthereumAttestation (@Hash sample_config)
    (mkEthereumSignature (replicate 32 x00) (replicate 32 x00) 0) [] (replicate 20 x00)
    (replicate 32 x00) 9 ([byte_of 9] : bytes)).
#[local] Instance twelve_blocks : ForwarderClient := {|
  ApiState := Z;
  get_block_hash n a := (a, Ok (if bool_decide (0 <= n < 12) then Some [byte_of n] else None));
  h256_from_str h := Some h;
  invalid_hash_error := tt;
  blocks_at h a :=
    (a, match h with [b] => Ok (mkHeader sample_config (byte_val b) h) | _ => Err tt end);
  block_events b a :=
    (a, Ok (if header_number b =? 10 then [EvOther; EvBlockAttested attestation_of_9]
            else if header_number b =? 9 then [EvUnbonded staker_account 5] else []));
  fetch_locks _ who a :=
    (a, Ok (if bool_decide (who = staker_account) then Some TreeExamples.some_locks else None));
  submit_forwarded _ _ a := (a + 1, if a mod 3 =? 0 then Err tt else Ok tt);
  send_unstake _ a := (a, Ok tt);
|}.
#[local] Instance twelve_blocks_laws : ForwarderClientLaws.
Proof.
  split; cbn.
  - intros n k a. by destruct (_ =? _).
  - intros h who a l. case_bool_decide; [|done]. intros [= <-]. cbn. lia.
  - intros n a a1 h hash a2 b. case_bool_decide as Hn; [|done]. intros [= <- <-] [= <-] [= <- <-].
    cbn. rewrite byte_val_of, Z.mod_small; lia.
Qed.

Definition api_0 : @ApiState _ _ twelve_blocks := (0 : Z).
Definition world_0 : World := mkWorld _ _ _ api_0 [] [] [] [] 7.
Definition world_signalled : World := mkWorld _ _ _ api_0 [] [] [true] [] 7.

Lemma mark_block_forwarded_spec_witness :
  exists j, (j <= 3)%nat /\
    (fst <$> submissions (fst (mark_block_forwarded 5 7 world_0))) =
      ((fun x => (5, 7 + Z.of_nat x)) <$> seq 0 (S j)).
Proof.
  pose proof (mark_block_forwarded_spec 5 7 world_0 ltac:(lia) ltac:(lia)) as Hs.
  destruct (mark_block_forwarded 5 7 world_0) as [w' o]. destruct Hs as (j & Hj & Hs & _).
  exists j. cbn [fst]. rewrite Hs. cbn [submissions world_0 app].
  by rewrite <- list_fmap_compose.
Defined.

Lemma no_unstake_forwarded_witness : unstakes (fst (run 8 20 world_0)) = [].
Proof. exact (no_unstake_forwarded 8 20 world_0). Defined.

Lemma unstake_of_locked_account_panics_witness :
  process_unstake attestation_of_9 staker_account TreeExamples.stored_info ([] : list bytes) []
    (mkHeader _ 9 ([byte_of 9] : bytes)) world_0 = (with_api api_0 world_0, Panic).
Proof.
  apply (unstake_of_locked_account_panics _ _ _ _ _ _ world_0 api_0 TreeExamples.some_locks);
    [|done]. vm_compute. reflexivity.
Defined.


Lemma stream_stalls_at_head_witness :
  stream_loop 30 11 world_signalled =
    (with_channel [] (with_api api_0 world_signalled), Ok (Waiting 12)).
Proof. apply (stream_stalls_at_head 11 28 world_signalled api_0); [done|lia|done]. Defined.

Lemma unmarked_block_stalls_witness :
  stream_loop 30 11 world_signalled = (with_channel [] world_signalled, Ok (Waiting 12)).
Proof.
  apply (unmarked_block_stalls 11 28 world_signalled (with_channel [] world_signalled));
    [done|lia|done|]. intros nonce. apply not_elem_of_nil.
Defined.

(** The run that meets the unbonding: it takes blocks 8, 9 and 10 and panics. *)
Example unbonding_panics :
  let '(w', o) := run 8 20 world_0 in
  (processed w', unstakes w', match o with Panic => true | _ => false end) = ([8; 9; 10], [], true).
Proof. vm_compute. reflexivity. Qed.
End ForwarderExamples.
