(* ===== verification/TranslationLayer.v ===== *)
(** * translation-layer

    The HTTP service that turns requests into transactions and answers queries.  The
    client of the chain is a class; the state of the service is the nonce of each
    network's submitter, the transactions it has sent and the history of their
    statuses.  Theorems: what a request for a contract is turned into and when it is
    refused; the tables of a request, in order, or no transaction at all; the
    attempts and nonces of a submission; what the status queries report; and that a
    contract cannot be removed or found by the address it was added with. *)

From stdpp Require Import base tactics option gmap strings numbers list.
From Stdlib Require Import ZArith Lia.
From Stdlib Require Import Strings.Byte.
From S2P Require Import Prelude Bytes Text Types CommitmentScheme CommitmentMap Runtime Sample.
From S2P Require Import SqlAst TablesSql ProofOfSql PlainCommitment CommitmentSql PalletPermissions.
From S2P Require Import PalletTables PalletSmartContracts.

(** ** model.rs *)

Record EventMapping := mkEventMapping {
  mapping_name : bytes;
  mapping_signature : bytes;
  mapping_table : bytes;
}.

Inductive ApiTableType := ApiCoreBlockchain | ApiSCI | ApiCommunity.
Inductive ApiCommitmentScheme := ApiHyperKzg | ApiDynamicDory.
Inductive ChainSource :=
| ChainEthereum
| ChainSepolia
| ChainBitcoin
| ChainPolygon
| ChainZkSyncEra
| ChainUserCreated (s : bytes).

Definition table_type_to_runtime (t : ApiTableType) : TableType :=
  match t with
  | ApiCoreBlockchain => CoreBlockchain
  | ApiSCI => SCI
  | ApiCommunity => Community
  end.
Definition table_type_from_runtime (rt : TableType) : ApiTableType :=
  match rt with
  | CoreBlockchain => ApiCoreBlockchain
  | SCI => ApiSCI
  | Community => ApiCommunity
  | _ => ApiCoreBlockchain
  end.
Definition chain_source_to_runtime (api : ChainSource) : Source :=
  match api with
  | ChainEthereum => Ethereum
  | ChainSepolia => Sepolia
  | ChainBitcoin => Bitcoin
  | ChainPolygon => Polygon
  | ChainZkSyncEra => ZkSyncEra
  | ChainUserCreated s => Source_UserCreated s
  end.

Record TableRequest := mkTableRequest {
  tr_table_type : ApiTableType;
  tr_table_name : bytes;
  tr_schema_name : bytes;
  tr_ddl_statement : bytes;
  tr_commitment : option bytes;
  tr_snapshot_url : option bytes;
  tr_commitment_scheme : option ApiCommitmentScheme;
  tr_source : ChainSource;
}.

Inductive AddContractRequest :=
| AddNormal (source address : bytes) (abi : option bytes) (starting_block : option Z)
    (target_schema contract_name : option bytes) (events : list EventMapping)
    (ddl_statement : option bytes) (tables : list TableRequest)
| AddProxy (source address implementation_address : bytes) (abi : option bytes)
    (starting_block : option Z) (target_schema contract_name : option bytes)
    (events : list EventMapping) (ddl_statement : option bytes) (tables : list TableRequest).
Record RemoveContractRequest := mkRemoveContractRequest { rm_source : bytes; rm_address : bytes }.
Record DropTableRequest := mkDropTableRequest {
  drop_schema_name : bytes;
  drop_table_name : bytes;
  drop_source : ChainSource;
  drop_mode : bytes;
  drop_table_type : ApiTableType;
}.

Inductive ApiContract :=
| ApiNormal (source address : bytes) (abi : option bytes) (starting_block : option Z)
    (target_schema contract_name : option bytes) (events : list EventMapping)
    (ddl_statement : option bytes)
| ApiProxy (source address implementation_address : bytes) (abi : option bytes)
    (starting_block : option Z) (target_schema contract_name : option bytes)
    (events : list EventMapping) (ddl_statement : option bytes).

Record ApiResponse := mkApiResponse {
  success : bool;
  err_msg : option bytes;
  tx_hash : option bytes;
}.

Inductive ContractConversionError :=
| AddressTooLong
| ImplementationAddressTooLong
| AbiTooLarge
| TargetSchemaTooLong
| ContractNameTooLong
| HexConversionError
| DDLTooLarge.

Definition conversion_error_display (e : ContractConversionError) : bytes :=
  match e with
  | AddressTooLong => bs "Contract address exceeds 64 bytes"
  | ImplementationAddressTooLong => bs "Implementation address exceeds 64 bytes"
  | AbiTooLarge => bs "ABI exceeds 8192 bytes"
  | TargetSchemaTooLong => bs "Target schema exceeds 8192 bytes"
  | ContractNameTooLong => bs "Contract name exceeds 64 bytes"
  | HexConversionError => bs "HexConversionError"
  | DDLTooLarge => bs "DDL to large to fit in bounded vector"
  end.

(** ** utils.rs *)

(** [<[u8; 32]>::from_hex] refuses other lengths. *)
Definition parse_h256_from_hex (hex_str : bytes) : outcome bytes bytes :=
  let hex_str := trim_0x hex_str in
  match hex_decode hex_str with
  | Some b => if (length b =? 32)%nat then Ok b else Err (bs "Invalid hex string")
  | None => Err (bs "Invalid hex string")
  end.

Inductive StatusCode := BAD_REQUEST | NOT_FOUND | INTERNAL_SERVER_ERROR.
Definition failure_response (message : bytes) : ApiResponse := mkApiResponse false (Some message) None.
Definition bad_request (message : bytes) : StatusCode * ApiResponse :=
  (BAD_REQUEST, failure_response message).
Definition internal_server_error (message : bytes) : StatusCode * ApiResponse :=
  (INTERNAL_SERVER_ERROR, failure_response message).
Definition not_found (message : bytes) : StatusCode * ApiResponse :=
  (NOT_FOUND, failure_response message).

Definition convert_event_details_from_chain (event_details : option (list EventDetails))
    : list EventMapping :=
  match event_details with
  | Some bound_vec =>
      (fun event => mkEventMapping (from_utf8_lossy (event_name event))
        (from_utf8_lossy (event_signature event)) (from_utf8_lossy (event_table event))) <$> bound_vec
  | None => []
  end.
Definition convert_event_details_to_chain (events : list EventMapping) : option (list EventDetails) :=
  match events with
  | [] => None
  | _ => Some ((fun event => mkEventDetails (mapping_name event) (mapping_signature event)
           (mapping_table event)) <$> events)
  end.

Definition extract_param (params : gmap bytes bytes) (key : bytes)
    : outcome (StatusCode * ApiResponse) bytes :=
  ok_or (params !! key) (bad_request (bs "Missing required query parameter: " ++ key)).

Definition bytes_to_string (b : bytes) : bytes := from_utf8_lossy b.
Definition bytes_option_to_string (o : option bytes) : option bytes :=
  bytes_to_string <$> o.

Definition string_to_mode `{UnicodeData} (mode0 : bytes) : IndexerMode :=
  let mode := to_lowercase mode0 in
  if bool_decide (mode = bs "core") then Core
  else if bool_decide (mode = bs "full") then Full
  else if bool_decide (mode = bs "pricefeeds") || bool_decide (mode = bs "price_feeds") then PriceFeeds
  else if str_starts_with mode (bs "smartcontract:")
  then SmartContract (trim_start_matches (bs "smartcontract:") mode)
  else if str_starts_with mode (bs "usercreated:")
  then IndexerMode_UserCreated (trim_start_matches (bs "usercreated:") mode)
  else IndexerMode_UserCreated mode0.

Definition string_to_source `{UnicodeData} (source : bytes) : Source :=
  let source := to_lowercase source in
  if bool_decide (source = bs "ethereum") then Ethereum
  else if bool_decide (source = bs "sepolia") then Sepolia
  else if bool_decide (source = bs "bitcoin") then Bitcoin
  else if bool_decide (source = bs "polygon") then Polygon
  else if bool_decide (source = bs "zksyncera") then ZkSyncEra
  else Source_UserCreated source.

Definition source_to_string (source : Source) : bytes :=
  match source with
  | Ethereum => bs "Ethereum"
  | Sepolia => bs "Sepolia"
  | Bitcoin => bs "Bitcoin"
  | Polygon => bs "Polygon"
  | ZkSyncEra => bs "ZkSyncEra"
  | Source_UserCreated bounded_vec =>
      match from_utf8 bounded_vec with
      | Some custom_source => custom_source
      | None => bs "InvalidUserCreatedSource"
      end
  end.

Definition map_contract_to_api (contract : Contract) (source : Source) (address : bytes) : ApiContract :=
  match contract with
  | Normal c =>
      let d := normal_details c in
      ApiNormal (source_to_string source) (bytes_to_string address)
        (bytes_option_to_string (abi d)) (starting_block d)
        (bytes_option_to_string (target_schema d)) (bytes_option_to_string (contract_name d))
        (convert_event_details_from_chain (event_details d)) (Some [])
  | Proxy c =>
      let d := proxy_details c in
      let i := implementation_details (implementation c) in
      ApiProxy (source_to_string source) (bytes_to_string address)
        (bytes_to_string (contract_address i)) (bytes_option_to_string (abi i)) (starting_block d)
        (bytes_option_to_string (target_schema i)) (bytes_option_to_string (contract_name d))
        (convert_event_details_from_chain (event_details d)) (Some [])
  end.

(** ** Requests as calls *)

Section requests.
Context `{UnicodeData}.

Definition ABI_BOUND : nat := 32768.

Definition to_bounded (b : bytes) (max : nat) : option bytes :=
  if (max <? length b)%nat then None else Some b.

(** [match o { Some(s) if s.len() > max => return Err(e), ... }]. *)
Definition bounded_text (max : nat) (e : ContractConversionError) (o : option bytes)
    : outcome ContractConversionError (option bytes) :=
  match o with
  | Some s => if (max <? length s)%nat then Err e else Ok (Some s)
  | None => Ok None
  end.

(** The hex text of an address. *)
Definition address_from_hex (address : bytes) (too_long : ContractConversionError)
    : outcome ContractConversionError bytes :=
  let? address_bytes := ok_or (hex_decode (trim_0x address)) HexConversionError in
  ok_or (to_bounded address_bytes 64) too_long.

Definition contract_try_from (value : AddContractRequest)
    : outcome ContractConversionError (list TableRequest * Contract) :=
  match value with
  | AddNormal source address abi starting_block target_schema contract_name events ddl_statement
      tables =>
      let? address := address_from_hex address AddressTooLong in
      let? abi := bounded_text ABI_BOUND AbiTooLarge abi in
      let? target_schema := bounded_text IDENT_LENGTH TargetSchemaTooLong target_schema in
      let? contract_name := bounded_text IDENT_LENGTH ContractNameTooLong contract_name in
      let? ddl_statement := bounded_text CREATE_STMNT_LENGTH DDLTooLarge ddl_statement in
      Ok (tables, Normal (mkNormalContract (mkContractDetails (string_to_source source) address abi
        starting_block target_schema contract_name (convert_event_details_to_chain events)
        ddl_statement)))
  | AddProxy source address implementation_address abi starting_block target_schema contract_name
      events ddl_statement tables =>
      let? address := address_from_hex address AddressTooLong in
      let? implementation_address :=
        address_from_hex implementation_address ImplementationAddressTooLong in
      let? abi := bounded_text ABI_BOUND AbiTooLarge abi in
      let? target_schema := bounded_text IDENT_LENGTH TargetSchemaTooLong target_schema in
      let? contract_name := bounded_text IDENT_LENGTH ContractNameTooLong contract_name in
      let? ddl_statement := bounded_text CREATE_STMNT_LENGTH DDLTooLarge ddl_statement in
      let base_details := mkContractDetails (string_to_source source) address abi starting_block
        target_schema contract_name (convert_event_details_to_chain events) ddl_statement in
      let impl_details := mkContractDetails (string_to_source source) implementation_address None
        None None None (convert_event_details_to_chain events) None in
      Ok (tables, Proxy (mkProxyContract base_details (mkImplementationContract impl_details)))
  end.

(** *** table_builder.rs *)

Record TableBuilder := mkTableBuilder {
  builder_identifier : TableIdentifier;
  builder_ddl_statement : bytes;
  builder_table_type : TableType;
  builder_commitment_scheme : option ApiCommitmentScheme;
  builder_snapshot_url : option bytes;
  builder_commitment : option bytes;
  builder_source : ChainSource;
}.

(** [TableBuilder::new] and its setters, in the order in which the handlers call
    them. *)
Definition builder_new : TableBuilder :=
  mkTableBuilder (mkTableIdentifier [] []) [] CoreBlockchain None None None ChainEthereum.
Definition with_identifier (name namespace : bytes) (b : TableBuilder) : TableBuilder :=
  mkTableBuilder (mkTableIdentifier name namespace) (builder_ddl_statement b) (builder_table_type b)
    (builder_commitment_scheme b) (builder_snapshot_url b) (builder_commitment b) (builder_source b).
Definition with_ddl_statement (ddl : bytes) (b : TableBuilder) : TableBuilder :=
  mkTableBuilder (builder_identifier b) ddl (builder_table_type b) (builder_commitment_scheme b)
    (builder_snapshot_url b) (builder_commitment b) (builder_source b).
Definition with_table_type (t : TableType) (b : TableBuilder) : TableBuilder :=
  mkTableBuilder (builder_identifier b) (builder_ddl_statement b) t (builder_commitment_scheme b)
    (builder_snapshot_url b) (builder_commitment b) (builder_source b).
Definition with_source (s : ChainSource) (b : TableBuilder) : TableBuilder :=
  mkTableBuilder (builder_identifier b) (builder_ddl_statement b) (builder_table_type b)
    (builder_commitment_scheme b) (builder_snapshot_url b) (builder_commitment b) s.
Definition with_commitment_scheme (c : ApiCommitmentScheme) (b : TableBuilder) : TableBuilder :=
  mkTableBuilder (builder_identifier b) (builder_ddl_statement b) (builder_table_type b) (Some c)
    (builder_snapshot_url b) (builder_commitment b) (builder_source b).
Definition with_commitment (c : bytes) (b : TableBuilder) : TableBuilder :=
  mkTableBuilder (builder_identifier b) (builder_ddl_statement b) (builder_table_type b)
    (builder_commitment_scheme b) (builder_snapshot_url b) (Some c) (builder_source b).
Definition with_snapshot_url (u : bytes) (b : TableBuilder) : TableBuilder :=
  mkTableBuilder (builder_identifier b) (builder_ddl_statement b) (builder_table_type b)
    (builder_commitment_scheme b) (Some u) (builder_commitment b) (builder_source b).

(** [TableBuilder::add]: the table that is pushed to the creator's list. *)
Definition builder_add (b : TableBuilder) : UpdateTable :=
  let commitment :=
    match builder_commitment_scheme b, builder_commitment b, builder_snapshot_url b with
    | Some scheme, Some commitment, Some snapshot =>
        let bytes := mkTableCommitmentBytes commitment in
        let scheme : TableCommitmentBytesPerCommitmentScheme :=
          match scheme with
          | ApiHyperKzg => mkPer (Some bytes) None
          | ApiDynamicDory => mkPer None (Some bytes)
          end in
        FromSnapshot snapshot scheme
    | _, _, _ => EmptyCommitment (mkFlags true true)
    end in
  mkUpdateTable (builder_identifier b) (builder_ddl_statement b) (builder_table_type b) commitment
    (chain_source_to_runtime (builder_source b)).

(** The loop body of the handlers; the error is their answer. *)
Definition table_from_request (table : TableRequest) : outcome ApiResponse UpdateTable :=
  let builder := with_source (tr_source table) (with_table_type (table_type_to_runtime (tr_table_type table))
    (with_ddl_statement (tr_ddl_statement table)
      (with_identifier (tr_table_name table) (tr_schema_name table) builder_new))) in
  match tr_commitment table, tr_commitment_scheme table, tr_snapshot_url table with
  | Some commitment_hex, Some scheme, Some snapshot =>
      match hex_decode (trim_0x commitment_hex) with
      | Some decoded_commitment =>
          Ok (builder_add (with_snapshot_url snapshot (with_commitment decoded_commitment
            (with_commitment_scheme scheme builder))))
      | None => Err (failure_response (bs "Invalid hex commitment"))
      end
  | _, _, _ => Ok (builder_add builder)
  end.
End requests.

(** ** The service *)

(** The calls that are signed; the arguments of an attestation are in their SCALE form. *)
Inductive Payload :=
| TablesTx (c : tables_call)
| SmartContractsTx (c : smartcontracts_call)
| AttestBlockTx (block_number : Z) (attestation : bytes).

(** [subxt::tx::TxStatus]; a block is its hash. *)
Inductive TxStatus :=
| Validated
| Broadcasted (num_peers : Z)
| InBestBlock (block_hash : bytes)
| InFinalizedBlock (block_hash : bytes)
| NoLongerInBestBlock
| TxError (message : bytes)
| Dropped (message : bytes)
| Invalid (message : bytes).

(** The dispatch error of the generated runtime interface. *)
Inductive ChainDispatchError :=
| ModuleDispatchError (index error0 error1 error2 error3 : Z)
| OtherDispatchError.

(** What is read of the storage at a block: a contract, and the stream of a source's
    contracts. *)
Record ContractsAt (E : Type) := mkContractsAt {
  contract_at : Source -> bytes -> outcome E (option Contract);
  contracts_of : Source -> outcome E (list (outcome E Contract));
}.
Arguments contract_at {E} _ _ _.
Arguments contracts_of {E} _ _.

(** The [subxt] client: each call may find the chain in another state. *)
Class ChainClient := {
  ChainState : Type;
  ClientError : Type;
  client_error_text : ClientError -> bytes;
  other_error : bytes -> ClientError;
  (** [sign_and_submit_then_watch] with a nonce and a mortality. *)
  sign_and_submit : Payload -> Z -> option (Z * Z) -> M ChainState ClientError bytes;
  account_nonce : M ChainState ClientError (option Z);
  from_url : bytes -> M ChainState ClientError unit;
  storage_at_latest : M ChainState ClientError (ContractsAt ClientError);
  (** The extrinsics of a block: their hash and their events, of which only the
      failure of the extrinsic is read. *)
  block_extrinsics : bytes -> M ChainState ClientError
    (outcome ClientError (list (bytes * outcome ClientError
      (list (outcome ClientError (option ChainDispatchError))))));
  (** [pallet_by_index] and [error_variant_by_index]: name and documentation. *)
  error_variant : Z -> Z -> option (bytes * list bytes);
}.

Inductive Network := Mainnet | Testnet.

Section service.
Context `{UnicodeData} `{ChainClient}.

Inductive SubmitError :=
| FetchInitialNonceError (source : ClientError)
| TransactionError (source : ClientError).

Definition submit_error_display (e : SubmitError) : bytes :=
  match e with
  | FetchInitialNonceError source => bs "Error fetching initial nonce: " ++ client_error_text source
  | TransactionError source => bs "Error submitting tx: " ++ client_error_text source
  end.

Record Service := mkService {
  chain_state : ChainState;
  mainnet_nonce : option Z;
  testnet_nonce : option Z;
  (** The transactions sent, with their nonces, and whether they were accepted. *)
  sent : list (Payload * Z * bool);
  (** The channel to the progress database. *)
  updates : list (bytes * option Z);
}.
Definition submitter_nonce (net : Network) (s : Service) : option Z :=
  match net with Mainnet => mainnet_nonce s | Testnet => testnet_nonce s end.
Definition set_chain_state (c : ChainState) (s : Service) : Service :=
  mkService c (mainnet_nonce s) (testnet_nonce s) (sent s) (updates s).
Definition set_nonce (net : Network) (n : Z) (s : Service) : Service :=
  match net with
  | Mainnet => mkService (chain_state s) (Some n) (testnet_nonce s) (sent s) (updates s)
  | Testnet => mkService (chain_state s) (mainnet_nonce s) (Some n) (sent s) (updates s)
  end.
Definition log_sent (t : Payload * Z * bool) (s : Service) : Service :=
  mkService (chain_state s) (mainnet_nonce s) (testnet_nonce s) (sent s ++ [t]) (updates s).
Definition push_update (u : bytes * option Z) (s : Service) : Service :=
  mkService (chain_state s) (mainnet_nonce s) (testnet_nonce s) (sent s) (updates s ++ [u]).

Definition mchain {E A} (m : M ChainState E A) : M Service E A := fun s =>
  let '(c, o) := m (chain_state s) in (set_chain_state c s, o).

(** *** tx_submitter.rs *)

Definition MAX_RETRIES : nat := 3.

Definition is_stale_nonce_error (err : bytes) : bool :=
  str_contains err (bs "Priority is too low") || str_contains err (bs "Transaction is outdated") ||
  str_contains err (bs "Stale").
Definition is_background_disconnect (err : bytes) : bool :=
  str_contains err (bs "background task closed") || str_contains err (bs "connection closed") ||
  str_contains err (bs "restart required").

Definition fetch_initial_nonce : M Service SubmitError Z :=
  let* nonce := mmap_err FetchInitialNonceError (mchain account_nonce) in
  mret (default 0 nonce).

Definition try_reconnect (rpc_url : bytes) : M Service SubmitError unit :=
  mmap_err TransactionError (mchain (from_url rpc_url)).

Definition reconnect_and_refresh_nonce (net : Network) (rpc_url : bytes) : M Service SubmitError unit :=
  try_reconnect rpc_url ;;;
  let* refreshed_nonce := fetch_initial_nonce in
  mmodify (set_nonce net refreshed_nonce).

(** [TxSubmitter::new]. *)
Definition submitter_new (net : Network) : M Service SubmitError unit :=
  let* nonce := fetch_initial_nonce in
  mmodify (set_nonce net nonce).

(** What is done about an error before the next attempt. *)
Definition recover (net : Network) (rpc_url err_str : bytes) : M Service SubmitError unit :=
  if is_stale_nonce_error err_str then
    let* latest_nonce := fetch_initial_nonce in
    mmodify (set_nonce net latest_nonce)
  else if is_background_disconnect err_str then reconnect_and_refresh_nonce net rpc_url
  else mret tt.

Fixpoint submit_attempts (net : Network) (rpc_url : bytes) (tx : Payload) (mortality : option (Z * Z))
    (attempts : list nat) : M Service SubmitError bytes :=
  match attempts with
  | [] => mfail (TransactionError (other_error (bs "Exceeded retry limit")))
  | attempt :: attempts =>
      let* nonce_value := mget (fun s => default 0 (submitter_nonce net s)) in
      let block_number := fst <$> mortality in
      let* tx_result := mtry (mchain (sign_and_submit tx nonce_value mortality)) in
      match tx_result with
      | inl hash =>
          mmodify (log_sent (tx, nonce_value, true)) ;;;
          mmodify (set_nonce net ((nonce_value + 1) mod 2 ^ 64)) ;;;
          mmodify (push_update (hash, block_number)) ;;;
          mret hash
      | inr err =>
          mmodify (log_sent (tx, nonce_value, false)) ;;;
          if (attempt <? MAX_RETRIES)%nat then
            recover net rpc_url (client_error_text err) ;;;
            submit_attempts net rpc_url tx mortality attempts
          else mfail (TransactionError err)
      end
  end.

Definition submit_tx_get_hash_inner (net : Network) (rpc_url : bytes) (tx : Payload)
    (mortality : option (Z * Z)) : M Service SubmitError bytes :=
  submit_attempts net rpc_url tx mortality (seq 0 (MAX_RETRIES + 1)).
Definition submit_tx_get_hash (net : Network) (rpc_url : bytes) (tx : Payload)
    : M Service SubmitError bytes :=
  submit_tx_get_hash_inner net rpc_url tx None.
Definition submit_tx_get_hash_with_mortality (net : Network) (rpc_url : bytes) (tx : Payload)
    (from_block for_n_blocks : Z) : M Service SubmitError bytes :=
  submit_tx_get_hash_inner net rpc_url tx (Some (from_block, for_n_blocks)).

(** [format!("{:#x}", hash)]. *)
Definition show_hash (hash : bytes) : bytes := bs "0x" ++ hex_encode hash.

(** The end of the four handlers that submit. *)
Definition submit_response (net : Network) (rpc_url : bytes) (tx : Payload) : M Service unit ApiResponse :=
  let* submitter := mget (submitter_nonce net) in
  match submitter with
  | None => mret (failure_response (bs "TxSubmitter not configured for this network"))
  | Some _ =>
      let* r := mtry (submit_tx_get_hash net rpc_url tx) in
      match r with
      | inl hash => mret (mkApiResponse true None (Some (show_hash hash)))
      | inr err => mret (failure_response (bs "Error: " ++ submit_error_display err))
      end
  end.

(** *** api/tables.rs *)

Definition create_table (net : Network) (rpc_url : bytes) (request : list TableRequest)
    : M Service unit ApiResponse :=
  match collect table_from_request request with
  | Ok tables => submit_response net rpc_url (TablesTx (CreateTables tables))
  | Err response => mret response
  | Panic => mpanic
  end.

Definition drop_table_request (net : Network) (rpc_url : bytes) (request : DropTableRequest)
    : M Service unit ApiResponse :=
  submit_response net rpc_url (TablesTx (DropTable (table_type_to_runtime (drop_table_type request))
    (mkTableIdentifier (drop_table_name request) (drop_schema_name request))
    (chain_source_to_runtime (drop_source request)))).

(** *** api/smartcontracts.rs *)

Definition add_smartcontract_request (net : Network) (rpc_url : bytes) (request : AddContractRequest)
    : M Service unit ApiResponse :=
  match contract_try_from request with
  | Err e => mret (failure_response (bs "Invalid contract input: " ++ conversion_error_display e))
  | Panic => mpanic
  | Ok (tables, contract) =>
      match collect table_from_request tables with
      | Ok tables => submit_response net rpc_url (SmartContractsTx (AddSmartcontract contract tables))
      | Err response => mret response
      | Panic => mpanic
      end
  end.

Definition remove_smartcontract_request (net : Network) (rpc_url : bytes)
    (request : RemoveContractRequest) : M Service unit ApiResponse :=
  submit_response net rpc_url (SmartContractsTx
    (RemoveSmartcontract (string_to_source (rm_source request)) (rm_address request))).

Definition improperly_initialized : StatusCode * ApiResponse :=
  internal_server_error (bs "tx submitter improperly initialized").

Definition get_smartcontract (net : Network) (params : gmap bytes bytes)
    : M Service (StatusCode * ApiResponse) ApiContract :=
  let* source := mlift (extract_param params (bs "source")) in
  let* address := mlift (extract_param params (bs "address")) in
  let source := string_to_source source in
  let* submitter := mget (submitter_nonce net) in
  let* _ := mlift (ok_or submitter improperly_initialized) in
  let* storage := mmap_err (fun _ => internal_server_error (bs "Failed to access storage"))
    (mchain storage_at_latest) in
  let* contract := mlift (map_err (fun _ => not_found (bs "Contract not found"))
    (contract_at storage source address)) in
  let* contract := mlift (ok_or contract (not_found (bs "Contract not found"))) in
  mret (map_contract_to_api contract source address).

(** The values of the stream up to the first error. *)
Fixpoint take_ok {E A} (l : list (outcome E A)) : list A :=
  match l with
  | Ok a :: l => a :: take_ok l
  | _ => []
  end.

Definition get_smartcontracts (net : Network) (params : gmap bytes bytes)
    : M Service (StatusCode * ApiResponse) (list ApiContract) :=
  let* source := mlift (extract_param params (bs "source")) in
  let source := string_to_source source in
  let* submitter := mget (submitter_nonce net) in
  let* _ := mlift (ok_or submitter improperly_initialized) in
  let* storage := mmap_err (fun _ => internal_server_error (bs "Failed to access storage"))
    (mchain storage_at_latest) in
  let* contract_stream := mlift (map_err
    (fun err => internal_server_error (bs "Failed to get storage iterator: " ++ client_error_text err))
    (contracts_of storage source)) in
  let contracts := (fun value => map_contract_to_api value source
    (contract_address (contract_details value))) <$> take_ok contract_stream in
  match contracts with
  | [] => mfail (not_found (bs "No contracts found for the given source"))
  | _ => mret contracts
  end.

(** *** tx_progress.rs *)

(** One status that a task receives; the tasks of different transactions may
    interleave. *)
Definition record_status (tx_map : gmap bytes (list TxStatus)) (event : bytes * TxStatus)
    : gmap bytes (list TxStatus) :=
  let '(hash, status) := event in
  let tx_hash := show_hash hash in
  <[tx_hash := default [] (tx_map !! tx_hash) ++ [status]]> tx_map.
Definition run_progress_db (events : list (bytes * TxStatus)) : gmap bytes (list TxStatus) :=
  foldl record_status ∅ events.
Definition get_history (tx_map : gmap bytes (list TxStatus)) (tx_hash : bytes) : option (list TxStatus) :=
  tx_map !! tx_hash.

(** *** api/extrinsics.rs *)

Record TxStatusDetails := mkTxStatusDetails {
  validated : bool;
  no_longer_in_best_block : bool;
  broadcasted_peers : option Z;
  in_best_block : option bytes;
  finalized_in_block : option bytes;
  dropped_message : option bytes;
  invalid_message : option bytes;
  error_message : option bytes;
}.

Definition apply_status (d : TxStatusDetails) (status : TxStatus) : TxStatusDetails :=
  let '(mkTxStatusDetails v n p b f dm im em) := d in
  match status with
  | Broadcasted num_peers => mkTxStatusDetails v n (Some num_peers) b f dm im em
  | InBestBlock block => mkTxStatusDetails v n p (Some (show_hash block)) f dm im em
  | InFinalizedBlock block => mkTxStatusDetails v n p b (Some (show_hash block)) dm im em
  | Dropped message => mkTxStatusDetails v n p b f (Some message) im em
  | Invalid message => mkTxStatusDetails v n p b f dm (Some message) em
  | TxError message => mkTxStatusDetails v n p b f dm im (Some message)
  | Validated => mkTxStatusDetails true n p b f dm im em
  | NoLongerInBestBlock => mkTxStatusDetails v true p b f dm im em
  end.

Definition no_status : TxStatusDetails :=
  mkTxStatusDetails false false None None None None None None.

Definition get_extrinsic_status (tx_map : gmap bytes (list TxStatus)) (params : gmap bytes bytes)
    : outcome (StatusCode * ApiResponse) TxStatusDetails :=
  let? tx_hash := extract_param params (bs "tx_hash") in
  match get_history tx_map tx_hash with
  | Some status_list => Ok (foldl apply_status no_status status_list)
  | None => Err (not_found (bs "Transaction not found"))
  end.

Record TxExecutionStatus := mkTxExecutionStatus {
  execution_success : bool;
  execution_details : option bytes;
}.

(** [join(" ")]. *)
Fixpoint join_space (l : list bytes) : bytes :=
  match l with
  | [] => []
  | [x] => x
  | x :: l => x ++ bs " " ++ join_space l
  end.

(** utils.rs: the pallet's name is the constant System. *)
Definition decode_system_module_error (dispatch_error : ChainDispatchError) : option bytes :=
  match dispatch_error with
  | ModuleDispatchError index error0 _ _ _ =>
      match error_variant index error0 with
      | Some (error_name, docs) =>
          Some (bs "Pallet: System, Error: " ++ error_name ++ bs " (" ++ join_space docs ++ bs ")")
      | None => None
      end
  | OtherDispatchError => None
  end.

(** The loop over the events of the extrinsic. *)
Fixpoint execution_status (events : list (outcome ClientError (option ChainDispatchError)))
    : outcome (StatusCode * ApiResponse) TxExecutionStatus :=
  match events with
  | [] => Ok (mkTxExecutionStatus true None)
  | event :: events =>
      let? failed := map_err (fun e => internal_server_error
        (bs "Failed to parse event: " ++ client_error_text e)) event in
      match failed with
      | Some dispatch_error =>
          match decode_system_module_error dispatch_error with
          | Some decoded_error => Ok (mkTxExecutionStatus false
              (Some (bs "Extrinsic execution failed: " ++ decoded_error)))
          | None => execution_status events
          end
      | None => execution_status events
      end
  end.

Definition get_extrinsic_status_in_block (params : gmap bytes bytes)
    : M Service (StatusCode * ApiResponse) TxExecutionStatus :=
  let* tx_hash := mlift (extract_param params (bs "tx_hash")) in
  let* tx_hash := mlift (map_err (fun e => bad_request (bs "Invalid tx_hash format: " ++ e))
    (parse_h256_from_hex tx_hash)) in
  let* block_hash := mlift (extract_param params (bs "block_hash")) in
  let* block_hash := mlift (map_err (fun e => bad_request (bs "Invalid block_hash format: " ++ e))
    (parse_h256_from_hex block_hash)) in
  let* extrinsics := mmap_err (fun e => internal_server_error
    (bs "Subxt error fetching block: " ++ client_error_text e)) (mchain (block_extrinsics block_hash)) in
  let* extrinsics := mlift (map_err (fun e => internal_server_error
    (bs "Subxt error fetching extrinsics: " ++ client_error_text e)) extrinsics) in
  match List.find (fun ext => bool_decide (fst ext = tx_hash)) extrinsics with
  | Some (_, events) =>
      let* events := mlift (map_err (fun e => internal_server_error
        (bs "Subxt error fetching events: " ++ client_error_text e)) events) in
      mlift (execution_status events)
  | None => mfail (not_found (bs "Transaction not found in the block"))
  end.
End service.

(** ** Requests *)

Definition request_source (r : AddContractRequest) : bytes :=
  match r with AddNormal s _ _ _ _ _ _ _ _ | AddProxy s _ _ _ _ _ _ _ _ _ => s end.
Definition request_address (r : AddContractRequest) : bytes :=
  match r with AddNormal _ a _ _ _ _ _ _ _ | AddProxy _ a _ _ _ _ _ _ _ _ => a end.
Definition request_tables (r : AddContractRequest) : list TableRequest :=
  match r with AddNormal _ _ _ _ _ _ _ _ t | AddProxy _ _ _ _ _ _ _ _ _ t => t end.
(** The texts of a request and their limits on the chain. *)
Definition request_texts (r : AddContractRequest) : list (option bytes * nat) :=
  match r with
  | AddNormal _ _ abi _ schema name _ ddl _ | AddProxy _ _ _ abi _ schema name _ ddl _ =>
      [(abi, ABI_BOUND); (schema, IDENT_LENGTH); (name, IDENT_LENGTH); (ddl, CREATE_STMNT_LENGTH)]
  end.
Definition request_addresses (r : AddContractRequest) : list bytes :=
  match r with
  | AddNormal _ a _ _ _ _ _ _ _ => [a]
  | AddProxy _ a i _ _ _ _ _ _ _ => [a; i]
  end.

Definition text_fits (t : option bytes * nat) : Prop := forall s, t.1 = Some s -> (length s <= t.2)%nat.
Definition address_fits (a : bytes) : Prop :=
  exists b, hex_decode (trim_0x a) = Some b /\ (length b <= 64)%nat.

(** A contract whose fields fit the chain's types, but for its events. *)
Definition details_fit (d : ContractDetails) : Prop :=
  (length (contract_address d) <= 64)%nat /\
  Forall text_fits [(abi d, ABI_BOUND); (target_schema d, IDENT_LENGTH);
    (contract_name d, IDENT_LENGTH); (ddl_statement d, CREATE_STMNT_LENGTH)].
Definition contract_fits (c : Contract) : Prop :=
  match c with
  | Normal c => details_fit (normal_details c)
  | Proxy c => details_fit (proxy_details c) /\
      details_fit (implementation_details (implementation c))
  end.

Section request_lemmas.
Context `{UnicodeData}.

Lemma bounded_text_cases max e o :
  bounded_text max e o = Ok o /\ text_fits (o, max) \/
  bounded_text max e o = Err e /\ ~ text_fits (o, max).
Proof.
  unfold bounded_text, text_fits. destruct o as [s|]; [|left; split; [done|by intros s [=]]].
  destruct (Nat.ltb_spec max (length s)); [right|left]; (split; [done|]).
  - intros Hf. specialize (Hf s eq_refl). cbn in Hf. lia.
  - by intros s' [= <-].
Qed.

Lemma address_from_hex_cases a e :
  (exists b, address_from_hex a e = Ok b /\ hex_decode (trim_0x a) = Some b /\ (length b <= 64)%nat) \/
  ((exists e', address_from_hex a e = Err e') /\ ~ address_fits a).
Proof.
  unfold address_from_hex, to_bounded, address_fits.
  destruct (hex_decode (trim_0x a)) as [b|]; cbn [obind ok_or].
  - destruct (Nat.ltb_spec 64 (length b)); cbn [ok_or]; [right; split; [eauto|]|left; eauto].
    intros (b' & [= <-] & ?). lia.
  - right. split; [eauto|]. by intros (b & [=] & _).
Qed.

(** Splits on the validation of every field. *)
Ltac validate_fields :=
  repeat match goal with
  | |- context [address_from_hex ?a ?e] =>
      let b := fresh "b" in let Hd := fresh "Hd" in let Hl := fresh "Hl" in let Hn := fresh "Hn" in
      destruct (address_from_hex_cases a e) as [(b & -> & Hd & Hl)|[[? ->] Hn]]; cbn [obind]
  | |- context [bounded_text ?m ?e ?o] =>
      let Hf := fresh "Hf" in
      destruct (bounded_text_cases m e o) as [[-> Hf]|[-> Hf]]; cbn [obind]
  end.

(** A request is accepted exactly if every address is the hex text of at most 64
    bytes and every other text is within the limit of the chain.  It then is turned
    into a contract of the source and the decoded address whose fields fit the
    chain's types; the tables are passed on. *)
Theorem contract_request_spec r :
  match contract_try_from r with
  | Ok (tables, c) =>
      Forall address_fits (request_addresses r) /\ Forall text_fits (request_texts r) /\
      tables = request_tables r /\ contract_fits c /\
      contract_source (contract_details c) = string_to_source (request_source r) /\
      hex_decode (trim_0x (request_address r)) = Some (contract_address (contract_details c))
  | Err _ => ~ (Forall address_fits (request_addresses r) /\ Forall text_fits (request_texts r))
  | Panic => False
  end.
Proof.
  destruct r; cbn [contract_try_from]; validate_fields; cbn [request_addresses request_texts];
    try (rewrite ?Forall_cons; intuition; fail).
  - rewrite !Forall_cons, Forall_nil. unfold address_fits. split_and!; eauto; try done.
    split; [done|]. by repeat (apply Forall_cons_2; [done|]).
  - rewrite !Forall_cons, Forall_nil. unfold address_fits. split_and!; eauto; try done.
    split; (split; [done|]); repeat (apply Forall_cons_2; [by first [done | intros s [=]]|]); done.
Qed.
End request_lemmas.

(** ** Submissions *)

(** Calls of the client return. *)
Class ChainClientLaws `{ChainClient} := {
  sign_and_submit_returns tx n m c : snd (sign_and_submit tx n m c) <> Panic;
  account_nonce_returns c : snd (account_nonce c) <> Panic;
  from_url_returns u c : snd (from_url u c) <> Panic;
}.

Section submission_lemmas.
Context `{UnicodeData} `{ChainClientLaws}.

(** What an error's handling leaves alone. *)
Definition recovered (net : Network) (s : Service) (r : Service * outcome SubmitError unit) : Prop :=
  sent (fst r) = sent s /\ updates (fst r) = updates s /\ snd r <> Panic /\
  (is_Some (submitter_nonce net s) -> is_Some (submitter_nonce net (fst r))).

Lemma fetch_nonce_run s :
  exists c, fst (fetch_initial_nonce s) = set_chain_state c s /\ snd (fetch_initial_nonce s) <> Panic.
Proof.
  unfold fetch_initial_nonce, mmap_err, mbind, mchain.
  pose proof (account_nonce_returns (chain_state s)) as Hn.
  destruct (account_nonce (chain_state s)) as [c [n|e|]]; [eauto..|done].
Qed.

Lemma submitter_nonce_set net n s : submitter_nonce net (set_nonce net n s) = Some n.
Proof. by destruct net. Qed.

Lemma refresh_recovered net s :
  recovered net s ((let* n := fetch_initial_nonce in mmodify (set_nonce net n)) s).
Proof.
  destruct (fetch_nonce_run s) as (c & Hs & Hp). unfold mbind, mmodify.
  destruct (fetch_initial_nonce s) as [s1 [n|e|]]; unfold recovered; cbn [fst snd] in *; subst; [..|done].
  - split_and!; [by destruct net..|done|]. intros _. rewrite submitter_nonce_set. eauto.
  - split_and!; [done..|]. by destruct net.
Qed.

Lemma recover_recovered net url err s : recovered net s (recover net url err s).
Proof.
  unfold recover. destruct (is_stale_nonce_error err); [apply refresh_recovered|].
  destruct (is_background_disconnect err); [|by split_and!].
  unfold reconnect_and_refresh_nonce, try_reconnect. unfold mbind at 1, mmap_err at 1, mchain at 1.
  pose proof (from_url_returns url (chain_state s)) as Hu.
  destruct (from_url url (chain_state s)) as [c [[]|e|]]; [|split_and!; [done..|by destruct net]|done].
  destruct (refresh_recovered net (set_chain_state c s)) as (Hs & Hup & Hp & Hn).
  split_and!; [done..|]. intros Hn'. apply Hn. by destruct net.
Qed.

(** The transactions [l] that a submission of [tx] sends. *)
Definition submitted (net : Network) (tx : Payload) (m : option (Z * Z)) (s : Service)
    (r : Service * outcome SubmitError bytes) (l : list (Payload * Z * bool)) : Prop :=
  sent (fst r) = sent s ++ l /\ Forall (fun t => t.1.1 = tx) l /\
  match snd r with
  | Ok hash => exists l' k, l = l' ++ [(tx, k, true)] /\ Forall (fun t => t.2 = false) l' /\
      submitter_nonce net (fst r) = Some ((k + 1) mod 2 ^ 64) /\
      updates (fst r) = updates s ++ [(hash, fst <$> m)]
  | Err _ => Forall (fun t => t.2 = false) l /\ updates (fst r) = updates s
  | Panic => False
  end.

Lemma submitted_after net tx m s s1 n r l :
  sent s1 = sent s ++ [(tx, n, false)] -> updates s1 = updates s ->
  submitted net tx m s1 r l -> submitted net tx m s r ((tx, n, false) :: l).
Proof.
  intros Hs Hu (Hsent & Htx & Ho). split_and!; [by rewrite Hsent, Hs, <- app_assoc|by constructor|].
  destruct (snd r) as [hash|e|]; [|destruct Ho as [Ho ->]; split; [by constructor|done]|done].
  destruct Ho as (l' & k & -> & Hl & Hn & Hup). exists ((tx, n, false) :: l'), k.
  rewrite Hup, Hu. by split_and!; [|constructor|..].
Qed.

Lemma submit_attempts_cons net url tx m i l s n :
  submitter_nonce net s = Some n ->
  submit_attempts net url tx m (i :: l) s =
  let s1 := set_chain_state (fst (sign_and_submit tx n m (chain_state s))) s in
  match snd (sign_and_submit tx n m (chain_state s)) with
  | Ok hash => (push_update (hash, fst <$> m)
      (set_nonce net ((n + 1) mod 2 ^ 64) (log_sent (tx, n, true) s1)), Ok hash)
  | Err e =>
      let s2 := log_sent (tx, n, false) s1 in
      if (i <? MAX_RETRIES)%nat
      then mbind (recover net url (client_error_text e)) (fun _ => submit_attempts net url tx m l) s2
      else (s2, Err (TransactionError e))
  | Panic => (s1, Panic)
  end.
Proof.
  intros Hn. cbn [submit_attempts]. unfold mbind at 1, mget. rewrite Hn.
  unfold mbind at 1, mtry, mchain. change (default 0 (Some n)) with n.
  destruct (sign_and_submit tx n m (chain_state s)) as [c [hash|e|]]; [done| |done].
  unfold mbind at 1, mmodify. by destruct (i <? MAX_RETRIES)%nat.
Qed.

Lemma submit_attempts_run net url tx m i d s n :
  (i + d = 3)%nat -> submitter_nonce net s = Some n ->
  exists l, submitted net tx m s (submit_attempts net url tx m (seq i (S d)) s) l /\
    (1 <= length l <= S d)%nat /\ exists b, head l = Some (tx, n, b).
Proof.
  revert i s n. induction d as [|d IH]; intros i s n Hi Hn; cbn [seq];
    rewrite (submit_attempts_cons _ _ _ _ _ _ _ _ Hn); cbv zeta;
    pose proof (sign_and_submit_returns tx n m (chain_state s)) as Hp;
    set (s1 := set_chain_state _ s); destruct (snd (sign_and_submit _ _ _ _)) as [hash|e|]; try done.
  1,3: exists [(tx, n, true)]; split; [|by split; [cbn; lia|eauto]];
    split_and!; [by destruct net|by repeat constructor|];
    exists [], n; split_and!; [done..|by destruct net|by destruct net].
  { assert (i = 3%nat) as -> by lia. exists [(tx, n, false)].
    split; [|by split; [cbn; lia|eauto]]. split_and!; by repeat constructor. }
  rewrite (proj2 (Nat.ltb_lt _ _)) by (unfold MAX_RETRIES; lia). set (s2 := log_sent _ _).
  pose proof (recover_recovered net url (client_error_text e) s2) as (Hs & Hu & Hr & Hn1).
  unfold mbind.
  destruct (recover net url (client_error_text e) s2) as [s3 [[]|e'|]]; cbn [fst snd] in *; [..|done].
  - destruct Hn1 as [n3 Hn3]; [by destruct net; cbn in *; rewrite Hn|].
    destruct (IH (S i) s3 n3 ltac:(lia) Hn3) as (l & Hl & Hlen & _).
    exists ((tx, n, false) :: l). split; [|by split; [cbn; lia|eauto]].
    eapply submitted_after; [..|exact Hl]; [by rewrite Hs|by rewrite Hu].
  - exists [(tx, n, false)]. split; [|by split; [cbn; lia|eauto]].
    split_and!; [by cbn; rewrite Hs|by repeat constructor|cbn]. split; [by repeat constructor|by rewrite Hu].
Qed.

(** A request of a configured network sends its transaction at least once and at
    most four times, first with the submitter's nonce, and stops at the first that
    the node accepts.  Then the nonce that was accepted is used up and the progress
    of the transaction is followed; otherwise nothing was accepted and nothing is
    followed.  It does not panic. *)
Theorem submission_spec net url tx m s n :
  submitter_nonce net s = Some n ->
  let '(s', o) := submit_tx_get_hash_inner net url tx m s in
  exists l, sent s' = sent s ++ l /\ (1 <= length l <= 4)%nat /\
    Forall (fun t => t.1.1 = tx) l /\ (exists b, head l = Some (tx, n, b)) /\
    match o with
    | Ok hash => exists l' k, l = l' ++ [(tx, k, true)] /\ Forall (fun t => t.2 = false) l' /\
        submitter_nonce net s' = Some ((k + 1) mod 2 ^ 64) /\
        updates s' = updates s ++ [(hash, fst <$> m)]
    | Err _ => Forall (fun t => t.2 = false) l /\ updates s' = updates s
    | Panic => False
    end.
Proof.
  intros Hn. destruct (submit_attempts_run net url tx m 0 3 s n eq_refl Hn) as (l & Hl & Hlen & Hh).
  unfold submit_tx_get_hash_inner. change (MAX_RETRIES + 1)%nat with 4%nat.
  destruct (submit_attempts net url tx m (seq 0 4) s) as [s' o]. destruct Hl as (Hs & Htx & Ho).
  cbn [fst snd] in *. exists l. split_and!; (done || lia).
Qed.
End submission_lemmas.

(** ** Handlers *)

Section handler_theorems.
Context `{UnicodeData} `{ChainClientLaws}.

(** What a handler that submits [tx] does. *)
Definition answered (net : Network) (tx : Payload) (s : Service)
    (r : Service * outcome unit ApiResponse) : Prop :=
  exists response l, snd r = Ok response /\ sent (fst r) = sent s ++ l /\ (length l <= 4)%nat /\
    Forall (fun t => t.1.1 = tx) l /\
    (success response = true <-> exists k, (tx, k, true) ∈ l).

Lemma no_accepted (tx : Payload) (l : list (Payload * Z * bool)) :
  Forall (fun t => t.2 = false) l -> ~ exists k, (tx, k, true) ∈ l.
Proof. rewrite Forall_forall. by intros Hl [k Hk%Hl]. Qed.

Lemma submit_response_answered net url tx s : answered net tx s (submit_response net url tx s).
Proof.
  unfold submit_response. unfold mbind at 1, mget.
  destruct (submitter_nonce net s) as [n|] eqn:Hn.
  2:{ eexists _, []. split_and!; [done|by rewrite app_nil_r|cbn; lia|done|cbn].
      split; [done|]. intros [k Hk]. by apply not_elem_of_nil in Hk. }
  destruct (submit_attempts_run net url tx None 0 3 s n eq_refl Hn) as (l & (Hs & Htx & Ho) & Hlen & _).
  unfold submit_tx_get_hash, submit_tx_get_hash_inner, mbind, mtry.
  change (MAX_RETRIES + 1)%nat with 4%nat.
  destruct (submit_attempts net url tx None (seq 0 4) s) as [s' [hash|e|]]; cbn [fst snd] in *; [..|done];
    eexists _, l; (split_and!; [done|done|lia|done|]); cbn [success failure_response].
  - destruct Ho as (l' & k & -> & _). split; [intros _; exists k|done]. apply elem_of_app. right.
    by apply list_elem_of_singleton.
  - destruct Ho as [Ho _]. split; [done|]. intros Hk. by apply no_accepted in Hk.
Qed.

(** A request for tables is answered.  Either every table converts, and what is sent,
    at most four times, is the call that creates them in their order, with success
    reported exactly if one transaction was accepted; or the commitment of some table
    is not hex text, and nothing is sent. *)
Theorem create_table_request_spec net url requests s :
  (exists tables, Forall2 (fun r t => table_from_request r = Ok t) requests tables /\
     answered net (TablesTx (CreateTables tables)) s (create_table net url requests s)) \/
  ((exists r c, r ∈ requests /\ tr_commitment r = Some c /\ hex_decode (trim_0x c) = None) /\
   create_table net url requests s = (s, Ok (failure_response (bs "Invalid hex commitment")))).
Proof.
  unfold create_table. destruct (collect table_from_request requests) as [tables|response|] eqn:Hc.
  - left. exists tables. split; [by apply collect_ok|apply submit_response_answered].
  - right. apply collect_err in Hc as (r & Hr & He). revert He. unfold table_from_request.
    destruct (tr_commitment r) as [c|] eqn:Hcom; [|done].
    destruct (tr_commitment_scheme r); [|done]. destruct (tr_snapshot_url r); [|done].
    destruct (hex_decode (trim_0x c)) eqn:Hhex; [done|]. intros [= <-]. eauto 10.
  - exfalso. revert Hc. apply collect_no_panic. intros r Hr. unfold table_from_request.
    repeat case_match; done.
Qed.

(** *** The address of a contract *)

(** The bytes of a text are not the text. *)
Lemma address_text_differs a b : hex_decode (trim_0x a) = Some b -> a <> [] -> b <> a.
Proof.
  intros Hd%hex_decode_length Hne ->. pose proof (trim_0x_length a). destruct a; [done|].
  cbn [length] in *. lia.
Qed.

Lemma request_key_differs r tables c :
  contract_try_from r = Ok (tables, c) -> request_address r <> [] ->
  (string_to_source (request_source r), request_address r) <> contract_key c.
Proof.
  intros Hr Hne. pose proof (contract_request_spec r) as Hs. rewrite Hr in Hs.
  destruct Hs as (_ & _ & _ & _ & _ & Ha). unfold contract_key. intros [= _ Heq].
  by apply address_text_differs in Ha.
Qed.
End handler_theorems.

(** A contract that was added on a request is not removed on the request to remove
    the contract of the same source and address: the address was decoded when the
    contract was added and is taken as text when it is removed.  The request only
    sends calls after which the contract is still stored. *)
Theorem removal_keeps_contract `{Config} `{UnicodeData} `{SqlParser} `{UuidRng} `{ProofOfSql}
    `{ChainClientLaws} (setups : PerCommitmentScheme PublicSetup) net url r tables c s origin st :
  contract_try_from r = Ok (tables, c) -> request_address r <> [] ->
  ContractStorage st !! contract_key c = Some c ->
  exists call,
    answered net (SmartContractsTx call) s (remove_smartcontract_request net url
      (mkRemoveContractRequest (request_source r) (request_address r)) s) /\
    ContractStorage (fst (dispatch_smartcontracts setups origin call st)) !! contract_key c = Some c.
Proof.
  intros Hr Hne Hst. eexists. split; [apply submit_response_answered|].
  unfold dispatch_smartcontracts, dispatch. cbn [rm_source rm_address].
  destruct (transactional_cases (remove_smartcontract origin (string_to_source (request_source r))
    (request_address r)) st) as [(s' & [] & Hrun & ->)|[-> _]]; [|done].
  apply remove_smartcontract_run in Hrun as []. cbn [fst]. rewrite removed_contracts, lookup_delete_ne; [done|].
  by eapply request_key_differs.
Qed.

(** Nor is it found: the answer to the query for its source and address is that of a
    contract that is not stored. *)
Theorem added_contract_not_found `{UnicodeData} `{ChainClientLaws} net r tables c params s n ch view :
  contract_try_from r = Ok (tables, c) -> request_address r <> [] ->
  params !! bs "source" = Some (request_source r) ->
  params !! bs "address" = Some (request_address r) ->
  submitter_nonce net s = Some n -> storage_at_latest (chain_state s) = (ch, Ok view) ->
  (forall src a, contract_at view src a =
     Ok (if bool_decide ((src, a) = contract_key c) then Some c else None)) ->
  get_smartcontract net params s =
    (set_chain_state ch s, Err (not_found (bs "Contract not found"))).
Proof.
  intros Hr Hne Hsrc Haddr Hn Hv Hc. unfold get_smartcontract, extract_param. rewrite Hsrc, Haddr.
  unfold mlift, mbind, mget, mmap_err, mchain. cbn [ok_or]. rewrite Hn. cbn [ok_or]. rewrite Hv.
  cbn [map_err]. rewrite Hc, bool_decide_false by (by eapply request_key_differs). done.
Qed.

(** ** Statuses *)

(** The statuses of a transaction among all events, in their order. *)
Definition statuses_of (hash : bytes) (events : list (bytes * TxStatus)) : list TxStatus :=
  (filter (fun e => e.1 = hash) events).*2.

Lemma show_hash_inj a b : show_hash a = show_hash b -> a = b.
Proof. intros [= Hab]. by apply hex_encode_inj. Qed.

Lemma run_progress_db_lookup hash events :
  run_progress_db events !! show_hash hash =
  match statuses_of hash events with [] => None | l => Some l end.
Proof.
  unfold run_progress_db. induction events as [|[h st] events IH] using rev_ind; [done|].
  rewrite foldl_snoc. unfold record_status, statuses_of in *. rewrite filter_app, fmap_app.
  destruct (decide (h = hash)) as [->|Hne].
  - rewrite lookup_insert_eq, IH, filter_cons_True by done. cbn [filter list_filter fmap list_fmap].
    destruct ((filter _ events).*2); done.
  - rewrite lookup_insert_ne by (intros ?%show_hash_inj; done).
    rewrite IH, filter_cons_False by done. by rewrite app_nil_r.
Qed.

Definition peers_of (s : TxStatus) : option Z := match s with Broadcasted n => Some n | _ => None end.
Definition best_of (s : TxStatus) : option bytes := match s with InBestBlock b => Some b | _ => None end.
Definition finalized_of (s : TxStatus) : option bytes :=
  match s with InFinalizedBlock b => Some b | _ => None end.
Definition dropped_of (s : TxStatus) : option bytes := match s with Dropped m => Some m | _ => None end.
Definition invalid_of (s : TxStatus) : option bytes := match s with Invalid m => Some m | _ => None end.
Definition error_of (s : TxStatus) : option bytes := match s with TxError m => Some m | _ => None end.

Definition status_summary (l : list TxStatus) : TxStatusDetails :=
  mkTxStatusDetails (existsb (fun s => match s with Validated => true | _ => false end) l)
    (existsb (fun s => match s with NoLongerInBestBlock => true | _ => false end) l)
    (last (omap peers_of l)) (show_hash <$> last (omap best_of l))
    (show_hash <$> last (omap finalized_of l)) (last (omap dropped_of l)) (last (omap invalid_of l))
    (last (omap error_of l)).

Lemma foldl_apply_status l : foldl apply_status no_status l = status_summary l.
Proof.
  induction l as [|s l IH] using rev_ind; [done|]. rewrite foldl_snoc, IH.
  unfold status_summary. rewrite !existsb_app, !omap_app.
  destruct s; cbn; rewrite ?orb_false_r, ?orb_true_r, ?app_nil_r, ?last_snoc; done.
Qed.

(** Whatever the order in which the statuses of all transactions arrive: the query for
    a transaction is answered exactly if it has a status, with the latest status of
    each kind that it has. *)
Theorem extrinsic_status_spec hash events params :
  params !! bs "tx_hash" = Some (show_hash hash) ->
  get_extrinsic_status (run_progress_db events) params =
  match statuses_of hash events with
  | [] => Err (not_found (bs "Transaction not found"))
  | l => Ok (status_summary l)
  end.
Proof.
  intros Hp. unfold get_extrinsic_status, extract_param, get_history. rewrite Hp. cbn [ok_or obind].
  rewrite run_progress_db_lookup. destruct (statuses_of hash events) eqn:Hs; [done|].
  by rewrite foldl_apply_status.
Qed.

Section execution.
Context `{ChainClient}.

(** The failures of an extrinsic that are reported. *)
Definition reported (e : outcome ClientError (option ChainDispatchError)) : option bytes :=
  match e with Ok (Some d) => decode_system_module_error d | _ => None end.

(** When all events of the extrinsic can be read, the answer is a failure exactly if
    some event is a module error that the metadata knows; it then names the first. *)
Theorem execution_status_spec events :
  Forall (fun e => is_ok e = true) events ->
  execution_status events = Ok (match head (omap reported events) with
    | Some decoded => mkTxExecutionStatus false (Some (bs "Extrinsic execution failed: " ++ decoded))
    | None => mkTxExecutionStatus true None
    end).
Proof.
  induction 1 as [|e events He _ IH]; [done|]. destruct e as [o|e|]; [|done..].
  cbn [execution_status map_err obind]. rewrite IH. destruct o as [d|]; [|done].
  change (omap reported (Ok (Some d) :: events)) with
    (match decode_system_module_error d with
     | Some y => y :: omap reported events
     | None => omap reported events
     end).
  by destruct (decode_system_module_error d).
Qed.

(** So an extrinsic that failed for another reason than an error of a module, such as
    a wrong origin, is reported as a success. *)
Theorem other_failure_reported_as_success :
  execution_status [Ok (Some OtherDispatchError)] = Ok (mkTxExecutionStatus true None).
Proof. done. Qed.
End execution.

(** ** Sources and events *)

(** The named sources are read from the text they are shown as. *)
Theorem source_round_trip `{UnicodeData} s :
  (forall name, s <> Source_UserCreated name) -> string_to_source (source_to_string s) = s.
Proof.
  intros Hs. destruct s; [..|by destruct (Hs name)]; unfold string_to_source; cbn [source_to_string];
    rewrite to_lowercase_ascii by done; done.
Qed.

(** Event mappings that are text come back from the chain as they were sent. *)
Theorem event_details_round_trip events :
  Forall (fun e => utf8_valid (mapping_name e) = true /\ utf8_valid (mapping_signature e) = true /\
    utf8_valid (mapping_table e) = true) events ->
  convert_event_details_from_chain (convert_event_details_to_chain events) = events.
Proof.
  intros Hv. destruct events as [|e events]; [done|]. unfold convert_event_details_to_chain.
  generalize dependent (e :: events). intros l Hv. cbn [convert_event_details_from_chain].
  rewrite <- list_fmap_compose. rewrite <- (list_fmap_id l) at 2. apply list_fmap_ext.
  intros i [n sg t] Hi. rewrite Forall_lookup in Hv. destruct (Hv _ _ Hi) as (Hn & Hs & Ht).
  cbn in *. by rewrite !from_utf8_lossy_valid.
Qed.

(** ** A concrete client *)

Module TranslationExamples.
#[local] Existing Instance ascii_unicode.
#[local] Existing Instance sample_config.
#[local] Existing Instance plain_proof_of_sql.
#[local] Existing Instance mini_sql.
#[local] Existing Instance plain_rng.

Definition token_address : bytes := bs "0xA0b86991c6218b36c1d19D4a2e9Eb0cE3606eB48".
Definition token_request : AddContractRequest :=
  AddNormal (bs "Ethereum") token_address None (Some 100) (Some (bs "TOKEN")) (Some (bs "token"))
    [mkEventMapping (bs "Transfer") (bs "Transfer(address,address,uint256)") (bs "TRANSFER")]
    (Some (bs "CREATE SCHEMA TOKEN")) [].
Definition token_contract : Contract :=
  match contract_try_from token_request with Ok (_, c) => c | _ => Normal (mkNormalContract
    (mkContractDetails Ethereum [] None None None None None None)) end.

(** The state counts the calls; every second submission is refused as stale, and the
    account's nonce is the count. *)
#[local] Instance counting_client : ChainClient := {|
  ChainState := Z;
  ClientError := bytes;
  client_error_text e := e;
  other_error e := e;
  sign_and_submit _ n _ c := (c + 1, if Z.even c then Err (bs "Stale") else Ok [byte_of n]);
  account_nonce c := (c + 1, Ok (Some (c mod 2 ^ 32)));
  from_url _ c := (c + 1, Ok tt);
  storage_at_latest c := (c, Ok (mkContractsAt _
    (fun src a => Ok (if bool_decide ((src, a) = contract_key token_contract)
                      then Some token_contract else None))
    (fun _ => Ok [Ok token_contract])));
  block_extrinsics _ c := (c, Ok (Ok []));
  error_variant _ _ := Some (bs "BadNonce", [bs "The nonce"; bs "is bad."]);
|}.
#[local] Instance counting_client_laws : ChainClientLaws.
Proof. split; intros; cbn; [by destruct (Z.even _)|done|done]. Qed.

Definition api_0 : ChainState := (0 : Z).
Definition service_0 : Service := mkService api_0 (Some 7) None [] [].
Definition drop_tx : Payload := TablesTx ClearTables.

Lemma submission_spec_witness :
  exists l, sent (fst (submit_tx_get_hash_inner Mainnet [] drop_tx None service_0)) = l /\
    (1 <= length l <= 4)%nat.
Proof.
  pose proof (submission_spec Mainnet [] drop_tx None service_0 7 eq_refl) as Hs.
  destruct (submit_tx_get_hash_inner Mainnet [] drop_tx None service_0) as [s' o].
  destruct Hs as (l & Hl & Hlen & _). exists l. by split.
Defined.

(** The refused submission, the refreshed nonce, another refusal and then success. *)
Example submission_run :
  let '(s', o) := submit_tx_get_hash_inner Mainnet [] drop_tx None service_0 in
  ((fun t => (t.1.2, t.2)) <$> sent s', mainnet_nonce s', is_ok o) =
    ([(7, false); (1, false); (3, false); (5, false)], Some 5, false).
Proof. vm_compute. reflexivity. Qed.

Definition a_table_request : TableRequest :=
  mkTableRequest ApiSCI (bs "TRANSFER") (bs "TOKEN") (bs "CREATE TABLE TOKEN.TRANSFER (A INT NOT NULL)")
    (Some (bs "0x0102")) (Some (bs "https://example.org")) (Some ApiDynamicDory) ChainEthereum.

Lemma create_table_request_spec_witness :
  exists tables, Forall2 (fun r t => table_from_request r = Ok t) [a_table_request] tables.
Proof.
  destruct (create_table_request_spec Mainnet [] [a_table_request] service_0)
    as [(tables & Ht & _)|[(r & c & Hr & Hc & Hh) _]]; [by exists tables|].
  apply list_elem_of_singleton in Hr as ->. injection Hc as <-. discriminate Hh.
Defined.

Definition with_token : Storage :=
  with_smartcontracts (pallet_smartcontracts.set_ContractStorage
    {[contract_key token_contract := token_contract]} (smartcontracts sample_storage)) sample_storage.

Lemma removal_keeps_contract_witness :
  exists call, ContractStorage (fst (dispatch_smartcontracts sample_setups Root call with_token)) !! contract_key token_contract = Some token_contract.
Proof.
  destruct (removal_keeps_contract sample_setups Mainnet [] token_request [] token_contract service_0
    Root with_token) as (call & _ & Hk); [done|done|apply lookup_insert_eq|].
  by exists call.
Defined.

Lemma added_contract_not_found_witness :
  snd (get_smartcontract Mainnet {[bs "source" := bs "Ethereum"; bs "address" := token_address]} service_0)
    = Err (not_found (bs "Contract not found")).
Proof.
  erewrite (added_contract_not_found Mainnet token_request [] token_contract _ service_0 7); [done..|].
  done.
Defined.

Lemma extrinsic_status_spec_witness :
  get_extrinsic_status (run_progress_db [([x01], Validated); ([x02], Validated);
      ([x01], InBestBlock [x0a]); ([x01], InBestBlock [x0b])])
    {[bs "tx_hash" := bs "0x01"]} =
  Ok (mkTxStatusDetails true false None (Some (bs "0x0b")) None None None None).
Proof.
  exact (extrinsic_status_spec [x01] [([x01], Validated); ([x02], Validated);
    ([x01], InBestBlock [x0a]); ([x01], InBestBlock [x0b])] {[bs "tx_hash" := bs "0x01"]} eq_refl).
Defined.

Lemma execution_status_spec_witness :
  execution_status [Ok None; Ok (Some OtherDispatchError); Ok (Some (ModuleDispatchError 3 1 0 0 0))] =
  Ok (mkTxExecutionStatus false (Some
    (bs "Extrinsic execution failed: Pallet: System, Error: BadNonce (The nonce is bad.)"))).
Proof. refine (execution_status_spec _ _). by repeat constructor. Defined.

Lemma source_round_trip_witness : string_to_source (source_to_string ZkSyncEra) = ZkSyncEra.
Proof. by apply (source_round_trip ZkSyncEra). Defined.

Lemma event_details_round_trip_witness :
  let events := [mkEventMapping (bs "Transfer") (bs "Transfer(address)") (bs "TRANSFER")] in
  convert_event_details_from_chain (convert_event_details_to_chain events) = events.
Proof. apply (event_details_round_trip [_]). by repeat constructor. Defined.

(** The source of a contract and the source of its tables differ in case. *)
Example user_sources_differ :
  string_to_source (bs "MyChain") = Source_UserCreated (bs "mychain") /\
  chain_source_to_runtime (ChainUserCreated (bs "MyChain")) = Source_UserCreated (bs "MyChain").
Proof. split; vm_compute; reflexivity. Qed.
End TranslationExamples.
