(* ===== verification/TranslationServer.v ===== *)
(** * The server of the translation layer

    The routes of translation-layer/src/main.rs and their documentation, the handlers
    that submit as one dispatcher, and [TxSubmitter::submit], which watches a
    transaction until it is finalized.  Theorems: a request for one network never
    changes the submitter of the other; every route is documented, and every
    documented path has a route but that of [get_smartcontracts]; and [submit] returns
    [Ok] exactly when one of at most four attempts with one nonce was accepted,
    whatever happens to the transaction afterwards. *)

From stdpp Require Import base tactics option gmap strings numbers list.
From Stdlib Require Import ZArith Lia.
From Stdlib Require Import Strings.Byte.
From S2P Require Import Prelude Bytes Text Types SqlAst Sample Runtime TablesSql ProofOfSql PlainCommitment.
From S2P Require Import PalletTables PalletSmartContracts TranslationLayer.

(** ** main.rs: routes *)

Inductive Method := GET | POST | OtherMethod.
Inductive Endpoint :=
| AddSmartcontractEp
| RemoveSmartcontractEp
| GetSmartcontractEp
| GetSmartcontractsEp
| CreateTableEp
| StatusInBlockEp
| StatusEp
| DropTableEp.

#[global] Instance Method_eq_dec : EqDecision Method.
Proof. solve_decision. Defined.
#[global] Instance Endpoint_eq_dec : EqDecision Endpoint.
Proof. solve_decision. Defined.
#[global] Instance Network_eq_dec : EqDecision Network.
Proof. solve_decision. Defined.

Definition common_routes : list (bytes * (Method * Endpoint)) :=
  [(bs "/add_smartcontract", (POST, AddSmartcontractEp));
   (bs "/remove_smartcontract", (POST, RemoveSmartcontractEp));
   (bs "/get_smartcontract", (GET, GetSmartcontractEp));
   (bs "/create_table", (POST, CreateTableEp));
   (bs "/get_extrinsic_status_in_block", (GET, StatusInBlockEp));
   (bs "/get_extrinsic_status", (GET, StatusEp));
   (bs "/drop_table", (POST, DropTableEp))].

Definition network_prefix (net : Network) : bytes :=
  match net with Mainnet => bs "/api/mainnet" | Testnet => bs "/api/testnet" end.

(** The routes of both networks, nested under their prefixes. *)
Definition nest (net : Network) : list (bytes * (Method * (Network * Endpoint))) :=
  (fun '(path, (m, ep)) => (network_prefix net ++ path, (m, (net, ep)))) <$> common_routes.
Definition app : list (bytes * (Method * (Network * Endpoint))) :=
  nest Mainnet ++ nest Testnet.

(** The handler of a request; the paths of the documentation's user interface are left
    out. *)
Definition route (m : Method) (path : bytes) : option (Network * Endpoint) :=
  match List.find (fun r => bool_decide (r.1 = path)) app with
  | Some (_, (m', h)) => if decide (m = m') then Some h else None
  | None => None
  end.

(** [ApiDoc]: the paths of its handlers' attributes. *)
Definition ApiDoc : gmap bytes (Method * Endpoint) :=
  list_to_map
    [(bs "/add_smartcontract", (POST, AddSmartcontractEp));
     (bs "/remove_smartcontract", (POST, RemoveSmartcontractEp));
     (bs "/get_smartcontract", (GET, GetSmartcontractEp));
     (bs "/get_smartcontracts", (GET, GetSmartcontractsEp));
     (bs "/create_table", (POST, CreateTableEp));
     (bs "/drop_table", (POST, DropTableEp));
     (bs "/get_extrinsic_status_in_block", (GET, StatusInBlockEp));
     (bs "/get_extrinsic_status", (GET, StatusEp))].

(** [AddRoutePrefixes::modify]. *)
Definition add_route_prefixes (paths : gmap bytes (Method * Endpoint)) : gmap bytes (Method * Endpoint) :=
  foldl (fun paths '(path, item) =>
    <[network_prefix Testnet ++ path := item]> (<[network_prefix Mainnet ++ path := item]> paths))
    ∅ (map_to_list paths).

(** ** The handlers that submit *)

Inductive SubmittingRequest :=
| CreateTableRequest (request : list TableRequest)
| DropTableReq (request : DropTableRequest)
| AddSmartcontractReq (request : AddContractRequest)
| RemoveSmartcontractReq (request : RemoveContractRequest).

Section server.
Context `{UnicodeData} `{ChainClient}.

Definition serve (net : Network) (rpc_url : bytes) (r : SubmittingRequest) : M Service unit ApiResponse :=
  match r with
  | CreateTableRequest request => create_table net rpc_url request
  | DropTableReq request => drop_table_request net rpc_url request
  | AddSmartcontractReq request => add_smartcontract_request net rpc_url request
  | RemoveSmartcontractReq request => remove_smartcontract_request net rpc_url request
  end.

(** ** tx_submitter.rs: [submit] *)

Inductive WatchError :=
| FetchEventsError (source : ClientError)
| ExtrinsicFailed.

(** The progress of a submitted transaction, as the stream gives it, and the names of
    pallet and variant of the events of a block that decode. *)
Context (tx_progress : bytes -> list (outcome ClientError TxStatus)).
Context (block_event_names : bytes -> outcome ClientError (list (option (bytes * bytes)))).

Fixpoint find_result (events : list (option (bytes * bytes))) : outcome WatchError unit :=
  match events with
  | [] => Err ExtrinsicFailed
  | Some (pallet_name, variant_name) :: events =>
      if bool_decide (pallet_name = bs "System") && bool_decide (variant_name = bs "ExtrinsicSuccess")
      then Ok tt
      else if bool_decide (pallet_name = bs "System") && bool_decide (variant_name = bs "ExtrinsicFailed")
      then Err ExtrinsicFailed
      else find_result events
  | None :: events => find_result events
  end.
Definition check_extrinsic_success (details : bytes) : outcome WatchError unit :=
  let? events := map_err FetchEventsError (block_event_names details) in
  find_result events.

(** Ends at the finalization, at an error of the stream, or with the stream; the result
    of the extrinsic is dropped. *)
Fixpoint watch_tx_progress (progress : list (outcome ClientError TxStatus)) : outcome SubmitError unit :=
  match progress with
  | [] => Ok tt
  | Ok (InFinalizedBlock details) :: _ =>
      match check_extrinsic_success details with Panic => Panic | _ => Ok tt end
  | Ok _ :: progress => watch_tx_progress progress
  | Err _ :: _ => Ok tt
  | Panic :: _ => Panic
  end.

Fixpoint submit_loop (net : Network) (tx : Payload) (attempts : list nat) : M Service SubmitError unit :=
  match attempts with
  | [] => mfail (TransactionError (other_error (bs "Unexpected transaction failure")))
  | attempt :: attempts =>
      let* nonce_value := mget (fun s => default 0 (submitter_nonce net s)) in
      let* r := mtry (mchain (sign_and_submit tx nonce_value None)) in
      match r with
      | inl hash =>
          mmodify (log_sent (tx, nonce_value, true)) ;;;
          mmodify (set_nonce net ((nonce_value + 1) mod 2 ^ 64)) ;;;
          mlift (watch_tx_progress (tx_progress hash))
      | inr err =>
          mmodify (log_sent (tx, nonce_value, false)) ;;;
          if (attempt <? MAX_RETRIES)%nat then submit_loop net tx attempts
          else mfail (TransactionError err)
      end
  end.
Definition submit (net : Network) (tx : Payload) : M Service SubmitError unit :=
  submit_loop net tx (seq 0 (MAX_RETRIES + 1)).
End server.

(** ** Routes *)

(** Every route is documented with its method under the prefix of its network, and every
    documented path leads to its handler, but that of [get_smartcontracts], which has no
    route with any method. *)
Definition documented : gmap bytes (Method * Endpoint) := add_route_prefixes ApiDoc.

Theorem routes_documented :
  Forall (fun r => let '(path, (m, (net, ep))) := r in
    documented !! path = Some (m, ep) /\ route m path = Some (net, ep)) app.
Proof. apply (bool_decide_unpack _). vm_compute. exact I. Qed.

Theorem documented_routed :
  map_Forall (fun path item => (snd <$> route item.1 path) =
    if decide (item.2 = GetSmartcontractsEp) then None else Some item.2) documented.
Proof. apply (bool_decide_unpack _). vm_compute. exact I. Qed.

Theorem get_smartcontracts_not_routed m net :
  documented !! (network_prefix net ++ bs "/get_smartcontracts") = Some (GET, GetSmartcontractsEp) /\
  route m (network_prefix net ++ bs "/get_smartcontracts") = None.
Proof. destruct net, m; vm_compute; done. Qed.

(** ** Networks *)

Definition other_network (net : Network) : Network :=
  match net with Mainnet => Testnet | Testnet => Mainnet end.

Section isolation.
Context `{UnicodeData} `{ChainClient} (net : Network) (x : option Z).

(** The nonce of the other network. *)
Definition other_kept (s : Service) : Prop := submitter_nonce (other_network net) s = x.

Lemma kept_chain {E A} (m : M ChainState E A) : preserves other_kept (mchain m).
Proof. intros s Hs. unfold mchain. destruct (m (chain_state s)). unfold other_kept in *. by destruct net. Qed.

Lemma kept_nonce {E} n : preserves (E := E) other_kept (mmodify (set_nonce net n)).
Proof. apply preserves_modify. intros s. unfold other_kept. by destruct net. Qed.

Lemma kept_sent {E} t : preserves (E := E) other_kept (mmodify (log_sent t)).
Proof. apply preserves_modify. intros s. unfold other_kept. by destruct net. Qed.

Lemma kept_update {E} u : preserves (E := E) other_kept (mmodify (push_update u)).
Proof. apply preserves_modify. intros s. unfold other_kept. by destruct net. Qed.

#[local] Hint Resolve kept_chain kept_nonce kept_sent kept_update : sxt.
#[local] Hint Resolve preserves_ret preserves_fail preserves_get preserves_lift : sxt.

Ltac kept :=
  repeat first
    [ lazymatch goal with |- preserves _ (mbind _ _) => apply preserves_bind; [|intros ?] end
    | apply preserves_map_err | apply preserves_try | progress eauto with sxt ].

Lemma kept_fetch_nonce : preserves other_kept fetch_initial_nonce.
Proof. unfold fetch_initial_nonce. kept. Qed.
#[local] Hint Resolve kept_fetch_nonce : sxt.

Lemma kept_recover url err : preserves other_kept (recover net url err).
Proof.
  unfold recover, reconnect_and_refresh_nonce, try_reconnect.
  destruct (is_stale_nonce_error err); [kept|]. destruct (is_background_disconnect err); kept.
Qed.
#[local] Hint Resolve kept_recover : sxt.

Lemma kept_attempts url tx m l : preserves other_kept (submit_attempts net url tx m l).
Proof.
  induction l as [|i l IH]; cbn [submit_attempts]; [kept|]. kept. destruct a0; [kept|].
  kept. destruct (_ <? _)%nat; kept.
Qed.
#[local] Hint Resolve kept_attempts : sxt.

Lemma kept_submit_response url tx : preserves other_kept (submit_response net url tx).
Proof.
  unfold submit_response, submit_tx_get_hash, submit_tx_get_hash_inner. kept.
  destruct a; kept. destruct a; kept.
Qed.

Lemma kept_serve url r : preserves other_kept (serve net url r).
Proof.
  destruct r; cbn [serve]; [unfold create_table|apply kept_submit_response|unfold add_smartcontract_request|
    apply kept_submit_response].
  - destruct (collect _ _); [apply kept_submit_response|apply preserves_ret|by intros s].
  - destruct (contract_try_from request) as [[tables contract]|e|]; [|apply preserves_ret|by intros s].
    destruct (collect _ _); [apply kept_submit_response|apply preserves_ret|by intros s].
Qed.
End isolation.

(** Whatever requests are served for one network, and whatever the chain answers, the
    submitter of the other network keeps its nonce. *)
Theorem networks_isolated `{UnicodeData} `{ChainClient} net url l s :
  submitter_nonce (other_network net)
    (foldl (fun s r => fst (serve net url r s)) s l) = submitter_nonce (other_network net) s.
Proof.
  revert s. induction l as [|r l IH]; intros s; [done|]. cbn [foldl]. rewrite IH.
  by apply (kept_serve net (submitter_nonce (other_network net) s)).
Qed.

(** ** [submit] *)

Section submit_theorems.
Context `{UnicodeData} `{ChainClientLaws} (tx_progress : bytes -> list (outcome ClientError TxStatus)).
Context (block_event_names : bytes -> outcome ClientError (list (option (bytes * bytes)))).

(** Streams and reads of events return. *)
Hypothesis progress_returns : forall hash, Panic ∉ tx_progress hash.
Hypothesis events_return : forall block, block_event_names block <> Panic.

Lemma find_result_no_panic l : find_result l <> Panic.
Proof. induction l as [|[[p v]|] l IH]; cbn; [done| |done]. repeat case_match; done. Qed.

Lemma watch_ok l : Panic ∉ l -> watch_tx_progress block_event_names l = Ok tt.
Proof.
  induction l as [|[st|e|] l IH]; intros Hl; cbn; [done| |done|by destruct Hl; left].
  rewrite not_elem_of_cons in Hl. destruct Hl as [_ Hl].
  destruct st; try by apply IH.
  unfold check_extrinsic_success. pose proof (events_return block_hash).
  destruct (block_event_names block_hash) as [l'| |]; cbn; [|done|done].
  pose proof (find_result_no_panic l'). by destruct (find_result l').
Qed.

Lemma submit_loop_cons net tx i l s n :
  submitter_nonce net s = Some n ->
  submit_loop tx_progress block_event_names net tx (i :: l) s =
  let s1 := set_chain_state (fst (sign_and_submit tx n None (chain_state s))) s in
  match snd (sign_and_submit tx n None (chain_state s)) with
  | Ok hash => (set_nonce net ((n + 1) mod 2 ^ 64) (log_sent (tx, n, true) s1), Ok tt)
  | Err e =>
      let s2 := log_sent (tx, n, false) s1 in
      if (i <? MAX_RETRIES)%nat then submit_loop tx_progress block_event_names net tx l s2
      else (s2, Err (TransactionError e))
  | Panic => (s1, Panic)
  end.
Proof.
  intros Hn. cbn [submit_loop]. unfold mbind at 1, mget. rewrite Hn.
  unfold mbind at 1, mtry, mchain. change (default 0 (Some n)) with n.
  destruct (sign_and_submit tx n None (chain_state s)) as [c [hash|e|]]; [| |done].
  - unfold mbind, mmodify, mlift. by rewrite watch_ok by apply progress_returns.
  - unfold mbind, mmodify. by destruct (i <? MAX_RETRIES)%nat.
Qed.

Lemma submit_loop_run net tx n d : forall i s,
  (i + d = 3)%nat -> submitter_nonce net s = Some n ->
  let '(s', o) := submit_loop tx_progress block_event_names net tx (seq i (S d)) s in
  exists k, (k <= S d)%nat /\
    match o with
    | Ok _ => (k <= d)%nat /\ sent s' = sent s ++ replicate k (tx, n, false) ++ [(tx, n, true)] /\
        submitter_nonce net s' = Some ((n + 1) mod 2 ^ 64)
    | Err _ => k = S d /\ sent s' = sent s ++ replicate k (tx, n, false) /\ submitter_nonce net s' = Some n
    | Panic => False
    end.
Proof.
  induction d as [|d IH]; intros i s Hi Hn; cbn [seq]; rewrite (submit_loop_cons _ _ _ _ _ _ Hn); cbv zeta;
    pose proof (sign_and_submit_returns tx n None (chain_state s)) as Hp;
    set (s1 := set_chain_state _ s);
    destruct (snd (sign_and_submit tx n None (chain_state s))) as [hash|e|]; try done.
  1,3: exists 0%nat; split_and!; [lia|lia|by destruct net|by destruct net].
  - rewrite (proj2 (Nat.ltb_ge _ _)) by (unfold MAX_RETRIES; lia).
    exists 1%nat. split_and!; [lia|lia|by destruct net|by destruct net; cbn in *].
  - rewrite (proj2 (Nat.ltb_lt _ _)) by (unfold MAX_RETRIES; lia).
    specialize (IH (S i) (log_sent (tx, n, false) s1) ltac:(lia) ltac:(by destruct net; cbn in *)).
    destruct (submit_loop _ _ net tx _ _) as [s' o]. destruct IH as (k & Hk & Ho). exists (S k).
    split; [lia|]. change (sent (log_sent (tx, n, false) s1)) with (sent s ++ [(tx, n, false)]) in Ho.
    rewrite <- !app_assoc in Ho. destruct o as [u|e'|]; [|by destruct Ho as (-> & ? & ?)|done].
    destruct Ho as (? & ? & ?). split_and!; [lia|done|done].
Qed.

(** [submit] sends the transaction with one and the same nonce until it is accepted, at
    most four times.  It returns [Ok] exactly if an attempt was accepted, and then the
    next nonce follows; what becomes of the transaction, which it watches to its end, has
    no influence on the result. *)
Theorem submit_spec net tx s n :
  submitter_nonce net s = Some n ->
  let '(s', o) := submit tx_progress block_event_names net tx s in
  exists k, match o with
  | Ok _ => (k <= 3)%nat /\ sent s' = sent s ++ replicate k (tx, n, false) ++ [(tx, n, true)] /\
      submitter_nonce net s' = Some ((n + 1) mod 2 ^ 64)
  | Err _ => k = 4%nat /\ sent s' = sent s ++ replicate k (tx, n, false) /\ submitter_nonce net s' = Some n
  | Panic => False
  end.
Proof.
  intros Hn. pose proof (submit_loop_run net tx n 3 0 s eq_refl Hn) as Hr.
  unfold submit. change (MAX_RETRIES + 1)%nat with 4%nat.
  destruct (submit_loop _ _ net tx _ s) as [s' o]. destruct Hr as (k & _ & Ho). exists k. by destruct o.
Qed.
End submit_theorems.

(** ** Examples *)

Module TranslationServerExamples.
#[local] Existing Instance ascii_unicode.
Import TranslationExamples.
#[local] Existing Instance counting_client.
#[local] Existing Instance counting_client_laws.

(** A transaction that is included and fails is reported as submitted. *)
Definition failed_progress (hash : bytes) : list (outcome ClientError TxStatus) :=
  [Ok Validated; Ok (InBestBlock hash); Ok (InFinalizedBlock hash)].
Definition failed_events (block : bytes) : outcome ClientError (list (option (bytes * bytes))) :=
  Ok [None; Some (bs "System", bs "ExtrinsicFailed")].

Example failed_extrinsic_ok :
  match check_extrinsic_success failed_events [] with Err ExtrinsicFailed => true | _ => false end &&
  is_ok (watch_tx_progress failed_events (failed_progress [])) = true.
Proof. reflexivity. Qed.

Lemma failed_progress_returns hash : Panic ∉ failed_progress hash.
Proof.
  intros Hp. unfold failed_progress in Hp.
  repeat (apply elem_of_cons in Hp as [Hp|Hp]; [discriminate|]). by apply elem_of_nil in Hp.
Qed.

Lemma submit_spec_witness :
  let '(s', o) := submit failed_progress failed_events Mainnet drop_tx service_0 in
  is_ok o = true /\ submitter_nonce Mainnet s' = Some 8.
Proof.
  pose proof (submit_spec failed_progress failed_events
    failed_progress_returns ltac:(discriminate)
    Mainnet drop_tx service_0 7 eq_refl) as Hs.
  assert (is_ok (snd (submit failed_progress failed_events Mainnet drop_tx service_0)) = true) as Hok
    by (vm_compute; reflexivity).
  destruct (submit failed_progress failed_events Mainnet drop_tx service_0) as [s' [u|e|]]; [|done..].
  destruct Hs as (k & _ & _ & Hn). by split.
Defined.
End TranslationServerExamples.
