(* ===== verification/DataLoader.v ===== *)
(** * data-loader

    Loads the parquet files of a blob store into a database, one partition (a table's
    year and month) after the other, with a checkpoint for each.  The state is the
    table of checkpoints and the statements executed; every statement may fail, which
    is a list of faults in the state.  The store, the parquet reader and the calendar
    are classes.  Theorems: a partition ends with exactly one checkpoint that says
    whether it was loaded, and touches no other; a completed partition is skipped;
    what a run does when statements fail; the placeholders of an insert; the values
    of a row.  Some show where the code does not do what its documentation says: the
    initialization deletes the checkpoints of completed partitions, dates are
    shifted, and the estimate of the time is zero. *)

From stdpp Require Import base tactics option gmap strings numbers list sorting.
From Stdlib Require Import ZArith Lia.
From Stdlib Require Import Strings.Byte.
From S2P Require Import Prelude Bytes Text.

(** ** checkpoint.rs *)

Inductive CheckpointStatus := Failed | Completed | Processing.
Definition status_display (s : CheckpointStatus) : bytes :=
  match s with
  | Failed => bs "Failed"
  | Completed => bs "Completed"
  | Processing => bs "Processing"
  end.

Record Checkpoint := mkCheckpoint {
  schema_name : bytes;
  table_name : bytes;
  year : Z;
  month : Z;
  status : CheckpointStatus;
  total_time_taken : Z;
}.
Definition checkpoint_new (schema_name table_name : bytes) (year month : Z) : Checkpoint :=
  mkCheckpoint schema_name table_name year month Processing 0.

(** A row of the table of checkpoints; columns that can be null are options. *)
Record CheckpointRow := mkRow {
  row_schema_name : bytes;
  row_table_name : bytes;
  row_year : Z;
  row_month : Z;
  row_status : option bytes;
  row_error : option bytes;
  row_total_time_taken : Z;
}.

(** A value that is sent to the database.  Floating point numbers are their bits. *)
Inductive PgValue {Decimal BigDecimal NaiveDateTime NaiveDate NaiveTime : Type} :=
| PgBoolean (v : bool)
| PgInt16 (v : Z)
| PgInt32 (v : Z)
| PgInt64 (v : Z)
| PgUInt32 (v : Z)
| PgFloat32 (v : Z)
| PgFloat64 (v : Z)
| PgText (v : bytes)
| PgBinary (v : bytes)
| PgNumeric (v : Decimal)
| PgBigDecimal (v : BigDecimal)
| PgTimestamp (v : NaiveDateTime)
| PgTimestampTz (v : NaiveDateTime)
| PgDate (v : NaiveDate)
| PgTime (v : NaiveTime)
| PgNull.
Arguments PgValue : clear implicits.

(** An error, with the text of its source if it has one. *)
Record Error := mkError { error_text : bytes; error_source : option bytes }.

(** The database. *)
Record Database (Value : Type) := mkDatabase {
  checkpoints : list CheckpointRow;
  (** The statements on the tables of data that succeeded, with their values. *)
  executed : list (bytes * list Value);
  (** Which of the next statements fail, and how; the ones after them succeed. *)
  faults : list (option Error);
}.
Arguments mkDatabase {Value} _ _ _.
Arguments checkpoints {Value} _.
Arguments executed {Value} _.
Arguments faults {Value} _.

Section checkpoint.
Context {Value : Type}.

Definition with_checkpoints (f : list CheckpointRow -> list CheckpointRow) (d : Database Value)
    : Database Value :=
  mkDatabase (f (checkpoints d)) (executed d) (faults d).
Definition log_executed (q : bytes * list Value) (d : Database Value) : Database Value :=
  mkDatabase (checkpoints d) (executed d ++ [q]) (faults d).

(** A statement: it fails, or it has its effect. *)
Definition execute {A} (effect : M (Database Value) Error A) : M (Database Value) Error A := fun d =>
  let d' := mkDatabase (checkpoints d) (executed d) (tail (faults d)) in
  match head (faults d) with
  | Some (Some e) => (d', Err e)
  | _ => effect d'
  end.

(** [map_err(|e| Status::internal(format!("...: {}", e)))]. *)
Definition internal (message : bytes) (e : Error) : Error :=
  mkError (message ++ bs ": " ++ error_text e) None.
Definition execute_or {A} (message : bytes) (effect : M (Database Value) Error A)
    : M (Database Value) Error A := mmap_err (internal message) (execute effect).

(** What the database answers to a value that is too long for its column. *)
Definition value_too_long : Error := mkError (bs "db error") (Some (bs "value too long")).

Definition mdb (f : list CheckpointRow -> list CheckpointRow) : M (Database Value) Error unit :=
  mmodify (with_checkpoints f).

(** [status != 'completed'] is not true. *)
Definition kept_by_init (r : CheckpointRow) : Prop :=
  match row_status r with
  | Some s => s = bs "completed"
  | None => True
  end.
#[global] Instance kept_by_init_dec r : Decision (kept_by_init r).
Proof. unfold kept_by_init. destruct (row_status r); apply _. Defined.

(** The three statements: the schema, the table, which exist or are created empty,
    and the deletion, where a comparison with a null is not true. *)
Definition init_checkpoint : M (Database Value) Error unit :=
  execute_or (bs "Failed to create sxt schema") (mret tt) ;;;
  execute_or (bs "Failed to create checkpoint table") (mret tt) ;;;
  execute_or (bs "Failed to delete from SXTMETA.checkpoints")
    (mdb (filter kept_by_init)).

Definition matches (schema_name table_name : bytes) (year month : Z) (r : CheckpointRow) : Prop :=
  row_schema_name r = schema_name /\ row_table_name r = table_name /\
  row_year r = year /\ row_month r = month.
#[global] Instance matches_dec s t y m r : Decision (matches s t y m r).
Proof. unfold matches. apply _. Defined.

(** [VARCHAR(n)] counts characters. *)
Definition varchar (n : nat) (s : bytes) : bool := (length (utf8_chars s) <=? n)%nat.

Definition insert (self : Checkpoint) : M (Database Value) Error unit :=
  execute_or (bs "Failed to insert checkpoint")
    (if varchar 64 (schema_name self) && varchar 64 (table_name self) then
       mdb (fun l => l ++ [mkRow (schema_name self) (table_name self) (year self) (month self)
         (Some (status_display (status self))) None (total_time_taken self)])
     else mfail value_too_long).

(** [msg.chars().take(500)] when the message has more than 500 bytes. *)
Definition truncate_message (error_message : option bytes) : option bytes :=
  match error_message with
  | Some msg => if (500 <? length msg)%nat then Some (concat (take 500 (utf8_chars msg)))
                else error_message
  | None => error_message
  end.

Definition update_status (self : Checkpoint) (status : CheckpointStatus) (error_message : option bytes)
    (time_taken : Z) : M (Database Value) Error unit :=
  let truncated_error_message := truncate_message error_message in
  execute_or (bs "Failed to update status")
    (if match truncated_error_message with Some m => varchar 500 m | None => true end then
       mdb (fmap (fun r =>
         if decide (matches (schema_name self) (table_name self) (year self) (month self) r)
         then mkRow (row_schema_name r) (row_table_name r) (row_year r) (row_month r)
           (Some (status_display status)) truncated_error_message time_taken
         else r))
     else mfail value_too_long).

(** [LIMIT 1]: a row that matches. *)
Definition is_completed (schema_name table_name : bytes) (year month : Z)
    : M (Database Value) Error bool :=
  execute_or (bs "Failed to update status")
    (let* rows := mget checkpoints in
     match filter (matches schema_name table_name year month) rows with
     | row :: _ => mret (bool_decide (row_status row = Some (status_display Completed)))
     | [] => mret false
     end).

Definition delete (schema_name table_name : bytes) (year month : Z) : M (Database Value) Error unit :=
  execute_or (bs "Failed to delete status")
    (mdb (filter (fun r => ~ matches schema_name table_name year month r))).
End checkpoint.

(** ** Dependencies *)

(** The number and calendar types of the libraries, with the functions that are
    documented to return an option, or to panic ([None] of the first). *)
Class Calendar := {
  Decimal : Type;
  BigDecimal : Type;
  NaiveDateTime : Type;
  NaiveDate : Type;
  NaiveTime : Type;
  from_i128_with_scale : Z -> Z -> option Decimal;
  bigdecimal_from_str : bytes -> option BigDecimal;
  bigdecimal_to_string : BigDecimal -> bytes;
  from_timestamp_micros : Z -> option NaiveDateTime;
  from_timestamp_millis : Z -> option NaiveDateTime;
  from_timestamp_nanos : Z -> NaiveDateTime;
  from_num_days_from_ce_opt : Z -> option NaiveDate;
  from_num_seconds_from_midnight_opt : Z -> Z -> option NaiveTime;
}.

Inductive TimeUnit := Second | Millisecond | Microsecond | Nanosecond.
Inductive DataType :=
| TBoolean | TInt16 | TInt32 | TInt64 | TUInt32 | TFloat32 | TFloat64 | TUtf8 | TBinary
| TFixedSizeBinary (size : Z)
| TDecimal128 (precision scale : Z)
| TTimestamp (unit : TimeUnit) (timezone : option bytes)
| TDate32
| TTime64 (unit : TimeUnit)
| TOther.

(** An array is its class and its slots: whether the slot is set, and its value. *)
Inductive Array :=
| BooleanArray (l : list (bool * bool))
| Int16Array (l : list (bool * Z))
| Int32Array (l : list (bool * Z))
| Int64Array (l : list (bool * Z))
| UInt32Array (l : list (bool * Z))
| Float32Array (l : list (bool * Z))
| Float64Array (l : list (bool * Z))
| StringArray (l : list (bool * bytes))
| BinaryArray (l : list (bool * bytes))
| FixedSizeBinaryArray (l : list (bool * bytes))
| Decimal128Array (l : list (bool * Z))
| TimestampMicrosecondArray (l : list (bool * Z))
| TimestampMillisecondArray (l : list (bool * Z))
| TimestampNanosecondArray (l : list (bool * Z))
| Date32Array (l : list (bool * Z))
| Time64MicrosecondArray (l : list (bool * Z)).

Record Field := mkField { field_name : bytes; data_type : DataType }.
Record RecordBatch := mkRecordBatch { columns : list (Field * Array); num_rows : nat }.
Record PgColumn := mkPgColumn {
  column_name : bytes;
  column_data_type : bytes;
  numeric_precision : option Z;
  numeric_scale : option Z;
}.

(** ** to_pg.rs *)

Definition META_ROW_NUMBER_COLUMN_NAME : bytes := bs "META_ROW_NUMBER".

Section to_pg.
Context `{UnicodeData} `{Calendar}.

Notation Value := (PgValue Decimal BigDecimal NaiveDateTime NaiveDate NaiveTime).

Definition types_dont_match : outcome Error Value := Err (mkError (bs "Types don't match") None).
Definition invalid_value (what : bytes) : Error := mkError what None.

(** [is_null] and [value] panic past the end. *)
Definition slot {A} (l : list (bool * A)) (index : nat) (f : A -> outcome Error Value)
    : outcome Error Value :=
  let? s := unwrap_option (l !! index : option (bool * A)) in
  if fst s then f (snd s) else Ok PgNull.

Definition remove_nul (s : bytes) : bytes := filter (fun b => b <> x00) s.

(** [as i64] and the like keep the value; [as u32] of a quotient of 64-bit numbers. *)
Definition as_u32 (z : Z) : Z := z mod 2 ^ 32.

Definition numeric_text (s : bytes) : outcome Error Value :=
  if bool_decide ("e"%byte ∈ s) || bool_decide ("E"%byte ∈ s) then
    let? d := unwrap_option (bigdecimal_from_str s) in
    let? d := unwrap_option (bigdecimal_from_str (bigdecimal_to_string d)) in
    Ok (PgBigDecimal d)
  else
    let? d := unwrap_option (bigdecimal_from_str s) in
    Ok (PgBigDecimal d).

(** The timestamps, dates and times. *)
Definition pg_temporal_value (index : nat) (col : Array) (data_type : DataType) : outcome Error Value :=
  match data_type, col with
  | TTimestamp Microsecond None, TimestampMicrosecondArray l => slot l index (fun v =>
      let? t := ok_or (from_timestamp_micros v) (invalid_value (bs "Invalid timestamp value")) in
      Ok (PgTimestamp t))
  | TTimestamp Microsecond (Some _), TimestampMicrosecondArray l =>
      let? s := unwrap_option (l !! index : option (bool * Z)) in
      let? t := ok_or (from_timestamp_micros (snd s)) (invalid_value (bs "Invalid timestamp value")) in
      if fst s then Ok (PgTimestampTz t) else Ok PgNull
  | TTimestamp Millisecond None, TimestampMillisecondArray l => slot l index (fun v =>
      let? t := ok_or (from_timestamp_millis v) (invalid_value (bs "Invalid timestamp value")) in
      Ok (PgTimestamp t))
  | TTimestamp Millisecond (Some _), TimestampMillisecondArray l => slot l index (fun v =>
      let? t := ok_or (from_timestamp_millis v) (invalid_value (bs "Invalid timestamp value")) in
      Ok (PgTimestampTz t))
  | TTimestamp Nanosecond _, TimestampNanosecondArray l => slot l index (fun v =>
      Ok (PgTimestamp (from_timestamp_nanos v)))
  | TDate32, Date32Array l => slot l index (fun v =>
      let? date := ok_or (from_num_days_from_ce_opt v) (invalid_value (bs "Invalid date value")) in
      Ok (PgDate date))
  | TTime64 Microsecond, Time64MicrosecondArray l => slot l index (fun v =>
      let? time := ok_or (from_num_seconds_from_midnight_opt
        (as_u32 (Z.quot v 1000000)) (as_u32 (Z.rem v 1000000 * 1000)))
        (invalid_value (bs "Invalid time value")) in
      Ok (PgTime time))
  | (TTimestamp Second _ | TTime64 (Second | Millisecond | Nanosecond)), _ =>
      Err (invalid_value (bs "Unsupported parameter type"))
  | _, _ => types_dont_match
  end.

Definition pg_value (index : nat) (column_map : gmap bytes PgColumn) (col : Array) (field : Field)
    : outcome Error Value :=
  match data_type field, col with
  | TBoolean, BooleanArray l => slot l index (fun v => Ok (PgBoolean v))
  | TInt16, Int16Array l => slot l index (fun v => Ok (PgInt16 v))
  | TInt32, Int32Array l => slot l index (fun v =>
      if bool_decide (to_uppercase (field_name field) = META_ROW_NUMBER_COLUMN_NAME)
      then Ok (PgInt64 v) else Ok (PgInt32 v))
  | TInt64, Int64Array l => slot l index (fun v => Ok (PgInt64 v))
  | TUInt32, UInt32Array l => slot l index (fun v => Ok (PgUInt32 v))
  | TFloat32, Float32Array l => slot l index (fun v => Ok (PgFloat32 v))
  | TFloat64, Float64Array l => slot l index (fun v => Ok (PgFloat64 v))
  | TUtf8, StringArray l =>
      let numeric :=
        match column_map !! to_lowercase (field_name field) with
        | Some data => eq_ignore_ascii_case (column_data_type data) (bs "numeric")
        | None => false
        end in
      slot l index (fun v => if numeric then numeric_text v else Ok (PgText (remove_nul v)))
  | TBinary, BinaryArray l => slot l index (fun v => Ok (PgBinary v))
  | TFixedSizeBinary _, FixedSizeBinaryArray l => slot l index (fun v => Ok (PgBinary v))
  | TDecimal128 _ s, Decimal128Array l => slot l index (fun v =>
      let? decimal := unwrap_option (from_i128_with_scale v (as_u32 s)) in Ok (PgNumeric decimal))
  | (TTimestamp _ _ | TDate32 | TTime64 _) as data_type, col => pg_temporal_value index col data_type
  | TOther, _ => Err (invalid_value (bs "Unsupported parameter type"))
  | _, _ => types_dont_match
  end.

Definition get_pg_values (rb : RecordBatch) (index : nat) (column_map : gmap bytes PgColumn)
    : outcome Error (list Value) :=
  collect (fun c => pg_value index column_map c.2 c.1) (columns rb).
End to_pg.

(** ** data_loader.rs *)

(** [\d] of a character that is not ASCII, from the Unicode tables. *)
Class UnicodeDigits := { unicode_digit : bytes -> bool }.

Section paths.
Context `{UnicodeData} `{UnicodeDigits}.

Definition digit_char (c : bytes) : bool :=
  match c with
  | [b] => if is_ascii b then is_ascii_digit b else unicode_digit c
  | _ => unicode_digit c
  end.

(** [parse::<i16>] of digits; the number has at most four. *)
Definition parse_digits (s : bytes) : option Z :=
  if forallb is_ascii_digit s
  then Some (foldl (fun acc b => 10 * acc + (byte_val b - 48)) 0 s) else None.

(** [(\d{4})] and [(\d{1,2})] at the beginning of the characters. *)
Definition four_digits (cs : list bytes) : option bytes :=
  if (4 <=? length cs)%nat && forallb digit_char (take 4 cs) then Some (concat (take 4 cs)) else None.
Definition one_or_two_digits (cs : list bytes) : option bytes :=
  match cs with
  | c1 :: c2 :: _ => if digit_char c1 then Some (if digit_char c2 then c1 ++ c2 else c1) else None
  | [c1] => if digit_char c1 then Some c1 else None
  | [] => None
  end.

(** The leftmost match of a literal followed by a group. *)
Fixpoint captures (literal : bytes) (group : list bytes -> option bytes) (cs : list bytes) : option bytes :=
  let here :=
    if bool_decide (concat (take (length literal) cs) = literal)
    then group (drop (length literal) cs) else None in
  match here, cs with
  | Some m, _ => Some m
  | None, _ :: cs => captures literal group cs
  | None, [] => None
  end.

Definition extract_year_and_month (path : bytes) : option (Z * Z) :=
  match captures (bs "SXT_INTERNAL_YEAR=") four_digits (utf8_chars path) with
  | None => None
  | Some y =>
      match captures (bs "SXT_INTERNAL_MONTH=") one_or_two_digits (utf8_chars path) with
      | None => None
      | Some m =>
          match parse_digits y, parse_digits m with
          | Some y, Some m => Some (y, m)
          | _, _ => None
          end
      end
  end.

(** The environment variable. *)
Definition get_process_only_head (var : option bytes) : outcome Error bool :=
  let process_only_head := to_lowercase (default (bs "false") var) in
  if bool_decide (process_only_head = bs "true") then Ok true
  else if bool_decide (process_only_head = bs "false") then Ok false
  else Err (mkError (bs "Invalid value for PROCESS_ONLY_HEAD, expected 'true' or 'false'") None).

(** [sort] by path, stable. *)
Fixpoint sort_insert {A} (key : A -> bytes) (x : A) (l : list A) : list A :=
  match l with
  | [] => [x]
  | y :: l' => if bytes_le (key x) (key y) then x :: l else y :: sort_insert key x l'
  end.
Definition sort_by_path {A} (key : A -> bytes) (l : list A) : list A := foldr (sort_insert key) [] l.

(** [process_list] and [process_data_files]: the head is taken before sorting. *)
Definition process_items {A} (var : option bytes) (key : A -> bytes) (l : list A) : outcome Error (list A) :=
  match get_process_only_head var with
  | Ok head_only => Ok (sort_by_path key (if head_only then take 1 l else l))
  | _ => Panic
  end.

(** [Path::filename]: the part after the last delimiter. *)
Definition filename (path : bytes) : option bytes :=
  match path with
  | [] => None
  | _ => last (str_split "/"%byte path)
  end.

Definition extract_schema_and_table (path : bytes) : outcome Error (bytes * bytes) :=
  match filename path with
  | Some file_name =>
      match str_splitn2 "_"%byte (trim_start_matches (bs "SQL_") file_name) with
      | (schema, Some table) => Ok (schema, table)
      | (_, None) => Err (mkError (bs "Could not extract schema and table names") None)
      end
  | None => Err (mkError (bs "Could not extract schema and table names") None)
  end.
End paths.

(** ** azure_data_loader.rs *)

(** The blob store, the database's catalogue and the environment. *)
Class LoaderEnv := {
  common_prefixes : bytes -> outcome Error (list bytes);
  list_files : bytes -> outcome Error (list bytes);
  (** The record batches of a parquet file, or the error that reading it ends with. *)
  read_batches : bytes -> outcome Error (list (outcome Error RecordBatch));
  (** The size that the listing gives, and the contents' length. *)
  file_size : bytes -> Z;
  get_file : bytes -> outcome Error Z;
  table_columns : bytes -> bytes -> gmap bytes PgColumn;
  primary_keys : bytes -> bytes -> list bytes;
  process_only_head_var : option bytes;
  (** [None] when the clock went back. *)
  elapsed_secs : bytes -> option Z;
  elapsed_millis : bytes -> option Z;
  database_url : option bytes;
  (** Whether a text is the configuration of a connection. *)
  connection_config : bytes -> bool;
  azure_account_name : option bytes;
  azure_endpoint : option bytes;
  azure_container_name : option bytes;
  build_store : bytes -> bytes -> bytes -> outcome Error unit;
}.

Section loader.
Context `{UnicodeData} `{UnicodeDigits} `{Calendar} `{LoaderEnv}.
Notation Value := (PgValue Decimal BigDecimal NaiveDateTime NaiveDate NaiveTime).
Notation Load := (M (Database Value) Error).

(** [join]. *)
Fixpoint join (separator : bytes) (l : list bytes) : bytes :=
  match l with
  | [] => []
  | [x] => x
  | x :: l => x ++ separator ++ join separator l
  end.

Definition placeholder (i : nat) : bytes := bs "$" ++ dec_bytes (Z.of_nat i).

(** One row, with its comma, from placeholder [k] on. *)
Definition row_placeholders (num_fields k : nat) : bytes :=
  bs "(" ++ join (bs ", ") (placeholder <$> seq k num_fields) ++ bs "),".
Fixpoint rows_placeholders (num_fields k num_rows : nat) : bytes :=
  match num_rows with
  | O => []
  | S num_rows => row_placeholders num_fields k ++ rows_placeholders num_fields (k + num_fields) num_rows
  end.

(** [String::pop]. *)
Definition pop (s : bytes) : bytes := removelast s.

Definition create_client_session : Load unit :=
  let* db_url := mlift (ok_or database_url (mkError (bs "Missing database url") None)) in
  if connection_config db_url
  then execute_or (bs "Failed to get connection") (mret tt)
  else mpanic.

Definition get_primary_keys (schema_name table_name : bytes) : Load (list bytes) :=
  execute (mret (primary_keys (to_lowercase table_name) (to_lowercase schema_name))).

Definition build_insert_statement (schema_name table_name qualified_table_name : bytes)
    (fields : list Field) (num_rows : nat) : Load bytes :=
  let column_list := join (bs ", ") (field_name <$> fields) in
  let insert_stmt := bs "INSERT INTO " ++ qualified_table_name ++ bs " (" ++ column_list ++ bs ") VALUES " in
  let insert_stmt := insert_stmt ++ rows_placeholders (length fields) 1 num_rows in
  let* keys := get_primary_keys schema_name table_name in
  let on_conflict_clause :=
    match keys with
    | [] => []
    | _ => bs " ON CONFLICT (" ++ join (bs ", ") keys ++ bs ") DO NOTHING "
    end in
  mret (pop insert_stmt ++ on_conflict_clause).

Definition insert_record_batch (schema_name table_name : bytes) (column_map : gmap bytes PgColumn)
    (batch : RecordBatch) : Load unit :=
  let* rows := mlift (collect (fun i => get_pg_values batch i column_map) (seq 0 (num_rows batch))) in
  let* insert_stmt := build_insert_statement schema_name table_name
    (schema_name ++ bs "." ++ table_name) (fst <$> columns batch) (num_rows batch) in
  execute (mmodify (log_executed (insert_stmt, concat rows))).

(** [schema.index_of] finds the first field of the name. *)
Fixpoint drop_first_column (name : bytes) (l : list (Field * Array)) : list (Field * Array) :=
  match l with
  | [] => []
  | c :: l => if bool_decide (field_name c.1 = name) then l else c :: drop_first_column name l
  end.
Definition drop_column_from_batch (batch : RecordBatch) (column_name : bytes) : RecordBatch :=
  mkRecordBatch (drop_first_column (to_uppercase column_name) (columns batch)) (num_rows batch).

Definition load_file (schema_name table_name : bytes) (column_map : gmap bytes PgColumn)
    (data_file : bytes) : Load unit :=
  let* batches := mlift (read_batches data_file) in
  miter (fun batch =>
    let* batch := mlift batch in
    insert_record_batch schema_name table_name column_map
      (drop_column_from_batch batch (bs "sxt_primary_key_binary"))) batches.

Definition process_data_files (schema_name table_name : bytes) (column_map : gmap bytes PgColumn)
    (prefix : bytes) : Load unit :=
  let* all_data_files := mlift (list_files prefix) in
  let* files := mlift (process_items process_only_head_var id all_data_files) in
  miter (load_file schema_name table_name column_map) files.

Definition root_cause (e : Error) : bytes := default (error_text e) (error_source e).

Definition process_partition (schema_name table_name : bytes) (column_map : gmap bytes PgColumn)
    (prefix : bytes) : Load unit :=
  let* (year, month) := mlift (ok_or (extract_year_and_month prefix)
    (mkError (bs "Failed to extract year and month") None)) in
  create_client_session ;;;
  let* completed := is_completed schema_name table_name year month in
  if (completed : bool) then mret tt
  else
    let checkpoint := checkpoint_new schema_name table_name year month in
    delete schema_name table_name year month ;;;
    insert checkpoint ;;;
    let* result := mtry (process_data_files schema_name table_name column_map prefix) in
    let* time_taken := mlift (unwrap_option (elapsed_secs prefix)) in
    match result with
    | inl _ => update_status checkpoint Completed None time_taken
    | inr e => update_status checkpoint Failed (Some (bs "failed due to " ++ root_cause e)) time_taken
    end.

(** The months of a year are awaited together; the first error is returned after all
    of them have ended.  They work on checkpoints of different months, and are run
    one after the other here. *)
Definition first_error {A} (rs : list (A + Error)) : outcome Error unit :=
  match omap (fun r => match r with inr e => Some e | inl _ => None end) rs with
  | e :: _ => Err e
  | [] => Ok tt
  end.
Definition load (schema_name table_name : bytes) (column_map : gmap bytes PgColumn) (prefix : bytes)
    : Load unit :=
  let* years := mlift (common_prefixes prefix) in
  let* years := mlift (process_items process_only_head_var id years) in
  miter (fun year =>
    let* all_months := mlift (common_prefixes year) in
    let* months := mlift (process_items process_only_head_var id all_months) in
    let* results := mcollect (fun month => mtry (process_partition schema_name table_name column_map month))
      months in
    mlift (first_error results)) years.

Definition create_index (schema_name table_name : bytes) : Load unit :=
  create_client_session ;;;
  let index_name := schema_name ++ bs "_" ++ table_name ++ bs "_HASH" in
  let query := bs "CREATE INDEX IF NOT EXISTS  " ++ index_name ++ bs " on " ++ schema_name ++ bs "."
    ++ table_name ++ bs " ( " ++ META_ROW_NUMBER_COLUMN_NAME ++ bs ")" in
  execute (mmodify (log_executed (query, []))).

Definition get_table_columns_and_types (schema_name table_name : bytes) : Load (gmap bytes PgColumn) :=
  execute (mret (table_columns (to_uppercase table_name) (to_uppercase schema_name))).

Definition process_table (table : bytes) : Load unit :=
  let* (schema_name, table_name) := mlift (map_err
    (fun e => mkError (bs "Failed to extract schema and table for " ++ table ++ bs ": " ++ error_text e) None)
    (extract_schema_and_table table)) in
  create_client_session ;;;
  let* column_maps := mmap_err
    (fun e => mkError (bs "Failed to get column mappings for " ++ table_name ++ bs ": " ++ error_text e) None)
    (get_table_columns_and_types schema_name table_name) in
  load schema_name table_name column_maps table ;;;
  create_index schema_name table_name.

(** The errors of a table are printed. *)
Definition load_data (base_path : bytes) : Load unit :=
  let* tables := mlift (common_prefixes base_path) in
  miter (fun table => let* _ := mtry (process_table table) in mret tt) tables.

Definition load_data_from_azure (base_path : bytes) : Load unit :=
  create_client_session ;;;
  init_checkpoint ;;;
  load_data base_path.

Definition get_object_store : outcome Error unit :=
  match azure_account_name, azure_endpoint, azure_container_name with
  | Some account, Some endpoint, Some container => build_store account endpoint container
  | _, _, _ => Panic
  end.

(** [run_data_loader]: the loop, with the attempts that remain. *)
Fixpoint run_attempts (base_path : bytes) (remaining : nat) : Load unit :=
  match remaining with
  | O => mret tt
  | S remaining =>
      let* r := mtry (mlift get_object_store ;;; load_data_from_azure base_path) in
      match r with
      | inl _ => mret tt
      | inr e => match remaining with
                 | O => mfail e
                 | _ => run_attempts base_path remaining
                 end
      end
  end.
Definition run_data_loader (base_path : bytes) (max_retries : nat) : Load unit :=
  run_attempts base_path max_retries.

(** *** The estimate.  Sizes are [usize]; a sum of the release build wraps. *)

Definition usize_sum (l : list Z) : Z := foldl (fun acc x => (acc + x) mod 2 ^ 64) 0 l.

Definition part_size (prefix : bytes) : outcome Error Z :=
  let? files := list_files prefix in Ok (usize_sum (file_size <$> files)).

(** A year with an error is skipped. *)
Definition year_size (year : bytes) : outcome Error Z :=
  let? all_months := common_prefixes year in
  match collect part_size all_months with
  | Ok sizes => Ok (usize_sum sizes)
  | Err _ => Ok 0
  | Panic => Panic
  end.
Definition estimate_size (prefix : bytes) : outcome Error Z :=
  let? years := common_prefixes prefix in
  let? sizes := collect year_size years in
  Ok (usize_sum sizes).

Definition download_single_file (prefix : bytes) : outcome Error (Z * Z) :=
  let? all_years := common_prefixes prefix in
  let? year := unwrap_option (head all_years) in
  let? all_months := common_prefixes year in
  let? month := unwrap_option (head all_months) in
  let? all_data_files := list_files month in
  let? file := unwrap_option (head all_data_files) in
  let? contents := get_file file in
  let? time_taken := unwrap_option (elapsed_millis file) in
  Ok (time_taken, contents).

(** What is printed. *)
Inductive Report :=
| TotalTimeEstimated (t : Z)
| TotalSizeIsZero
| NoSampleValue.

(** The tables: the sample is taken from the first, the sizes are added up. *)
Fixpoint estimate_tables (tables : list bytes) (sample_value : option (Z * Z)) (total_size : Z)
    : outcome Error (option (Z * Z) * Z) :=
  match tables with
  | [] => Ok (sample_value, total_size)
  | table :: tables =>
      let? sample_value :=
        match sample_value with
        | Some v => Ok (Some v)
        | None => let? v := download_single_file table in Ok (Some v)
        end in
      match estimate_size table with
      | Ok table_size => estimate_tables tables sample_value ((total_size + table_size) mod 2 ^ 64)
      | Err _ => estimate_tables tables sample_value total_size
      | Panic => Panic
      end
  end.

Definition estimate (base_path : bytes) : outcome Error Report :=
  let? tables := common_prefixes base_path in
  let? (sample_value, total_size) := estimate_tables tables None 0 in
  match sample_value with
  | Some (sample_time, sample_size) =>
      if 0 <? total_size
      then Ok (TotalTimeEstimated (((sample_size / total_size) * sample_time) mod 2 ^ 128))
      else Ok TotalSizeIsZero
  | None => Ok NoSampleValue
  end.
End loader.

(** ** The checkpoints *)

Definition row_key (r : CheckpointRow) : bytes * bytes * Z * Z :=
  (row_schema_name r, row_table_name r, row_year r, row_month r).

(** A row whose status the loader wrote. *)
Definition written (r : CheckpointRow) : Prop :=
  exists s, row_status r = Some (status_display s).

(** At most one checkpoint of a partition, and only the loader's. *)
Definition ledger_ok {Value} (d : Database Value) : Prop :=
  NoDup (row_key <$> checkpoints d) /\ Forall written (checkpoints d).

(** The row that is inserted, with what an update makes of it. *)
Definition partition_row (schema_name table_name : bytes) (year month : Z) (s : CheckpointStatus)
    (error : option bytes) (time : Z) : CheckpointRow :=
  mkRow schema_name table_name year month (Some (status_display s)) error time.

Section ledger.
Context {Value : Type}.
Notation DB := (Database Value).
Notation Run := (M DB Error).
Implicit Types (d : DB) (c : list CheckpointRow).

Lemma matches_row_key s t y m r : matches s t y m r <-> row_key r = (s, t, y, m).
Proof. unfold matches, row_key. split; [by intros (-> & -> & -> & ->)|by intros [= -> -> -> ->]]. Qed.

(** A statement on the checkpoints has its effect and succeeds, or none and fails. *)
Lemma statement_cases message (guard : bool) (e : Error) f d :
  let '(d', r) := execute_or message (if guard then mdb f else mfail e) d in
  executed d' = executed d /\
  ((r = Ok tt /\ checkpoints d' = f (checkpoints d)) \/
   (exists e', r = Err e') /\ checkpoints d' = checkpoints d).
Proof.
  unfold execute_or, mmap_err, execute. destruct (head (faults d)) as [[e'|]|]; [by eauto 10| |];
    by destruct guard; cbn; eauto 10.
Qed.

Lemma delete_cases s t y m d :
  let '(d', r) := delete s t y m d in
  (r = Ok tt /\ checkpoints d' = filter (fun r => ~ matches s t y m r) (checkpoints d)) \/
  (exists e, r = Err e) /\ checkpoints d' = checkpoints d.
Proof.
  pose proof (statement_cases (bs "Failed to delete status") true value_too_long
    (filter (fun r => ~ matches s t y m r)) d) as Hs.
  fold (delete (Value:=Value) s t y m) in Hs. cbn iota in Hs. unfold delete.
  by destruct (execute_or _ _ d), Hs.
Qed.

Lemma insert_cases s t y m d :
  let '(d', r) := insert (checkpoint_new s t y m) d in
  (r = Ok tt /\ checkpoints d' = checkpoints d ++ [partition_row s t y m Processing None 0]) \/
  (exists e, r = Err e) /\ checkpoints d' = checkpoints d.
Proof.
  pose proof (statement_cases (bs "Failed to insert checkpoint") (varchar 64 s && varchar 64 t)
    value_too_long (fun l => l ++ [partition_row s t y m Processing None 0]) d) as Hs.
  unfold insert. cbn [schema_name table_name year month status total_time_taken checkpoint_new].
  unfold partition_row in *. by destruct (execute_or _ _ d), Hs.
Qed.

(** The update of the row that was inserted last. *)
Lemma update_cases s t y m st error time c time' d :
  checkpoints d = filter (fun r => ~ matches s t y m r) c ++ [partition_row s t y m Processing None time'] ->
  let '(d', r) := update_status (checkpoint_new s t y m) st error time d in
  (r = Ok tt /\ checkpoints d' = filter (fun r => ~ matches s t y m r) c
     ++ [partition_row s t y m st (truncate_message error) time]) \/
  (exists e, r = Err e) /\ checkpoints d' = checkpoints d.
Proof.
  intros Hc. unfold update_status. cbn zeta.
  cbn [schema_name table_name year month checkpoint_new].
  set (g := match truncate_message error with Some _ => _ | None => _ end).
  set (f := fmap _).
  pose proof (statement_cases (bs "Failed to update status") g value_too_long f d) as Hs.
  destruct (execute_or _ _ d) as [d' r], Hs as [_ [[-> Hd]|?]]; [left|by right]. split; [done|].
  rewrite Hd, Hc. subst f. rewrite fmap_app. f_equal.
  - rewrite <- (list_fmap_id (filter _ c)) at 2. apply list_fmap_ext. intros i r Hi.
    apply list_elem_of_lookup_2, list_elem_of_filter in Hi as [Hm _]. by rewrite decide_False.
  - cbn. rewrite decide_True; [done|]. by unfold matches.
Qed.
End ledger.

Section loading.
Context `{UnicodeData} `{UnicodeDigits} `{Calendar} `{LoaderEnv}.
Notation Value := (PgValue Decimal BigDecimal NaiveDateTime NaiveDate NaiveTime).
Notation DB := (Database Value).
Notation Load := (M DB Error).
Implicit Types (d : DB) (c : list CheckpointRow).

(** Statements that are not on the checkpoints keep a property of them. *)
Lemma preserves_execute (I : list CheckpointRow -> Prop) {A} (effect : Load A) :
  preserves (fun d => I (checkpoints d)) effect -> preserves (fun d => I (checkpoints d)) (execute effect).
Proof.
  intros He d Hd. unfold execute. destruct (head (faults d)) as [[]|]; [done|by apply He..].
Qed.
Lemma preserves_panic (I : DB -> Prop) {A} : preserves (E:=Error) (A:=A) I mpanic.
Proof. by intros d Hd. Qed.

Section frame.
Context (I : list CheckpointRow -> Prop).
Notation keeps := (preserves (fun d : DB => I (checkpoints d))).

Lemma create_client_session_frame : keeps create_client_session.
Proof.
  apply preserves_bind; [apply preserves_lift|]. intros url. case_match; [|apply preserves_panic].
  apply preserves_map_err, preserves_execute, preserves_ret.
Qed.

Lemma load_file_frame s t cols file : keeps (load_file s t cols file).
Proof.
  apply preserves_bind; [apply preserves_lift|]. intros bs'. apply preserves_iter. intros b.
  apply preserves_bind; [apply preserves_lift|]. intros b'.
  apply preserves_bind; [apply preserves_lift|]. intros rows.
  apply preserves_bind.
  - apply preserves_bind; [apply preserves_execute, preserves_ret|]. intros; apply preserves_ret.
  - intros stmt. apply preserves_execute, preserves_modify. by intros d Hd.
Qed.

Lemma process_data_files_frame s t cols prefix : keeps (process_data_files s t cols prefix).
Proof.
  do 2 (apply preserves_bind; [apply preserves_lift|]; intros ?).
  apply preserves_iter. intros; apply load_file_frame.
Qed.

Lemma is_completed_frame s t y m : keeps (is_completed s t y m).
Proof.
  apply preserves_map_err, preserves_execute, preserves_bind; [apply preserves_get|].
  intros rows. case_match; apply preserves_ret.
Qed.
End frame.

(** What a run leaves of a frame, as an equation. *)
Lemma frame_run {A} (m : Load A) d d' r :
  (forall I : list CheckpointRow -> Prop, preserves (fun d => I (checkpoints d)) m) -> m d = (d', r) -> checkpoints d' = checkpoints d.
Proof. intros Hm Hr. specialize (Hm (eq (checkpoints d)) d eq_refl). by rewrite Hr in Hm. Qed.

(** The status and the error of the partition are the ones of the load of its files. *)
Definition load_result (s t : bytes) (cols : gmap bytes PgColumn) (prefix : bytes)
    (st : CheckpointStatus) (error : option bytes) : Prop :=
  exists d0 d1 r, process_data_files s t cols prefix d0 = (d1, r) /\
  match st with
  | Completed => r = Ok tt /\ error = None
  | Failed => exists e, r = Err e /\ error = truncate_message (Some (bs "failed due to " ++ root_cause e))
  | Processing => False
  end.

(** How a partition ends. *)
Inductive partition_end (s t : bytes) (cols : gmap bytes PgColumn) (prefix : bytes) (y m : Z)
    (c : list CheckpointRow) : outcome Error unit -> list CheckpointRow -> Prop :=
| EndBefore r : r <> Ok tt -> partition_end s t cols prefix y m c r c
| EndCompleted row rows : filter (matches s t y m) c = row :: rows ->
    row_status row = Some (status_display Completed) -> partition_end s t cols prefix y m c (Ok tt) c
| EndDeleted r : r <> Ok tt ->
    partition_end s t cols prefix y m c r (filter (fun r => ~ matches s t y m r) c)
| EndStopped r : r <> Ok tt ->
    partition_end s t cols prefix y m c r
      (filter (fun r => ~ matches s t y m r) c ++ [partition_row s t y m Processing None 0])
| EndRecorded st error time : load_result s t cols prefix st error ->
    partition_end s t cols prefix y m c (Ok tt)
      (filter (fun r => ~ matches s t y m r) c ++ [partition_row s t y m st error time]).

(** From the insertion on. *)
Definition load_and_record (s t : bytes) (cols : gmap bytes PgColumn) (prefix : bytes) (y m : Z)
    : Load unit :=
  let checkpoint := checkpoint_new s t y m in
  let* result := mtry (process_data_files s t cols prefix) in
  let* time_taken := mlift (unwrap_option (elapsed_secs prefix)) in
  match result with
  | inl _ => update_status checkpoint Completed None time_taken
  | inr e => update_status checkpoint Failed (Some (bs "failed due to " ++ root_cause e)) time_taken
  end.

Lemma load_and_record_end s t cols prefix y m c d :
  checkpoints d = filter (fun r => ~ matches s t y m r) c ++ [partition_row s t y m Processing None 0] ->
  let '(d', r) := load_and_record s t cols prefix y m d in
  partition_end s t cols prefix y m c r (checkpoints d').
Proof.
  intros Hc. unfold load_and_record, mtry. cbn zeta.
  destruct (process_data_files s t cols prefix d) as [d1 r1] eqn:Hload.
  assert (Hd1 : checkpoints d1 = checkpoints d)
    by (eapply frame_run, Hload; intros; apply process_data_files_frame).
  unfold mbind at 1. rewrite Hload. rewrite Hc in Hd1.
  destruct r1 as [u|e|]; [..|by rewrite Hd1; constructor];
    unfold mlift, mbind; (destruct (elapsed_secs prefix) as [time|]; cbn [unwrap_option];
      [|by rewrite Hd1; constructor]).
  - pose proof (update_cases s t y m Completed None time c 0 d1 Hd1) as Hu.
    destruct (update_status _ _ _ _ d1) as [d2 r2], Hu as [[-> ->]|[[e ->] ->]];
      [constructor; do 3 eexists; split; [exact Hload|by destruct u]|rewrite Hd1; by constructor].
  - pose proof (update_cases s t y m Failed (Some (bs "failed due to " ++ root_cause e)) time c 0 d1 Hd1) as Hu.
    destruct (update_status _ _ _ _ d1) as [d2 r2], Hu as [[-> ->]|[[e' ->] ->]];
      [constructor; do 3 eexists; split; [exact Hload|by eauto]|rewrite Hd1; by constructor].
Qed.

Lemma process_partition_end s t cols prefix y m d :
  extract_year_and_month prefix = Some (y, m) ->
  let '(d', r) := process_partition s t cols prefix d in
  partition_end s t cols prefix y m (checkpoints d) r (checkpoints d').
Proof.
  intros Hkey. unfold process_partition. rewrite Hkey. cbn [ok_or].
  unfold mbind at 1, mlift. cbn iota beta.
  unfold mbind at 1. destruct (create_client_session d) as [d1 r1] eqn:Hs.
  apply frame_run in Hs; [|intros; apply create_client_session_frame]. rewrite <- Hs.
  destruct r1; [|by constructor..].
  unfold mbind at 1. destruct (is_completed s t y m d1) as [d2 r2] eqn:Hi.
  pose proof (frame_run _ _ _ _ (fun I => is_completed_frame I s t y m) Hi) as Hd2.
  destruct r2 as [[]| |]; [|rewrite <- Hd2..]; [|clear Hi|by constructor..].
  - cbn. rewrite Hd2. revert Hi. unfold is_completed. intros Hi%mmap_err_ok.
    unfold execute in Hi. destruct (head (faults d1)) as [[]|]; [done|..];
      unfold mbind, mget in Hi; cbn in Hi; (case_match eqn:Hf; [done|]);
      injection Hi as _ Hst; apply bool_decide_eq_true in Hst; by eapply EndCompleted.
  - pose proof (delete_cases s t y m d2) as Hdel. unfold mbind at 1.
    destruct (delete s t y m d2) as [d3 r3], Hdel as [[-> Hd3]|[[e ->] ->]]; [|by constructor].
    pose proof (insert_cases s t y m d3) as Hins. unfold mbind at 1.
    destruct (insert _ d3) as [d4 r4], Hins as [[-> Hd4]|[[e ->] ->]];
      [|rewrite Hd3; by constructor].
    rewrite Hd3 in Hd4. by apply (load_and_record_end s t cols prefix y m _ d4) in Hd4.
Qed.

Lemma list_filter_key_nodup s t y m c st error time :
  NoDup (row_key <$> c) ->
  NoDup (row_key <$> (filter (fun r => ~ matches s t y m r) c ++ [partition_row s t y m st error time])).
Proof.
  intros Hnd. rewrite fmap_app. apply NoDup_app. split_and!.
  - eapply sublist_NoDup; [exact Hnd|]. apply fmap_sublist, sublist_filter.
  - intros k (r & -> & [Hm Hr]%list_elem_of_filter)%list_elem_of_fmap Hk%list_elem_of_singleton.
    by apply Hm, matches_row_key.
  - apply NoDup_singleton.
Qed.

Lemma partition_end_ledger s t cols prefix y m c r c' :
  partition_end s t cols prefix y m c r c' ->
  NoDup (row_key <$> c) -> Forall written c -> NoDup (row_key <$> c') /\ Forall written c'.
Proof.
  intros Hend Hnd Hw. assert (Forall written (filter (fun r => ~ matches s t y m r) c)).
  { apply Forall_forall. intros x [_ Hx]%list_elem_of_filter. by eapply Forall_forall in Hw. }
  assert (NoDup (row_key <$> filter (fun r => ~ matches s t y m r) c)).
  { eapply sublist_NoDup; [exact Hnd|]. apply fmap_sublist, sublist_filter. }
  destruct Hend; try done;
    (split; [by apply list_filter_key_nodup|]; apply Forall_app; split; [done|];
     apply Forall_singleton; by eexists).
Qed.

Lemma process_partition_ledger s t cols prefix : preserves ledger_ok (process_partition s t cols prefix).
Proof.
  intros d [Hnd Hw]. destruct (extract_year_and_month prefix) as [[y m]|] eqn:Hkey.
  - pose proof (process_partition_end s t cols prefix y m d Hkey) as He.
    destruct (process_partition s t cols prefix d) as [d' r]. cbn. by eapply partition_end_ledger in He.
  - unfold process_partition. rewrite Hkey. by cbn.
Qed.

Lemma ledger_frame {A} (m : Load A) :
  (forall I : list CheckpointRow -> Prop, preserves (fun d => I (checkpoints d)) m) -> preserves ledger_ok m.
Proof. intros Hm. apply (Hm (fun c => NoDup (row_key <$> c) /\ Forall written c)). Qed.

Lemma create_index_ledger s t : preserves ledger_ok (create_index s t).
Proof.
  apply ledger_frame. intros I. apply preserves_bind; [apply create_client_session_frame|]. intros _.
  apply preserves_execute, preserves_modify. by intros d Hd.
Qed.

Lemma load_ledger s t cols prefix : preserves ledger_ok (load s t cols prefix).
Proof.
  do 2 (apply preserves_bind; [apply preserves_lift|]; intros ?).
  apply preserves_iter. intros year.
  do 2 (apply preserves_bind; [apply preserves_lift|]; intros ?).
  apply preserves_bind; [|intros; apply preserves_lift].
  apply preserves_collect. intros month. apply preserves_try, process_partition_ledger.
Qed.

Lemma process_table_ledger table : preserves ledger_ok (process_table table).
Proof.
  apply preserves_bind; [apply preserves_lift|]. intros [s t].
  apply preserves_bind; [apply ledger_frame; intros; apply create_client_session_frame|]. intros _.
  apply preserves_bind.
  { apply preserves_map_err, ledger_frame. intros I. apply preserves_execute, preserves_ret. }
  intros cols. apply preserves_bind; [apply load_ledger|]. intros _. apply create_index_ledger.
Qed.

Lemma init_checkpoint_cases d :
  let '(d', r) := init_checkpoint d in
  (r = Ok tt /\ checkpoints d' = filter kept_by_init (checkpoints d)) \/
  (exists e, r = Err e) /\ checkpoints d' = checkpoints d.
Proof.
  unfold init_checkpoint, execute_or, mmap_err, execute, mbind, mret, mdb, mmodify.
  destruct (faults d) as [|[e1|] l]; cbn; [by left|by eauto|].
  destruct l as [|[e2|] l]; cbn; [by left|by eauto|].
  destruct l as [|[e3|] l]; cbn; [by left|by eauto|by left].
Qed.

(** The loader never writes the text that the initialization keeps. *)
Lemma written_not_kept r : written r -> ~ kept_by_init r.
Proof. intros [s Hs]. unfold kept_by_init. rewrite Hs. by destruct s; vm_compute. Qed.

Lemma filter_written_nil c : Forall written c -> filter kept_by_init c = [].
Proof.
  intros Hw. destruct (filter kept_by_init c) as [|r l] eqn:Hf; [done|].
  assert (r ∈ filter kept_by_init c) as [Hk Hr]%list_elem_of_filter by (rewrite Hf; left).
  eapply Forall_forall in Hw; [|exact Hr]. by apply written_not_kept in Hw.
Qed.

Lemma init_checkpoint_ledger : preserves (E:=Error) (ledger_ok (Value:=Value)) init_checkpoint.
Proof.
  intros d [Hnd Hw]. pose proof (init_checkpoint_cases d) as Hi.
  destruct (init_checkpoint d) as [d' r]. unfold ledger_ok. cbn.
  destruct Hi as [[_ ->]|[_ ->]]; [|done].
  rewrite filter_written_nil by done. split; [apply NoDup_nil_2|done].
Qed.

Lemma load_data_from_azure_ledger base : preserves ledger_ok (load_data_from_azure base).
Proof.
  apply preserves_bind; [apply ledger_frame; intros; apply create_client_session_frame|]. intros _.
  apply preserves_bind; [apply init_checkpoint_ledger|]. intros _.
  apply preserves_bind; [apply preserves_lift|]. intros tables. apply preserves_iter. intros t.
  apply preserves_bind; [apply preserves_try, process_table_ledger|]. intros _. apply preserves_ret.
Qed.

Lemma run_attempts_ledger base n : preserves ledger_ok (run_attempts base n).
Proof.
  induction n as [|n IH]; cbn [run_attempts]; [apply preserves_ret|].
  apply preserves_bind.
  - apply preserves_try, preserves_bind; [apply preserves_lift|]. intros _.
    apply load_data_from_azure_ledger.
  - intros [u|e]; [apply preserves_ret|]. destruct n; [apply preserves_fail|exact IH].
Qed.

(** *** A table *)

(** A checkpoint of the partition that says that it was loaded or failed. *)
Definition finished (r : CheckpointRow) : Prop :=
  row_status r = Some (status_display Completed) \/ row_status r = Some (status_display Failed).
Definition recorded (s t prefix : bytes) (d : DB) : Prop :=
  exists y m row rows, extract_year_and_month prefix = Some (y, m) /\
  filter (matches s t y m) (checkpoints d) = row :: rows /\ finished row.

Lemma list_filter_nothing {A} (P : A -> Prop) `{forall x, Decision (P x)} l :
  (forall x, ~ P x) -> filter P l = [].
Proof. intros HP. induction l as [|x l IH]; [done|]. by rewrite filter_cons_False. Qed.

Lemma filter_new_row s t y m c row :
  matches s t y m row ->
  filter (matches s t y m) (filter (fun r => ~ matches s t y m r) c ++ [row]) = [row].
Proof.
  intros Hm. rewrite filter_app, list_filter_filter, filter_cons_True by done.
  by rewrite list_filter_nothing by tauto.
Qed.

Lemma filter_other_row s t y m y' m' c row :
  (y, m) <> (y', m') -> matches s t y' m' row ->
  filter (matches s t y m) (filter (fun r => ~ matches s t y' m' r) c ++ [row]) = filter (matches s t y m) c.
Proof.
  intros Hne Hm%matches_row_key. rewrite filter_app, list_filter_filter, filter_cons_False, filter_nil, app_nil_r.
  - apply list_filter_iff. intros r. split; [tauto|]. intros Hr. split; [done|].
    rewrite matches_row_key in Hr |- *. congruence.
  - rewrite matches_row_key. congruence.
Qed.

Lemma process_partition_recorded s t cols prefix d d' u :
  process_partition s t cols prefix d = (d', Ok u) -> recorded s t prefix d'.
Proof.
  intros Hr. destruct (extract_year_and_month prefix) as [[y m]|] eqn:Hkey.
  2: { unfold process_partition in Hr. by rewrite Hkey in Hr. }
  pose proof (process_partition_end s t cols prefix y m d Hkey) as He. rewrite Hr in He.
  exists y, m. inversion He as [|row rows Hf Hst| | |st error time Hload]; subst; try (by destruct u).
  - exists row, rows. split_and!; try congruence. by left.
  - eexists _, _. split_and!; [done|apply filter_new_row; by unfold matches|].
    destruct Hload as (d0 & d1 & r & _ & Hst). destruct st; [by right|by left|done].
Qed.

Lemma process_partition_keeps s t cols prefix prefix' d d' u :
  process_partition s t cols prefix d = (d', Ok u) -> recorded s t prefix' d -> recorded s t prefix' d'.
Proof.
  intros Hr (y' & m' & row & rows & Hkey' & Hf & Hfin).
  destruct (process_partition_recorded _ _ _ _ _ _ _ Hr) as (y & m & row1 & rows1 & Hkey & Hf1 & Hfin1).
  exists y', m'. destruct (decide ((y', m') = (y, m))) as [[= -> ->]|Hne]; [by eauto|].
  exists row, rows. split_and!; try done. rewrite <- Hf.
  pose proof (process_partition_end s t cols prefix y m d Hkey) as He. rewrite Hr in He.
  inversion He; subst; try (by destruct u); try congruence.
  apply filter_other_row; [done|by unfold matches].
Qed.

Lemma first_error_ok {A} (rs : list (A + Error)) u :
  first_error rs = Ok u -> Forall (fun r => exists y, r = inl y) rs.
Proof.
  unfold first_error. induction rs as [|[y|e] rs IH]; [done| |done]. cbn [omap list_omap].
  intros Hr. constructor; [by eexists|by apply IH].
Qed.

(** The partitions of a table, as the store lists them. *)
Definition partition_of (table prefix : bytes) : Prop :=
  exists years year months,
    common_prefixes table = Ok years /\ year ∈ years /\
    common_prefixes year = Ok months /\ prefix ∈ months.

Lemma elem_of_sort_insert (x y : bytes) l : y ∈ sort_insert id x l <-> y = x \/ y ∈ l.
Proof.
  induction l as [|z l IH]; cbn [sort_insert]; [set_solver|]. case_match; set_solver.
Qed.
Lemma elem_of_sort_by_path (y : bytes) l : y ∈ sort_by_path id l <-> y ∈ l.
Proof.
  unfold sort_by_path. induction l as [|x l IH]; cbn [foldr]; [done|].
  rewrite elem_of_sort_insert, IH. set_solver.
Qed.
Lemma process_items_all (l l' : list bytes) :
  get_process_only_head process_only_head_var = Ok false ->
  process_items process_only_head_var id l = Ok l' -> forall y, y ∈ l' <-> y ∈ l.
Proof. unfold process_items. intros -> [= <-] y. exact (elem_of_sort_by_path y l). Qed.

Lemma load_year_recorded s t cols year months d d' u :
  get_process_only_head process_only_head_var = Ok false ->
  (let* all_months := mlift (common_prefixes year) in
   let* months := mlift (process_items process_only_head_var id all_months) in
   let* results := mcollect (fun month => mtry (process_partition s t cols month)) months in
   mlift (first_error results)) d = (d', Ok u) ->
  common_prefixes year = Ok months ->
  (forall p, p ∈ months -> recorded s t p d') /\ forall p, recorded s t p d -> recorded s t p d'.
Proof.
  intros Hhead Hr Hm. rewrite Hm in Hr. inv_run.
  match goal with H : process_items _ _ _ = Ok ?l |- _ => set (todo := l) in *; pose proof (process_items_all _ _ Hhead H) as Hall end.
  match goal with H : first_error _ = Ok _ |- _ => apply first_error_ok in H as Hin end.
  match goal with H : mcollect _ _ _ = _ |- _ => destruct (mcollect_try _ _ _ _ _ H Hin) as [ys Hys] end.
  split.
  - intros p Hp%Hall. revert p Hp.
    eapply (mcollect_each (recorded s t) (process_partition s t cols)); [..|exact Hys]; intros;
      [by eapply process_partition_recorded|by eapply process_partition_keeps].
  - intros p. assert (preserves_ok (recorded s t p) (mcollect (process_partition s t cols) todo)) as Hk.
    { apply preserves_ok_collect. intros q s1 s2 a Hs1 Hs2. by eapply process_partition_keeps. }
    intros Hp. by eapply Hk.
Qed.

Lemma load_recorded s t cols table d d' u :
  get_process_only_head process_only_head_var = Ok false ->
  load s t cols table d = (d', Ok u) ->
  forall prefix, partition_of table prefix -> recorded s t prefix d'.
Proof.
  intros Hhead Hr prefix (years & year & months & Hy & Hyear & Hm & Hp).
  unfold load in Hr. rewrite Hy in Hr. inv_run.
  match goal with H : process_items _ _ _ = Ok _ |- _ =>
    apply (process_items_all _ _ Hhead H) in Hyear end.
  apply miter_mcollect in Hr as [rs Hr].
  revert prefix Hp. revert months Hm. revert year Hyear.
  eapply (mcollect_each (fun year d => forall months, common_prefixes year = Ok months ->
    forall p, p ∈ months -> recorded s t p d)); [..|exact Hr].
  - intros x d1 d2 y Hx ms Hms. by apply (load_year_recorded _ _ _ _ ms _ _ _ Hhead Hx Hms).
  - intros x z d1 d2 y Hx Hz ms Hms p Hpp. specialize (Hz ms Hms p Hpp).
    destruct (common_prefixes x) as [msx| |] eqn:Hcx; [|by cbn beta in Hx; rewrite Hcx in Hx..].
    eapply (load_year_recorded _ _ _ x msx); [done|exact Hx|done..].
Qed.

Lemma ledger_unique s t y m d row rows :
  ledger_ok d -> filter (matches s t y m) (checkpoints d) = row :: rows -> rows = [].
Proof.
  intros [Hnd _] Hf. destruct rows as [|row' rows]; [done|]. exfalso.
  assert (NoDup (row_key <$> row :: row' :: rows)) as Hnd'.
  { rewrite <- Hf. eapply sublist_NoDup; [exact Hnd|]. apply fmap_sublist, sublist_filter. }
  assert (Hr : forall r, r ∈ row :: row' :: rows -> row_key r = (s, t, y, m)).
  { intros r Hin. rewrite <- Hf in Hin. apply list_elem_of_filter in Hin as [Hin _]. by apply matches_row_key. }
  apply NoDup_cons in Hnd' as [Hn _]. apply Hn. cbn.
  rewrite (Hr row), <- (Hr row') by set_solver. left.
Qed.

(** *** What the table of checkpoints says *)

(** Every checkpoint is the loader's and no partition has two, whatever the
    statements, the store and the files do in a run. *)
Theorem checkpoints_stay_unique base max_retries d d' r :
  ledger_ok d -> run_data_loader base max_retries d = (d', r) -> ledger_ok d'.
Proof.
  unfold run_data_loader. intros Hd Hr. apply (run_attempts_ledger base max_retries) in Hd.
  by rewrite Hr in Hd.
Qed.


(** A partition that ends without an error leaves the other checkpoints as they were;
    its own says Completed, without an error, if and only if its files were loaded, now
    or before. *)
Theorem partition_recorded s t cols prefix y m d d' :
  extract_year_and_month prefix = Some (y, m) -> ledger_ok d ->
  process_partition s t cols prefix d = (d', Ok tt) ->
  filter (fun r => ~ matches s t y m r) (checkpoints d') =
    filter (fun r => ~ matches s t y m r) (checkpoints d) /\
  exists row, filter (matches s t y m) (checkpoints d') = [row] /\
    ((filter (matches s t y m) (checkpoints d) = [row] /\
      row_status row = Some (status_display Completed)) \/
     exists st error time, row = partition_row s t y m st error time /\ load_result s t cols prefix st error).
Proof.
  intros Hkey Hd Hr. pose proof (process_partition_end s t cols prefix y m d Hkey) as He. rewrite Hr in He.
  inversion He as [|row rows Hf Hst| | |st error time Hload]; subst; try done.
  - split; [congruence|]. exists row.
    pose proof (ledger_unique _ _ _ _ _ _ _ Hd Hf) as ->. split; [congruence|]. by left.
  - split.
    + rewrite filter_app, list_filter_filter, filter_cons_False, filter_nil, app_nil_r.
      * apply list_filter_iff. tauto.
      * intros Hn. apply Hn. by unfold matches.
    + eexists. split; [apply filter_new_row; by unfold matches|]. right. by eauto 6.
Qed.

(** The initialization of a run deletes every checkpoint that an earlier run left,
    the completed ones too: no partition is found completed after it. *)
Theorem restart_forgets_completed base max_retries d d1 d2 r :
  ledger_ok d -> run_data_loader base max_retries d = (d1, r) ->
  init_checkpoint d1 = (d2, Ok tt) ->
  checkpoints d2 = [] /\
  forall s t y m d3 completed, is_completed s t y m d2 = (d3, Ok completed) -> completed = false.
Proof.
  intros Hd Hr Hi. apply (run_attempts_ledger base max_retries) in Hd.
  unfold run_data_loader in Hr. rewrite Hr in Hd. destruct Hd as [_ Hw].
  pose proof (init_checkpoint_cases d1) as Hc. rewrite Hi in Hc.
  destruct Hc as [[_ Hc]|[[e He] _]]; [|done].
  rewrite filter_written_nil in Hc by exact Hw. split; [done|].
  intros s t y m d3 completed. unfold is_completed. intros Hx%mmap_err_ok.
  unfold execute, mbind, mget in Hx. cbn in Hx. rewrite Hc, filter_nil in Hx.
  destruct (head (faults d2)) as [[]|]; unfold mret in Hx; cbn in Hx; congruence.
Qed.

(** After the tables are listed no error ends the load, so that the attempts of
    [run_data_loader] never repeat the load of a table or of a partition. *)
Theorem load_errors_not_retried base d d' e :
  load_data base d = (d', Err e) -> common_prefixes base = Err e /\ d' = d.
Proof.
  unfold load_data. intros [Hl|(d1 & tables & Hl & Hr)]%mbind_err.
  { unfold mlift in Hl. split; congruence. }
  exfalso. clear Hl. revert d1 Hr. induction tables as [|t l IH]; intros d1 Hr; [done|].
  cbn [miter] in Hr. apply mbind_err in Hr as [Hr|(d2 & u & _ & Hr)]; [|by eapply IH].
  apply mbind_err in Hr as [Hr|(d2 & u & _ & Hr)]; [|done].
  unfold mtry in Hr. by destruct (process_table t d1) as [? []].
Qed.
End loading.

(** ** The inserts *)

Section inserts.
Context `{UnicodeData} `{UnicodeDigits} `{Calendar} `{LoaderEnv}.
Notation Value := (PgValue Decimal BigDecimal NaiveDateTime NaiveDate NaiveTime).
Notation DB := (Database Value).
Implicit Types (d : DB).

(** The placeholders of a row of the statement. *)
Definition values_group (g : list nat) : bytes :=
  bs "(" ++ join (bs ", ") (placeholder <$> g) ++ bs ")".
Fixpoint row_groups (num_fields k num_rows : nat) : list (list nat) :=
  match num_rows with
  | O => []
  | S num_rows => seq k num_fields :: row_groups num_fields (k + num_fields) num_rows
  end.

Lemma rows_placeholders_groups nf k n :
  rows_placeholders nf k n = concat ((fun g => g ++ bs ",") <$> (values_group <$> row_groups nf k n)).
Proof.
  revert k. induction n as [|n IH]; intros k; [done|]. cbn [rows_placeholders row_groups fmap list_fmap concat].
  rewrite IH. f_equal. unfold row_placeholders, values_group. by rewrite <- !app_assoc.
Qed.

Lemma row_groups_concat nf k n : concat (row_groups nf k n) = seq k (n * nf).
Proof.
  revert k. induction n as [|n IH]; intros k; [done|]. cbn [row_groups concat Nat.mul].
  by rewrite seq_app, IH.
Qed.
Lemma row_groups_length nf k n : length (row_groups nf k n) = n.
Proof. revert k. induction n as [|n IH]; intros k; cbn; [done|]. by rewrite IH. Qed.
Lemma row_groups_each nf k n : Forall (fun g => length g = nf) (row_groups nf k n).
Proof.
  revert k. induction n as [|n IH]; intros k; cbn [row_groups]; constructor; [apply length_seq|apply IH].
Qed.

(** The comma after the last row is the one that is popped. *)
Lemma pop_trailing_comma prefix (l : list bytes) :
  l <> [] -> pop (prefix ++ concat ((fun g => g ++ bs ",") <$> l)) = prefix ++ join (bs ",") l.
Proof.
  intros Hl. unfold pop. induction l as [|x l IH] in prefix, Hl |- *; [done|].
  destruct l as [|y l]; cbn [fmap list_fmap concat].
  - rewrite app_nil_r, app_assoc. exact (removelast_last _ _).
  - specialize (IH (prefix ++ x ++ bs ",") ltac:(done)). cbn [fmap list_fmap concat] in IH.
    change (join _ (x :: y :: l)) with (x ++ bs "," ++ join (bs ",") (y :: l)).
    rewrite <- !app_assoc in IH. rewrite <- !app_assoc. exact IH.
Qed.

Lemma get_pg_values_length rb i cols row :
  get_pg_values rb i cols = Ok row -> length row = length (columns rb).
Proof. apply collect_length. Qed.

Lemma concat_length_const {A} (l : list (list A)) n :
  Forall (fun x => length x = n) l -> length (concat l) = (length l * n)%nat.
Proof. induction 1; cbn; [done|]. by rewrite length_app, IHForall, H3. Qed.

Lemma execute_ok {A} (effect : M DB Error A) d d' a :
  execute effect d = (d', Ok a) ->
  effect (mkDatabase (checkpoints d) (executed d) (tail (faults d))) = (d', Ok a).
Proof. unfold execute. by destruct (head (faults d)) as [[]|]. Qed.

Lemma build_insert_statement_ok s t q fields n d d' stmt :
  (0 < n)%nat -> build_insert_statement s t q fields n d = (d', Ok stmt) ->
  exists conflict, executed d' = executed d /\
    stmt = bs "INSERT INTO " ++ q ++ bs " (" ++ join (bs ", ") (field_name <$> fields) ++ bs ") VALUES "
      ++ join (bs ",") (values_group <$> row_groups (length fields) 1 n) ++ conflict.
Proof.
  intros Hn Hr. unfold build_insert_statement in Hr. cbn zeta in Hr.
  apply mbind_ok in Hr as (d1 & keys & Hk%execute_ok & Hr).
  unfold mret in Hk, Hr. injection Hk as <- _.
  match type of Hr with (?x, _) = _ => assert (d' = x) as -> by congruence end.
  rewrite rows_placeholders_groups, pop_trailing_comma in Hr by (by destruct n; [lia|]).
  eexists. split; [done|].
  match type of Hr with (_, Ok ?x) = _ => assert (stmt = x) as -> by congruence end.
  by rewrite <- !app_assoc.
Qed.

(** A batch is inserted with one statement: it has a group of placeholders for every
    row, with as many as there are columns, and they are numbered in the order of the values
    that are sent, which are the ones of the rows. *)
Theorem insert_matches_values s t cols batch d d' :
  (0 < num_rows batch)%nat ->
  insert_record_batch s t cols batch d = (d', Ok tt) ->
  exists rows groups conflict,
    executed d' = executed d ++
      [(bs "INSERT INTO " ++ s ++ bs "." ++ t ++ bs " (" ++
        join (bs ", ") (field_name ∘ fst <$> columns batch) ++ bs ") VALUES " ++
        join (bs ",") (values_group <$> groups) ++ conflict, concat rows)] /\
    Forall2 (fun i row => get_pg_values batch i cols = Ok row) (seq 0 (num_rows batch)) rows /\
    length groups = num_rows batch /\
    Forall (fun g => length g = length (columns batch)) groups /\
    concat groups = seq 1 (length (concat rows)).
Proof.
  intros Hn Hr. unfold insert_record_batch in Hr. inv_run.
  match goal with H : collect _ _ = Ok ?l |- _ => rename H into Hrows, l into rows end.
  match goal with H : build_insert_statement _ _ _ _ _ _ = _ |- _ =>
    destruct (build_insert_statement_ok _ _ _ _ _ _ _ _ Hn H) as (conflict & Hex & ->) end.
  apply execute_ok in Hr as Hr'. cbv [mmodify] in Hr'. injection Hr' as <-. cbn [executed log_executed].
  apply collect_ok in Hrows.
  exists rows, (row_groups (length (columns batch)) 1 (num_rows batch)), conflict. split_and!; [..|done| | |].
  - rewrite Hex, length_fmap, list_fmap_compose, <- !app_assoc. done.
  - apply row_groups_length.
  - apply row_groups_each.
  - rewrite row_groups_concat, (concat_length_const rows (length (columns batch))).
    + by rewrite <- (Forall2_length _ _ _ Hrows), length_seq.
    + apply Forall_forall. intros row (i & Hi)%list_elem_of_lookup.
      destruct (Forall2_lookup_r _ _ _ _ _ Hrows Hi) as (k & _ & Hk). by eapply get_pg_values_length.
Qed.

(** A text is sent without the characters that the database refuses, and every
    other value of a text column is its number or null. *)
Theorem text_values_storable i cols l name v :
  pg_value i cols (StringArray l) (mkField name TUtf8) = Ok v ->
  match v with
  | PgText text => x00 ∉ text /\ exists s, l !! i = Some (true, s) /\ text = filter (fun b => b <> x00) s
  | PgBigDecimal _ => exists data, cols !! to_lowercase name = Some data /\
      eq_ignore_ascii_case (column_data_type data) (bs "numeric") = true
  | PgNull => exists s, l !! i = Some (false, s)
  | _ => False
  end.
Proof.
  unfold pg_value, slot. cbn [data_type field_name].
  destruct (l !! i) as [[[] s]|]; cbn [unwrap_option obind fst snd]; [..|done].
  - destruct (cols !! to_lowercase name) as [data|] eqn:Hd; [destruct (eq_ignore_ascii_case _ _) eqn:Hn|].
    + intros Hv. assert (exists n, v = PgBigDecimal n) as [n ->]; [|by eauto].
      unfold numeric_text in Hv. destruct (_ || _); inv_run; eauto.
    + intros [= <-]. split; [|by eauto]. by intros [? _]%list_elem_of_filter.
    + intros [= <-]. split; [|by eauto]. by intros [? _]%list_elem_of_filter.
  - intros [= <-]. by eauto.
Qed.

(** The estimate of a load that is larger than the sample is zero. *)
Theorem estimate_is_zero base tables time size total :
  common_prefixes base = Ok tables ->
  estimate_tables tables None 0 = Ok (Some (time, size), total) ->
  0 <= size < total -> estimate base = Ok (TotalTimeEstimated 0).
Proof.
  intros Ht He Hs. unfold estimate. rewrite Ht. cbn [obind]. rewrite He. cbn [obind].
  rewrite (proj2 (Z.ltb_lt 0 total)) by lia. by rewrite Z.div_small by lia.
Qed.
End inserts.

(** The message of a failure fits the column of the checkpoint. *)
Theorem failure_message_fits message text :
  truncate_message (Some message) = Some text -> varchar 500 text = true.
Proof.
  unfold truncate_message, varchar. destruct (Nat.ltb_spec 500 (length message)); intros [= <-].
  - apply Nat.leb_le, utf8_chars_take.
  - apply Nat.leb_le. pose proof (utf8_chars_length message). lia.
Qed.

(** ** A load *)

Module LoaderExamples.

#[local] Instance ascii_text : UnicodeData :=
  { char_upper c := c; char_lower _ _ c := c }.
#[local] Instance ascii_digits : UnicodeDigits := { unicode_digit _ := false }.
(** Dates and times as numbers. *)
#[local] Instance calendar : Calendar := {
  Decimal := Z * Z; BigDecimal := bytes; NaiveDateTime := Z; NaiveDate := Z; NaiveTime := Z * Z;
  from_i128_with_scale v s := if s <=? 28 then Some (v, s) else None;
  bigdecimal_from_str s := if forallb is_ascii_digit s then Some s else None;
  bigdecimal_to_string d := d;
  from_timestamp_micros v := Some v;
  from_timestamp_millis v := Some (1000 * v);
  from_timestamp_nanos v := v / 1000;
  from_num_days_from_ce_opt v := Some v;
  from_num_seconds_from_midnight_opt s n := if s <? 86400 then Some (s, n) else None;
}.

Definition base : bytes := bs "chain".
Definition table : bytes := bs "chain/SQL_ETHEREUM_BLOCKS".
Definition year_dir : bytes := table ++ bs "/SXT_INTERNAL_YEAR=2024".
Definition month1 : bytes := year_dir ++ bs "/SXT_INTERNAL_MONTH=1".
Definition month12 : bytes := year_dir ++ bs "/SXT_INTERNAL_MONTH=12".

Definition batch : RecordBatch :=
  mkRecordBatch [(mkField (bs "NUMBER") TInt64, Int64Array [(true, 7); (true, 8)]);
                 (mkField (bs "NAME") TUtf8, StringArray [(true, bs "a" ++ [x00] ++ bs "b"); (false, [])])] 2.

(** The file of the twelfth month cannot be read. *)
#[local] Instance store : LoaderEnv := {
  common_prefixes p :=
    if bool_decide (p = base) then Ok [table]
    else if bool_decide (p = table) then Ok [year_dir]
    else if bool_decide (p = year_dir) then Ok [month12; month1] else Ok [];
  list_files p := Ok [p ++ bs "/1.parquet"];
  read_batches f :=
    if bool_decide (f = month1 ++ bs "/1.parquet") then Ok [Ok batch]
    else Err (mkError (bs "Parquet error") None);
  file_size _ := 5000;
  get_file _ := Ok 5000;
  table_columns _ _ := ∅;
  primary_keys _ _ := [bs "number"];
  process_only_head_var := None;
  elapsed_secs _ := Some 3;
  elapsed_millis _ := Some 40;
  database_url := Some (bs "postgres");
  connection_config _ := true;
  azure_account_name := Some (bs "account");
  azure_endpoint := Some (bs "endpoint");
  azure_container_name := Some (bs "container");
  build_store _ _ _ := Ok tt;
}.

Notation DB := (Database (PgValue (@Decimal calendar) (@BigDecimal calendar) (@NaiveDateTime calendar)
  (@NaiveDate calendar) (@NaiveTime calendar))).
Definition empty_db : DB := mkDatabase [] [] [].
Definition S1 : bytes := bs "ETHEREUM".
Definition T1 : bytes := bs "BLOCKS".
Definition completed_row : CheckpointRow := partition_row S1 T1 2024 1 Completed None 3.
Definition failed_row : CheckpointRow :=
  partition_row S1 T1 2024 12 Failed (Some (bs "failed due to Parquet error")) 3.

Example a_run :
  let '(d, r) := (run_data_loader base 3 : M DB Error unit) empty_db in
  (r, checkpoints d, executed d) =
  (Ok tt, [completed_row; failed_row],
   [(bs "INSERT INTO ETHEREUM.BLOCKS (NUMBER, NAME) VALUES ($1, $2),($3, $4) ON CONFLICT (number) DO NOTHING ",
     [PgInt64 7; PgText (bs "ab"); PgInt64 8; PgNull]);
    (bs "CREATE INDEX IF NOT EXISTS  ETHEREUM_BLOCKS_HASH on ETHEREUM.BLOCKS ( META_ROW_NUMBER)", [])]).
Proof. vm_compute. reflexivity. Qed.

Lemma empty_ledger : ledger_ok empty_db.
Proof. split; [apply NoDup_nil_2|constructor]. Defined.

Definition run : M DB Error unit := run_data_loader base 3.
Definition loading : M DB Error unit := load S1 T1 ∅ table.
Definition january : M DB Error unit := process_partition S1 T1 ∅ month1.

Lemma checkpoints_stay_unique_witness : ledger_ok (fst (run empty_db)).
Proof. exact (checkpoints_stay_unique base 3 empty_db _ _ empty_ledger (surjective_pairing (run empty_db))). Defined.


Lemma partition_recorded_witness :
  exists row, filter (matches S1 T1 2024 1) (checkpoints (fst (january empty_db))) = [row].
Proof.
  destruct (partition_recorded S1 T1 ∅ month1 2024 1 empty_db (fst (january empty_db)) ltac:(by vm_compute)
    empty_ledger ltac:(apply (run_outcome january); by vm_compute)) as (_ & row & Hrow & _).
  by exists row.
Defined.

(** The second run loads again what the first one completed. *)
Lemma restart_forgets_completed_witness :
  checkpoints (fst (run empty_db)) = [completed_row; failed_row] /\
  checkpoints (fst ((init_checkpoint : M DB Error unit) (fst (run empty_db)))) = [].
Proof.
  split; [by vm_compute|].
  apply (restart_forgets_completed base 3 empty_db (fst (run empty_db)) _ (snd (run empty_db)) empty_ledger).
  - by rewrite <- surjective_pairing.
  - apply (run_outcome (init_checkpoint : M DB Error unit)). by vm_compute.
Defined.

(** A store that cannot be listed. *)
Definition no_store : LoaderEnv := {|
  common_prefixes _ := Err (mkError (bs "unreachable") None);
  list_files _ := Ok [];
  read_batches _ := Ok [];
  file_size _ := 0;
  get_file _ := Ok 0;
  table_columns _ _ := ∅;
  primary_keys _ _ := [];
  process_only_head_var := None;
  elapsed_secs _ := None;
  elapsed_millis _ := None;
  database_url := None;
  connection_config _ := true;
  azure_account_name := None;
  azure_endpoint := None;
  azure_container_name := None;
  build_store _ _ _ := Ok tt;
|}.

Lemma load_errors_not_retried_witness :
  @common_prefixes no_store base = Err (mkError (bs "unreachable") None).
Proof. by apply (@load_errors_not_retried _ _ _ no_store base empty_db empty_db). Defined.

Definition inserting : M DB Error unit := insert_record_batch S1 T1 ∅ batch.

Lemma insert_matches_values_witness :
  exists groups : list (list nat), length groups = 2%nat /\ Forall (fun g => length g = 2%nat) groups.
Proof.
  destruct (insert_matches_values S1 T1 ∅ batch empty_db (fst (inserting empty_db)) ltac:(by cbn; lia)
    ltac:(apply (run_outcome inserting); by vm_compute)) as (rows & groups & conflict & _ & _ & Hl & Hg & _).
  by exists groups.
Defined.

Lemma text_values_storable_witness : x00 ∉ bs "ab".
Proof.
  exact (proj1 (text_values_storable 0 ∅ [(true, bs "a" ++ [x00] ++ bs "b")] (bs "NAME") (PgText (bs "ab")) eq_refl)).
Defined.

Lemma estimate_is_zero_witness : estimate base = Ok (TotalTimeEstimated 0).
Proof. apply (estimate_is_zero base [table] 40 5000 10000); [by vm_compute..|lia]. Defined.

Lemma failure_message_fits_witness : varchar 500 (bs "failed due to Parquet error") = true.
Proof. by apply (failure_message_fits (bs "failed due to Parquet error")). Defined.

(** Day 0 of a [Date32] is the first of January 1970, and is sent as day 0 of the
    common era. *)
Example date_is_shifted :
  pg_value 0 ∅ (Date32Array [(true, 0)]) (mkField (bs "D") TDate32) = Ok (PgDate (0 : @NaiveDate calendar)).
Proof. reflexivity. Qed.
End LoaderExamples.
