(* ===== verification/StaticSetups.v ===== *)
(** * proof-of-sql/static-setups

    Loads the public parameters of the commitment schemes at the start of a node, from
    files or from the web, and puts them into cells that are written once.  The state
    is the file system and the cells.  The hash, the deserializers and the template of
    the address are a class; the web is a record, so that it may differ between two
    starts.  Theorems: what is put into the cells was verified against the configured
    hashes; the parallel deserialization gives what a sequential one gives, whatever
    the number of processors; cells and existing files never change, with the
    consequence that an interrupted download is never repaired and a start that failed
    half way cannot be repeated. *)

From stdpp Require Import base tactics option gmap strings numbers list.
From Stdlib Require Import ZArith Lia.
From Stdlib Require Import Strings.Byte.
From S2P Require Import Prelude Bytes.

Class SetupLibrary := {
  PublicParameters : Type;
  ProverSetup : Type;
  Point : Type;
  SourceError : Type;
  sha256 : bytes -> bytes;
  (** [deserialize_with_mode] of the dory parameters. *)
  deserialize_dory : bytes -> outcome SourceError PublicParameters;
  (** [deserialize_flat_compressed_hyperkzg_public_setup_from_slice]. *)
  deserialize_hyperkzg : bytes -> outcome SourceError (list Point);
  prover_setup_from : PublicParameters -> ProverSetup;
  (** Rendering the template with the release degree and parsing the address. *)
  render_url : bytes -> bytes -> outcome SourceError bytes;
  parse_url : bytes -> outcome SourceError bytes;
  url_join : bytes -> bytes -> option bytes;
  file_not_found : bytes -> SourceError;
  task_panicked : SourceError;
  num_cpus : nat;
}.

(** The web: whether a request for the head succeeds, and the stream of the contents,
    whose pieces may end with an error. *)
Record Web `{SetupLibrary} := mkWeb {
  web_head : bytes -> bool;
  web_get : bytes -> outcome SourceError (list (outcome SourceError bytes));
}.

Section static_setups.
Context `{SetupLibrary}.

Record ProofOfSqlPublicSetupArgs := mkArgs {
  dory_public_setup_path : option bytes;
  dory_public_setup_url : bytes;
  dory_public_setup_sha256 : bytes;
  hyper_kzg_public_setup_directory : bytes;
  hyper_kzg_public_setup_base_url_template : bytes;
  hyper_kzg_public_setup_release_degree : bytes;
  hyper_kzg_public_setup_sha256 : bytes;
}.

Inductive LoadPublicSetupError :=
| RenderUrlTemplate (source : SourceError)
| ParseRenderedUrl (source : SourceError)
| UrlError (source : SourceError)
| IoError (source : SourceError)
| Threading (source : SourceError)
| Verification
| Deserialize (error : SourceError).

Inductive InitializePublicSetupError :=
| LoadError (source : LoadPublicSetupError)
| AlreadyInitialized.

(** The files and the cells. *)
Record Host := mkHost {
  files : gmap bytes bytes;
  DORY_PUBLIC_PARAMETERS : option PublicParameters;
  DORY_PROVER_SETUP : option ProverSetup;
  HYPERKZG_PUBLIC_SETUP : option (list Point);
  PUBLIC_SETUPS : option (list Point * ProverSetup);
}.
Definition with_files (f : gmap bytes bytes -> gmap bytes bytes) (h : Host) : Host :=
  mkHost (f (files h)) (DORY_PUBLIC_PARAMETERS h) (DORY_PROVER_SETUP h) (HYPERKZG_PUBLIC_SETUP h)
    (PUBLIC_SETUPS h).

Notation Load := (M Host LoadPublicSetupError).

(** [tokio::fs::read]. *)
Definition read_file (path : bytes) : Load bytes := fun h =>
  (h, match files h !! path with Some c => Ok c | None => Err (IoError (file_not_found path)) end).

(** [Response::bytes]. *)
Definition response_bytes (r : outcome SourceError (list (outcome SourceError bytes)))
    : outcome LoadPublicSetupError bytes :=
  map_err UrlError (let? pieces := r in let? l := collect id pieces in Ok (concat l)).

Definition verify (expected : bytes) (contents : bytes) : outcome LoadPublicSetupError unit :=
  if bool_decide (sha256 contents = expected) then Ok tt else Err Verification.

Definition load_dory_public_setup (web : Web) (args : ProofOfSqlPublicSetupArgs) : Load PublicParameters :=
  let* contents :=
    match dory_public_setup_path args with
    | None => mlift (response_bytes (web_get web (dory_public_setup_url args)))
    | Some path => read_file path
    end in
  mlift (verify (dory_public_setup_sha256 args) contents) ;;;
  mlift (map_err Deserialize (deserialize_dory contents)).

(** *** The files of the HyperKZG setup *)

Definition ALPHABET : bytes := bs "abcdefghijklmnopqrstuvwxyz".
Definition HYPER_KZG_POINT_COMPRESSED_SIZE : nat := 32.

Definition single_file_name (release_degree : bytes) : bytes :=
  bs "ppot_0080_" ++ release_degree ++ bs ".bin".
Definition chunk_file_names (release_degree : bytes) : list bytes :=
  first_char ← ALPHABET;
  second_char ← ALPHABET;
  [bs "ppot_0080_" ++ release_degree ++ bs "_chunk_" ++ [first_char; second_char] ++ bs ".bin"].

(** [Path::join] with a relative name. *)
Definition path_join (directory name : bytes) : bytes :=
  match last directory with
  | None => name
  | Some b => if bool_decide (b = "/"%byte) then directory ++ name else directory ++ bs "/" ++ name
  end.

Definition head_ok (web : Web) (url name : bytes) : outcome LoadPublicSetupError bool :=
  let? u := unwrap_option (url_join url name) in Ok (web_head web u).
Fixpoint take_while_head (web : Web) (url : bytes) (names : list bytes)
    : outcome LoadPublicSetupError (list bytes) :=
  match names with
  | [] => Ok []
  | name :: names =>
      let? ok := head_ok web url name in
      if (ok : bool) then let? l := take_while_head web url names in Ok (name :: l) else Ok []
  end.

Definition append_file (path piece : bytes) : Load unit :=
  mmodify (with_files (fun fs => <[path := default [] (fs !! path) ++ piece]> fs)).

(** One download: the file is created first, and filled as the pieces arrive. *)
Definition download (web : Web) (url_path : bytes * bytes) : Load unit :=
  mmodify (with_files (<[url_path.2 := []]>)) ;;;
  let* pieces := mlift (map_err UrlError (web_get web url_path.1)) in
  miter (fun piece => let* piece := mlift (map_err UrlError piece) in append_file url_path.2 piece) pieces.

(** [try_join_all] of spawned tasks: all of them run; the error is the first one in the
    order of the files. *)
Definition first_failure {A E} (rs : list (A + E)) : outcome E unit :=
  match omap (fun r => match r with inr e => Some e | inl _ => None end) rs with
  | e :: _ => Err e
  | [] => Ok tt
  end.

Definition download_hyperkzg_public_setup_files (web : Web) (directory base_url_template release_degree : bytes)
    : Load (list bytes) :=
  let* rendered := mlift (map_err RenderUrlTemplate (render_url base_url_template release_degree)) in
  let* url := mlift (map_err ParseRenderedUrl (parse_url rendered)) in
  let* single := mlift (head_ok web url (single_file_name release_degree)) in
  let* file_names :=
    if (single : bool) then mret [single_file_name release_degree]
    else mlift (take_while_head web url (chunk_file_names release_degree)) in
  let file_paths := path_join directory <$> file_names in
  let* missing := mget (fun h => filter (fun np => files h !! np.2 = None) (zip file_names file_paths)) in
  let* urls_and_paths := mlift (collect (fun np =>
    let? u := unwrap_option (url_join url np.1) in Ok (u, np.2)) missing) in
  let* results := mcollect (fun up => mtry (download web up)) urls_and_paths in
  mlift (first_failure results) ;;;
  mret file_paths.

(** [par_chunks]. *)
Fixpoint chunks_fuel (fuel size : nat) (l : bytes) : list bytes :=
  match fuel, l with
  | S fuel, _ :: _ => take size l :: chunks_fuel fuel size (drop size l)
  | _, _ => []
  end.
Definition par_chunks (size : nat) (l : bytes) : list bytes := chunks_fuel (length l) size l.

Definition div_ceil (a b : nat) : nat := (a + b - 1) / b.

(** The points of one file; the slices of size zero panic. *)
Definition deserialize_file (file_bytes : bytes) : outcome LoadPublicSetupError (list Point) :=
  let num_points_in_file := (length file_bytes / HYPER_KZG_POINT_COMPRESSED_SIZE)%nat in
  let num_points_per_par_chunk := div_ceil num_points_in_file num_cpus in
  let par_chunk_size := (num_points_per_par_chunk * HYPER_KZG_POINT_COMPRESSED_SIZE)%nat in
  if (par_chunk_size =? 0)%nat then Panic
  else
    let? points := collect (fun chunk => map_err Deserialize (deserialize_hyperkzg chunk))
      (par_chunks par_chunk_size file_bytes) in
    Ok (concat points).

(** [spawn_blocking]: a panic of the task is an error of its handle. *)
Definition spawn_blocking {A} (task : outcome LoadPublicSetupError A) : outcome LoadPublicSetupError A :=
  match task with
  | Panic => Err (Threading task_panicked)
  | _ => task
  end.

Definition load_hyper_kzg_public_setup (web : Web) (args : ProofOfSqlPublicSetupArgs) : Load (list Point) :=
  let* file_paths := download_hyperkzg_public_setup_files web
    (hyper_kzg_public_setup_directory args) (hyper_kzg_public_setup_base_url_template args)
    (hyper_kzg_public_setup_release_degree args) in
  let* bytes_by_file := mcollect read_file file_paths in
  mlift (verify (hyper_kzg_public_setup_sha256 args) (concat bytes_by_file)) ;;;
  mlift (spawn_blocking (let? points := collect deserialize_file bytes_by_file in Ok (concat points))).

(** *** The cells *)

Notation Init := (M Host InitializePublicSetupError).

Definition get_or_init_public_setups_with {E} (dory_public_parameters : PublicParameters)
    (hyper_kzg_public_setup : list Point) : M Host E (list Point * ProverSetup) := fun h =>
  let dory_public_setup := default (prover_setup_from dory_public_parameters) (DORY_PROVER_SETUP h) in
  let setups := default (hyper_kzg_public_setup, dory_public_setup) (PUBLIC_SETUPS h) in
  (mkHost (files h) (DORY_PUBLIC_PARAMETERS h) (Some dory_public_setup) (HYPERKZG_PUBLIC_SETUP h)
    (Some setups), Ok setups).

(** [OnceLock::set]. *)
Definition set_dory (p : PublicParameters) : Init unit := fun h =>
  match DORY_PUBLIC_PARAMETERS h with
  | None => (mkHost (files h) (Some p) (DORY_PROVER_SETUP h) (HYPERKZG_PUBLIC_SETUP h) (PUBLIC_SETUPS h), Ok tt)
  | Some _ => (h, Err AlreadyInitialized)
  end.
Definition set_hyperkzg (p : list Point) : Init unit := fun h =>
  match HYPERKZG_PUBLIC_SETUP h with
  | None => (mkHost (files h) (DORY_PUBLIC_PARAMETERS h) (DORY_PROVER_SETUP h) (Some p) (PUBLIC_SETUPS h), Ok tt)
  | Some _ => (h, Err AlreadyInitialized)
  end.

Definition initialize_from_config (web : Web) (config : ProofOfSqlPublicSetupArgs) : Init unit :=
  let* dory := mmap_err LoadError (load_dory_public_setup web config) in
  set_dory dory ;;;
  let* hyper_kzg := mmap_err LoadError (load_hyper_kzg_public_setup web config) in
  set_hyperkzg hyper_kzg ;;;
  let* dory := mget DORY_PUBLIC_PARAMETERS in
  let* dory := mlift (unwrap_option dory) in
  let* hyper_kzg := mget HYPERKZG_PUBLIC_SETUP in
  let* hyper_kzg := mlift (unwrap_option hyper_kzg) in
  get_or_init_public_setups_with dory hyper_kzg ;;;
  mret tt.

(** [get_or_init] of the two cells from files that are not verified; errors panic. *)
Definition get_or_init_dory (path : bytes) : Init PublicParameters := fun h =>
  match DORY_PUBLIC_PARAMETERS h with
  | Some p => (h, Ok p)
  | None =>
      match (let? c := unwrap_option (files h !! path : option bytes) in
             unwrap (deserialize_dory c)) : outcome InitializePublicSetupError _ with
      | Ok p => (mkHost (files h) (Some p) (DORY_PROVER_SETUP h) (HYPERKZG_PUBLIC_SETUP h) (PUBLIC_SETUPS h), Ok p)
      | o => (h, o)
      end
  end.
Definition get_or_init_hyperkzg (path : bytes) : Init (list Point) := fun h =>
  match HYPERKZG_PUBLIC_SETUP h with
  | Some p => (h, Ok p)
  | None =>
      match (let? c := unwrap_option (files h !! path : option bytes) in
             unwrap (deserialize_hyperkzg c)) : outcome InitializePublicSetupError _ with
      | Ok p => (mkHost (files h) (DORY_PUBLIC_PARAMETERS h) (DORY_PROVER_SETUP h) (Some p) (PUBLIC_SETUPS h), Ok p)
      | o => (h, o)
      end
  end.
Definition get_or_init_from_files_unchecked (dory_public_setup_path hyper_kzg_public_setup_path : bytes)
    : Init (list Point * ProverSetup) :=
  let* dory_parameters := get_or_init_dory dory_public_setup_path in
  let* hyper_kzg_setup := get_or_init_hyperkzg hyper_kzg_public_setup_path in
  get_or_init_public_setups_with dory_parameters hyper_kzg_setup.
End static_setups.

(** What the deserializer and the platform promise: the flat format is a sequence of
    points of 32 bytes, deserializing does not panic, and there is a processor. *)
Class SetupLaws `{SetupLibrary} := {
  deserialize_hyperkzg_app a b :
    (length a mod HYPER_KZG_POINT_COMPRESSED_SIZE = 0)%nat ->
    deserialize_hyperkzg (a ++ b) =
    let? x := deserialize_hyperkzg a in let? y := deserialize_hyperkzg b in Ok (x ++ y);
  deserialize_hyperkzg_nil : deserialize_hyperkzg [] = Ok [];
  num_cpus_positive : (0 < num_cpus)%nat;
}.

(** ** Parallel deserialization *)

Section parallel.
Context `{SetupLaws}.
Notation SIZE := HYPER_KZG_POINT_COMPRESSED_SIZE.

Definition whole_points (l : bytes) : Prop := (length l mod SIZE = 0)%nat /\ l <> [].

(** Deserializing a list of pieces, in order. *)
Definition deserialize_pieces (ls : list bytes) : outcome LoadPublicSetupError (list Point) :=
  let? points := collect (fun l => map_err Deserialize (deserialize_hyperkzg l)) ls in Ok (concat points).

Lemma deserialize_pieces_cons l ls :
  deserialize_pieces (l :: ls) =
  let? x := map_err Deserialize (deserialize_hyperkzg l) in
  let? y := deserialize_pieces ls in Ok (x ++ y).
Proof.
  unfold deserialize_pieces. cbn [collect].
  destruct (map_err Deserialize (deserialize_hyperkzg l)) as [x|e|]; cbn [obind]; [|done..].
  by destruct (collect _ ls).
Qed.

Lemma map_err_app a b :
  (length a mod SIZE = 0)%nat ->
  map_err Deserialize (deserialize_hyperkzg (a ++ b)) =
  let? x := map_err Deserialize (deserialize_hyperkzg a) in
  let? y := map_err Deserialize (deserialize_hyperkzg b) in Ok (x ++ y).
Proof.
  intros Ha. rewrite deserialize_hyperkzg_app by done.
  destruct (deserialize_hyperkzg a); cbn [map_err obind]; [|done..]. by destruct (deserialize_hyperkzg b).
Qed.

(** The slices of a multiple of 32 bytes are deserialized to the points of the whole. *)
Lemma deserialize_chunks fuel size l :
  (0 < size)%nat -> (size mod SIZE = 0)%nat -> (length l <= fuel)%nat ->
  deserialize_pieces (chunks_fuel fuel size l) = map_err Deserialize (deserialize_hyperkzg l).
Proof.
  intros Hs Hm. revert l. induction fuel as [|fuel IH]; intros l Hl.
  { destruct l; [|cbn in Hl; lia]. cbn. by rewrite deserialize_hyperkzg_nil. }
  destruct l as [|b l]; [cbn; by rewrite deserialize_hyperkzg_nil|].
  cbn [chunks_fuel]. set (l' := b :: l) in *. rewrite deserialize_pieces_cons, IH.
  2: { rewrite length_drop. cbn in Hl |- *. lia. }
  destruct (decide (length l' <= size)%nat) as [Hle|Hgt].
  - rewrite take_ge, drop_ge by done. rewrite deserialize_hyperkzg_nil. cbn [map_err obind].
    destruct (deserialize_hyperkzg l') as [x|e|]; cbn; by rewrite ?app_nil_r.
  - pose proof (map_err_app (take size l') (drop size l')) as Happ. rewrite take_drop in Happ.
    rewrite Happ; [done|].
    rewrite length_take_le by lia. done.
Qed.

Lemma whole_points_length l : whole_points l -> (SIZE <= length l)%nat.
Proof.
  intros [Hm Hl]. unfold SIZE in *. destruct (decide (length l < 32)%nat) as [Hlt|]; [|lia].
  rewrite Nat.mod_small in Hm by done. by destruct l.
Qed.

Lemma deserialize_file_whole l :
  (SIZE <= length l)%nat -> deserialize_file l = map_err Deserialize (deserialize_hyperkzg l).
Proof.
  intros Hl. unfold deserialize_file. cbv zeta.
  set (chunk := div_ceil _ _).
  assert (0 < chunk)%nat as Hc.
  { subst chunk. unfold div_ceil. pose proof num_cpus_positive.
    assert (1 <= length l / SIZE)%nat by (apply Nat.div_le_lower_bound; unfold SIZE in *; lia).
    apply Nat.div_str_pos. lia. }
  assert (0 < chunk * SIZE)%nat as Hpos by (unfold SIZE; lia).
  rewrite (proj2 (Nat.eqb_neq _ _)) by lia.
  apply deserialize_chunks; [done| |done]. apply Nat.Div0.mod_mul.
Qed.


(** A file that is shorter than one point is an error of the task, not of the file. *)
Theorem short_file_is_threading_error l fs :
  (length l < SIZE)%nat ->
  spawn_blocking (let? points := collect deserialize_file (l :: fs) in Ok (concat points)) =
  Err (Threading task_panicked).
Proof.
  intros Hl. cbn [collect]. assert (deserialize_file l = Panic) as ->; [|done].
  unfold deserialize_file, SIZE in *. rewrite Nat.div_small by done. cbv zeta.
  unfold div_ceil. pose proof num_cpus_positive. rewrite (Nat.div_small (0 + num_cpus - 1)) by lia. done.
Qed.
End parallel.

(** ** Cells and files *)

Section cells.
Context `{SetupLibrary}.
Implicit Types (h : Host).

(** The prover setup is the one of the parameters, and the setups are the ones of the
    cells. *)
Definition cells_ok (h : Host) : Prop :=
  (forall k p, PUBLIC_SETUPS h = Some (k, p) -> HYPERKZG_PUBLIC_SETUP h = Some k /\ DORY_PROVER_SETUP h = Some p) /\
  (forall p, DORY_PROVER_SETUP h = Some p ->
    exists d, DORY_PUBLIC_PARAMETERS h = Some d /\ p = prover_setup_from d).

Definition stays {A} (x y : option A) : Prop := forall a, x = Some a -> y = Some a.
Definition cells_extend (h h' : Host) : Prop :=
  stays (DORY_PUBLIC_PARAMETERS h) (DORY_PUBLIC_PARAMETERS h') /\
  stays (DORY_PROVER_SETUP h) (DORY_PROVER_SETUP h') /\
  stays (HYPERKZG_PUBLIC_SETUP h) (HYPERKZG_PUBLIC_SETUP h') /\
  stays (PUBLIC_SETUPS h) (PUBLIC_SETUPS h').
#[global] Instance cells_extend_preorder : PreOrder cells_extend.
Proof.
  split; [by intros h; split_and!; intros a|].
  intros h1 h2 h3 (A1 & B1 & C1 & D1) (A2 & B2 & C2 & D2). split_and!; intros a Ha; auto.
Qed.

Definition same_cells (h h' : Host) : Prop :=
  DORY_PUBLIC_PARAMETERS h' = DORY_PUBLIC_PARAMETERS h /\ DORY_PROVER_SETUP h' = DORY_PROVER_SETUP h /\
  HYPERKZG_PUBLIC_SETUP h' = HYPERKZG_PUBLIC_SETUP h /\ PUBLIC_SETUPS h' = PUBLIC_SETUPS h.

(** Loading changes files only. *)
Lemma download_cells web h0 up : preserves (same_cells h0) (download web up).
Proof.
  assert (Hf : forall f, preserves (E:=LoadPublicSetupError) (same_cells h0) (mmodify (with_files f)))
    by (intros f; apply preserves_modify; by intros h).
  apply preserves_bind; [apply Hf|]. intros _. apply preserves_bind; [apply preserves_lift|].
  intros pieces. apply preserves_iter. intros piece.
  apply preserves_bind; [apply preserves_lift|]. intros c. apply Hf.
Qed.

Lemma download_files_cells web h0 dir template degree :
  preserves (same_cells h0) (download_hyperkzg_public_setup_files web dir template degree).
Proof.
  do 3 (apply preserves_bind; [apply preserves_lift|]; intros ?).
  apply preserves_bind; [case_match; [apply preserves_ret|apply preserves_lift]|]. intros names.
  apply preserves_bind; [apply preserves_get|]. intros missing.
  apply preserves_bind; [apply preserves_lift|]. intros ups.
  apply preserves_bind; [|intros; apply preserves_bind; [apply preserves_lift|intros; apply preserves_ret]].
  apply preserves_collect. intros up. apply preserves_try, download_cells.
Qed.

Lemma read_file_run path h h' c : read_file path h = (h', Ok c) -> h' = h /\ files h !! path = Some c.
Proof. unfold read_file. destruct (files h !! path); intros [= <- <-]; eauto. Qed.
Lemma read_file_preserves I path : preserves I (read_file path).
Proof. by intros h Hh. Qed.

Lemma load_dory_cells web h0 args : preserves (same_cells h0) (load_dory_public_setup web args).
Proof.
  apply preserves_bind; [case_match; [apply read_file_preserves|apply preserves_lift]|].
  intros c. apply preserves_bind; intros; apply preserves_lift.
Qed.
Lemma load_hyper_kzg_cells web h0 args : preserves (same_cells h0) (load_hyper_kzg_public_setup web args).
Proof.
  apply preserves_bind; [apply download_files_cells|]. intros paths.
  apply preserves_bind; [apply preserves_collect; intros; apply read_file_preserves|]. intros cs.
  apply preserves_bind; intros; apply preserves_lift.
Qed.

Lemma same_cells_refl h : same_cells h h.
Proof. by split_and!. Qed.
Lemma load_same_cells {A} (m : M Host LoadPublicSetupError A) h h' r :
  (forall h0, preserves (same_cells h0) m) -> m h = (h', r) -> same_cells h h'.
Proof. intros Hm Hr. specialize (Hm h h (same_cells_refl h)). by rewrite Hr in Hm. Qed.

Lemma verify_ok expected c u : verify expected c = Ok u -> sha256 c = expected.
Proof. unfold verify. by case_bool_decide. Qed.

Lemma load_dory_verified web args h h' d :
  load_dory_public_setup web args h = (h', Ok d) ->
  exists c, sha256 c = dory_public_setup_sha256 args /\ deserialize_dory c = Ok d.
Proof.
  unfold load_dory_public_setup. intros (h1 & c & _ & Hr)%mbind_ok. inv_run.
  exists c. split; [by eapply verify_ok|done].
Qed.

Lemma mcollect_read l h h' cs :
  mcollect read_file l h = (h', Ok cs) -> h' = h /\ Forall2 (fun p c => files h !! p = Some c) l cs.
Proof.
  revert h h' cs. induction l as [|p l IH]; intros h h' cs; cbn [mcollect]; [by intros [= <- <-]|].
  intros (h1 & c & [-> Hc]%read_file_run & (h2 & cs' & [-> Hcs]%IH & [= <- <-])%mbind_ok)%mbind_ok.
  split; [done|]. by constructor.
Qed.

Lemma spawn_blocking_ok {A} (t : outcome LoadPublicSetupError A) a : spawn_blocking t = Ok a -> t = Ok a.
Proof. by destruct t. Qed.

Lemma load_hyper_kzg_verified web args h h' points :
  load_hyper_kzg_public_setup web args h = (h', Ok points) ->
  exists paths contents, Forall2 (fun p c => files h' !! p = Some c) paths contents /\
    sha256 (concat contents) = hyper_kzg_public_setup_sha256 args /\
    (let? l := collect deserialize_file contents in Ok (concat l)) = Ok points.
Proof.
  unfold load_hyper_kzg_public_setup. intros (h1 & paths & _ & Hr)%mbind_ok.
  apply mbind_ok in Hr as (h2 & cs & [-> Hcs]%mcollect_read & Hr).
  apply mbind_ok in Hr as (h3 & u & [Hv%verify_ok ->]%mlift_ok & [Hs%spawn_blocking_ok ->]%mlift_ok).
  by exists paths, cs.
Qed.

Lemma set_dory_ok d h h' u :
  set_dory d h = (h', Ok u) -> DORY_PUBLIC_PARAMETERS h = None /\
  h' = mkHost (files h) (Some d) (DORY_PROVER_SETUP h) (HYPERKZG_PUBLIC_SETUP h) (PUBLIC_SETUPS h).
Proof. unfold set_dory. destruct (DORY_PUBLIC_PARAMETERS h); [done|]. by intros [= <-]. Qed.
Lemma set_hyperkzg_ok k h h' u :
  set_hyperkzg k h = (h', Ok u) -> HYPERKZG_PUBLIC_SETUP h = None /\
  h' = mkHost (files h) (DORY_PUBLIC_PARAMETERS h) (DORY_PROVER_SETUP h) (Some k) (PUBLIC_SETUPS h).
Proof. unfold set_hyperkzg. destruct (HYPERKZG_PUBLIC_SETUP h); [done|]. by intros [= <-]. Qed.

(** C14: A successful start finds the cells of the parameters empty and fills them with what
    was verified against the configured hashes; the setups that the node uses are those. *)
Theorem setups_verified web config h h' :
  cells_ok h -> initialize_from_config web config h = (h', Ok tt) ->
  DORY_PUBLIC_PARAMETERS h = None /\ HYPERKZG_PUBLIC_SETUP h = None /\
  exists dory_bytes dory paths contents points,
    sha256 dory_bytes = dory_public_setup_sha256 config /\ deserialize_dory dory_bytes = Ok dory /\
    Forall2 (fun p c => files h' !! p = Some c) paths contents /\
    sha256 (concat contents) = hyper_kzg_public_setup_sha256 config /\
    (let? l := collect deserialize_file contents in Ok (concat l)) = Ok points /\
    DORY_PUBLIC_PARAMETERS h' = Some dory /\ HYPERKZG_PUBLIC_SETUP h' = Some points /\
    PUBLIC_SETUPS h' = Some (points, prover_setup_from dory).
Proof.
  intros [Hpub Hprov] Hr. unfold initialize_from_config in Hr.
  apply mbind_ok in Hr as (h1 & dory & Hdory%mmap_err_ok & Hr).
  pose proof (load_same_cells _ _ _ _ (fun h0 => load_dory_cells web h0 config) Hdory) as (Hd1 & Hp1 & Hk1 & Hs1).
  apply mbind_ok in Hr as (h2 & u & [Hnone ->]%set_dory_ok & Hr).
  apply mbind_ok in Hr as (h3 & points & Hkzg%mmap_err_ok & Hr).
  pose proof (load_same_cells _ _ _ _ (fun h0 => load_hyper_kzg_cells web h0 config) Hkzg) as (Hd3 & Hp3 & Hk3 & Hs3).
  apply mbind_ok in Hr as (h4 & u' & [Hnone' ->]%set_hyperkzg_ok & Hr).
  cbn in Hd3, Hp3, Hk3, Hs3. rewrite Hd1 in Hnone. rewrite Hk3, Hk1 in Hnone'.
  assert (DORY_PROVER_SETUP h = None) as HpN.
  { destruct (DORY_PROVER_SETUP h) as [p|] eqn:Hp; [|done]. destruct (Hprov p eq_refl) as (d & Hd & _). congruence. }
  assert (PUBLIC_SETUPS h = None) as HsN.
  { destruct (PUBLIC_SETUPS h) as [[k p]|] eqn:Hs; [|done]. destruct (Hpub k p eq_refl). congruence. }
  destruct (load_dory_verified _ _ _ _ _ Hdory) as (c & Hc & Hdc).
  destruct (load_hyper_kzg_verified _ _ _ _ _ Hkzg) as (paths & cs & Hcs & Hsha & Hpts).
  unfold mbind, mget, mlift in Hr. cbn in Hr. rewrite Hd3 in Hr. cbn in Hr.
  unfold get_or_init_public_setups_with in Hr. cbn in Hr. rewrite Hp3, Hp1, HpN, Hs3, Hs1, HsN in Hr. cbn in Hr.
  injection Hr as <-. split_and!; [done..|]. exists c, dory, paths, cs, points. split_and!; done.
Qed.

(** The cells are consistent and extend the ones of [h0]. *)
Definition grown (h0 h : Host) : Prop := cells_ok h /\ cells_extend h0 h.

Lemma grown_same h0 h h' : grown h0 h -> same_cells h h' -> grown h0 h'.
Proof.
  intros [[Hpub Hprov] He] (Hd & Hp & Hk & Hs). unfold grown, cells_ok, cells_extend in *.
  rewrite Hd, Hp, Hk, Hs. exact (conj (conj Hpub Hprov) He).
Qed.
Lemma grown_load {A} (m : M Host LoadPublicSetupError A) h0 :
  (forall h1, preserves (same_cells h1) m) -> preserves (grown h0) m.
Proof. intros Hm h Hh. eapply grown_same; [exact Hh|]. apply Hm, same_cells_refl. Qed.

Lemma set_dory_grown h0 d : preserves (grown h0) (set_dory d).
Proof.
  intros h Hg. pose proof Hg as [[Hpub Hprov] (He1 & He2 & He3 & He4)]. unfold set_dory.
  destruct (DORY_PUBLIC_PARAMETERS h) as [d'|] eqn:Hd; cbn; [exact Hg|].
  split; [split; [done|]; cbn; intros p Hp; destruct (Hprov p Hp) as (? & ? & _); congruence|].
  split_and!; try done. intros a Ha. apply He1 in Ha. congruence.
Qed.
Lemma set_hyperkzg_grown h0 k : preserves (grown h0) (set_hyperkzg k).
Proof.
  intros h Hg. pose proof Hg as [[Hpub Hprov] (He1 & He2 & He3 & He4)]. unfold set_hyperkzg.
  destruct (HYPERKZG_PUBLIC_SETUP h) as [k'|] eqn:Hk; cbn; [exact Hg|].
  split; [split; [|done]; cbn; intros k' p Hp; destruct (Hpub k' p Hp); congruence|].
  split_and!; try done. intros a Ha. apply He3 in Ha. congruence.
Qed.

Lemma publish_grown {E} h0 d k h :
  DORY_PUBLIC_PARAMETERS h = Some d -> HYPERKZG_PUBLIC_SETUP h = Some k -> grown h0 h ->
  grown h0 (fst (get_or_init_public_setups_with (E:=E) d k h)).
Proof.
  intros Hd Hk [[Hpub Hprov] (He1 & He2 & He3 & He4)]. unfold get_or_init_public_setups_with. cbn.
  assert (forall p, default (prover_setup_from d) (DORY_PROVER_SETUP h) = p -> p = prover_setup_from d) as Hp.
  { intros p. destruct (DORY_PROVER_SETUP h) as [p'|]; cbn; [|done]. intros <-.
    destruct (Hprov p' eq_refl) as (d' & Hd' & ->). congruence. }
  split; [split|split_and!]; cbn; try done.
  - intros k' p. destruct (PUBLIC_SETUPS h) as [[k1 p1]|]; cbn; [|by intros [= <- <-]].
    intros [= <- <-]. destruct (Hpub k1 p1 eq_refl) as [Hk1 ->]. by split.
  - intros p [= Hq]. exists d. split; [done|by apply Hp].
  - intros a Ha. apply He2 in Ha. by rewrite Ha.
  - intros a Ha. apply He4 in Ha. by rewrite Ha.
Qed.

Lemma get_or_init_dory_grown h0 path h :
  grown h0 h -> grown h0 (fst (get_or_init_dory path h)) /\
  forall d, snd (get_or_init_dory path h) = Ok d ->
    DORY_PUBLIC_PARAMETERS (fst (get_or_init_dory path h)) = Some d.
Proof.
  intros Hg. unfold get_or_init_dory. destruct (DORY_PUBLIC_PARAMETERS h) as [d'|] eqn:Hd.
  { split; [done|]. by intros d [= <-]. }
  destruct (let? c := _ in _) as [d| |]; [|by split..]. split; [|by intros ? [= <-]].
  pose proof (set_dory_grown h0 d h Hg) as Hs. unfold set_dory in Hs. by rewrite Hd in Hs.
Qed.
Lemma get_or_init_hyperkzg_grown h0 path h :
  grown h0 h -> grown h0 (fst (get_or_init_hyperkzg path h)) /\
  (DORY_PUBLIC_PARAMETERS (fst (get_or_init_hyperkzg path h)) = DORY_PUBLIC_PARAMETERS h) /\
  forall k, snd (get_or_init_hyperkzg path h) = Ok k ->
    HYPERKZG_PUBLIC_SETUP (fst (get_or_init_hyperkzg path h)) = Some k.
Proof.
  intros Hg. unfold get_or_init_hyperkzg. destruct (HYPERKZG_PUBLIC_SETUP h) as [d'|] eqn:Hd.
  { split_and!; [done..|]. by intros d [= <-]. }
  destruct (let? c := _ in _) as [d| |]; [|by split_and!..]. split_and!; [|done|by intros ? [= <-]].
  pose proof (set_hyperkzg_grown h0 d h Hg) as Hs. unfold set_hyperkzg in Hs. by rewrite Hd in Hs.
Qed.

Lemma initialize_grown h0 web config : preserves (grown h0) (initialize_from_config web config).
Proof.
  apply preserves_bind; [apply preserves_map_err, grown_load; intros; apply load_dory_cells|]. intros d.
  apply preserves_bind; [apply set_dory_grown|]. intros _.
  apply preserves_bind; [apply preserves_map_err, grown_load; intros; apply load_hyper_kzg_cells|]. intros k.
  apply preserves_bind; [apply set_hyperkzg_grown|]. intros _ h Hg.
  unfold mbind, mget, mlift. destruct (DORY_PUBLIC_PARAMETERS h) as [d'|] eqn:Hd; cbn [unwrap_option]; [|done].
  destruct (HYPERKZG_PUBLIC_SETUP h) as [k'|] eqn:Hk; cbn [unwrap_option]; [|done].
  pose proof (publish_grown (E:=InitializePublicSetupError) h0 d' k' h Hd Hk Hg) as Hp.
  by destruct (get_or_init_public_setups_with d' k' h) as [h' []].
Qed.

Lemma from_files_grown h0 p1 p2 : preserves (grown h0) (get_or_init_from_files_unchecked p1 p2).
Proof.
  intros h Hg. unfold get_or_init_from_files_unchecked, mbind.
  destruct (get_or_init_dory_grown h0 p1 h Hg) as [Hg1 Hd1].
  destruct (get_or_init_dory p1 h) as [h1 [d| |]]; [|done..].
  destruct (get_or_init_hyperkzg_grown h0 p2 h1 Hg1) as (Hg2 & Hd2 & Hk2).
  destruct (get_or_init_hyperkzg p2 h1) as [h2 [k| |]]; [|done..].
  apply publish_grown; [transitivity (DORY_PUBLIC_PARAMETERS h1); [exact Hd2|by apply Hd1]|by apply Hk2|done].
Qed.

(** Whatever is initialized, from the configuration or from files, in any order and
    with any outcome, the cells are consistent and none that is set changes. *)
Theorem cells_written_once (ops : list (Web * ProofOfSqlPublicSetupArgs + bytes * bytes)) h :
  cells_ok h ->
  let h' := foldl (fun h op => match op with
    | inl (web, config) => fst (initialize_from_config web config h)
    | inr (p1, p2) => fst (get_or_init_from_files_unchecked p1 p2 h)
    end) h ops in
  cells_ok h' /\ cells_extend h h'.
Proof.
  intros Hok. cbv zeta. change (?P /\ ?Q) with (grown h (foldl (fun h op => match op with
    | inl (web, config) => fst (initialize_from_config web config h)
    | inr (p1, p2) => fst (get_or_init_from_files_unchecked p1 p2 h)
    end) h ops)).
  assert (grown h h) as Hg by (split; [done|reflexivity]). revert Hg. generalize h at 2 4. clear Hok.
  induction ops as [|[[web config]|[p1 p2]] ops IH]; intros h1 Hg; cbn [foldl]; [done|..]; apply IH.
  - by apply initialize_grown.
  - by apply from_files_grown.
Qed.

(** *** Files *)

Lemma download_keeps web url path p c :
  path <> p -> preserves (fun h => files h !! p = Some c) (download web (url, path)).
Proof.
  intros Hne. apply preserves_bind.
  { apply preserves_modify. intros h Hh. cbn. by rewrite lookup_insert_ne. }
  intros _. apply preserves_bind; [apply preserves_lift|]. intros pieces.
  apply preserves_iter. intros piece. apply preserves_bind; [apply preserves_lift|]. intros b.
  apply preserves_modify. intros h Hh. cbn. by rewrite lookup_insert_ne.
Qed.

(** A download never touches a file that exists, complete or not. *)
Theorem existing_files_kept web dir template degree p c h h' r :
  files h !! p = Some c ->
  download_hyperkzg_public_setup_files web dir template degree h = (h', r) -> files h' !! p = Some c.
Proof.
  intros Hp Hr. unfold download_hyperkzg_public_setup_files in Hr.
  set (I := fun h : Host => files h !! p = Some c).
  unfold mbind at 1, mlift at 1 in Hr. destruct (map_err _ (render_url _ _)); [|by injection Hr as <- _..].
  unfold mbind at 1, mlift at 1 in Hr. destruct (map_err _ (parse_url _)) as [url| |]; [|by injection Hr as <- _..].
  unfold mbind at 1, mlift at 1 in Hr. destruct (head_ok _ _ _) as [single| |]; [|by injection Hr as <- _..].
  unfold mbind at 1 in Hr.
  match type of Hr with context [(if single then ?a else ?b) h] =>
    destruct ((if single then a else b) h) as [h1 o] eqn:Hnames end.
  assert (h1 = h) as -> by (destruct single; cbv [mret mlift] in Hnames; congruence).
  destruct o as [names| |]; [|by injection Hr as <- _..]. unfold mbind at 1, mget in Hr.
  set (missing := filter _ _) in Hr.
  unfold mbind at 1, mlift at 1 in Hr. destruct (collect _ missing) as [ups| |] eqn:Hups; [|by injection Hr as <- _..].
  assert (Hk : preserves I (mcollect (E:=LoadPublicSetupError) (fun up => mtry (download web up)) ups)).
  { apply preserves_collect_in. intros [u q] Hin. apply preserves_try, download_keeps. intros ->.
    apply list_elem_of_lookup in Hin as [i Hi]. apply collect_ok in Hups.
    destruct (Forall2_lookup_r _ _ _ _ _ Hups Hi) as ([n q] & Hq & Hj). inv_run.
    apply list_elem_of_lookup_2, list_elem_of_filter in Hq as [Hq _]. cbn in Hq. congruence. }
  specialize (Hk h Hp). unfold mbind at 1 in Hr. destruct (mcollect _ ups h) as [h2 [rs| |]]; cbn in Hk;
    [|by injection Hr as <- _..].
  unfold mbind, mlift in Hr. destruct (first_failure rs); by injection Hr as <- _.
Qed.

(** When the first setup was loaded and the second was not, the start fails and no later
    one succeeds in the same process, whatever its configuration and the web. *)
Theorem failed_start_not_repeatable web config h h1 dory h2 e :
  load_dory_public_setup web config h = (h1, Ok dory) -> DORY_PUBLIC_PARAMETERS h1 = None ->
  load_hyper_kzg_public_setup web config
    (mkHost (files h1) (Some dory) (DORY_PROVER_SETUP h1) (HYPERKZG_PUBLIC_SETUP h1) (PUBLIC_SETUPS h1))
    = (h2, Err e) ->
  initialize_from_config web config h = (h2, Err (LoadError e)) /\
  forall web' config', snd (initialize_from_config web' config' h2) <> Ok tt.
Proof.
  intros Hdory Hnone Hkzg. split.
  - unfold initialize_from_config. erewrite mbind_run by (apply mmap_err_ok; exact Hdory).
    erewrite mbind_run by (unfold set_dory; rewrite Hnone; reflexivity).
    apply mbind_run_err. unfold mmap_err. by rewrite Hkzg.
  - intros web' config' Hr%run_outcome. revert Hr. set (h3 := fst _). intros Hr.
    pose proof (load_same_cells _ _ _ _ (fun h0 => load_hyper_kzg_cells web h0 config) Hkzg) as (Hd & _).
    unfold initialize_from_config in Hr. apply mbind_ok in Hr as (h4 & d & Hl%mmap_err_ok & Hr).
    apply mbind_ok in Hr as (h5 & u & [Hn _]%set_dory_ok & _).
    pose proof (load_same_cells _ _ _ _ (fun h0 => load_dory_cells web' h0 config') Hl) as (Hd' & _).
    cbn in Hd. congruence.
Qed.
End cells.

(** ** A start *)

Module SetupExamples.

(** The points are given by their bytes, and the hash is the contents. *)
Definition points (l : bytes) : outcome Z (list byte) :=
  if (length l mod 32 =? 0)%nat then Ok l else Err 1.
#[local] Instance library : SetupLibrary := {
  PublicParameters := bytes; ProverSetup := bytes; Point := byte; SourceError := Z;
  sha256 l := l;
  deserialize_dory l := Ok l;
  deserialize_hyperkzg := points;
  prover_setup_from l := l;
  render_url template degree := Ok (template ++ degree);
  parse_url u := Ok u;
  url_join u n := Some (u ++ n);
  file_not_found _ := 2;
  task_panicked := 3;
  num_cpus := 4;
}.

#[local] Instance library_laws : SetupLaws.
Proof.
  split; [|done|cbn; lia]. intros a b Ha. cbn [deserialize_hyperkzg library]. unfold points.
  change HYPER_KZG_POINT_COMPRESSED_SIZE with 32%nat in Ha.
  rewrite length_app, <- Nat.Div0.add_mod_idemp_l, Ha, Nat.add_0_l. cbn [Nat.eqb obind].
  by destruct (length b mod 32 =? 0)%nat.
Qed.

Definition args : ProofOfSqlPublicSetupArgs :=
  mkArgs None (bs "dory") (bs "D") (bs ".") (bs "kzg/") (bs "02") (replicate 64 "P"%byte).
Definition setup_url : bytes := bs "kzg/02ppot_0080_02.bin".
Definition web_of (pieces : list (outcome Z bytes)) : Web :=
  mkWeb _ (fun u => bool_decide (u = setup_url))
    (fun u => if bool_decide (u = bs "dory") then Ok [Ok (bs "D")]
              else if bool_decide (u = setup_url) then Ok pieces else Err 4).
(** A web that answers, and one whose connection breaks after half of the file. *)
Definition good_web : Web := web_of [Ok (replicate 32 "P"%byte); Ok (replicate 32 "P"%byte)].
Definition broken_web : Web := web_of [Ok (replicate 32 "P"%byte); Err 5].
Definition dory_parameters : @PublicParameters library := bs "D".
Definition broken : @SourceError library := 5.
Definition host_0 : Host := mkHost ∅ None None None None.
Definition setup_path : bytes := bs "./ppot_0080_02.bin".

Example good_start :
  let h := fst (initialize_from_config good_web args host_0) in
  (snd (initialize_from_config good_web args host_0), PUBLIC_SETUPS h) =
  (Ok tt, Some (replicate 64 "P"%byte, bs "D")).
Proof. vm_compute. reflexivity. Qed.

(** After an interrupted download a new process finds the half of the file, and refuses it
    although the web would answer. *)
Example interrupted_download :
  let h1 := fst (initialize_from_config broken_web args host_0) in
  let restarted := mkHost (files h1) None None None None in
  snd (initialize_from_config broken_web args host_0) = Err (LoadError (UrlError 5)) /\
  files h1 !! setup_path = Some (replicate 32 "P"%byte) /\
  snd (initialize_from_config good_web args restarted) = Err (LoadError Verification).
Proof. vm_compute. done. Qed.

Lemma cells_ok_0 : cells_ok host_0.
Proof. by split. Defined.


Lemma short_file_is_threading_error_witness :
  spawn_blocking (let? l := collect deserialize_file [bs "PP"] in Ok (concat l)) = Err (Threading task_panicked).
Proof. apply (short_file_is_threading_error (bs "PP") []). vm_compute. lia. Defined.

Lemma setups_verified_witness :
  exists points : list byte, PUBLIC_SETUPS (fst (initialize_from_config good_web args host_0)) = Some (points, bs "D").
Proof.
  destruct (setups_verified good_web args host_0 (fst (initialize_from_config good_web args host_0)) cells_ok_0
    ltac:(apply run_outcome; by vm_compute)) as (_ & _ & c & d & ps & cs & k & Hc & Hd & _ & _ & _ & _ & _ & Hs).
  exists k. rewrite Hs. cbn in Hd, Hc. by injection Hd as <-; rewrite Hc.
Defined.

Lemma cells_written_once_witness :
  cells_ok (fst (initialize_from_config broken_web args (fst (initialize_from_config good_web args host_0)))).
Proof. exact (proj1 (cells_written_once [inl (good_web, args); inl (broken_web, args)] host_0 cells_ok_0)). Defined.

Definition half : gmap bytes bytes := {[ setup_path := replicate 32 "P"%byte ]}.
Definition host_half : Host := mkHost half None None None None.

Lemma existing_files_kept_witness :
  files (fst (download_hyperkzg_public_setup_files good_web (bs ".") (bs "kzg/") (bs "02") host_half)) !! setup_path
  = Some (replicate 32 "P"%byte).
Proof.
  refine (existing_files_kept good_web (bs ".") (bs "kzg/") (bs "02") setup_path (replicate 32 "P"%byte) host_half
    _ _ _ (surjective_pairing _)). by vm_compute.
Defined.

Lemma failed_start_not_repeatable_witness :
  snd (initialize_from_config good_web args (fst (initialize_from_config broken_web args host_0))) <> Ok tt.
Proof.
  set (h2 := fst (load_hyper_kzg_public_setup broken_web args (mkHost ∅ (Some dory_parameters) None None None))).
  destruct (failed_start_not_repeatable broken_web args host_0 host_0 dory_parameters h2 (UrlError broken)) as [Hr Hn].
  - by vm_compute.
  - done.
  - apply run_outcome. by vm_compute.
  - rewrite Hr. apply Hn.
Defined.
End SetupExamples.
