(* ===== verification/FlightSql.v ===== *)
(** * sxt-core/src/sql.rs

    The task of a node that copies what the chain decides into a database: for each
    event of a finalized block it ingests the decided rows or creates the tables, with
    retries and reconnections.  The state is the database's client and the log of the
    calls with their results; the client, the clock of the retries and the chain are
    classes.  Theorems: a call is tried at most as often as the retries allow; a block
    that is processed without a panic had every event handled, in the order of the
    events when the database is up; and the rows that are ingested for a decision of the
    chain are those that its commitments were updated with. *)

From stdpp Require Import base tactics option gmap strings numbers sorting list.
From Stdlib Require Import ZArith Lia.
From Stdlib Require Import Strings.Byte.
From S2P Require Import Prelude Bytes Text Types CommitmentScheme CommitmentMap IndexMap OnChainTable.
From S2P Require Import ArrowConversion SqlAst ProofOfSql PlainCommitment CommitmentSql Native Runtime.
From S2P Require Import Sample PalletPermissions PalletCommitments SystemTables PalletIndexing.

Definition MAX_DELAY_SECONDS : Z := 60 * 3.
Definition MIN_DELAY_SECONDS : Z := 5.
Definition MAX_RETRY_ATTEMPTS : nat := 5.

Inductive SQLError :=
| DBServiceError (e : bytes)
| FlightSQLServiceError (e : bytes)
| BadTableIdentifier (e : bytes)
| BadSQLStatement (e : bytes)
| SQLExecutionError (e : bytes)
| InsertExecutionError (e : bytes)
| BadRecordBatch (e : bytes).

(** The errors of the client; only the text of one of them is read. *)
Inductive FlightError :=
| IpcError (msg : bytes)
| FlightParseError (msg : bytes)
| OtherFlightError (msg : bytes).

(** The client of the database: each call may find it in another state. *)
Class FlightClient := {
  FlightState : Type;
  execute_update : bytes -> M FlightState FlightError Z;
  execute_ingest : bytes -> RecordBatch -> M FlightState FlightError Z;
  (** A connection to an address, and the handshake with a user and a password. *)
  connect : bytes -> bytes -> bytes -> M FlightState unit unit;
  (** [Backoff::new]: the delays between attempts, none after the last. *)
  backoff : nat -> Z -> Z -> list (option Z);
  env_HOST : option bytes;
  env_PORT : option bytes;
  env_FLIGHTSQL_USER : option bytes;
  env_FLIGHTSQL_PASSWORD : option bytes;
  (** The texts of a deserialization error and of a debug output. *)
  postcard_error_text : bytes -> bytes;
  debug_text : SQLError -> bytes;
}.

Class FlightClientLaws `{FlightClient} := {
  backoff_length n a b : length (backoff n a b) = n;
}.

Inductive FlightCall :=
| Update (sql : bytes)
| Ingest (table : bytes) (batch : RecordBatch).

Section flight.
Context `{Config} `{UnicodeData} `{Postcard} `{ArrowLibrary} `{FlightClient}.

Record Task := mkTask {
  flight_state : FlightState;
  (** The calls, with their errors. *)
  flight_log : list (FlightCall * option FlightError);
}.

Definition error_of {A} (o : outcome FlightError A) : option FlightError :=
  match o with Err e => Some e | _ => None end.

(** A call of the client. *)
Definition flight_call {A} (c : FlightCall) (m : M FlightState FlightError A) : M Task FlightError A := fun t =>
  let '(s, o) := m (flight_state t) in
  (mkTask s (match o with Panic => flight_log t | _ => flight_log t ++ [(c, error_of o)] end), o).

Definition update (sql : bytes) : M Task FlightError unit :=
  flight_call (Update sql) (execute_update sql) ;;; mret tt.
Definition ingest (table : bytes) (batch : RecordBatch) : M Task FlightError unit :=
  flight_call (Ingest table batch) (execute_ingest table batch) ;;; mret tt.

Definition record_batch_from_data (on_chain_table_bytes : bytes) : outcome SQLError RecordBatch :=
  let? table := ok_or (deserialize_on_chain_table on_chain_table_bytes)
    (BadRecordBatch (postcard_error_text on_chain_table_bytes)) in
  table_into_batch table.

Definition identifier_to_sql (namespace name : bytes) : option bytes :=
  namespace ← from_utf8 namespace;
  name ← from_utf8 name;
  Some (to_uppercase namespace ++ bs "." ++ to_uppercase name).

Definition create_schema_namespace (namespace : bytes) : M Task FlightError unit :=
  update (bs "CREATE SCHEMA IF NOT EXISTS " ++ namespace ++ bs ";").

Definition create_tables (statement_list : list bytes) : M Task FlightError unit :=
  miter update statement_list.

Definition create_table_with_snapshot (sql snapshot_url namespace : bytes) : M Task FlightError unit :=
  create_schema_namespace namespace ;;;
  update sql.

Definition insert_data (data identifier : bytes) : M Task FlightError unit :=
  let* batch := mlift (map_err (fun e => FlightParseError (debug_text e)) (record_batch_from_data data)) in
  ingest identifier batch.

Definition create_and_authenticate_default_flightsql : M Task unit unit := fun t =>
  let flightsql_host := default (bs "127.0.0.1") env_HOST in
  let flightsql_port := default (bs "50555") env_PORT in
  let flightsql_user := default (bs "admin") env_FLIGHTSQL_USER in
  let flightsql_pass := default (bs "admin") env_FLIGHTSQL_PASSWORD in
  let '(s, o) := connect (bs "http://" ++ flightsql_host ++ bs ":" ++ flightsql_port)
    flightsql_user flightsql_pass (flight_state t) in
  (mkTask s (flight_log t), o).

Definition is_duplicate_key (msg : bytes) : bool :=
  str_contains msg (bs "ERROR: duplicate key value violates unique constraint").
Definition is_unavailable (msg : bytes) : bool :=
  str_contains msg (bs "code: Internal") || str_contains msg (bs "code: Unavailable") ||
  str_contains msg (bs "status: Unavailable").

(** The reconnection after an error; its own error is logged. *)
Definition reconnect (msg : bytes) : M Task SQLError unit :=
  if is_unavailable msg
  then let* _ := mtry create_and_authenticate_default_flightsql in mret tt
  else mret tt.

(** The loop of [execute_with_backoff], over the delays. *)
Fixpoint backoff_loop (call : M Task FlightError unit) (delays : list (option Z)) : M Task SQLError unit :=
  match delays with
  | [] => mfail (FlightSQLServiceError (bs "Unable to recover from Error. Verify your DB Setup"))
  | _ :: delays =>
      let* r := mtry call in
      match r with
      | inl _ => mret tt
      | inr (IpcError msg) =>
          if is_duplicate_key msg then mret tt
          else
            reconnect msg ;;;
            backoff_loop call delays
      | inr _ => backoff_loop call delays
      end
  end.
Definition execute_with_backoff (call : M Task FlightError unit) : M Task SQLError unit :=
  backoff_loop call (backoff MAX_RETRY_ATTEMPTS MIN_DELAY_SECONDS MAX_DELAY_SECONDS).

(** [expect]. *)
Definition mexpect {A} (m : M Task SQLError A) : M Task SQLError A := fun t =>
  match m t with
  | (t', Err _) => (t', Panic)
  | r => r
  end.

(** One table of [TablesCreatedWithCommitments]. *)
Definition process_request_table (req : CreateTableRequest) : M Task SQLError unit :=
  let* sql := mlift (unwrap_option (from_utf8 (request_ddl req))) in
  let* base_path := mlift (unwrap_option (from_utf8 (request_snapshot_url req))) in
  let* namespace := mlift (unwrap_option (from_utf8 (namespace (request_table_name req)))) in
  mexpect (execute_with_backoff (create_table_with_snapshot sql base_path (to_uppercase namespace))).

Definition process_event (event : RuntimeEvent) : M Task SQLError unit :=
  match event with
  | IndexingEvent (pallet_indexing_events.QuorumReached quorum data) =>
      let* id := mlift (unwrap_option (identifier_to_sql
        (namespace (quorum_table quorum)) (name (quorum_table quorum)))) in
      mexpect (execute_with_backoff (insert_data data id))
  | TablesEvent (pallet_tables.SchemaUpdated _ tables) =>
      mexpect (execute_with_backoff (create_tables (omap from_utf8 (create_statement <$> tables))))
  | TablesEvent (pallet_tables.TablesCreatedWithCommitments _ table_list) =>
      miter process_request_table table_list
  | _ => mret tt
  end.

(** The events of a block; the ones that cannot be decoded are [None]. *)
Definition process_block (events : option (list (option RuntimeEvent))) : M Task SQLError unit :=
  let* events := mlift (unwrap_option events) in
  miter process_event (omap id events).

(** The notifications of finality: the blocks that were finalized implicitly, and the
    latest.  [block_at] fetches a block's events. *)
Definition run (block_at : bytes -> option (option (list (option RuntimeEvent))))
    (notifications : list (list bytes * bytes)) : M Task SQLError unit :=
  miter (fun '(implicitly_finalized, hash) =>
    miter (fun hash =>
      let* block := mlift (unwrap_option (block_at hash)) in
      mexpect (process_block block)) (implicitly_finalized ++ [hash])) notifications.
End flight.

(** ** The log *)

Section flight_lemmas.
Context `{Config} `{UnicodeData} `{Postcard} `{ArrowLibrary} `{FlightClient}.
Implicit Types (t : Task).

(** The log only grows. *)
Definition grows (l : list (FlightCall * option FlightError)) (t : Task) : Prop := l `prefix_of` flight_log t.

Lemma flight_call_grows l {A} c (m : M FlightState FlightError A) : preserves (grows l) (flight_call c m).
Proof.
  intros t Ht. unfold flight_call, grows in *. destruct (m (flight_state t)) as [s []]; cbn; [..|done];
    by apply prefix_app_r.
Qed.
Lemma update_grows l sql : preserves (grows l) (update sql).
Proof. apply preserves_bind; [apply flight_call_grows|intros; apply preserves_ret]. Qed.
Lemma insert_data_grows l data id : preserves (grows l) (insert_data data id).
Proof.
  apply preserves_bind; [apply preserves_lift|]. intros b.
  apply preserves_bind; [apply flight_call_grows|intros; apply preserves_ret].
Qed.
Lemma create_tables_grows l sqls : preserves (grows l) (create_tables sqls).
Proof. apply preserves_iter. intros; apply update_grows. Qed.
Lemma snapshot_grows l sql url ns : preserves (grows l) (create_table_with_snapshot sql url ns).
Proof. apply preserves_bind; intros; apply update_grows. Qed.
Lemma connect_grows l : preserves (grows l) create_and_authenticate_default_flightsql.
Proof.
  intros t Ht. unfold create_and_authenticate_default_flightsql. by destruct (connect _ _ _ _).
Qed.

Lemma backoff_loop_grows l call delays : preserves (grows l) call -> preserves (grows l) (backoff_loop call delays).
Proof.
  intros Hc. induction delays as [|d delays IH]; cbn [backoff_loop]; [apply preserves_fail|].
  apply preserves_bind; [by apply preserves_try|]. intros [u|[msg|msg|msg]]; [apply preserves_ret| |done..].
  destruct (is_duplicate_key msg); [apply preserves_ret|].
  apply preserves_bind; [|done]. unfold reconnect. destruct (is_unavailable msg); [|apply preserves_ret].
  apply preserves_bind; [apply preserves_try, connect_grows|intros; apply preserves_ret].
Qed.
Lemma mexpect_preserves {A} (I : Task -> Prop) (m : M Task SQLError A) : preserves I m -> preserves I (mexpect m).
Proof. intros Hm t Ht. specialize (Hm t Ht). unfold mexpect. by destruct (m t) as [t' []]. Qed.
#[local] Hint Resolve update_grows insert_data_grows create_tables_grows snapshot_grows backoff_loop_grows
  mexpect_preserves preserves_lift preserves_ret : flight.

Lemma process_event_grows l e : preserves (grows l) (process_event e).
Proof.
  destruct e as [| | |[]|[]| | | |]; cbn [process_event]; eauto with flight.
  - apply mexpect_preserves, backoff_loop_grows. eauto with flight.
  - apply preserves_iter. intros req. unfold process_request_table.
    repeat (apply preserves_bind; [apply preserves_lift|]; intros ?).
    apply mexpect_preserves, backoff_loop_grows. eauto with flight.
  - apply preserves_bind; [apply preserves_lift|]. intros id.
    apply mexpect_preserves, backoff_loop_grows. eauto with flight.
Qed.

(** ** What is handled *)

(** A call that the database accepted, and one that it refused as a duplicate. *)
Definition accepted (c : FlightCall) (t : Task) : Prop := (c, None) ∈ flight_log t.
Definition duplicate (c : FlightCall) (t : Task) : Prop :=
  exists msg, (c, Some (IpcError msg)) ∈ flight_log t /\ is_duplicate_key msg = true.

Lemma accepted_grows c t t' : accepted c t -> grows (flight_log t) t' -> accepted c t'.
Proof. intros Ha [k Hk]. unfold accepted. rewrite Hk. apply elem_of_app. by left. Qed.
Lemma duplicate_grows c t t' : duplicate c t -> grows (flight_log t) t' -> duplicate c t'.
Proof. intros (msg & Ha & Hm) [k Hk]. exists msg. rewrite Hk. split; [apply elem_of_app; by left|done]. Qed.

(** A call of the client whose error is the error of the computation was logged with it. *)
Definition refused_by (cs : list FlightCall) (m : M Task FlightError unit) : Prop :=
  forall t t' msg, m t = (t', Err (IpcError msg)) -> exists c, c ∈ cs /\ (c, Some (IpcError msg)) ∈ flight_log t'.
Definition accepts_all (cs : list FlightCall) (m : M Task FlightError unit) : Prop :=
  forall t t' u, m t = (t', Ok u) -> forall c, c ∈ cs -> accepted c t'.

Lemma flight_call_run {A} c (m : M FlightState FlightError A) t t' o :
  flight_call c m t = (t', o) -> o <> Panic -> flight_log t' = flight_log t ++ [(c, error_of o)].
Proof.
  unfold flight_call. destruct (m (flight_state t)) as [s o']. intros [= <- <-] Hp. by destruct o'.
Qed.

Lemma single_call c (m : M FlightState FlightError Z) :
  accepts_all [c] (flight_call c m ;;; mret tt) /\ refused_by [c] (flight_call c m ;;; mret tt).
Proof.
  split.
  - intros t t' u (t1 & z & Hc & [= <- _])%mbind_ok c' ->%list_elem_of_singleton.
    apply flight_call_run in Hc; [|done]. unfold accepted. rewrite Hc. cbn. set_solver.
  - intros t t' msg [Hc|(t1 & z & Hc & [=])]%mbind_err.
    apply flight_call_run in Hc; [|done]. exists c. rewrite Hc. cbn. set_solver.
Qed.

Lemma create_tables_calls sqls :
  accepts_all (Update <$> sqls) (create_tables sqls) /\ refused_by (Update <$> sqls) (create_tables sqls).
Proof.
  unfold create_tables. induction sqls as [|sql sqls [IHa IHr]]; cbn [miter fmap list_fmap].
  { split; [intros t t' u _ c Hc; set_solver|by intros t t' msg [=]]. }
  destruct (single_call (Update sql) (execute_update sql)) as [Ha Hr].
  split.
  - intros t t' u (t1 & v & Hfst & Hsnd)%mbind_ok c [->|Hc]%elem_of_cons; [|by eapply IHa].
    eapply accepted_grows; [eapply Ha; [exact Hfst|set_solver]|].
    pose proof (create_tables_grows (flight_log t1) sqls t1 (reflexivity _)) as Hg.
    unfold create_tables in Hg. by rewrite Hsnd in Hg.
  - intros t t' msg [Hfst|(t1 & v & Hfst & Hsnd)]%mbind_err.
    + destruct (Hr _ _ _ Hfst) as (c & ? & ?). exists c. set_solver.
    + destruct (IHr _ _ _ Hsnd) as (c & ? & ?). exists c. set_solver.
Qed.

Lemma snapshot_calls sql url ns :
  let cs := [Update (bs "CREATE SCHEMA IF NOT EXISTS " ++ ns ++ bs ";"); Update sql] in
  accepts_all cs (create_table_with_snapshot sql url ns) /\ refused_by cs (create_table_with_snapshot sql url ns).
Proof.
  cbv zeta. set (schema := bs "CREATE SCHEMA IF NOT EXISTS " ++ ns ++ bs ";").
  pose proof (create_tables_calls [schema; sql]) as [Ha Hr].
  assert (Heq : forall t, create_table_with_snapshot sql url ns t = create_tables [schema; sql] t).
  { intros t. unfold create_table_with_snapshot, create_schema_namespace, create_tables. cbn [miter].
    fold schema. unfold mbind. destruct (update schema t) as [t1 []]; [|done..].
    by destruct (update sql t1) as [t2 [[]| |]]. }
  split; intros t t'; rewrite Heq; [apply Ha|apply Hr].
Qed.

Lemma insert_data_calls data id batch :
  record_batch_from_data data = Ok batch ->
  accepts_all [Ingest id batch] (insert_data data id) /\ refused_by [Ingest id batch] (insert_data data id).
Proof.
  intros Hb. pose proof (single_call (Ingest id batch) (execute_ingest id batch)) as Hs.
  assert (Heq : forall t, insert_data data id t = ingest id batch t).
  { intros t. unfold insert_data. by rewrite Hb. }
  destruct Hs as [Ha Hr]. split; intros t t'; rewrite Heq; [apply Ha|apply Hr].
Qed.

Lemma backoff_handled cs call delays t t' u :
  accepts_all cs call -> refused_by cs call ->
  backoff_loop call delays t = (t', Ok u) ->
  (forall c, c ∈ cs -> accepted c t') \/ exists c, c ∈ cs /\ duplicate c t'.
Proof.
  intros Ha Hr. revert t. induction delays as [|d delays IH]; intros t; cbn [backoff_loop]; [done|].
  intros (t1 & r & Htry & Hrest)%mbind_ok. unfold mtry in Htry.
  destruct (call t) as [t2 [v|e|]] eqn:Hcall; simplify_eq.
  { injection Hrest as <- _. left. by eapply Ha. }
  destruct e as [msg|msg|msg]; [|by eapply IH..].
  destruct (is_duplicate_key msg) eqn:Hdup.
  - injection Hrest as <- _. right. destruct (Hr _ _ _ Hcall) as (c & Hc & Hlog). exists c.
    split; [done|]. by exists msg.
  - apply mbind_ok in Hrest as (t3 & w & _ & Hrest). by eapply IH.
Qed.

(** A computation that fails for another reason than the database is never a success. *)
Lemma backoff_fails call delays t t' u e :
  (forall t, call t = (t, Err (FlightParseError e))) -> backoff_loop call delays t <> (t', Ok u).
Proof.
  intros Hc. revert t. induction delays as [|d delays IH]; intros t; cbn [backoff_loop]; [done|].
  unfold mbind, mtry. rewrite Hc. apply IH.
Qed.

Lemma mexpect_ok {A} (m : M Task SQLError A) t t' a : mexpect m t = (t', Ok a) -> m t = (t', Ok a).
Proof. unfold mexpect. by destruct (m t) as [t1 []]; naive_solver. Qed.
Lemma mexpect_no_err {A} (m : M Task SQLError A) t t' e : mexpect m t <> (t', Err e).
Proof. unfold mexpect. by destruct (m t) as [t1 []]; naive_solver. Qed.

(** The calls of an event were accepted, or one of them was refused as a duplicate. *)
Definition settled_calls (cs : list FlightCall) (t : Task) : Prop :=
  (forall c, c ∈ cs -> accepted c t) \/ exists c, c ∈ cs /\ duplicate c t.
Definition handled_event (e : RuntimeEvent) (t : Task) : Prop :=
  match e with
  | IndexingEvent (pallet_indexing_events.QuorumReached quorum data) =>
      exists id batch, identifier_to_sql (namespace (quorum_table quorum)) (name (quorum_table quorum)) = Some id /\
        record_batch_from_data data = Ok batch /\ settled_calls [Ingest id batch] t
  | TablesEvent (pallet_tables.SchemaUpdated _ tables) =>
      settled_calls (Update <$> omap from_utf8 (create_statement <$> tables)) t
  | TablesEvent (pallet_tables.TablesCreatedWithCommitments _ table_list) =>
      forall req, req ∈ table_list -> exists sql ns,
        from_utf8 (request_ddl req) = Some sql /\ from_utf8 (namespace (request_table_name req)) = Some ns /\
        settled_calls [Update (bs "CREATE SCHEMA IF NOT EXISTS " ++ to_uppercase ns ++ bs ";"); Update sql] t
  | _ => True
  end.

Lemma settled_calls_grows cs t t' : settled_calls cs t -> grows (flight_log t) t' -> settled_calls cs t'.
Proof.
  intros [Ha|(c & Hc & Hd)] Hg; [left; intros c Hc; by eapply accepted_grows, Hg; apply Ha|].
  right. exists c. split; [done|]. by eapply duplicate_grows.
Qed.
Lemma handled_event_grows e t t' : handled_event e t -> grows (flight_log t) t' -> handled_event e t'.
Proof.
  intros He Hg. destruct e as [| | |[]|[]| | | |]; cbn [handled_event] in *; try done.
  - by eapply settled_calls_grows.
  - intros req Hreq. destruct (He req Hreq) as (sql & ns & ? & ? & ?). exists sql, ns.
    split_and!; [done..|]. by eapply settled_calls_grows.
  - destruct He as (id & batch & ? & ? & ?). exists id, batch. split_and!; [done..|]. by eapply settled_calls_grows.
Qed.

Lemma run_grows {A} (m : M Task SQLError A) t t' r :
  (forall l, preserves (grows l) m) -> m t = (t', r) -> grows (flight_log t) t'.
Proof. intros Hm Hr. specialize (Hm (flight_log t) t (reflexivity _)). by rewrite Hr in Hm. Qed.

Lemma process_request_table_handled req t t' u :
  process_request_table req t = (t', Ok u) ->
  exists sql ns, from_utf8 (request_ddl req) = Some sql /\ from_utf8 (namespace (request_table_name req)) = Some ns /\
    settled_calls [Update (bs "CREATE SCHEMA IF NOT EXISTS " ++ to_uppercase ns ++ bs ";"); Update sql] t'.
Proof.
  unfold process_request_table.
  destruct (from_utf8 (request_ddl req)) as [sql|]; [|done]. unfold mbind at 1, mlift at 1. cbn [unwrap_option].
  destruct (from_utf8 (request_snapshot_url req)) as [url|]; [|done]. unfold mbind at 1, mlift at 1. cbn [unwrap_option].
  destruct (from_utf8 (namespace (request_table_name req))) as [ns|]; [|done]. unfold mbind at 1, mlift at 1.
  cbn [unwrap_option]. intros Hr%mexpect_ok. exists sql, ns. split_and!; [done..|].
  destruct (snapshot_calls sql url (to_uppercase ns)) as [Ha Hre]. exact (backoff_handled _ _ _ _ _ _ Ha Hre Hr).
Qed.

Lemma process_request_table_grows l req : preserves (grows l) (process_request_table req).
Proof.
  unfold process_request_table. repeat (apply preserves_bind; [apply preserves_lift|]; intros ?).
  apply mexpect_preserves, backoff_loop_grows, snapshot_grows.
Qed.

Lemma process_event_handled e t t' u : process_event e t = (t', Ok u) -> handled_event e t'.
Proof.
  destruct e as [| | |[]|[]| | | |]; cbn [process_event handled_event]; try done.
  - intros Hr%mexpect_ok. destruct (create_tables_calls (omap from_utf8 (create_statement <$> tables))) as [Ha Hre].
    exact (backoff_handled _ _ _ _ _ _ Ha Hre Hr).
  - intros [r Hr]%miter_mcollect.
    eapply (mcollect_each (fun req t => exists sql ns, from_utf8 (request_ddl req) = Some sql /\
      from_utf8 (namespace (request_table_name req)) = Some ns /\
      settled_calls [Update (bs "CREATE SCHEMA IF NOT EXISTS " ++ to_uppercase ns ++ bs ";"); Update sql] t)); [..|exact Hr].
    + intros. by eapply process_request_table_handled.
    + intros x z s s' y Hx (sql & ns & ? & ? & ?). exists sql, ns. split_and!; [done..|].
      eapply settled_calls_grows; [done|]. eapply run_grows, Hx. intros; apply process_request_table_grows.
  - destruct (identifier_to_sql _ _) as [id|]; [|done]. unfold mbind, mlift. cbn [unwrap_option].
    intros Hr%mexpect_ok. destruct (record_batch_from_data data) as [batch|e|] eqn:Hb.
    + exists id, batch. split_and!; [done..|]. destruct (insert_data_calls data id batch Hb) as [Ha Hre].
      exact (backoff_handled _ _ _ _ _ _ Ha Hre Hr).
    + exfalso. eapply backoff_fails, Hr. intros t1. unfold insert_data. by rewrite Hb.
    + exfalso. unfold execute_with_backoff in Hr. revert Hr. generalize (backoff MAX_RETRY_ATTEMPTS MIN_DELAY_SECONDS
        MAX_DELAY_SECONDS). intros [|d ds]; cbn [backoff_loop]; [done|]. unfold mbind, mtry, insert_data, mlift.
      by rewrite Hb.
Qed.

Lemma process_event_no_err e t t' err : process_event e t <> (t', Err err).
Proof.
  destruct e as [| | |[]|[]| | | |]; cbn [process_event]; try done.
  - apply mexpect_no_err.
  - intros Hr. revert t Hr. induction table_list as [|req l IH]; intros t; cbn [miter]; [done|].
    intros [Hr|(t1 & v & _ & Hr)]%mbind_err; [|by eapply IH].
    unfold process_request_table in Hr.
    do 3 (apply mbind_err in Hr as [Hr|(? & ? & _ & Hr)]; [unfold mlift, unwrap_option in Hr; by case_match|]).
    by apply mexpect_no_err in Hr.
  - intros [Hr|(t1 & v & _ & Hr)]%mbind_err; [unfold mlift, unwrap_option in Hr; by case_match|]. by apply mexpect_no_err in Hr.
Qed.

(** The task never leaves a block with an error: it panics, or every event of the
    block was handled - its calls were accepted by the database, or the database already
    had a row of one of them. *)
Theorem block_handled events t t' r :
  process_block (Some events) t = (t', r) ->
  (forall e, r <> Err e) /\ (r = Ok tt -> forall e, Some e ∈ events -> handled_event e t').
Proof.
  unfold process_block, mbind at 1, mlift. cbn [unwrap_option]. intros Hr. split.
  - intros err ->. revert t Hr. induction (omap id events) as [|e l IH]; intros t; cbn [miter]; [done|].
    intros [Hr|(t1 & v & _ & Hr)]%mbind_err; [by eapply process_event_no_err|by eapply IH].
  - intros ->. apply miter_mcollect in Hr as [us Hr]. intros e He.
    assert (e ∈ omap id events) as Hin by (apply list_elem_of_omap; by exists (Some e)).
    clear He; revert e Hin. eapply (mcollect_each handled_event); [..|exact Hr].
    + intros. by eapply process_event_handled.
    + intros x z s s' y Hx Hz. eapply handled_event_grows; [done|].
      eapply run_grows, Hx. intros; apply process_event_grows.
Qed.
End flight_lemmas.

(** ** Attempts and order *)

Section attempts.
Context `{Config} `{UnicodeData} `{Postcard} `{ArrowLibrary} `{FlightClientLaws}.
Implicit Types (t : Task).

Lemma ingest_run id batch t :
  flight_log (fst (ingest id batch t)) =
    flight_log t ++ match snd (ingest id batch t) with Panic => [] | o => [(Ingest id batch, error_of o)] end.
Proof.
  unfold ingest, mbind, flight_call. destruct (execute_ingest id batch (flight_state t)) as [s []]; cbn;
    by rewrite ?app_nil_r.
Qed.

Lemma reconnect_log msg t : flight_log (fst (reconnect msg t)) = flight_log t.
Proof.
  unfold reconnect. destruct (is_unavailable msg); [|done]. unfold mbind, mtry, create_and_authenticate_default_flightsql.
  by destruct (connect _ _ _ _) as [s []].
Qed.

(** The tries of an ingestion: all of the same batch, and after the first that is accepted
    or refused as a duplicate there is none. *)
Definition tries (c : FlightCall) (l : list (FlightCall * option FlightError)) : Prop :=
  Forall (fun x => x.1 = c) l /\
  forall l1 x l2, l = l1 ++ x :: l2 -> l2 <> [] ->
    exists e, x.2 = Some e /\ forall msg, e = IpcError msg -> is_duplicate_key msg = false.

Lemma tries_nil c : tries c [].
Proof. split; [constructor|]. by intros [] ?. Qed.
Lemma tries_one c o : tries c [(c, o)].
Proof.
  split; [by repeat constructor|]. intros [|y l1] x l2; [by intros [= _ <-]|]. by destruct l1.
Qed.
Lemma tries_cons c e l :
  (forall msg, e = IpcError msg -> is_duplicate_key msg = false) -> tries c l -> tries c ((c, Some e) :: l).
Proof.
  intros He [Hl Hn]. split; [by constructor|]. intros [|y l1] x l2.
  - intros [= <- ->] _. by exists e.
  - intros [= _ ->] Hne. by eapply Hn.
Qed.

Lemma backoff_tries id batch delays t :
  exists l, flight_log (fst (backoff_loop (ingest id batch) delays t)) = flight_log t ++ l /\
    (length l <= length delays)%nat /\ tries (Ingest id batch) l.
Proof.
  revert t. induction delays as [|d delays IH]; intros t; cbn [backoff_loop].
  { exists []. rewrite app_nil_r. split_and!; [done..|apply tries_nil]. }
  pose proof (ingest_run id batch t) as Hi. unfold mbind at 1, mtry.
  destruct (ingest id batch t) as [t1 [u|e|]]; cbn [fst snd] in Hi; cbn [length].
  - exists [(Ingest id batch, None)]. split_and!; [done|cbn; lia|apply tries_one].
  - assert (Hgo : forall t2 l, flight_log t2 = flight_log t1 ->
      (forall msg, e = IpcError msg -> is_duplicate_key msg = false) ->
      flight_log (fst (backoff_loop (ingest id batch) delays t2)) = flight_log t2 ++ l ->
      (length l <= length delays)%nat -> tries (Ingest id batch) l ->
      exists l, flight_log (fst (backoff_loop (ingest id batch) delays t2)) = flight_log t ++ l /\
        (length l <= S (length delays))%nat /\ tries (Ingest id batch) l).
    { intros t2 l H12 Hd Hl Hlen Htr. exists ((Ingest id batch, Some e) :: l).
      split_and!; [by rewrite Hl, H12, Hi, <- app_assoc|cbn; lia|by apply tries_cons]. }
    destruct e as [msg|msg|msg].
    + destruct (is_duplicate_key msg) eqn:Hdup.
      { exists [(Ingest id batch, Some (IpcError msg))]. split_and!; [done|cbn; lia|apply tries_one]. }
      pose proof (reconnect_log msg t1) as Hrec. unfold mbind at 1.
      destruct (reconnect msg t1) as [t2 [v|err|]]; cbn [fst] in Hrec.
      * destruct (IH t2) as (l & Hl & Hlen & Htr). eapply Hgo; [done| |done..]. by intros ? [= <-].
      * exists [(Ingest id batch, Some (IpcError msg))]. cbn. rewrite Hrec. split_and!; [done|lia|apply tries_one].
      * exists [(Ingest id batch, Some (IpcError msg))]. cbn. rewrite Hrec. split_and!; [done|lia|apply tries_one].
    + destruct (IH t1) as (l & Hl & Hlen & Htr). by eapply Hgo.
    + destruct (IH t1) as (l & Hl & Hlen & Htr). by eapply Hgo.
  - exists []. rewrite app_nil_r in *. split_and!; [done|cbn; lia|apply tries_nil].
Qed.

Lemma backoff_loop_ext call call' delays t :
  (forall t, call t = call' t) -> backoff_loop call delays t = backoff_loop call' delays t.
Proof.
  intros Hc. revert t. induction delays as [|d delays IH]; intros t; cbn [backoff_loop]; [done|].
  unfold mbind at 1 3, mtry. rewrite Hc. destruct (call' t) as [t1 [u|[msg|msg|msg]|]]; [done| |apply IH..|done].
  destruct (is_duplicate_key msg); [done|]. unfold mbind. by destruct (reconnect msg t1) as [t2 []].
Qed.

(** For a decision of the chain at most five ingestions are sent, all of the decided
    batch, and none after one that was accepted or refused as a duplicate. *)
Theorem ingestion_attempts quorum data id batch t :
  identifier_to_sql (namespace (quorum_table quorum)) (name (quorum_table quorum)) = Some id ->
  record_batch_from_data data = Ok batch ->
  exists l, flight_log (fst (process_event (IndexingEvent (pallet_indexing_events.QuorumReached quorum data)) t)) =
      flight_log t ++ l /\
    (length l <= 5)%nat /\ tries (Ingest id batch) l.
Proof.
  intros Hid Hb. cbn [process_event]. rewrite Hid. unfold mbind, mlift. cbn [unwrap_option].
  destruct (backoff_tries id batch (backoff MAX_RETRY_ATTEMPTS MIN_DELAY_SECONDS MAX_DELAY_SECONDS) t) as (l & Hl & Hlen & Ht).
  rewrite backoff_length in Hlen. exists l. split_and!; [|exact Hlen|exact Ht]. rewrite <- Hl.
  unfold mexpect, execute_with_backoff. erewrite backoff_loop_ext.
  2: { intros t1. unfold insert_data, mbind, mlift. rewrite Hb. reflexivity. }
  by destruct (backoff_loop _ _ t) as [t1 []].
Qed.

(** *** A database that is up *)

Definition database_up : Prop :=
  (forall sql s, is_ok (snd (execute_update sql s)) = true) /\
  (forall table batch s, is_ok (snd (execute_ingest table batch s)) = true).

(** The calls of an event; none when it cannot be read. *)
Definition request_calls (req : CreateTableRequest) : option (list FlightCall) :=
  sql ← from_utf8 (request_ddl req);
  url ← from_utf8 (request_snapshot_url req);
  ns ← from_utf8 (namespace (request_table_name req));
  Some [Update (bs "CREATE SCHEMA IF NOT EXISTS " ++ to_uppercase ns ++ bs ";"); Update sql].
Definition event_calls (e : RuntimeEvent) : option (list FlightCall) :=
  match e with
  | IndexingEvent (pallet_indexing_events.QuorumReached quorum data) =>
      id ← identifier_to_sql (namespace (quorum_table quorum)) (name (quorum_table quorum));
      batch ← to_option (record_batch_from_data data);
      Some [Ingest id batch]
  | TablesEvent (pallet_tables.SchemaUpdated _ tables) =>
      Some (Update <$> omap from_utf8 (create_statement <$> tables))
  | TablesEvent (pallet_tables.TablesCreatedWithCommitments _ table_list) =>
      (fun css => concat css) <$> mapM request_calls table_list
  | _ => Some []
  end.

(** A computation that makes these calls, which are accepted. *)
Definition makes {E} (cs : list FlightCall) (m : M Task E unit) : Prop :=
  forall t, exists s, m t = (mkTask s (flight_log t ++ ((fun c => (c, None)) <$> cs)), Ok tt).

Lemma makes_nil {E} : makes (E:=E) [] (mret tt).
Proof. intros t. exists (flight_state t). rewrite app_nil_r. by destruct t. Qed.
Lemma makes_bind {E} cs cs' (m m' : M Task E unit) : makes cs m -> makes cs' m' -> makes (cs ++ cs') (m ;;; m').
Proof.
  intros Hm Hm' t. destruct (Hm t) as [s1 H1m]. destruct (Hm' (mkTask s1 (flight_log t ++ ((fun c => (c, None)) <$> cs))))
    as [s2 H2m]. exists s2. rewrite (mbind_run _ _ _ _ _ H1m), H2m. cbn. by rewrite fmap_app, app_assoc.
Qed.
Lemma makes_iter {E A} (f : A -> M Task E unit) (g : A -> option (list FlightCall)) l css :
  (forall x cs, g x = Some cs -> makes cs (f x)) -> mapM g l = Some css -> makes (concat css) (miter f l).
Proof.
  intros Hf. revert css. induction l as [|x l IH]; intros css; cbn [miter].
  - intros [= <-]. apply makes_nil.
  - cbn [mapM]. intros (cs & Hx & (css' & Hl & [= <-])%bind_Some)%bind_Some. cbn [concat].
    apply makes_bind; [by apply Hf|by apply IH].
Qed.
Lemma makes_expect cs m : makes cs m -> makes cs (mexpect m).
Proof. intros Hm t. destruct (Hm t) as [s Hs]. exists s. unfold mexpect. by rewrite Hs. Qed.
Lemma makes_backoff cs call : makes cs call -> makes cs (execute_with_backoff call).
Proof.
  intros Hc t. destruct (Hc t) as [s Hs]. exists s. unfold execute_with_backoff.
  pose proof (backoff_length MAX_RETRY_ATTEMPTS MIN_DELAY_SECONDS MAX_DELAY_SECONDS) as Hl.
  destruct (backoff _ _ _) as [|d ds]; [done|]. cbn [backoff_loop]. unfold mbind, mtry. by rewrite Hs.
Qed.

Section up.
Context (Hup : database_up).

Lemma makes_update sql : makes [Update sql] (update sql).
Proof.
  intros t. unfold update, mbind, flight_call. pose proof (proj1 Hup sql (flight_state t)) as Ho.
  destruct (execute_update sql (flight_state t)) as [s []]; [|done..]. by exists s.
Qed.
Lemma makes_ingest id batch : makes [Ingest id batch] (ingest id batch).
Proof.
  intros t. unfold ingest, mbind, flight_call. pose proof (proj2 Hup id batch (flight_state t)) as Ho.
  destruct (execute_ingest id batch (flight_state t)) as [s []]; [|done..]. by exists s.
Qed.
Lemma makes_create_tables sqls : makes (Update <$> sqls) (create_tables sqls).
Proof.
  unfold create_tables. induction sqls as [|sql sqls IH]; cbn [miter]; [apply makes_nil|].
  apply (makes_bind [Update sql]); [apply makes_update|done].
Qed.

Lemma makes_request req cs : request_calls req = Some cs -> makes cs (process_request_table req).
Proof.
  unfold request_calls, process_request_table.
  intros (sql & -> & (url & -> & (ns & -> & [= <-])%bind_Some)%bind_Some)%bind_Some.
  apply makes_expect, makes_backoff, (makes_bind [_] [_]); apply makes_update.
Qed.

Lemma makes_event e cs : event_calls e = Some cs -> makes cs (process_event e).
Proof.
  destruct e as [| | |[]|[]| | | |]; cbn [event_calls process_event]; try (intros [= <-]; apply makes_nil).
  - intros [= <-]. apply makes_expect, makes_backoff, makes_create_tables.
  - intros (css & Hcss & ->)%fmap_Some. eapply makes_iter, Hcss. apply makes_request.
  - intros (id & -> & (batch & Hb & [= <-])%bind_Some)%bind_Some.
    apply makes_expect, makes_backoff. intros t. destruct (makes_ingest id batch t) as [s Hs]. exists s.
    unfold insert_data. destruct (record_batch_from_data data); simplify_eq/=. exact Hs.
Qed.
End up.

(** C12: When the database is up, a block whose events can be read is processed without a
    panic and makes exactly the calls of its events, once and in their order. *)
Theorem block_in_order events css t :
  database_up -> mapM event_calls (omap id events) = Some css ->
  exists s, process_block (Some events) t =
    (mkTask s (flight_log t ++ ((fun c => (c, None)) <$> concat css)), Ok tt).
Proof.
  intros Hup Hc. unfold process_block, mbind, mlift. cbn [unwrap_option].
  apply (makes_iter process_event event_calls _ _ (makes_event Hup) Hc t).
Qed.
End attempts.

(** ** From a decision to the database *)

Lemma record_batch_of_table `{UnicodeLaws} `{PostcardLaws} `{ArrowLibrary} `{FlightClient} table data :
  table_wf table -> to_allocvec table = Some data -> record_batch_from_data data = table_into_batch table.
Proof.
  intros Hwf Hd. unfold record_batch_from_data, deserialize_on_chain_table.
  rewrite (postcard_round_trip table data (proj1 (proj2 Hwf)) Hd).
  unfold base.mbind, option_bind. by rewrite try_from_iter_id.
Qed.

(** C11: The rows of a decision reach the database: when a submission decides a batch and the
    block with its events is processed, the table with its row numbers that the table's
    commitments were updated with is what was ingested for the table - accepted, or refused
    because the database had it - unless the batch has no rows. *)
Theorem decision_reaches_database `{ExternalPallets} `{UnicodeLaws} `{PostcardLaws} `{NativeApi}
    `{ArrowLibrary} `{FlightClient} origin c s s' b q events t t' :
  dispatch_indexing origin c s = (s', Ok tt) ->
  FinalData s !! b = None -> FinalData s' !! b = Some q ->
  (forall e, e ∈ events_of s' -> Some e ∈ events) ->
  process_block (Some events) t = (t', Ok tt) ->
  exists oc_table m s1 s2,
    process_insert_and_update_commitments (quorum_table q) oc_table s1 = (s2, Ok m) /\
    commitments s1 = commitments s /\ commitments s' = commitments s2 /\
    (num_rows (E := DispatchError) oc_table = Ok 0%nat \/
     exists id batch,
       identifier_to_sql (namespace (quorum_table q)) (name (quorum_table q)) = Some id /\
       table_into_batch (E := SQLError) (insert_with_meta_columns m) = Ok batch /\
       settled_calls [Ingest id batch] t').
Proof.
  intros Hrun Hnone Hq Hev Hblock. apply dispatch_indexing_run in Hrun as (who & -> & [_ _ (s1 & Hv & Hres)]).
  destruct (voting_state _ _ _ _ _ _ Hv) as (i & ev & Hs1).
  destruct Hres as [[-> _]|(scope & n & q' & _ & _ & Hd & Hf)].
  { rewrite (voting_final _ _ _ _ _ _ Hv) in Hq. congruence. }
  rewrite (finalized_final _ _ _ _ Hf), lookup_insert in Hq. case_decide.
  2: { rewrite (voting_final _ _ _ _ _ _ Hv) in Hq. congruence. }
  injection Hq as ->.
  destruct (finalized_insert _ _ _ _ Hf)
    as (tb & oc & s2 & s3 & m & data & _ & _ & Hc2 & Hins & Hc3 & Hdata & Hevent).
  exists oc, m, s2, s3. split_and!; [done|by rewrite Hc2, Hs1|done|].
  destruct Hevent as [Hzero|Hin]; [by left|]. right.
  destruct (block_handled _ _ _ _ Hblock) as [_ Hh].
  destruct (Hh eq_refl _ (Hev _ Hin)) as (id & batch & Hid & Hb & Hset). exists id, batch.
  split_and!; [done| |done]. rewrite <- Hb. symmetry. apply record_batch_of_table; [|done].
  destruct (process_insert_run _ _ _ _ _ Hins) as (d1 & d2 & new & _ & _ & _ & _ & _ & Hm & _).
  apply ok_or_ok in Hm. by eapply deserialize_wf.
Qed.

(** ** A node *)

Module FlightExamples.
#[local] Existing Instance sample_config.
#[local] Existing Instance ascii_unicode.
#[local] Existing Instance ascii_unicode_laws.
#[local] Existing Instance plain_proof_of_sql.
#[local] Existing Instance plain_laws.
#[local] Existing Instance plain_postcard.
#[local] Existing Instance plain_postcard_laws.
#[local] Existing Instance plain_arrow.
#[local] Existing Instance plain_reader.
#[local] Existing Instance plain_api.
#[local] Existing Instance SystemTablesExamples.plain_external.
Import IndexingExamples.

(** A database whose first ingestions fail; the number counts them down. *)
#[local] Instance counting_flight : FlightClient := {
  FlightState := Z;
  execute_update _ z := (z, Ok 0);
  execute_ingest _ _ z := if 0 <? z then (z - 1, Err (IpcError (bs "code: Unavailable"))) else (z, Ok 1);
  connect _ _ _ z := (z, Ok tt);
  backoff n lo hi := repeat (Some lo) (n - 1) ++ match n with O => [] | _ => [None] end;
  env_HOST := None; env_PORT := None; env_FLIGHTSQL_USER := None; env_FLIGHTSQL_PASSWORD := None;
  postcard_error_text b := b;
  debug_text _ := bs "error";
}.
#[local] Instance counting_flight_laws : FlightClientLaws.
Proof. split. intros n a b. cbn. rewrite length_app, repeat_length. destruct n; cbn; lia. Qed.

Definition up_state : @FlightState counting_flight := (0 : Z).
Definition down_state : @FlightState counting_flight := (9 : Z).
Definition task_0 : Task := mkTask up_state [].
Definition decided_events : list (option RuntimeEvent) := Some <$> events_of after_bob.

Definition task_1 : Task := fst (process_block (Some decided_events) task_0).
Lemma task_1_run : process_block (Some decided_events) task_0 = (task_1, Ok tt).
Proof.
  assert (is_ok (snd (process_block (Some decided_events) task_0)) = true) as Hok by (vm_compute; reflexivity).
  unfold task_1. destruct (process_block (Some decided_events) task_0) as [t [[]| |]]; [done..].
Qed.

Lemma decision_reaches_database_witness :
  exists oc_table : OnChainTable, num_rows (E := DispatchError) oc_table = Ok 0%nat \/
    exists id batch, settled_calls [Ingest id batch] task_1.
Proof.
  destruct (decision_reaches_database (Signed bob) alice_call after_alice after_bob batch decided decided_events
    task_0 task_1 after_bob_run after_alice_undecided after_bob_decided
    (fun e He => list_elem_of_fmap_2 Some _ e He) task_1_run)
    as (oc & m & s1 & s2 & Hins & _ & _ & [Hz|(id & b & _ & _ & Hs)]); exists oc; [by left|right; by exists id, b].
Defined.

(** The ingestion of the decided rows is the only call. *)
Definition first_calls (t : Task) : list (bytes * bool) :=
  (fun x => (match x.1 with Ingest id _ => id | Update sql => sql end,
             match x.2 with Some _ => true | None => false end)) <$> flight_log t.

Example decision_ingested : first_calls task_1 = [(bs "ANIMALS.POPULATION", false)].
Proof. vm_compute. reflexivity. Qed.

(** While the database is down five attempts are made, then the task panics. *)
Example database_down :
  let '(t, r) := process_block (Some decided_events) (mkTask down_state []) in
  (first_calls t, is_ok r) = (replicate 5 (bs "ANIMALS.POPULATION", true), false).
Proof. vm_compute. reflexivity. Qed.

Definition schema_event : RuntimeEvent :=
  TablesEvent (pallet_tables.SchemaUpdated None
    [mkUpdateTable sample_table_identifier (bs "CREATE TABLE A") CoreBlockchain
      (EmptyCommitment (mkFlags true true)) Ethereum]).

Lemma block_handled_witness : handled_event schema_event (fst (process_block (Some [Some schema_event; None]) task_0)).
Proof.
  assert (Hok : snd (process_block (Some [Some schema_event; None]) task_0) = Ok tt) by (vm_compute; reflexivity).
  destruct (block_handled [Some schema_event; None] task_0 _ _ (surjective_pairing _)) as [_ Hh].
  apply (Hh Hok). left.
Defined.

Definition a_quorum : DataQuorum (@AccountId sample_config) (@Hash sample_config) := decided.
Definition rows_data : bytes :=
  match to_allocvec sample_table with Some b => b | None => [] end.
Definition rows_batch : RecordBatch :=
  match record_batch_from_data rows_data with Ok b => b | _ => [] end.

Lemma ingestion_attempts_witness :
  exists l, tries (Ingest (bs "ANIMALS.POPULATION") rows_batch) l /\ (length l <= 5)%nat.
Proof.
  destruct (ingestion_attempts a_quorum rows_data (bs "ANIMALS.POPULATION") rows_batch task_0) as (l & _ & Hlen & Ht).
  - vm_compute. reflexivity.
  - vm_compute. reflexivity.
  - by exists l.
Defined.

(** A database that is up. *)
Definition up_flight : FlightClient := {|
  FlightState := unit;
  execute_update _ z := (z, Ok 0);
  execute_ingest _ _ z := (z, Ok 1);
  connect _ _ _ z := (z, Ok tt);
  backoff n lo hi := replicate n (Some lo);
  env_HOST := None; env_PORT := None; env_FLIGHTSQL_USER := None; env_FLIGHTSQL_PASSWORD := None;
  postcard_error_text b := b;
  debug_text _ := bs "error";
|}.
Definition up_flight_laws : @FlightClientLaws up_flight.
Proof. split. intros n a b. apply length_replicate. Defined.
Definition connected : @FlightState up_flight := tt.

Lemma block_in_order_witness :
  exists s, @process_block _ _ _ _ up_flight (Some [Some schema_event; None]) (mkTask connected []) =
    (@mkTask up_flight s [(Update (bs "CREATE TABLE A"), None)], Ok tt).
Proof.
  apply (@block_in_order _ _ _ _ up_flight up_flight_laws [Some schema_event; None]
    [[Update (bs "CREATE TABLE A")]] (mkTask connected [])); [by split|by vm_compute].
Defined.
End FlightExamples.
