(* ===== verification/WatcherClient.v ===== *)
(** * The concurrent client of the watcher

    [AttestationClient] of watcher/src/main.rs processes up to a configured number of
    finalized blocks at a time.  The futures of the blocks share one [TxSubmitter] of the
    translation layer: its client, and its nonce behind a lock.  A future is modelled by
    the point where it awaits, so that a run is a sequence of polls, in any order, of block
    arrivals, of receptions of the progress logger, and of changes of the chain.
    Theorems: in every run each block is sent at most four times and accepted at most once
    with the attestation of that block; the nonces follow one another from refresh to
    refresh; every run is finite, without a deadlock; and a future that runs alone does
    what [submit_tx_get_hash_with_mortality] does.  A run shows that the refresh
    after a reconnection takes back a nonce that another future has used. *)

From stdpp Require Import base tactics option gmap strings numbers list relations.
From Stdlib Require Import ZArith Lia.
From Stdlib Require Import Strings.Byte.
From S2P Require Import Prelude Bytes Text Types CommitmentScheme CommitmentMap Runtime Sample.
From S2P Require Import PalletPermissions PalletKeystore PalletAttestation AttestationTree Rpc.
From S2P Require Import AttestationCore Watcher PalletTables PalletSmartContracts TranslationLayer.

(** ** The state *)

(** What happens to the nonce, with the index of the future that sends. *)
Inductive NonceEvent :=
| SentTx (future : nat) (tx : Payload) (nonce_value : Z) (accepted : bool)
| NonceRefreshed (nonce_value : Z).

(** Where [submit_tx_get_hash_inner] awaits. *)
Inductive Await :=
| NonceLock
| Submission (nonce_value : Z)
| NonceRefresh
| Reconnection
| NonceFetch
| NonceStore (refreshed_nonce : Z)
| Delay
| UpdateSend (hash : bytes).

(** The points at which the guard of the nonce is held. *)
Definition holds_guard (a : Await) : bool :=
  match a with
  | Submission _ | NonceRefresh => true
  | _ => false
  end.

(** The capacity of the channel that [main] creates. *)
Definition CHANNEL_CAPACITY : nat := 100.

Section client.
Context `{Config} `{!SubxtBackend} `{StoragePrefixes} `{StorageHasher} `{EthMerkleTree}.
Context `{Codec TableIdentifier} `{Codec TableCommitmentBytes} `{Codec AccountId}
  `{Codec (list BalanceLock * ContractInfo)} `{Codec (Attestation Hash)}.
Context `{EthCrypto} `{!KeyBytes} `{ChainClient}.

(** The future of a block; the submission is for a block number and counts attempts. *)
Inductive BlockFuture :=
| Unpolled (block_result : outcome SubxtError Header)
| Submitting (block_number : Z) (tx : Payload) (attempt : nat) (at_ : Await)
| Returned (hash : option bytes).

(** [TxSubmitter], its channel and whether the other end is still there. *)
Record Submitter := mkSubmitter {
  client : ChainState;
  nonce : Z;
  nonce_guard : option nat;
  channel : list (bytes * option Z);
  receiver_alive : bool;
  nonce_log : list NonceEvent;
}.

Record AttestationClient := mkAttestationClient {
  stream : list (outcome SubxtError Header);
  futures : list BlockFuture;
  tx_submitter : Submitter;
  (** The transactions that the logger follows, with their blocks. *)
  followed : list (bytes * Z);
  panicked : bool;
}.

Definition set_client (c : ChainState) (s : Submitter) : Submitter :=
  mkSubmitter c (nonce s) (nonce_guard s) (channel s) (receiver_alive s) (nonce_log s).
Definition lock (i : nat) (s : Submitter) : Submitter :=
  mkSubmitter (client s) (nonce s) (Some i) (channel s) (receiver_alive s) (nonce_log s).
Definition unlock (s : Submitter) : Submitter :=
  mkSubmitter (client s) (nonce s) None (channel s) (receiver_alive s) (nonce_log s).
Definition set_channel (l : list (bytes * option Z)) (s : Submitter) : Submitter :=
  mkSubmitter (client s) (nonce s) (nonce_guard s) l (receiver_alive s) (nonce_log s).
Definition drop_receiver (s : Submitter) : Submitter :=
  mkSubmitter (client s) (nonce s) (nonce_guard s) [] false (nonce_log s).
(** A transaction is sent; if it is accepted, its nonce is used up. *)
Definition record_sent (i : nat) (tx : Payload) (n : Z) (accepted : bool) (s : Submitter) : Submitter :=
  mkSubmitter (client s) (if accepted then (n + 1) mod 2 ^ 64 else nonce s) (nonce_guard s)
    (channel s) (receiver_alive s) (nonce_log s ++ [SentTx i tx n accepted]).
Definition store_nonce (n : Z) (s : Submitter) : Submitter :=
  mkSubmitter (client s) n (nonce_guard s) (channel s) (receiver_alive s)
    (nonce_log s ++ [NonceRefreshed n]).

(** ** The futures *)

Context (private_key : SigningKey) (rpc_url : bytes) (block_process_concurrency : nat).

(** [sign_and_submit_then_watch] has answered. *)
Definition submission_answered (i : nat) (n : Z) (tx : Payload) (attempt : nat) (nonce_value : Z)
    (r : ChainState * outcome ClientError bytes) (s : Submitter) : Submitter * outcome unit BlockFuture :=
  let '(c, tx_result) := r in
  let s := set_client c s in
  match tx_result with
  | Ok hash => (unlock (record_sent i tx nonce_value true s), Ok (Submitting n tx attempt (UpdateSend hash)))
  | Err err =>
      let s := record_sent i tx nonce_value false s in
      let err_str := client_error_text err in
      if (attempt <? MAX_RETRIES)%nat then
        if is_stale_nonce_error err_str then (s, Ok (Submitting n tx attempt NonceRefresh))
        else if is_background_disconnect err_str
        then (unlock s, Ok (Submitting n tx attempt Reconnection))
        else (unlock s, Ok (Submitting n tx attempt Delay))
      else (unlock s, Ok (Returned None))
  | Panic => (s, Panic)
  end.

(** [account_nonce] has answered: what is done with the nonce of the account. *)
Definition nonce_answered (r : ChainState * outcome ClientError (option Z)) (s : Submitter)
    (k : Z -> Submitter -> Submitter * outcome unit BlockFuture) : Submitter * outcome unit BlockFuture :=
  let '(c, latest) := r in
  let s := set_client c s in
  match latest with
  | Ok latest_nonce => k (default 0 latest_nonce) s
  | Err _ => (unlock s, Ok (Returned None))
  | Panic => (s, Panic)
  end.

(** A poll of a submission; [None] if it is still pending. *)
Definition poll_submission (i : nat) (n : Z) (tx : Payload) (attempt : nat) (at_ : Await)
    (s : Submitter) : option (Submitter * outcome unit BlockFuture) :=
  match at_ with
  | NonceLock =>
      match nonce_guard s with
      | None => Some (lock i s, Ok (Submitting n tx attempt (Submission (nonce s))))
      | Some _ => None
      end
  | Submission nonce_value =>
      Some (submission_answered i n tx attempt nonce_value
        (sign_and_submit tx nonce_value (Some (n, 32)) (client s)) s)
  | NonceRefresh =>
      Some (nonce_answered (account_nonce (client s)) s (fun latest_nonce s =>
        (unlock (store_nonce latest_nonce s), Ok (Submitting n tx (S attempt) NonceLock))))
  | Reconnection =>
      let '(c, r) := from_url rpc_url (client s) in
      Some (set_client c s,
        match r with
        | Ok _ => Ok (Submitting n tx attempt NonceFetch)
        | Err _ => Ok (Returned None)
        | Panic => Panic
        end)
  | NonceFetch =>
      let '(c, r) := account_nonce (client s) in
      Some (set_client c s,
        match r with
        | Ok refreshed => Ok (Submitting n tx attempt (NonceStore (default 0 refreshed)))
        | Err _ => Ok (Returned None)
        | Panic => Panic
        end)
  | NonceStore refreshed_nonce =>
      match nonce_guard s with
      | None => Some (store_nonce refreshed_nonce s, Ok (Submitting n tx (S attempt) NonceLock))
      | Some _ => None
      end
  | Delay => Some (s, Ok (Submitting n tx (S attempt) NonceLock))
  | UpdateSend hash =>
      if receiver_alive s then
        if (length (channel s) <? CHANNEL_CAPACITY)%nat
        then Some (set_channel (channel s ++ [(hash, Some n)]) s, Ok (Returned (Some hash)))
        else None
      else Some (s, Ok (Returned (Some hash)))
  end.

(** [AttestationClient::process_block] and [submit_transaction_with_retry]. *)
Definition poll (i : nat) (f : BlockFuture) (s : Submitter) : option (Submitter * outcome unit BlockFuture) :=
  match f with
  | Unpolled block_result => Some (s,
      match process_block block_result private_key with
      | Ok (n, a) => Ok (Submitting n (AttestBlockTx n (encode_scale a)) 0 NonceLock)
      | Err _ => Ok (Returned None)
      | Panic => Panic
      end)
  | Submitting n tx attempt at_ => poll_submission i n tx attempt at_ s
  | Returned _ => None
  end.

Definition is_active (f : BlockFuture) : bool :=
  match f with Returned _ => false | _ => true end.

(** ** The runs *)

Inductive Action :=
| TakeBlock
| Poll (i : nat)
| Receive.

(** [for_each_concurrent] takes the next block while fewer futures than the limit are
    active; a limit of zero is none. *)
Definition take_block (w : AttestationClient) : option AttestationClient :=
  match stream w with
  | [] => None
  | block_result :: rest =>
      if (block_process_concurrency =? 0)%nat ||
         (length (filter is_active (futures w)) <? block_process_concurrency)%nat
      then Some (mkAttestationClient rest (futures w ++ [Unpolled block_result]) (tx_submitter w)
                   (followed w) (panicked w))
      else None
  end.

(** A panic of a future unwinds the task in which all of them are polled. *)
Definition poll_future (i : nat) (w : AttestationClient) : option AttestationClient :=
  match futures w !! i with
  | None => None
  | Some f =>
      match poll i f (tx_submitter w) with
      | None => None
      | Some (s, Ok f') => Some (mkAttestationClient (stream w) (<[i := f']> (futures w)) s (followed w) false)
      | Some (s, _) => Some (mkAttestationClient (stream w) (futures w) s (followed w) true)
      end
  end.

(** The loop of [spawn_tx_progress_logger] receives the next transaction; it ends at one
    without a block. *)
Definition receive (w : AttestationClient) : option AttestationClient :=
  let s := tx_submitter w in
  if receiver_alive s then
    match channel s with
    | [] => None
    | (hash, Some block_number) :: rest =>
        Some (mkAttestationClient (stream w) (futures w) (set_channel rest s)
          (followed w ++ [(hash, block_number)]) (panicked w))
    | (_, None) :: _ =>
        Some (mkAttestationClient (stream w) (futures w) (drop_receiver s) (followed w) (panicked w))
    end
  else None.

Definition act (a : Action) (w : AttestationClient) : option AttestationClient :=
  if panicked w then None
  else match a with
       | TakeBlock => take_block w
       | Poll i => poll_future i w
       | Receive => receive w
       end.

(** The other blocks and clients change the chain at any time. *)
Definition change_chain (c : ChainState) (w : AttestationClient) : AttestationClient :=
  mkAttestationClient (stream w) (futures w) (set_client c (tx_submitter w)) (followed w) (panicked w).

Inductive client_run : AttestationClient -> list Action -> AttestationClient -> Prop :=
| run_done w : client_run w [] w
| run_action a l w w' w'' : act a w = Some w' -> client_run w' l w'' -> client_run w (a :: l) w''
| run_chain c l w w' : client_run (change_chain c w) l w' -> client_run w l w'.

Fixpoint execute_actions (l : list Action) (w : AttestationClient) : option AttestationClient :=
  match l with
  | [] => Some w
  | a :: l => act a w ≫= execute_actions l
  end.

(** [AttestationClient::new] and the subscription of [run]. *)
Definition attestation_client_new (api : ChainState) (blocks : list (outcome SubxtError Header))
    : outcome SubmitError AttestationClient :=
  match fetch_initial_nonce (mkService api None None [] []) with
  | (s, Ok n) => Ok (mkAttestationClient blocks []
      (mkSubmitter (chain_state s) n None [] true []) [] false)
  | (_, Err e) => Err e
  | (_, Panic) => Panic
  end.

(** What every run from a new client keeps, and what the single actions keep. *)
Lemma client_run_inv (P : AttestationClient -> Prop) w l w' :
  (forall c v, P v -> P (change_chain c v)) ->
  (forall a v v', P v -> act a v = Some v' -> P v') ->
  client_run w l w' -> P w -> P w'.
Proof. intros Hc Ha. induction 1; eauto. Qed.

Lemma new_client api blocks w :
  attestation_client_new api blocks = Ok w ->
  exists c n, w = mkAttestationClient blocks [] (mkSubmitter c n None [] true []) [] false.
Proof.
  unfold attestation_client_new.
  destruct (fetch_initial_nonce _) as [s [n|e|]]; [|done..]. intros [= <-]. eauto.
Qed.

(** ** The invariant *)

(** The nonce after the events of the log, if each transaction was sent with the nonce of
    its time. *)
Fixpoint replay (n : Z) (log : list NonceEvent) : option Z :=
  match log with
  | [] => Some n
  | SentTx _ _ k accepted :: log =>
      if k =? n then replay (if accepted then (k + 1) mod 2 ^ 64 else n) log else None
  | NonceRefreshed k :: log => replay k log
  end.

(** What was sent by a future. *)
Definition sends (i : nat) (log : list NonceEvent) : list (Payload * bool) :=
  omap (fun e => match e with
                 | SentTx j tx _ accepted => if (j =? i)%nat then Some (tx, accepted) else None
                 | NonceRefreshed _ => None
                 end) log.

Definition guarding (f : BlockFuture) : bool :=
  match f with
  | Submitting _ _ _ at_ => holds_guard at_
  | _ => false
  end.

(** The transaction of a block. *)
Definition block_tx (block : outcome SubxtError Header) (n : Z) (tx : Payload) : Prop :=
  exists a, process_block block private_key = Ok (n, a) /\ tx = AttestBlockTx n (encode_scale a).

Definition refused (k : nat) (tx : Payload) : list (Payload * bool) := replicate k (tx, false).

Definition await_ok (tx : Payload) (k : nat) (at_ : Await) (s : Submitter) (sent : list (Payload * bool)) : Prop :=
  match at_ with
  | NonceLock => (k <= 3)%nat /\ sent = refused k tx
  | Submission v => (k <= 3)%nat /\ v = nonce s /\ sent = refused k tx
  | UpdateSend _ => (k <= 3)%nat /\ sent = refused k tx ++ [(tx, true)]
  | _ => (k < 3)%nat /\ sent = refused (S k) tx
  end.

(** What is sent for a block whose future has returned. *)
Definition returned_ok (block : outcome SubxtError Header) (hash : option bytes)
    (sent : list (Payload * bool)) : Prop :=
  match hash with
  | Some _ => exists n tx k, block_tx block n tx /\ (k <= 3)%nat /\ sent = refused k tx ++ [(tx, true)]
  | None => (exists e, process_block block private_key = Err e) /\ sent = [] \/
      exists n tx k, block_tx block n tx /\ (1 <= k <= 4)%nat /\ sent = refused k tx
  end.

Definition future_ok (i : nat) (block : outcome SubxtError Header) (f : BlockFuture) (s : Submitter) : Prop :=
  match f with
  | Unpolled b => b = block /\ sends i (nonce_log s) = []
  | Submitting n tx k at_ => block_tx block n tx /\ await_ok tx k at_ s (sends i (nonce_log s))
  | Returned hash => returned_ok block hash (sends i (nonce_log s))
  end.

Definition channel_ok (s : Submitter) : Prop :=
  receiver_alive s = true /\ Forall (fun u => is_Some u.2) (channel s).

Lemma sends_app i l l' : sends i (l ++ l') = sends i l ++ sends i l'.
Proof. apply omap_app. Qed.
Lemma sends_same i tx n b : sends i [SentTx i tx n b] = [(tx, b)].
Proof. unfold sends. cbn. by rewrite Nat.eqb_refl. Qed.
Lemma sends_other i j tx n b : j <> i -> sends i [SentTx j tx n b] = [].
Proof. intros Hj. unfold sends. cbn. by rewrite (proj2 (Nat.eqb_neq j i)). Qed.
Lemma replay_app n l l' m : replay n l = Some m -> replay n (l ++ l') = replay m l'.
Proof.
  revert n. induction l as [|e l IH]; intros n; cbn; [by intros [= <-]|].
  destruct e as [j tx k b|k]; [destruct (k =? n); [|done]|]; apply IH.
Qed.
Lemma refused_S k tx : refused k tx ++ [(tx, false)] = refused (S k) tx.
Proof. unfold refused. by rewrite <- replicate_cons_app. Qed.

(** *** The moves of a future *)

Inductive moves (i : nat) : BlockFuture -> Submitter -> BlockFuture -> Submitter -> Prop :=
| moves_begin b n tx s : block_tx b n tx -> moves i (Unpolled b) s (Submitting n tx 0 NonceLock) s
| moves_skip b e s : process_block b private_key = Err e -> moves i (Unpolled b) s (Returned None) s
| moves_lock n tx k s : nonce_guard s = None ->
    moves i (Submitting n tx k NonceLock) s (Submitting n tx k (Submission (nonce s))) (lock i s)
| moves_accepted n tx k v c hash s :
    moves i (Submitting n tx k (Submission v)) s
      (Submitting n tx k (UpdateSend hash)) (unlock (record_sent i tx v true (set_client c s)))
| moves_stale n tx k v c s : (k < 3)%nat ->
    moves i (Submitting n tx k (Submission v)) s
      (Submitting n tx k NonceRefresh) (record_sent i tx v false (set_client c s))
| moves_refused n tx k v c s at_ : (k < 3)%nat -> at_ = Reconnection \/ at_ = Delay ->
    moves i (Submitting n tx k (Submission v)) s
      (Submitting n tx k at_) (unlock (record_sent i tx v false (set_client c s)))
| moves_give_up n tx k v c s : (3 <= k)%nat ->
    moves i (Submitting n tx k (Submission v)) s
      (Returned None) (unlock (record_sent i tx v false (set_client c s)))
| moves_refreshed n tx k v c s :
    moves i (Submitting n tx k NonceRefresh) s
      (Submitting n tx (S k) NonceLock) (unlock (store_nonce v (set_client c s)))
| moves_not_refreshed n tx k c s :
    moves i (Submitting n tx k NonceRefresh) s (Returned None) (unlock (set_client c s))
| moves_reconnected n tx k c s :
    moves i (Submitting n tx k Reconnection) s (Submitting n tx k NonceFetch) (set_client c s)
| moves_fetched n tx k v c s :
    moves i (Submitting n tx k NonceFetch) s (Submitting n tx k (NonceStore v)) (set_client c s)
| moves_failed n tx k c s at_ : at_ = Reconnection \/ at_ = NonceFetch ->
    moves i (Submitting n tx k at_) s (Returned None) (set_client c s)
| moves_stored n tx k v s : nonce_guard s = None ->
    moves i (Submitting n tx k (NonceStore v)) s (Submitting n tx (S k) NonceLock) (store_nonce v s)
| moves_delayed n tx k s :
    moves i (Submitting n tx k Delay) s (Submitting n tx (S k) NonceLock) s
| moves_sent n tx k hash s : receiver_alive s = true ->
    moves i (Submitting n tx k (UpdateSend hash)) s
      (Returned (Some hash)) (set_channel (channel s ++ [(hash, Some n)]) s)
| moves_unfollowed n tx k hash s : receiver_alive s = false ->
    moves i (Submitting n tx k (UpdateSend hash)) s (Returned (Some hash)) s.

Lemma poll_moves i f s s' f' : poll i f s = Some (s', Ok f') -> moves i f s f' s'.
Proof.
  destruct f as [b|n tx k at_|]; cbn [poll]; [|destruct at_; cbn [poll_submission]|done].
  - destruct (process_block b private_key) as [[n a]|e|] eqn:Hb; intros [= <- <-];
      [apply moves_begin; by exists a|by eapply moves_skip].
  - destruct (nonce_guard s) eqn:Hg; intros [= <- <-]. by apply moves_lock.
  - unfold submission_answered. destruct (sign_and_submit _ _ _ _) as [c [hash|e|]].
    + intros [= <- <-]. apply moves_accepted.
    + destruct (Nat.ltb_spec k MAX_RETRIES); [|intros [= <- <-]; by apply moves_give_up].
      destruct (is_stale_nonce_error _); [intros [= <- <-]; by apply moves_stale|].
      destruct (is_background_disconnect _); intros [= <- <-]; apply moves_refused; eauto.
    + intros [=].
  - unfold nonce_answered. destruct (account_nonce _) as [c [v|e|]]; intros [= <- <-];
      [apply moves_refreshed|apply moves_not_refreshed].
  - destruct (from_url _ _) as [c [[]|e|]]; intros [= <- <-]; [apply moves_reconnected|apply moves_failed; eauto].
  - destruct (account_nonce _) as [c [v|e|]]; intros [= <- <-]; [apply moves_fetched|apply moves_failed; eauto].
  - destruct (nonce_guard s) eqn:Hg; intros [= <- <-]. by apply moves_stored.
  - intros [= <- <-]. apply moves_delayed.
  - destruct (receiver_alive s) eqn:Ha; [destruct (_ <? _)%nat|]; intros [= <- <-];
      [by apply moves_sent|by apply moves_unfollowed].
Qed.

(** A move concerns its own future: what the others have sent and whether they hold the
    guard does not change, and the nonce changes only if none of them holds it. *)
Lemma moves_others i f s s' f' j :
  moves i f s f' s' -> (guarding f = true -> nonce_guard s = Some i) -> j <> i ->
  sends j (nonce_log s') = sends j (nonce_log s) /\
  (nonce_guard s' = Some j <-> nonce_guard s = Some j) /\
  (nonce_guard s = Some j -> nonce s' = nonce s).
Proof.
  intros Hm Hg Hj.
  destruct Hm; cbn [nonce_log nonce_guard nonce unlock lock set_client store_nonce set_channel record_sent guarding holds_guard] in *;
    rewrite ?sends_app, ?(sends_other _ _ _ _ _ (not_eq_sym Hj)), ?app_nil_r; try (specialize (Hg eq_refl));
    split_and!; try done; naive_solver congruence.
Qed.

Lemma moves_guard i f s s' f' :
  moves i f s f' s' -> (guarding f = true <-> nonce_guard s = Some i) ->
  (guarding f' = true <-> nonce_guard s' = Some i).
Proof.
  intros Hm Hg. destruct Hm as [| | | | |? ? ? ? ? ? ? ? [-> | ->]| | | | | |? ? ? ? ? ? [-> | ->]| | | |];
    cbn in *; naive_solver.
Qed.

Lemma moves_replay i f s s' f' n0 block :
  moves i f s f' s' -> future_ok i block f s -> replay n0 (nonce_log s) = Some (nonce s) ->
  replay n0 (nonce_log s') = Some (nonce s').
Proof.
  intros Hm Hf Hr. destruct Hm; cbn in *; try done; rewrite (replay_app _ _ _ _ Hr); cbn; try done;
    destruct Hf as (_ & _ & -> & _); by rewrite Z.eqb_refl.
Qed.

Lemma moves_future_ok i f s s' f' block :
  moves i f s f' s' -> future_ok i block f s -> future_ok i block f' s'.
Proof.
  intros Hm Hf. destruct Hm; cbn [future_ok nonce_log unlock lock set_client store_nonce set_channel record_sent] in *;
    rewrite ?sends_app, ?sends_same; cbn [sends omap list_omap]; rewrite ?app_nil_r.
  - destruct Hf as [-> ->]. cbn. split_and!; [done|lia|done].
  - destruct Hf as [-> ->]. left. eauto.
  - by destruct Hf as (Ht & Hk & ->).
  - destruct Hf as (Ht & Hk & _ & ->). by cbn.
  - destruct Hf as (Ht & Hk & _ & ->). cbn. by rewrite refused_S.
  - destruct Hf as (Ht & Hk & _ & ->). split; [done|]. rewrite refused_S.
    by match goal with Ha : at_ = _ \/ _ |- _ => destruct Ha as [-> | ->] end.
  - destruct Hf as (Ht & Hk & _ & ->). right. exists n, tx, (S k). rewrite refused_S. split_and!; (done || lia).
  - destruct Hf as (Ht & Hk & ->). cbn. split_and!; [done|lia|done].
  - destruct Hf as (Ht & Hk & ->). right. exists n, tx, (S k). split_and!; (done || lia).
  - done.
  - done.
  - right. exists n, tx, (S k). destruct Hf as (Ht & Hf).
    match goal with Ha : at_ = _ \/ _ |- _ => destruct Ha as [-> | ->] end;
      destruct Hf as [Hk ->]; split_and!; (done || lia).
  - destruct Hf as (Ht & Hk & ->). cbn. split_and!; [done|lia|done].
  - destruct Hf as (Ht & Hk & ->). cbn. split_and!; [done|lia|done].
  - destruct Hf as (Ht & Hk & ->). cbn. eauto 7.
  - destruct Hf as (Ht & Hk & ->). cbn. eauto 7.
Qed.

Lemma moves_channel i f s s' f' : moves i f s f' s' -> channel_ok s -> channel_ok s'.
Proof.
  intros Hm [Ha Hc]. destruct Hm; unfold channel_ok in *; cbn in *; try done.
  split; [done|]. apply Forall_app. split; [done|]. constructor; [by eexists|done].
Qed.

Lemma future_ok_ext i block f s s' :
  sends i (nonce_log s') = sends i (nonce_log s) -> (guarding f = true -> nonce s' = nonce s) ->
  future_ok i block f s -> future_ok i block f s'.
Proof.
  intros Hs Hn. destruct f as [b|n tx k at_|hash]; cbn [future_ok]; rewrite Hs; [done| |done].
  destruct at_; cbn [await_ok]; try done. by rewrite (Hn eq_refl).
Qed.

(** A poll that panics has changed at most the client. *)
Lemma poll_panics i f s s' o : poll i f s = Some (s', o) -> (forall f', o <> Ok f') -> exists c, s' = set_client c s.
Proof.
  intros Hp Ho. exists (client s'). revert Hp.
  destruct f as [b|n tx k at_|]; cbn [poll]; [|destruct at_; cbn [poll_submission]|done].
  - intros [= <- <-]. by destruct s.
  - destruct (nonce_guard s); [done|]. intros [= <- <-]. by destruct (Ho _ eq_refl).
  - unfold submission_answered. destruct (sign_and_submit _ _ _ _) as [c [hash|e|]]; [..|by intros [= <- <-]];
      repeat match goal with |- context [if ?b then _ else _] => destruct b end;
      intros [= <- <-]; by destruct (Ho _ eq_refl).
  - unfold nonce_answered. destruct (account_nonce _) as [c [v|e|]]; intros [= <- <-];
      [by destruct (Ho _ eq_refl)..|done].
  - destruct (from_url _ _) as [c o']. by intros [= <- _].
  - destruct (account_nonce _) as [c o']. by intros [= <- _].
  - destruct (nonce_guard s); [done|]. intros [= <- <-]. by destruct (Ho _ eq_refl).
  - intros [= <- <-]. by destruct (Ho _ eq_refl).
  - repeat match goal with |- context [if ?b then _ else _] => destruct b end; [|done|];
      intros [= <- <-]; by destruct (Ho _ eq_refl).
Qed.

(** *** All futures *)

Record client_ok (n0 : Z) (blocks : list (outcome SubxtError Header)) (w : AttestationClient) : Prop := {
  ok_stream : stream w = drop (length (futures w)) blocks;
  ok_futures i f : futures w !! i = Some f ->
    exists block, blocks !! i = Some block /\ future_ok i block f (tx_submitter w);
  ok_later i : (length (futures w) <= i)%nat -> sends i (nonce_log (tx_submitter w)) = [];
  ok_guard i : nonce_guard (tx_submitter w) = Some i <-> exists f, futures w !! i = Some f /\ guarding f = true;
  ok_nonce : replay n0 (nonce_log (tx_submitter w)) = Some (nonce (tx_submitter w));
  ok_channel : channel_ok (tx_submitter w);
}.

Lemma client_ok_new c n blocks :
  client_ok n blocks (mkAttestationClient blocks [] (mkSubmitter c n None [] true []) [] false).
Proof. split; cbn; try done. intros i. split; [done|]. by intros (f & Hf & _). Qed.

Lemma client_ok_chain n0 blocks c w : client_ok n0 blocks w -> client_ok n0 blocks (change_chain c w).
Proof. by intros []. Qed.

Lemma client_ok_take n0 blocks w w' : client_ok n0 blocks w -> take_block w = Some w' -> client_ok n0 blocks w'.
Proof.
  intros [Hs Hf Hl Hg Hn Hc]. unfold take_block. destruct (stream w) as [|b rest] eqn:Hw; [done|].
  destruct (_ || _); intros [= <-]. symmetry in Hs.
  assert (blocks !! length (futures w) = Some b) as Hb by by rewrite <- (Nat.add_0_r (length _)), <- lookup_drop, Hs.
  split; cbn; try done.
  - rewrite length_app. cbn. by rewrite <- drop_drop, Hs.
  - intros i f [Hi|[-> Hi]]%lookup_snoc_Some; [apply Hf, Hi|].
    subst f. exists b. split; [done|]. split; [done|]. by apply Hl.
  - intros i. rewrite length_app. intros Hi. apply Hl. lia.
  - intros i. rewrite Hg. split; intros (f & Hi & Hf'); exists f.
    + split; [by apply lookup_app_l_Some|done].
    + apply lookup_snoc_Some in Hi as [[_ Hi]|[_ <-]]; [done|]. done.
Qed.

Lemma client_ok_receive n0 blocks w w' : client_ok n0 blocks w -> receive w = Some w' -> client_ok n0 blocks w'.
Proof.
  intros [Hs Hf Hl Hg Hn [Ha Hc]]. unfold receive. rewrite Ha.
  destruct (channel (tx_submitter w)) as [|[hash [n|]] rest] eqn:Hch; [done|..|]; intros [= <-].
  - split; try done. by split; [|by apply Forall_cons in Hc as [_ Hc]].
  - by apply Forall_cons in Hc as [[] _].
Qed.

Lemma client_ok_poll n0 blocks i w w' :
  client_ok n0 blocks w -> poll_future i w = Some w' -> client_ok n0 blocks w'.
Proof.
  intros Hw. unfold poll_future. destruct (futures w !! i) as [f|] eqn:Hi; [|done].
  destruct (poll i f (tx_submitter w)) as [[s' o]|] eqn:Hp; [|done].
  destruct Hw as [Hs Hf Hl Hg Hn Hc].
  destruct o as [f'|e|].
  2,3: intros [= <-]; apply poll_panics in Hp as [c ->]; [|done]; by split.
  intros [= <-]. apply poll_moves in Hp as Hm.
  assert (guarding f = true <-> nonce_guard (tx_submitter w) = Some i) as Hgi.
  { rewrite Hg, Hi. naive_solver. }
  destruct (Hf i f Hi) as (block & Hb & Hok).
  pose proof (lookup_lt_Some _ _ _ Hi) as Hlt.
  split; cbn; rewrite ?length_insert; try done.
  - intros j g [(-> & -> & _)|[Hne Hj]]%list_lookup_insert_Some.
    + exists block. split; [done|]. by eapply moves_future_ok.
    + destruct (Hf j g Hj) as (b & Hbj & Hokj). exists b. split; [done|].
      destruct (moves_others i f _ _ _ j Hm (proj1 Hgi) (not_eq_sym Hne)) as (Hsame & _ & Hnc).
      eapply future_ok_ext; [exact Hsame| |exact Hokj]. intros Hgj. apply Hnc, Hg. eauto.
  - intros j Hj. destruct (moves_others i f _ _ _ j Hm (proj1 Hgi) ltac:(lia)) as (-> & _). by apply Hl.
  - intros j. destruct (decide (j = i)) as [->|Hne].
    + rewrite <- (moves_guard i f _ _ _ Hm Hgi). rewrite list_lookup_insert_eq by done. naive_solver.
    + destruct (moves_others i f _ _ _ j Hm (proj1 Hgi) Hne) as (_ & -> & _).
      by rewrite Hg, list_lookup_insert_ne.
  - by eapply moves_replay.
  - by eapply moves_channel.
Qed.

Lemma client_ok_act n0 blocks a w w' : client_ok n0 blocks w -> act a w = Some w' -> client_ok n0 blocks w'.
Proof.
  intros Hw. unfold act. destruct (panicked w); [done|].
  destruct a; [by apply client_ok_take|by apply client_ok_poll|by apply client_ok_receive].
Qed.

Lemma reachable_ok api blocks w l w' :
  attestation_client_new api blocks = Ok w -> client_run w l w' ->
  client_ok (nonce (tx_submitter w)) blocks w'.
Proof.
  intros Hnew Hrun. destruct (new_client api blocks w Hnew) as (c & n & ->). cbn.
  eapply (client_run_inv (client_ok n blocks)); [..|exact Hrun|apply client_ok_new].
  - intros. by apply client_ok_chain.
  - intros. by eapply client_ok_act.
Qed.

(** ** Nonces *)

Definition is_sent (e : NonceEvent) : bool := match e with SentTx _ _ _ _ => true | _ => false end.
Definition is_accepted (e : NonceEvent) : bool := match e with SentTx _ _ _ b => b | _ => false end.
(** How many nonces the events use up. *)
Definition used_up (log : list NonceEvent) : Z := Z.of_nat (length (filter is_accepted log)).

Lemma replay_sent n l m :
  replay n l = Some m -> Forall is_sent l -> m mod 2 ^ 64 = (n + used_up l) mod 2 ^ 64.
Proof.
  revert n. induction l as [|e l IH]; intros n; cbn [replay].
  - intros [= <-] _. by rewrite Z.add_0_r.
  - destruct e as [j tx k b|k]; [|by intros _ [[] _]%Forall_cons].
    destruct (Z.eqb_spec k n) as [->|]; [|done]. intros Hr [_ Hl]%Forall_cons. rewrite (IH _ Hr Hl).
    unfold used_up. destruct b; [rewrite filter_cons_True by done|by rewrite filter_cons_False by (cbn; tauto)].
    rewrite Zplus_mod_idemp_l. f_equal. cbn [length]. lia.
Qed.

Lemma replay_split n l l' m : replay n (l ++ l') = Some m -> exists k, replay n l = Some k /\ replay k l' = Some m.
Proof.
  revert n. induction l as [|e l IH]; intros n; cbn; [by eauto|].
  destruct e as [j tx k b|k]; [destruct (k =? n); [|done]|]; apply IH.
Qed.

(** C17: Whatever the order in which the blocks are processed, two transactions that are
    sent without a refresh of the nonce between them have nonces that differ by the number of
    transactions that were accepted from the first to the second: while there are fewer
    than 2^64, no two are accepted with the same nonce. *)
Theorem nonces_consecutive api blocks w l w' l1 i tx n b l2 j tx' m b' l3 :
  attestation_client_new api blocks = Ok w -> client_run w l w' ->
  nonce_log (tx_submitter w') = l1 ++ SentTx i tx n b :: l2 ++ SentTx j tx' m b' :: l3 ->
  Forall is_sent l2 ->
  m mod 2 ^ 64 = (n + used_up (SentTx i tx n b :: l2)) mod 2 ^ 64.
Proof.
  intros Hnew Hrun Hlog Hl2. pose proof (ok_nonce _ _ _ (reachable_ok _ _ _ _ _ Hnew Hrun)) as Hr.
  rewrite Hlog in Hr. apply replay_split in Hr as (n1 & _ & Hr).
  change (SentTx i tx n b :: l2 ++ ?r) with ((SentTx i tx n b :: l2) ++ r) in Hr.
  apply replay_split in Hr as (n2 & Hr & Hm). cbn in Hm.
  destruct (Z.eqb_spec m n2) as [->|]; [|done].
  assert (n1 = n) as <- by (cbn in Hr; by destruct (Z.eqb_spec n n1)).
  apply replay_sent; [done|]. by constructor.
Qed.

(** ** Every run is finite *)

Definition await_weight (k : nat) (at_ : Await) : nat :=
  match at_ with
  | NonceLock => 5 * (3 - k) + 5
  | Submission _ => 5 * (3 - k) + 4
  | Reconnection => 5 * (3 - k) + 3
  | NonceFetch => 5 * (3 - k) + 2
  | NonceRefresh | NonceStore _ | Delay => 5 * (3 - k) + 1
  | UpdateSend _ => 2
  end.
Definition weight (f : BlockFuture) : nat :=
  match f with
  | Unpolled _ => 21
  | Submitting _ _ k at_ => await_weight k at_
  | Returned _ => 0
  end.
(** The actions that are left, at most. *)
Definition work_left (w : AttestationClient) : nat :=
  if panicked w then 0
  else 1 + 22 * length (stream w) + sum_list_with weight (futures w) + length (channel (tx_submitter w)).

Lemma moves_weight i f s s' f' block :
  moves i f s f' s' -> future_ok i block f s ->
  (weight f' + length (channel s') < weight f + length (channel s))%nat.
Proof.
  intros Hm Hf. destruct Hm as [| | | | |? ? ? ? ? ? ? ? [-> | ->]| | | | | |? ? ? ? ? ? [-> | ->]| | | |];
    cbn -[Nat.mul] in *; rewrite ?length_app; cbn -[Nat.mul]; destruct_and?; lia.
Qed.

Lemma sum_list_with_insert {A} (f : A -> nat) (l : list A) i x y :
  l !! i = Some x -> (sum_list_with f (<[i := y]> l) + f x = sum_list_with f l + f y)%nat.
Proof.
  revert i. induction l as [|z l IH]; intros [|i] Hi; [done..| |].
  - injection Hi as ->. cbn. lia.
  - change (<[S i := y]> (z :: l)) with (z :: <[i := y]> l). cbn [sum_list_with].
    specialize (IH i Hi). lia.
Qed.

Lemma act_work n0 blocks a w w' :
  client_ok n0 blocks w -> act a w = Some w' -> (work_left w' < work_left w)%nat.
Proof.
  intros Hw. unfold act, work_left. destruct (panicked w) eqn:Hpan; [done|]. destruct a as [|i|].
  - unfold take_block. destruct (stream w) as [|b rest]; [done|]. destruct (_ || _); intros [= <-].
    cbn -[Nat.mul]. rewrite Hpan, sum_list_with_app. cbn -[Nat.mul]. lia.
  - unfold poll_future. destruct (futures w !! i) as [f|] eqn:Hi; [|done].
    destruct (poll i f _) as [[s' [f'|e|]]|] eqn:Hp; [|intros [= <-]; cbn; lia..|done].
    intros [= <-]. cbn -[Nat.mul]. destruct (ok_futures _ _ _ Hw i f Hi) as (block & _ & Hf).
    pose proof (moves_weight _ _ _ _ _ _ (poll_moves _ _ _ _ _ Hp) Hf).
    pose proof (sum_list_with_insert weight (futures w) i f f' Hi). lia.
  - unfold receive. destruct (receiver_alive _); [|done].
    destruct (channel (tx_submitter w)) as [|[hash [n|]] rest] eqn:Hc; [done|..|]; intros [= <-];
      cbn -[Nat.mul]; rewrite Hpan; lia.
Qed.

(** *** No deadlock *)

Definition all_answered (w : AttestationClient) : Prop :=
  stream w = [] /\ Forall (fun f => exists hash, f = Returned hash) (futures w) /\
  channel (tx_submitter w) = [].

Lemma poll_ready i f s :
  is_active f = true -> (guarding f = true \/ nonce_guard s = None) -> receiver_alive s = true ->
  channel s = [] -> is_Some (poll i f s).
Proof.
  intros Ha Hg Hr Hc. destruct f as [b|n tx k at_|]; [by eexists| |done].
  destruct at_; cbn [poll poll_submission]; rewrite ?Hr, ?Hc; cbn in Hg |- *;
    try (destruct Hg as [|Hg]; [done|rewrite Hg]); try (by eexists).
  - by destruct (from_url _ _); eexists.
  - by destruct (account_nonce _); eexists.
Qed.

Lemma poll_future_ready i w f :
  futures w !! i = Some f -> is_Some (poll i f (tx_submitter w)) -> is_Some (poll_future i w).
Proof.
  intros Hi [[s o] Hp]. unfold poll_future. rewrite Hi, Hp. by destruct o; eexists.
Qed.

Lemma client_progress n0 blocks w :
  client_ok n0 blocks w -> panicked w = false ->
  (exists a, is_Some (act a w)) \/ all_answered w.
Proof.
  intros Hw Hp. destruct (ok_channel _ _ _ Hw) as [Hr Hsome].
  destruct (channel (tx_submitter w)) as [|[hash u] rest] eqn:Hc.
  2:{ left. exists Receive. unfold act, receive. rewrite Hp, Hr, Hc. by destruct u; eexists. }
  destruct (nonce_guard (tx_submitter w)) as [i|] eqn:Hg.
  { left. exists (Poll i). unfold act. rewrite Hp. apply (ok_guard _ _ _ Hw) in Hg as (f & Hi & Hf).
    apply (poll_future_ready i w f Hi), poll_ready; [by destruct f|by left|done|done]. }
  destruct (filter (fun f => is_active f = true) (futures w)) as [|f l] eqn:Hact.
  - destruct (stream w) as [|b rest] eqn:Hs.
    + right. split_and!; [done| |done]. apply Forall_forall. intros f Hf.
      destruct (is_active f) eqn:Hf'; [|by destruct f; eauto].
      destruct (not_elem_of_nil f). rewrite <- Hact. by apply list_elem_of_filter.
    + left. exists TakeBlock. unfold act, take_block. rewrite Hp, Hs.
      rewrite (list_filter_iff _ (fun f => is_active f = true)) by (intros; apply Is_true_true).
      rewrite Hact. cbn. by destruct block_process_concurrency; eexists.
  - assert (f ∈ futures w /\ is_active f = true) as [[i Hi]%list_elem_of_lookup Hf].
    { assert (f ∈ filter (fun f => is_active f = true) (futures w)) as Hin by (rewrite Hact; left).
      by apply list_elem_of_filter in Hin as []. }
    left. exists (Poll i). unfold act. rewrite Hp.
    apply (poll_future_ready i w f Hi), poll_ready; [done|by right|done|done].
Qed.

(** C16: Every run of the client is finite, however the futures are interleaved and
    whatever the chain answers: for every block there are at most 22 actions.  A run that
    cannot be continued has not stopped in a deadlock: unless a future panicked, every
    block's future has returned and every accepted transaction is followed. *)
Theorem every_block_answered api blocks w l w' :
  attestation_client_new api blocks = Ok w -> client_run w l w' ->
  (length l <= 22 * length blocks + 1)%nat /\
  ((forall a, act a w' = None) -> panicked w' = true \/
    length (futures w') = length blocks /\ all_answered w').
Proof.
  intros Hnew Hrun. pose proof (reachable_ok _ _ _ _ _ Hnew Hrun) as Hok. split.
  - assert (client_ok (nonce (tx_submitter w)) blocks w) as Hw by exact (reachable_ok _ _ _ _ _ Hnew (run_done w)).
    assert (work_left w <= 22 * length blocks + 1)%nat as Hb.
    { destruct (new_client _ _ _ Hnew) as (c & n & ->). cbn -[Nat.mul]. lia. }
    enough (length l + work_left w' <= work_left w)%nat by lia. clear Hok Hb Hnew.
    generalize dependent (nonce (tx_submitter w)). intros n0 Hw.
    induction Hrun as [w|a l w w1 w2 Ha Hrun IH|c l w w1 Hrun IH]; [done| |].
    + cbn [length]. pose proof (act_work _ _ _ _ _ Hw Ha). specialize (IH (client_ok_act _ _ _ _ _ Hw Ha)). lia.
    + by apply IH, client_ok_chain.
  - intros Hstuck. destruct (panicked w') eqn:Hp; [by left|right].
    destruct (client_progress _ _ _ Hok Hp) as [[a [v Ha]]|Hall]; [by rewrite Hstuck in Ha|].
    split; [|done]. pose proof (ok_stream _ _ _ Hok) as Hs. rewrite (proj1 Hall) in Hs.
    apply (f_equal length) in Hs. rewrite length_drop in Hs. cbn in Hs.
    enough (length (futures w') <= length blocks)%nat by lia.
    destruct (futures w') as [|f fs] eqn:Hf; [cbn; lia|].
    destruct (lookup_lt_is_Some_2 (futures w') (length fs)) as [g Hg]; [rewrite Hf; cbn; lia|].
    destruct (ok_futures _ _ _ Hok _ _ Hg) as (b & Hb%lookup_lt_Some & _). cbn. lia.
Qed.

(** ** What is sent *)

(** The shape of what a future has sent. *)
Lemma future_sends i block f s :
  future_ok i block f s ->
  sends i (nonce_log s) = [] \/
  exists n tx k accepted, block_tx block n tx /\
    sends i (nonce_log s) = refused k tx ++ (if accepted : bool then [(tx, true)] else []) /\
    (k + (if accepted then 1 else 0) <= 4)%nat /\
    (forall hash, f = Returned hash -> (is_Some hash <-> accepted = true)).
Proof.
  destruct f as [b|n tx k at_|[hash|]]; cbn [future_ok returned_ok].
  - intros [_ ->]. by left.
  - intros [Ht Ha]. right. exists n, tx.
    destruct at_; [exists k, false|exists k, false|exists (S k), false|exists (S k), false|exists (S k), false
      |exists (S k), false|exists (S k), false|exists k, true]; cbn [await_ok] in Ha; destruct_and?;
      rewrite ?app_nil_r; (split_and!; [done|done|lia|by intros ? [=]]).
  - intros (n & tx & k & Ht & Hk & ->). right. exists n, tx, k, true.
    split_and!; [done|done|lia|]. intros h [= <-]. split; [done|by eexists].
  - intros [[_ ->]|(n & tx & k & Ht & Hk & ->)]; [by left|right]. exists n, tx, k, false. rewrite app_nil_r.
    split_and!; [done|done|lia|]. intros h [= <-]. by split; [intros []|].
Qed.


(** ** A future that runs alone *)

Definition polled_alone (i : nat) (x y : BlockFuture * Submitter) : Prop :=
  poll i x.1 x.2 = Some (y.2, Ok y.1).

(** The state of the translation layer's submitter that the shared state is. *)
Definition transactions (log : list NonceEvent) : list (Payload * Z * bool) :=
  omap (fun e => match e with
                 | SentTx _ tx n accepted => Some (tx, n, accepted)
                 | NonceRefreshed _ => None
                 end) log.
Definition service_of (s : Submitter) : Service :=
  mkService (client s) (Some (nonce s)) None (transactions (nonce_log s)) (channel s).

Lemma service_of_sent i tx n accepted s :
  service_of (record_sent i tx n accepted s) =
  (if accepted then set_nonce Mainnet ((n + 1) mod 2 ^ 64) else id) (log_sent (tx, n, accepted) (service_of s)).
Proof. unfold service_of, transactions. destruct accepted; cbn; by rewrite omap_app. Qed.
Lemma service_of_store v s : service_of (store_nonce v s) = set_nonce Mainnet v (service_of s).
Proof. unfold service_of, transactions. cbn. by rewrite omap_app, app_nil_r. Qed.

Section alone.
Context `{!ChainClientLaws}.

Lemma alone_step i f s f' s' y :
  poll i f s = Some (s', Ok f') -> rtc (polled_alone i) (f', s') y -> rtc (polled_alone i) (f, s) y.
Proof. intros Hp. by apply rtc_l. Qed.

(** The nonce that is fetched after a reconnection. *)
Lemma fetch_alone i n tx k s t' o :
  nonce_guard s = None ->
  (let* refreshed_nonce := fetch_initial_nonce in mmodify (set_nonce Mainnet refreshed_nonce)) (service_of s) = (t', o) ->
  exists s', t' = service_of s' /\ nonce_guard s' = None /\ channel s' = channel s /\
    receiver_alive s' = receiver_alive s /\
    match o with
    | Ok _ => rtc (polled_alone i) (Submitting n tx k NonceFetch, s) (Submitting n tx (S k) NonceLock, s')
    | Err _ => rtc (polled_alone i) (Submitting n tx k NonceFetch, s) (Returned None, s')
    | Panic => False
    end.
Proof.
  intros Hg. unfold fetch_initial_nonce, mmap_err, mchain, mbind. cbn [chain_state service_of].
  pose proof (account_nonce_returns (client s)) as Hn.
  destruct (account_nonce (client s)) as [c' [m|e'|]] eqn:Ha; [..|done]; intros [= <- <-].
  - exists (store_nonce (default 0 m) (set_client c' s)).
    split_and!; [exact (eq_sym (service_of_store _ (set_client c' s)))|done..|].
    eapply alone_step; [cbn [poll poll_submission]; by rewrite Ha|].
    eapply alone_step; [|apply rtc_refl]. cbn. by rewrite Hg.
  - exists (set_client c' s). split_and!; [done..|].
    eapply alone_step; [|apply rtc_refl]. cbn [poll poll_submission]. by rewrite Ha.
Qed.

(** What is done about an error, by the submitter and by the future. *)
Lemma recover_alone i n tx k v s c e t' o :
  (k < 3)%nat -> nonce_guard s = Some i ->
  sign_and_submit tx v (Some (n, 32)) (client s) = (c, Err e) ->
  recover Mainnet rpc_url (client_error_text e) (service_of (record_sent i tx v false (set_client c s))) = (t', o) ->
  exists s', t' = service_of s' /\ nonce_guard s' = None /\ channel s' = channel s /\
    receiver_alive s' = receiver_alive s /\
    match o with
    | Ok _ => rtc (polled_alone i) (Submitting n tx k (Submission v), s) (Submitting n tx (S k) NonceLock, s')
    | Err _ => rtc (polled_alone i) (Submitting n tx k (Submission v), s) (Returned None, s')
    | Panic => False
    end.
Proof.
  intros Hk Hg Hsub. set (s1 := record_sent i tx v false (set_client c s)).
  assert (forall s2 f2 y, submission_answered i n tx k v (c, Err e) s = (s2, Ok f2) ->
    rtc (polled_alone i) (f2, s2) y -> rtc (polled_alone i) (Submitting n tx k (Submission v), s) y) as Hfirst.
  { intros s2 f2 y Ha. apply alone_step. cbn [poll poll_submission]. by rewrite Hsub, Ha. }
  unfold submission_answered in Hfirst. rewrite (proj2 (Nat.ltb_lt k MAX_RETRIES) Hk) in Hfirst. fold s1 in Hfirst.
  unfold recover. destruct (is_stale_nonce_error _).
  - unfold fetch_initial_nonce, mmap_err, mchain, mbind. cbn [chain_state service_of].
    pose proof (account_nonce_returns (client s1)) as Hn.
    destruct (account_nonce (client s1)) as [c' [m|e'|]] eqn:Ha; [..|done]; intros [= <- <-].
    + exists (unlock (store_nonce (default 0 m) (set_client c' s1))).
      split_and!; [exact (eq_sym (service_of_store _ (set_client c' s1)))|done..|].
      eapply Hfirst; [done|]. eapply alone_step; [|apply rtc_refl].
      cbn [poll poll_submission]. by rewrite Ha.
    + exists (unlock (set_client c' s1)). split_and!; [done..|].
      eapply Hfirst; [done|]. eapply alone_step; [|apply rtc_refl]. cbn [poll poll_submission]. by rewrite Ha.
  - destruct (is_background_disconnect _).
    + unfold reconnect_and_refresh_nonce, try_reconnect. unfold mbind at 1, mmap_err at 1, mchain at 1.
      cbn [chain_state service_of]. pose proof (from_url_returns rpc_url (client s1)) as Hu.
      destruct (from_url rpc_url (client s1)) as [c' [[]|e'|]] eqn:Ha; [|intros [= <- <-]|done].
      * intros Hf. destruct (fetch_alone i n tx k (set_client c' (unlock s1)) t' o eq_refl Hf)
          as (s' & Ht & Hg' & Hc & Hr & Ho). exists s'. split_and!; [done..|].
        assert (poll i (Submitting n tx k Reconnection) (unlock s1) =
          Some (set_client c' (unlock s1), Ok (Submitting n tx k NonceFetch))) as Hp.
        { cbn [poll poll_submission]. change (client (unlock s1)) with (client s1). by rewrite Ha. }
        destruct o; [..|done]; (eapply Hfirst; [done|]; by eapply alone_step).
      * exists (unlock (set_client c' s1)). split_and!; [done..|]. eapply Hfirst; [done|].
        eapply alone_step; [|apply rtc_refl]. cbn [poll poll_submission]. change (client (unlock s1)) with (client s1). by rewrite Ha.
    + intros [= <- <-]. exists (unlock s1). split_and!; [done..|]. eapply Hfirst; [done|].
      by eapply alone_step; [|apply rtc_refl].
Qed.

Lemma lock_alone i n tx k s y :
  nonce_guard s = None ->
  rtc (polled_alone i) (Submitting n tx k (Submission (nonce s)), lock i s) y ->
  rtc (polled_alone i) (Submitting n tx k NonceLock, s) y.
Proof. intros Hg. apply alone_step. cbn. by rewrite Hg. Qed.

Lemma accepted_alone i n tx k s c hash :
  nonce_guard s = None -> receiver_alive s = true -> (length (channel s) < CHANNEL_CAPACITY)%nat ->
  sign_and_submit tx (nonce s) (Some (n, 32)) (client s) = (c, Ok hash) ->
  exists s', push_update (hash, Some n) (set_nonce Mainnet ((nonce s + 1) mod 2 ^ 64)
      (log_sent (tx, nonce s, true) (set_chain_state c (service_of s)))) = service_of s' /\
    nonce_guard s' = None /\
    rtc (polled_alone i) (Submitting n tx k NonceLock, s) (Returned (Some hash), s').
Proof.
  intros Hg Ha Hc Hs. set (s1 := unlock (record_sent i tx (nonce s) true (set_client c (lock i s)))).
  exists (set_channel (channel s1 ++ [(hash, Some n)]) s1).
  assert (service_of s1 = set_nonce Mainnet ((nonce s + 1) mod 2 ^ 64)
    (log_sent (tx, nonce s, true) (set_chain_state c (service_of s)))) as Hs1
    by exact (service_of_sent i tx (nonce s) true (set_client c s)).
  split_and!; [by rewrite <- Hs1|done|]. apply lock_alone; [done|].
  eapply alone_step; [cbn [poll poll_submission]; change (client (lock i s)) with (client s); by rewrite Hs|].
  fold s1. eapply alone_step; [|apply rtc_refl]. cbn [poll poll_submission].
  change (receiver_alive s1) with (receiver_alive s). change (channel s1) with (channel s).
  by rewrite Ha, (proj2 (Nat.ltb_lt _ _) Hc).
Qed.

Lemma attempts_alone i n tx k d s t' o :
  (k + d = 3)%nat -> nonce_guard s = None -> receiver_alive s = true ->
  (length (channel s) < CHANNEL_CAPACITY)%nat ->
  submit_attempts Mainnet rpc_url tx (Some (n, 32)) (seq k (S d)) (service_of s) = (t', o) ->
  exists s', t' = service_of s' /\ nonce_guard s' = None /\ o <> Panic /\
    rtc (polled_alone i) (Submitting n tx k NonceLock, s) (Returned (to_option o), s').
Proof.
  revert k s. induction d as [|d IH]; intros k s Hk Hg Ha Hc; cbn [seq];
    rewrite (submit_attempts_cons _ _ _ _ _ _ _ (nonce s)) by done; cbv zeta; cbn [chain_state service_of];
    pose proof (sign_and_submit_returns tx (nonce s) (Some (n, 32)) (client s)) as Hp;
    destruct (sign_and_submit tx (nonce s) (Some (n, 32)) (client s)) as [c [hash|e|]] eqn:Hs; try done;
    cbn [fst snd] in *.
  1,3: intros [= <- <-]; destruct (accepted_alone i n tx k s c hash Hg Ha Hc Hs) as (s' & Ht & Hg' & Hr);
    exists s'; by split_and!.
  all: set (s1 := record_sent i tx (nonce s) false (set_client c (lock i s)));
    assert (service_of s1 = log_sent (tx, nonce s, false) (set_chain_state c (service_of s))) as Hs1
      by exact (service_of_sent i tx (nonce s) false (set_client c s)); rewrite <- Hs1.
  - rewrite (proj2 (Nat.ltb_ge k MAX_RETRIES)) by (unfold MAX_RETRIES; lia). intros [= <- <-].
    exists (unlock s1). split_and!; [done..|]. apply lock_alone; [done|].
    eapply alone_step; [|apply rtc_refl]. cbn [poll poll_submission].
    change (client (lock i s)) with (client s). rewrite Hs. cbn [submission_answered].
    by rewrite (proj2 (Nat.ltb_ge k MAX_RETRIES)) by (unfold MAX_RETRIES; lia).
  - rewrite (proj2 (Nat.ltb_lt k MAX_RETRIES)) by (unfold MAX_RETRIES; lia). unfold mbind.
    destruct (recover Mainnet rpc_url (client_error_text e) (service_of s1)) as [t1 o1] eqn:Hrec.
    destruct (recover_alone i n tx k (nonce s) (lock i s) c e t1 o1 ltac:(lia) eq_refl Hs Hrec)
      as (s2 & -> & Hg2 & Hc2 & Ha2 & Ho1).
    destruct o1 as [[]|e1|]; [|intros [= <- <-]; exists s2; split_and!; [done..|by apply lock_alone]|done].
    intros Hrest. destruct (IH (S k) s2 ltac:(lia) Hg2 ltac:(by rewrite Ha2) ltac:(by rewrite Hc2) Hrest)
      as (s3 & -> & Hg3 & Hp3 & Hr3).
    exists s3. split_and!; [done..|]. apply lock_alone; [done|]. by etransitivity.
Qed.

(** C19: A future that is polled alone does what the submitter's call does: it returns the
    hash exactly if the call does, with the same transactions sent, the same nonce, the
    same state of the chain and the same update, and it leaves the lock free. *)
Theorem submission_alone i n tx s t' o :
  nonce_guard s = None -> receiver_alive s = true -> (length (channel s) < CHANNEL_CAPACITY)%nat ->
  submit_tx_get_hash_with_mortality Mainnet rpc_url tx n 32 (service_of s) = (t', o) ->
  exists s', t' = service_of s' /\ nonce_guard s' = None /\ o <> Panic /\
    rtc (polled_alone i) (Submitting n tx 0 NonceLock, s) (Returned (to_option o), s').
Proof. intros Hg Ha Hc. by apply (attempts_alone i n tx 0 3). Qed.
End alone.
End client.

(** ** The progress logger and the restarts *)

(** What the task of a transaction waits for: a status, an error or the end of the
    stream, or thirty seconds without any. *)
Inductive Progress :=
| ProgressStatus (status : TxStatus)
| ProgressError
| ProgressEnded
| ProgressTimeout.

(** The loop of a task: [None] while it goes on, otherwise whether it has triggered a
    restart. *)
Fixpoint follow_progress (events : list Progress) : option bool :=
  match events with
  | [] => None
  | ProgressStatus (InFinalizedBlock _) :: _ => Some false
  | ProgressStatus (Dropped _) :: _ | ProgressStatus (Invalid _) :: _ => Some true
  | ProgressStatus _ :: events => follow_progress events
  | ProgressError :: _ => Some false
  | ProgressEnded :: _ | ProgressTimeout :: _ => Some true
  end.

(** The loop of [main]: a client is constructed, or runs, or has ended, or the process
    has ended.  The trigger is a watch channel: what was sent since it was last seen counts
    once. *)
Inductive Phase := Constructing | Waiting (client_running : bool) | Exited.
Record Supervisor := mkSupervisor { phase : Phase; unseen_trigger : bool }.
Inductive SupervisorEvent :=
| Constructed (ok : bool)
| ClientEnded
| RestartTriggered
| TriggerSeen.

Definition supervise (v : Supervisor) (e : SupervisorEvent) : Supervisor :=
  match phase v, e with
  | Constructing, Constructed true => mkSupervisor (Waiting true) (unseen_trigger v)
  | Constructing, Constructed false => mkSupervisor Exited (unseen_trigger v)
  | Waiting _, ClientEnded => mkSupervisor (Waiting false) (unseen_trigger v)
  | Waiting _, TriggerSeen => if unseen_trigger v then mkSupervisor Constructing false else v
  | _, RestartTriggered => mkSupervisor (phase v) true
  | _, _ => v
  end.

Definition undecided (p : Progress) : bool :=
  match p with
  | ProgressStatus Validated | ProgressStatus (Broadcasted _) | ProgressStatus (InBestBlock _)
  | ProgressStatus (TxError _) | ProgressStatus NoLongerInBestBlock => true
  | _ => false
  end.
Definition calls_for_restart (p : Progress) : bool :=
  match p with
  | ProgressStatus (Dropped _) | ProgressStatus (Invalid _) | ProgressEnded | ProgressTimeout => true
  | _ => false
  end.

(** A restart is triggered exactly if the first event that decides about the
    transaction is that it was dropped or invalid, or that nothing more is heard of it. *)
Theorem restart_triggered_spec events :
  follow_progress events = Some true <->
  exists l1 p l2, events = l1 ++ p :: l2 /\ Forall undecided l1 /\ calls_for_restart p.
Proof.
  split.
  - induction events as [|p events IH]; [done|].
    assert (undecided p = true /\ follow_progress events = Some true \/ calls_for_restart p = true ->
      exists l1 q l2, p :: events = l1 ++ q :: l2 /\ Forall undecided l1 /\ calls_for_restart q) as Hp.
    { intros [[Hu Hf]|Hc]; [|exists [], p, events; by rewrite Hc].
      destruct (IH Hf) as (l1 & q & l2 & -> & Hl & Hq). exists (p :: l1), q, l2.
      split_and!; [done|constructor; [by rewrite Hu|done]|done]. }
    destruct p as [[]| | |]; cbn [follow_progress]; intros Hf; try done; apply Hp; by auto.
  - intros (l1 & p & l2 & -> & Hl & Hp). induction Hl as [|q l1 Hq _ IH].
    + by destruct p as [[]| | |].
    + by destruct q as [[]| | |].
Qed.

(** A client that has ended, because its keys could not be read or its
    subscription was closed, is not replaced until some transaction triggers a restart. *)
Theorem ended_client_waits events :
  Forall (fun e => e <> RestartTriggered) events ->
  foldl supervise (mkSupervisor (Waiting false) false) events = mkSupervisor (Waiting false) false.
Proof. induction 1 as [|e events He _ IH]; [done|]. by destruct e. Qed.

(** ** Concrete runs *)

Module WatcherClientExamples.
#[local] Existing Instance sample_config.
#[local] Existing Instance toy_crypto.
#[local] Existing Instance toy_crypto_laws.
#[local] Existing Instance TreeExamples.ident_codec.
#[local] Existing Instance TreeExamples.data_codec.
#[local] Existing Instance TreeExamples.pair_codec.
#[local] Existing Instance TreeExamples.blake2_128_concat.
#[local] Existing Instance TreeExamples.list_tree.
#[local] Existing Instance RpcExamples.account_codec.
#[local] Existing Instance RpcExamples.prefixes.
#[local] Existing Instance WatcherExamples.toy_key_bytes.
#[local] Existing Instance WatcherExamples.toy_key_bytes_laws.
#[local] Existing Instance WatcherExamples.backend.
(** Only the start of the root of an attestation is encoded. *)
#[local] Instance attestation_codec : Codec (Attestation (@Hash sample_config)) := {|
  encode_scale a := take 4 (att_state_root a);
  decode_scale _ := None;
|}.

(** A node whose answers to submissions are given: an error text, or acceptance; the
    nonce of the account is 5. *)
#[local] Instance scripted_client : ChainClient := {|
  ChainState := list (option bytes);
  ClientError := bytes;
  client_error_text e := e;
  other_error e := e;
  sign_and_submit _ n _ c := (tail c, match head c with Some (Some e) => Err e | _ => Ok [byte_of n] end);
  account_nonce c := (c, Ok (Some 5));
  from_url _ c := (c, Ok tt);
  storage_at_latest c := (c, Err (bs "no storage"));
  block_extrinsics _ c := (c, Err (bs "no block"));
  error_variant _ _ := None;
|}.
#[local] Instance scripted_client_laws : ChainClientLaws.
Proof. split; intros; cbn; [by destruct (head c) as [[]|]|done|done]. Qed.

Definition script : ChainState := [Some (bs "background task closed"); None; Some (bs "Priority is too low"); None].
Definition blocks : list (outcome SubxtError Header) :=
  [Ok WatcherExamples.header_9; Ok (mkHeader _ 10 ([] : bytes)); Err (tt : SubxtError)].
Definition watcher_0 : AttestationClient :=
  match attestation_client_new script blocks with
  | Ok w => w
  | _ => mkAttestationClient [] [] (mkSubmitter script 0 None [] true []) [] false
  end.
Definition key : @SigningKey toy_crypto := WatcherExamples.watcher_key.

Definition nonces (w : AttestationClient) : list (nat * Z * bool) :=
  omap (fun e => match e with SentTx i _ n b => Some (i, n, b) | _ => None end) (nonce_log (tx_submitter w)).

(** The first future reconnects and fetches the nonce; before it stores it, the second
    has a transaction accepted with this nonce; the first then stores it and sends it again. *)
Definition interleaving : list Action :=
  [TakeBlock; TakeBlock; Poll 0; Poll 1; Poll 0; Poll 0; Poll 0; Poll 0; Poll 1; Poll 1; Poll 0; Poll 0; Poll 0].
Example refresh_rewinds_nonce :
  nonces <$> execute_actions key [] 2 interleaving watcher_0 = Some [(0%nat, 5, false); (1%nat, 5, true); (0%nat, 5, false)].
Proof. vm_compute. reflexivity. Qed.

Lemma execute_run actions w w' :
  execute_actions key [] 2 actions w = Some w' -> client_run key [] 2 w actions w'.
Proof.
  revert w. induction actions as [|a actions IH]; intros w; cbn; [intros [= <-]; constructor|].
  destruct (act key [] 2 a w) as [w1|] eqn:Ha; [|done]. cbn. intros Hr. econstructor; [done|]. by apply IH.
Qed.

(** The whole run, in which every block is answered. *)
Definition whole_run : list Action :=
  interleaving ++ [Poll 0; Poll 1; Receive; TakeBlock; Poll 2; Poll 0; Poll 0; Poll 0; Receive].
Definition watcher_end : AttestationClient :=
  default watcher_0 (execute_actions key [] 2 whole_run watcher_0).
Lemma whole_run_done : client_run key [] 2 watcher_0 whole_run watcher_end.
Proof.
  apply execute_run. unfold watcher_end.
  assert (match execute_actions key [] 2 whole_run watcher_0 with Some _ => true | None => false end = true) as Hs
    by (vm_compute; reflexivity).
  by destruct (execute_actions key [] 2 whole_run watcher_0).
Qed.

Lemma every_block_answered_witness :
  (length whole_run <= 67)%nat /\ ((forall a, act key [] 2 a watcher_end = None) -> panicked watcher_end = true \/
    length (futures watcher_end) = 3%nat /\ all_answered watcher_end).
Proof.
  apply (every_block_answered key [] 2 script blocks watcher_0 whole_run watcher_end); [done|].
  exact whole_run_done.
Defined.


Definition tx_of (i : nat) : Payload :=
  default (TablesTx ClearTables) (fst <$> head (sends i (nonce_log (tx_submitter watcher_end)))).

Lemma nonces_consecutive_witness :
  5 mod 2 ^ 64 = (5 + used_up [SentTx 0 (tx_of 0) 5 false]) mod 2 ^ 64.
Proof.
  apply (nonces_consecutive key [] 2 script blocks watcher_0 whole_run watcher_end []
    0 (tx_of 0) 5 false [] 1 (tx_of 1) 5 true (drop 2 (nonce_log (tx_submitter watcher_end)))).
  - done.
  - exact whole_run_done.
  - vm_compute. reflexivity.
  - done.
Defined.

Lemma submission_alone_witness :
  exists s', fst (submit_tx_get_hash_with_mortality Mainnet [] (tx_of 0) 9 32 (service_of (tx_submitter watcher_0))) =
    service_of s' /\ nonce_guard s' = None.
Proof.
  destruct (submission_alone key [] 0 9 (tx_of 0) (tx_submitter watcher_0)
    (fst (submit_tx_get_hash_with_mortality Mainnet [] (tx_of 0) 9 32 (service_of (tx_submitter watcher_0))))
    (snd (submit_tx_get_hash_with_mortality Mainnet [] (tx_of 0) 9 32 (service_of (tx_submitter watcher_0)))))
    as (s' & Hs & Hg & _).
  - done.
  - done.
  - apply Nat.ltb_lt. vm_compute. reflexivity.
  - by destruct (submit_tx_get_hash_with_mortality _ _ _ _ _ _).
  - by exists s'.
Defined.

Lemma ended_client_waits_witness :
  foldl supervise (mkSupervisor (Waiting false) false) [TriggerSeen; ClientEnded] = mkSupervisor (Waiting false) false.
Proof. apply (ended_client_waits [TriggerSeen; ClientEnded]). by repeat constructor. Defined.

Example all_answered_at_end :
  (nonces watcher_end, (fun f => match f with Returned (Some _) => true | _ => false end) <$> futures watcher_end,
    (snd <$> followed watcher_end)) =
  ([(0%nat, 5, false); (1%nat, 5, true); (0%nat, 5, false); (0%nat, 5, true)], [true; true; false], [10; 9]).
Proof. vm_compute. reflexivity. Qed.
End WatcherClientExamples.
