(* ===== verification/WatcherCommands.v ===== *)
(** * Commands of the watcher

    The two commands of watcher/src/main.rs beside [run]: [register], which reads
    two keys and prints a registration, and [verify], which shows in the terminal
    whether the attestations of a block are valid.  The terminal is state: its
    modes, the lines that were drawn last, the results of its operations and the
    keys that are still to be pressed.  Theorems: the registration that is printed
    for the keys in two files is accepted by the keystore; what [verify] shows is
    the verdict of the verification; and [verify] gives the terminal back in its
    normal mode unless the block has an empty list of attestations. *)

From stdpp Require Import base tactics option gmap strings numbers list.
From Stdlib Require Import ZArith Lia.
From Stdlib Require Import Strings.Byte.
From S2P Require Import Prelude Bytes Text Types CommitmentScheme CommitmentMap Runtime Sample.
From S2P Require Import PalletKeystore PalletAttestation AttestationCore KeyFiles Watcher.

(** ** register *)

(** What the command prints. *)
Record Registration := mkRegistration {
  printed_account : bytes;
  printed_registration : RegisterExternalAddress;
}.

Inductive RegisterError :=
| RegisterKeyError (source : WatcherKeyError)
| RegisterWatcherError (source : WatcherError).

Definition register_command `{EthCrypto} `{!KeyBytes} `{Sr25519} (files : Files)
    (eth_key_path substrate_key_path : bytes) : outcome RegisterError Registration :=
  let? eth_signing_key := map_err RegisterKeyError (watcher_load_ethereum_key files eth_key_path) in
  let? substrate_key := map_err RegisterKeyError
    (watcher_load_substrate_key files substrate_key_path) in
  let account_id := to_account_id substrate_key in
  let? registration := map_err RegisterWatcherError (register eth_signing_key account_id) in
  Ok (mkRegistration account_id registration).

(** ** verify *)

Inductive KeyEvent := KeyChar (c : Z) | OtherEvent.

Record Screen := mkScreen {
  raw_mode : bool;
  alternate_screen : bool;
  (** The lines of the last drawing that worked. *)
  drawn : list bytes;
  (** [progress]. *)
  progress : list bytes;
  (** Whether the next operations of the terminal work; the ones after these do. *)
  io_results : list bool;
  (** What is read next: events, or errors. *)
  events : list (option KeyEvent);
}.

Definition set_raw_mode b s := mkScreen b (alternate_screen s) (drawn s) (progress s) (io_results s) (events s).
Definition set_alternate b s := mkScreen (raw_mode s) b (drawn s) (progress s) (io_results s) (events s).
Definition set_drawn l s := mkScreen (raw_mode s) (alternate_screen s) l (progress s) (io_results s) (events s).
Definition set_progress l s := mkScreen (raw_mode s) (alternate_screen s) (drawn s) l (io_results s) (events s).
Definition set_io l s := mkScreen (raw_mode s) (alternate_screen s) (drawn s) (progress s) l (events s).
Definition set_events l s := mkScreen (raw_mode s) (alternate_screen s) (drawn s) (progress s) (io_results s) l.

Section verify.
Context `{Config} `{!SubxtBackend} `{EthCrypto}.

Inductive VerifyError :=
| VerifyIo
| VerifySubxt (source : SubxtError)
| VerifyWatcher (source : WatcherError).

(** How the command ends: it returns, or it waits for a key. *)
Inductive verify_status := Returned | Reading.

(** [{:?}] of an error. *)
Context (debug_error : VerifyError -> bytes).

Notation V := (M Screen VerifyError).

Definition terminal_op (f : Screen -> Screen) : V unit := fun s =>
  match io_results s with
  | [] => (f s, Ok tt)
  | true :: r => (f (set_io r s), Ok tt)
  | false :: r => (set_io r s, Err VerifyIo)
  end.

Definition push (line : bytes) : V unit := mmodify (fun s => set_progress (progress s ++ [line]) s).

(** The result of [draw] is not looked at. *)
Definition update_ui : V unit :=
  let* _ := mtry (terminal_op (fun s => set_drawn (progress s) s)) in mret tt.

Definition cleanup_terminal : V unit :=
  terminal_op (set_raw_mode false) ;;; terminal_op (set_alternate false) ;;; terminal_op id.

(** The loop of [verify_attestations] that shows its progress. *)
Fixpoint verify_shown_from (total : Z) (i : Z) (first_state_root : option bytes)
    (attestations : list (Attestation Hash)) : V unit :=
  match attestations with
  | [] => mret tt
  | EthereumAttestation signature proposed_pub_key _ state_root block_number _ :: attestations =>
      let msg := create_message state_root block_number in
      push (bs "Verifying attestation " ++ dec_bytes (i + 1) ++ bs "/" ++ dec_bytes total ++ bs "...") ;;;
      update_ui ;;;
      mlift (map_err (fun e => VerifyWatcher (SxtCoreAttestationError e))
        (verify_eth_signature msg signature proposed_pub_key)) ;;;
      (match first_state_root with
       | Some first_root => mensure (bool_decide (first_root = state_root)) (VerifyWatcher StateRootMismatch)
       | None => mret tt
       end) ;;;
      push (bs "Attestation " ++ dec_bytes (i + 1) ++ bs ": ✅ Verified successfully.") ;;;
      update_ui ;;;
      verify_shown_from total (i + 1)
        (match first_state_root with Some r => Some r | None => Some state_root end) attestations
  end.
Definition verify_shown (attestations : list (Attestation Hash)) : V unit :=
  verify_shown_from (Z.of_nat (length attestations)) 0 None attestations.

(** [while] no [q] is read. *)
Fixpoint read_keys (keys : list (option KeyEvent)) : V verify_status :=
  match keys with
  | [] => mmodify (set_events []) ;;; mret Reading
  | None :: keys => mmodify (set_events keys) ;;; mfail VerifyIo
  | Some (KeyChar c) :: keys =>
      if c =? 113 then mmodify (set_events keys) ;;; mret Returned else read_keys keys
  | Some OtherEvent :: keys => read_keys keys
  end.

Definition no_attestations (block_number : Z) : bytes :=
  bs "No attestations found for block " ++ dec_bytes block_number.
Definition verified_line (block_number : Z) : bytes :=
  bs "Successfully verified all attestations for block " ++ dec_bytes block_number.

(** The end of the command, after the result was shown. *)
Definition verify_end : V verify_status :=
  push (bs "Press q to quit") ;;;
  update_ui ;;;
  let* keys := mget events in
  let* status := read_keys keys in
  match status with
  | Returned => cleanup_terminal ;;; mret Returned
  | Reading => mret Reading
  end.

(** What the command does with the attestations of the block. *)
Definition show_attestations (block_number : Z) (attestations : option (list (Attestation Hash)))
    : V verify_status :=
  match attestations with
  | None => push (no_attestations block_number) ;;; update_ui ;;; verify_end
  | Some [] => push (no_attestations block_number) ;;; update_ui ;;; mret Returned
  | Some attestations =>
      push (bs "Found " ++ dec_bytes (Z.of_nat (length attestations)) ++ bs " attestations") ;;;
      update_ui ;;;
      push (bs "Verifying attestations...") ;;;
      update_ui ;;;
      let* r := mtry (verify_shown attestations) in
      (match r with
       | inr err => push (bs "Error: " ++ debug_error err) ;;; update_ui
       | inl _ => push (verified_line block_number)
       end) ;;;
      verify_end
  end.

(** [connection] and [fetched] are the results of connecting to the chain and of
    reading the attestations of the block. *)
Definition verify (block_number : Z) (websocket : bytes) (connection : outcome SubxtError unit)
    (fetched : outcome SubxtError (option (list (Attestation Hash)))) : V verify_status :=
  terminal_op (set_raw_mode true) ;;;
  terminal_op (set_alternate true) ;;;
  terminal_op id ;;;
  mmodify (set_progress [bs "Connecting to the chain..."]) ;;;
  mlift (map_err VerifySubxt connection) ;;;
  push (bs "Connected to chain at " ++ websocket) ;;;
  update_ui ;;;
  push (bs "Fetching attestations for block " ++ dec_bytes block_number ++ bs "...") ;;;
  update_ui ;;;
  let* attestations := mlift (map_err VerifySubxt fetched) in
  show_attestations block_number attestations.
End verify.

(** ** Theorems *)

Section verify_theorems.
Context `{Config} `{!SubxtBackend} `{EthCrypto} (debug_error : VerifyError -> bytes).

(** What is shown, on a terminal that works. *)
Definition shown (l : list bytes) (s : Screen) : Screen := set_drawn l (set_progress l s).

Lemma show_run {A} line (k : M Screen VerifyError A) s :
  io_results s = [] -> (push line ;;; update_ui ;;; k) s = k (shown (progress s ++ [line]) s).
Proof. destruct s as [rm al dr pr io ev]. cbn [io_results]. by intros ->. Qed.

Lemma show_last_run line s :
  io_results s = [] -> (push line ;;; update_ui) s = (shown (progress s ++ [line]) s, Ok tt).
Proof. destruct s as [rm al dr pr io ev]. cbn [io_results]. by intros ->. Qed.

(** The loop that shows its progress has the outcome of the plain one and changes
    nothing but what is shown. *)
Lemma verify_shown_run total l : forall i r s,
  io_results s = [] -> drawn s = progress s ->
  exists p, verify_shown_from total i r l s =
    (shown p s, map_err VerifyWatcher (verify_attestations_from r l)).
Proof.
  induction l as [|[sg pk addr root n bh] l IH]; intros i r s Hio Hd.
  { exists (progress s). destruct s. cbn in Hd. subst. done. }
  cbn [verify_shown_from verify_attestations_from].
  rewrite show_run by done. unfold mbind at 1, mlift at 1.
  destruct (verify_eth_signature (create_message root n) sg pk) as [[]|e|]; cbn [map_err obind];
    [|by eexists..].
  destruct r as [r|].
  - case_bool_decide as Hr; [|by eexists]. unfold mbind at 1, mensure at 1. rewrite show_run by done.
    edestruct IH as [p ->]; [..|by exists p]; done.
  - unfold mbind at 1, mret at 1. rewrite show_run by done.
    edestruct IH as [p ->]; [..|by exists p]; done.
Qed.

(** The modes of the terminal after the keys were read. *)
Lemma read_keys_run l s :
  exists s' o, read_keys l s = (s', o) /\ o <> Panic /\
    s' = set_events (events s') s.
Proof.
  revert s. induction l as [|[[c|]|] l IH]; intros s; cbn.
  - eexists _, _. split; [done|]. split; [done|]. done.
  - destruct (c =? 113); [|apply IH]. eexists _, _. split; [done|]. split; [done|]. done.
  - apply IH.
  - eexists _, _. split; [done|]. split; [done|]. done.
Qed.

(** The end of the command, when the terminal works: the lines are drawn, and the
    terminal is given back when the command returns. *)
Lemma verify_end_run s p line :
  io_results s = [] -> progress s = p ++ [line] ->
  let '(s', o) := verify_end s in
  o <> Panic /\ (exists p, drawn s' = p ++ [line; bs "Press q to quit"]) /\
  (raw_mode s', alternate_screen s') =
    match o with Ok Returned => (false, false) | _ => (raw_mode s, alternate_screen s) end.
Proof.
  destruct s as [rm al dr pr io ev]. cbn [io_results progress]. intros -> ->.
  unfold verify_end. rewrite show_run by done. unfold mbind at 1, mget. unfold mbind at 1.
  match goal with |- context [read_keys ?l ?s] => destruct (read_keys_run l s) as (s' & o & -> & Ho & ->) end.
  assert (exists q, (p ++ [line]) ++ [bs "Press q to quit"] = q ++ [line; bs "Press q to quit"]) as [q Hq].
  { exists p. by rewrite <- app_assoc. }
  destruct o as [[]|e|]; cbn; rewrite ?Hq; (split; [done|]); (split; [by exists q|done]).
Qed.

(** What is shown last of a list of attestations. *)
Definition verdict (block_number : Z) (l : list (Attestation Hash)) : bytes :=
  match verify_attestations l with
  | Ok _ => verified_line block_number
  | Err e => bs "Error: " ++ debug_error (VerifyWatcher e)
  | Panic => []
  end.

Lemma verify_attestations_no_panic l : verify_attestations l <> Panic.
Proof.
  unfold verify_attestations. generalize (@None bytes).
  induction l as [|[sg pk addr root n bh] l IH]; intros r; [done|]. cbn [verify_attestations_from].
  pose proof (verify_eth_signature_no_panic (create_message root n) sg pk).
  destruct (verify_eth_signature _ _ _); [|done..]. cbn [map_err obind].
  destruct r; [case_bool_decide|]; done || apply IH.
Qed.

(** The command up to the fetched attestations. *)
Lemma verify_start_run n ws (connection : outcome SubxtError unit) fetched s :
  io_results s = [] ->
  let s1 := set_alternate true (set_raw_mode true s) in
  exists p d, verify debug_error n ws connection fetched s =
    match connection, fetched with
    | Ok _, Ok fetched => show_attestations debug_error n fetched (shown p s1)
    | Ok _, Err e | Err e, _ => (set_drawn d (set_progress p s1), Err (VerifySubxt e))
    | _, _ => (set_drawn d (set_progress p s1), Panic)
    end.
Proof.
  destruct s as [rm al dr pr io ev]. cbn [io_results]. intros ->. unfold verify.
  do 5 unfold mbind at 1. cbn [terminal_op mmodify io_results set_raw_mode set_alternate id].
  destruct connection as [[]|e|];
    [|exists [bs "Connecting to the chain..."], dr; reflexivity..].
  cbn [map_err mlift]. rewrite !show_run by done. unfold mbind at 1.
  destruct fetched as [f|e|]; [eexists _, dr; reflexivity|eexists _, _; reflexivity..].
Qed.

Lemma show_attestations_run n fetched s :
  io_results s = [] -> drawn s = progress s ->
  let '(s', o) := show_attestations debug_error n fetched s in
  o <> Panic /\
  (exists p, drawn s' = p ++
     match fetched with
     | None => [no_attestations n; bs "Press q to quit"]
     | Some [] => [no_attestations n]
     | Some l => [verdict n l; bs "Press q to quit"]
     end) /\
  (raw_mode s', alternate_screen s') =
    match o, fetched with
    | Ok Returned, Some [] => (raw_mode s, alternate_screen s)
    | Ok Returned, _ => (false, false)
    | _, _ => (raw_mode s, alternate_screen s)
    end.
Proof.
  intros Hio Hd. destruct fetched as [[|a l]|]; cbn [show_attestations].
  - rewrite show_run by done. split_and!; [done|by exists (progress s)|done].
  - rewrite !show_run by done. unfold mbind at 1, mtry, verify_shown.
    edestruct verify_shown_run as [p ->]; [exact Hio|done|].
    pose proof (verify_attestations_no_panic (a :: l)) as Hnp. unfold verdict, verify_attestations in *.
    destruct (verify_attestations_from None (a :: l)) as [[]|e|]; [| |done]; cbn [map_err].
    + unfold mbind at 1, push at 1, mmodify.
      match goal with |- context [verify_end ?s] =>
        pose proof (verify_end_run s p (verified_line n) Hio eq_refl) as He; destruct (verify_end s) end.
      exact He.
    + unfold mbind at 1. rewrite show_last_run by exact Hio.
      match goal with |- context [verify_end ?s] =>
        pose proof (verify_end_run s p _ Hio eq_refl) as He; destruct (verify_end s) end.
      exact He.
  - rewrite show_run by done.
    match goal with |- context [verify_end ?s0] =>
      pose proof (verify_end_run s0 (progress s) _ Hio eq_refl) as He; destruct (verify_end s0) end.
    exact He.
Qed.

(** On a terminal that works, [verify] shows the verdict of the verification, and gives
    the terminal back in its normal mode exactly when it returns and the list of
    attestations was not empty: with an empty list, and with an error, raw mode and the
    alternate screen stay on. *)
Theorem verify_spec n ws (connection : outcome SubxtError unit) fetched s :
  io_results s = [] -> connection <> Panic -> fetched <> Panic ->
  let '(s', o) := verify debug_error n ws connection fetched s in
  o <> Panic /\
  (forall f, connection = Ok tt -> fetched = Ok f -> exists p, drawn s' = p ++
     match f with
     | None => [no_attestations n; bs "Press q to quit"]
     | Some [] => [no_attestations n]
     | Some l => [verdict n l; bs "Press q to quit"]
     end) /\
  (raw_mode s', alternate_screen s') =
    match o, fetched with
    | Ok Returned, Ok (Some []) => (true, true)
    | Ok Returned, _ => (false, false)
    | _, _ => (true, true)
    end.
Proof.
  intros Hio Hc Hf. destruct (verify_start_run n ws connection fetched s Hio) as (p & d & ->).
  destruct connection as [[]|e|], fetched as [f|e'|]; try done.
  match goal with |- context [show_attestations _ _ _ ?s0] =>
    pose proof (show_attestations_run n f s0 Hio eq_refl) as Hr;
    destruct (show_attestations debug_error n f s0) as [s' o] end.
  destruct Hr as (Ho & Hd & Hm). split_and!; [done|by intros ? _ [= <-]|].
  rewrite Hm. destruct o as [[]|e|], f as [[]|]; done.
Qed.
End verify_theorems.

(** ** The registration of a key *)

(** The registration that the command prints for the keys in two files is accepted by
    the keystore, and the key that is stored is the one that attestations carry. *)
Theorem register_command_accepted `{Config} `{EthCrypto} `{!EthCryptoLaws} `{!KeyBytes}
    `{!KeyBytesLaws} `{Sr25519} files eth_path sub_path k key sub who r s :
  holds_key files eth_path k -> signing_key_from_bytes k = Some key ->
  holds_key files sub_path sub -> (to_account_id <$> from_secret_key sub) = Some (encode_account who) ->
  register_command files eth_path sub_path = Ok r -> stored_key s who = None ->
  printed_account r = encode_account who /\
  snd (dispatch_keystore Root (RegisterKey who (printed_registration r)) s) = Ok tt /\
  exists stored, stored_key (fst (dispatch_keystore Root (RegisterKey who (printed_registration r)) s)) who
    = Some stored /\ pub_key stored = to_encoded_point (verifying_key key) true.
Proof.
  intros Hk Hkey Hsub Hwho Hrun Hnone. unfold register_command in Hrun.
  destruct (key_file_loads files eth_path k Hk) as (He & _).
  destruct (key_file_loads files sub_path sub Hsub) as (_ & _ & Hs & _).
  rewrite He, Hs, Hkey in Hrun. cbn in Hrun.
  destruct (from_secret_key sub) as [kp|]; [|done]. injection Hwho as Hwho. cbn in Hrun.
  rewrite Hwho in Hrun. apply obind_ok in Hrun as (reg & Hreg%map_err_ok & [= <-]).
  split; [done|]. by apply (watcher_registration_accepted key who reg s).
Qed.

(** ** Examples *)

Module WatcherCommandsExamples.
#[local] Existing Instance sample_config.
#[local] Existing Instance toy_crypto.
#[local] Existing Instance WatcherExamples.backend.

Definition blank : Screen := mkScreen false false [] [] [] [Some (KeyChar 113)].
Definition shell := verify (fun _ => bs "error") 7 (bs "ws://127.0.0.1:9944") (Ok tt).

(** With an empty list of attestations the command returns without an error and leaves
    the terminal in raw mode; with no list it waits for the key and restores it. *)
Example verify_leaves_raw_mode :
  (let '(s, o) := shell (Ok (Some [])) blank in
   is_ok o && raw_mode s && alternate_screen s) = true /\
  (let '(s, o) := shell (Ok None) blank in
   is_ok o && negb (raw_mode s) && negb (alternate_screen s)) = true.
Proof. by vm_compute. Qed.

Lemma verify_spec_witness :
  let '(s, o) := shell (Ok (Some [])) blank in
  exists p, drawn s = p ++ [no_attestations 7].
Proof.
  pose proof (verify_spec (fun _ => bs "error") 7 (bs "ws://127.0.0.1:9944") (Ok tt) (Ok (Some []))
    blank eq_refl ltac:(discriminate) ltac:(discriminate)) as Hv.
  fold shell in Hv. destruct (shell (Ok (Some [])) blank) as [s o].
  destruct Hv as (_ & Hd & _). exact (Hd (Some []) eq_refl eq_refl).
Defined.
End WatcherCommandsExamples.
