(* ===== verification/Inflation.v ===== *)
(** * Inflation

    [EraPayout] of runtime/src/lib.rs: what the stakers of an era are paid, from the total
    stake and the duration of the era, and the constants of the runtime from which the
    length of an era follows.  Theorems: the payout is the yearly rate of 7.9 percent of the
    stake for the era's share of a year, up to rounding down and never above; the payouts of
    any eras within a year are at most 7.9 percent of the highest stake; and the rate that
    the canary reports with its default multiplier is 24 times the yearly rate. *)

From stdpp Require Import base tactics option numbers list.
From Stdlib Require Import ZArith Lia.
From S2P Require Import Prelude.

(** ** The fixed-point numbers of sp_arithmetic *)

(** [FixedU128] counts units of 10^-18. *)
Class FixedPoint := {
  FixedU128 : Type;
  into_inner : FixedU128 -> Z;
  from_rational : Z -> Z -> FixedU128;
  saturating_mul_int : FixedU128 -> Z -> Z;
}.

Definition DIV : Z := 10 ^ 18.
Definition u128_max : Z := 2 ^ 128 - 1.

(** Both operations round down; the product is cut off at the largest integer. *)
Class FixedPointLaws `{FixedPoint} := {
  from_rational_inner n d : 0 <= n -> 0 < d -> n * DIV / d <= u128_max ->
    into_inner (from_rational n d) = n * DIV / d;
  saturating_mul_int_spec f n : 0 <= n <= u128_max ->
    saturating_mul_int f n = Z.min (into_inner f * n / DIV) u128_max;
}.

(** ** runtime/src/lib.rs *)

Section runtime.
Context `{FixedPoint}.

Definition MILLISECONDS_PER_YEAR : Z := (1000 * 3600 * 24 * 36525) / 100.

Definition era_payout (total_staked total_issuance era_duration_millis : Z) : Z * Z :=
  let relative_era_len := from_rational era_duration_millis MILLISECONDS_PER_YEAR in
  let base_rate := from_rational 79 1000 in
  let yearly_emission := saturating_mul_int base_rate total_staked in
  let era_emission := saturating_mul_int relative_era_len yearly_emission in
  (era_emission, 0).
End runtime.

Definition UNITS : Z := 1000000000000000000.
Definition DOLLARS : Z := UNITS.
Definition GRAND : Z := DOLLARS * 1000.
Definition CENTS : Z := DOLLARS / 100.
Definition MILLICENTS : Z := CENTS / 1000.
Definition EXISTENTIAL_DEPOSIT : Z := 100.

Definition deposit (items bytes : Z) : Z := items * MILLICENTS + bytes * 100 * MILLICENTS.

(** The production values. *)
Definition MILLISECS_PER_BLOCK : Z := 3000.
Definition HOURS : Z := 60000 / MILLISECS_PER_BLOCK * 60.
Definition EPOCH_DURATION_IN_BLOCKS : Z := HOURS.
Definition SessionsPerEra : Z := 24.
Definition expected_era_millis : Z := SessionsPerEra * EPOCH_DURATION_IN_BLOCKS * MILLISECS_PER_BLOCK.

(** ** Theorems *)

Section inflation.
Context `{FixedPointLaws}.

Lemma year_value : MILLISECONDS_PER_YEAR = 31557600000.
Proof. done. Qed.

(** The yearly emission is 79 thousandths, rounded down. *)
Lemma yearly_emission s :
  0 <= s <= u128_max -> saturating_mul_int (from_rational 79 1000) s = 79 * s / 1000.
Proof.
  intros Hs. rewrite saturating_mul_int_spec by done.
  rewrite from_rational_inner by (unfold u128_max, DIV; vm_compute; congruence || lia).
  change (79 * DIV / 1000) with (79 * 10 ^ 15). change DIV with (1000 * 10 ^ 15).
  replace (79 * 10 ^ 15 * s) with (79 * s * 10 ^ 15) by lia.
  rewrite Z.div_mul_cancel_r by lia. apply Z.min_l.
  unfold u128_max in *. apply Z.div_le_upper_bound; lia.
Qed.

Lemma era_length era :
  0 <= era < 2 ^ 64 -> into_inner (from_rational era MILLISECONDS_PER_YEAR) = era * DIV / MILLISECONDS_PER_YEAR.
Proof.
  intros He. rewrite year_value. apply from_rational_inner; [lia..|].
  apply Z.div_le_upper_bound; [lia|]. unfold u128_max, DIV. lia.
Qed.

Lemma payout_value s i era :
  0 <= s <= u128_max -> 0 <= era < 2 ^ 64 ->
  era_payout s i era =
  (Z.min (era * DIV / MILLISECONDS_PER_YEAR * (79 * s / 1000) / DIV) u128_max, 0).
Proof.
  intros Hs He. unfold era_payout. rewrite yearly_emission by done.
  rewrite saturating_mul_int_spec, era_length; [done..|].
  split; [apply Z.div_pos; lia|]. unfold u128_max in *. apply Z.div_le_upper_bound; lia.
Qed.

(** The payout is at most the exact share of the yearly rate, and at least that less
    what rounding takes, unless it is cut off. *)
Lemma payout_bounds s i era p :
  0 <= s <= u128_max -> 0 <= era < 2 ^ 64 -> fst (era_payout s i era) = p ->
  0 <= p /\ 1000 * MILLISECONDS_PER_YEAR * p <= 79 * s * era /\
  (p < u128_max -> era <= MILLISECONDS_PER_YEAR ->
    79 * s * era < 1000 * MILLISECONDS_PER_YEAR * (p + 2 + (79 * s / 1000) / DIV + 1)).
Proof.
  intros Hs He. rewrite payout_value by done. cbn [fst]. rewrite year_value. unfold DIV.
  set (e := era * 10 ^ 18 / 31557600000). set (y := 79 * s / 1000). intros <-.
  assert (31557600000 * e <= era * 10 ^ 18 < 31557600000 * (e + 1)) as He'.
  { unfold e. pose proof (Z.mul_div_le (era * 10 ^ 18) 31557600000). pose proof (Z.mul_succ_div_gt (era * 10 ^ 18) 31557600000). lia. }
  assert (1000 * y <= 79 * s < 1000 * (y + 1)) as Hy.
  { unfold y. pose proof (Z.mul_div_le (79 * s) 1000). pose proof (Z.mul_succ_div_gt (79 * s) 1000). lia. }
  set (q := e * y / 10 ^ 18).
  assert (10 ^ 18 * q <= e * y < 10 ^ 18 * (q + 1)) as Hq.
  { unfold q. pose proof (Z.mul_div_le (e * y) (10 ^ 18)). pose proof (Z.mul_succ_div_gt (e * y) (10 ^ 18)). lia. }
  set (r := y / 10 ^ 18).
  assert (10 ^ 18 * r <= y < 10 ^ 18 * (r + 1)) as Hr.
  { unfold r. pose proof (Z.mul_div_le y (10 ^ 18)). pose proof (Z.mul_succ_div_gt y (10 ^ 18)). lia. }
  assert (0 <= e /\ 0 <= y /\ 0 <= r) as (He0 & Hy0 & Hr0) by lia.
  assert (0 <= q) as Hq0 by nia.
  split; [unfold u128_max; lia|]. split.
  - apply Z.le_trans with (1000 * 31557600000 * q); [lia|].
    assert (31557600000 * e * (1000 * y) <= era * 10 ^ 18 * (79 * s)) by (apply Z.mul_le_mono_nonneg; lia). lia.
  - intros Hp Hy'. rewrite Z.min_l in Hp |- * by lia.
    assert (79 * s * era <= 1000 * (y + 1) * era) by (apply Z.mul_le_mono_nonneg_r; lia).
    assert (y * (era * 10 ^ 18) <= y * (31557600000 * (e + 1))) by (apply Z.mul_le_mono_nonneg_l; lia).
    lia.
Qed.

(** Eras: total stake, total issuance and milliseconds. *)
Definition total_millis (eras : list (Z * Z * Z)) : Z := foldr Z.add 0 ((fun e => e.2) <$> eras).
Definition total_payout (eras : list (Z * Z * Z)) : Z :=
  foldr Z.add 0 ((fun '(staked, issuance, millis) => fst (era_payout staked issuance millis)) <$> eras).

Lemma total_payout_bound S eras :
  0 <= S <= u128_max -> Forall (fun '(staked, _, millis) => 0 <= staked <= S /\ 0 <= millis) eras ->
  total_millis eras <= MILLISECONDS_PER_YEAR ->
  0 <= total_millis eras /\ 1000 * MILLISECONDS_PER_YEAR * total_payout eras <= 79 * S * total_millis eras.
Proof.
  intros HS. unfold total_millis, total_payout. rewrite year_value.
  induction 1 as [|[[s i] m] eras [Hs Hm] Heras IH]; [cbn; lia|]. rewrite !fmap_cons. cbn [foldr snd]. intros Ht.
  assert (0 <= foldr Z.add 0 ((fun e => e.2) <$> eras)) as Hpos.
  { clear IH Ht. induction Heras as [|[[s' i'] m'] eras [_ Hm'] _ IH']; [done|]. rewrite fmap_cons. cbn in *. lia. }
  destruct IH as [_ IH]; [lia|]. split; [lia|].
  destruct (payout_bounds s i m _ ltac:(lia) ltac:(lia) eq_refl) as (_ & Hp & _). rewrite year_value in Hp.
  assert (79 * s * m <= 79 * S * m) by (apply Z.mul_le_mono_nonneg_r; lia). lia.
Qed.

(** C21: In any sequence of eras that together last at most a year, with a total stake of
    at most [S] in each, the stakers are paid at most 7.9 percent of [S]. *)
Theorem yearly_inflation_bounded S eras :
  0 <= S <= u128_max -> Forall (fun '(staked, _, millis) => 0 <= staked <= S /\ 0 <= millis) eras ->
  total_millis eras <= MILLISECONDS_PER_YEAR -> 1000 * total_payout eras <= 79 * S.
Proof.
  intros HS Heras Ht. destruct (total_payout_bound S eras HS Heras Ht) as [H0' Hb].
  rewrite year_value in *.
  assert (79 * S * total_millis eras <= 79 * S * 31557600000) by (apply Z.mul_le_mono_nonneg_l; lia). lia.
Qed.

(** The multiplier of canaries/src/main.rs, with which it annualizes the rate of an
    era, is by default the number of hours of a year.  An era of the runtime is a day: for
    every larger stake the rate reported is above 189 percent. *)
Definition default_annualizer : Z := 8760.

Theorem reported_rate_too_high s i :
  10 ^ 9 <= s <= u128_max ->
  189 * s < 100 * (default_annualizer * fst (era_payout s i expected_era_millis)).
Proof.
  intros Hs. unfold u128_max in Hs.
  destruct (payout_bounds s i expected_era_millis _ ltac:(unfold u128_max; lia) ltac:(done) eq_refl) as (_ & Hup & Hlow).
  set (p := fst (era_payout s i expected_era_millis)) in *.
  rewrite year_value in *. change expected_era_millis with 86400000 in *. unfold default_annualizer, u128_max, DIV in *.
  assert (p < 2 ^ 128 - 1) as Hp by lia. specialize (Hlow Hp ltac:(lia)).
  assert ((79 * s / 1000) / 10 ^ 18 <= s / 10 ^ 18) by (apply Z.div_le_mono; [lia|]; apply Z.div_le_upper_bound; lia).
  pose proof (Z.mul_div_le s (10 ^ 18)). lia.
Qed.
End inflation.

(** ** The arithmetic as integers *)

Module InflationExamples.
#[local] Instance exact_fixed : FixedPoint := {|
  FixedU128 := Z;
  into_inner f := f;
  from_rational n d := Z.min (n * DIV / d) u128_max;
  saturating_mul_int f n := Z.min (f * n / DIV) u128_max;
|}.
#[local] Instance exact_fixed_laws : FixedPointLaws.
Proof. split; intros; cbn; [by apply Z.min_l|done]. Qed.

(** A year of 365 days with a stake of a thousand tokens. *)
Definition year : list (Z * Z * Z) := replicate 365 (1000 * UNITS, 10 ^ 28, expected_era_millis).

Lemma yearly_inflation_bounded_witness : 1000 * total_payout year <= 79 * (1000 * UNITS).
Proof.
  apply (yearly_inflation_bounded (1000 * UNITS) year).
  - unfold u128_max, UNITS. lia.
  - apply Forall_replicate. unfold UNITS, expected_era_millis. vm_compute. intuition congruence.
  - vm_compute. congruence.
Defined.

Lemma reported_rate_too_high_witness :
  189 * UNITS < 100 * (default_annualizer * fst (era_payout UNITS UNITS expected_era_millis)).
Proof. apply (reported_rate_too_high UNITS UNITS). unfold u128_max, UNITS. lia. Defined.

Example a_day : fst (era_payout (1000 * UNITS) UNITS expected_era_millis) = 216290212183435979 /\
  expected_era_millis = 24 * 3600 * 1000.
Proof. vm_compute. done. Qed.
End InflationExamples.
