(* ===== verification/Genesis.v ===== *)
(** * The genesis of the chains

    node/src/chain_spec.rs: the accounts, stakers, keys and contracts that the five chain
    specifications start with, and [load_spec] of node/src/command.rs, which chooses one.  The
    derivation of keys is a class; environment variables are a map.  Theorems: which
    accounts are endowed, each once; every staker is endowed with at least its bond and
    every nomination is of a validator; what the specification of the main network contains,
    down to the contracts that the system-contracts pallet starts with; and that two of the
    keys of an authority are derived from another text than the others. *)

From stdpp Require Import base tactics option gmap numbers list strings.
From Stdlib Require Import ZArith Lia.
From Stdlib Require Import Strings.Byte.
From S2P Require Import Prelude Bytes Types Runtime Sample PalletSystemContracts Inflation.

(** The public keys by their use; [Sr25519] is the scheme of accounts. *)
Inductive KeyScheme := Sr25519 | GrandpaId | BabeId | AuthorityId | ImOnlineId.

(** [Pair::from_string], the public key of the pair, and the account of a key. *)
Class KeyDerivation `{Config} := {
  PublicKey : Type;
  pair_from_string : KeyScheme -> bytes -> option PublicKey;
  into_account : PublicKey -> AccountId;
}.

Section chain_spec.
Context `{Config} `{!KeyDerivation}.

(** ** Keys *)

Record NodeIdSet := mkNodeIdSet {
  controller : AccountId;
  stash : AccountId;
  grandpa : PublicKey;
  babe : PublicKey;
  authority_discovery : PublicKey;
  im_online : PublicKey;
}.

Definition get_from_phrase {E} (scheme : KeyScheme) (seed : bytes) : outcome E PublicKey :=
  unwrap_option (pair_from_string scheme seed).
Definition get_from_seed {E} (scheme : KeyScheme) (seed : bytes) : outcome E PublicKey :=
  get_from_phrase scheme (bs "//" ++ seed).
Definition get_account_id_from_seed {E} (seed : bytes) : outcome E AccountId :=
  omap_ok into_account (get_from_seed Sr25519 seed).
Definition get_account_id_from_phrase {E} (seed : bytes) : outcome E AccountId :=
  omap_ok into_account (get_from_phrase Sr25519 seed).

Definition authority_keys_from_seed {E} (s : bytes) : outcome E NodeIdSet :=
  let? controller := get_account_id_from_seed s in
  let? stash := get_account_id_from_seed s in
  let? grandpa := get_from_seed GrandpaId s in
  let? babe := get_from_seed BabeId s in
  let? authority_discovery := get_from_seed AuthorityId s in
  let? im_online := get_from_seed ImOnlineId s in
  Ok (mkNodeIdSet controller stash grandpa babe authority_discovery im_online).

Definition authority_keys_from_phrase {E} (s : bytes) : outcome E NodeIdSet :=
  let? controller := get_account_id_from_phrase s in
  let? stash := get_account_id_from_phrase s in
  let? grandpa := get_from_phrase GrandpaId s in
  let? babe := get_from_phrase BabeId s in
  let? authority_discovery := get_from_seed AuthorityId s in
  let? im_online := get_from_seed ImOnlineId s in
  Ok (mkNodeIdSet controller stash grandpa babe authority_discovery im_online).

(** ** Accounts and stakers *)

Inductive StakerStatus := Validator | Nominator (targets : list AccountId).

Definition push_missing (endowed_accounts : list AccountId) (x : AccountId) : list AccountId :=
  if decide (x ∈ endowed_accounts) then endowed_accounts else endowed_accounts ++ [x].

Definition configure_accounts (initial_authorities : list NodeIdSet) (initial_nominators : list AccountId)
    (endowed_accounts : list AccountId) (stash_ : Z)
    : list NodeIdSet * list AccountId * list (AccountId * AccountId * Z * StakerStatus) :=
  let endowed_accounts :=
    foldl push_missing endowed_accounts ((controller <$> initial_authorities) ++ initial_nominators) in
  let stakers :=
    ((fun x => (controller x, stash x, stash_, Validator)) <$> initial_authorities) ++
    ((fun x => (x, x, stash_, Nominator (controller <$> initial_authorities))) <$> initial_nominators) in
  (initial_authorities, endowed_accounts, stakers).

(** The parts of the genesis patch; the fraction is in percent. *)
Record GenesisPatch := mkGenesisPatch {
  patch_balances : list (AccountId * Z);
  patch_session_keys : list (AccountId * AccountId * (PublicKey * PublicKey * PublicKey * PublicKey));
  patch_validator_count : Z;
  patch_minimum_validator_count : Z;
  patch_min_validator_bond : Z;
  patch_min_nominator_bond : Z;
  patch_max_nominator_count : Z;
  patch_max_validator_count : Z;
  patch_invulnerables : list AccountId;
  patch_slash_reward_fraction : Z;
  patch_stakers : list (AccountId * AccountId * Z * StakerStatus);
  patch_sudo_key : AccountId;
  (** The probability of a primary slot. *)
  patch_epoch_config : Z * Z;
  patch_system_contracts : option SystemContractsGenesis;
}.

(** [PRIMARY_PROBABILITY] of the runtime. *)
Definition PRIMARY_PROBABILITY : Z * Z := (1, 4).

(** [1.max(len - 1) as u32], of which the subtraction is one of [usize]. *)
Definition minimum_validators (len : nat) : Z := Z.max 1 ((Z.of_nat len - 1) mod 2 ^ 64) mod 2 ^ 32.

Definition genesis_patch (initial_authorities : list NodeIdSet) (initial_nominators : list AccountId)
    (root_key : AccountId) (endowed_accounts : list AccountId) (endowment bond : Z) : GenesisPatch :=
  let '(initial_authorities, endowed_accounts, stakers) :=
    configure_accounts initial_authorities initial_nominators endowed_accounts bond in
  mkGenesisPatch
    ((fun k => (k, endowment)) <$> endowed_accounts)
    ((fun x => (controller x, stash x, (grandpa x, babe x, authority_discovery x, im_online x))) <$> initial_authorities)
    (Z.of_nat (length initial_authorities) mod 2 ^ 32)
    (minimum_validators (length initial_authorities))
    1 1 22500 500
    (controller <$> initial_authorities)
    10 stakers root_key PRIMARY_PROBABILITY None.

(** ** System contracts *)

(** The hex texts are read as an integer and as an address. *)
Definition contract_from_hex (chain : bytes) (address : bytes) : option ContractInfo :=
  chain_bytes ← hex_decode chain;
  address_bytes ← hex_decode address;
  Some (mkContractInfo (be_val chain_bytes) address_bytes).

Definition patch_with_system_contracts (staking messaging : option ContractInfo) (patch : GenesisPatch)
    : GenesisPatch :=
  mkGenesisPatch (patch_balances patch) (patch_session_keys patch) (patch_validator_count patch)
    (patch_minimum_validator_count patch) (patch_min_validator_bond patch) (patch_min_nominator_bond patch)
    (patch_max_nominator_count patch) (patch_max_validator_count patch) (patch_invulnerables patch)
    (patch_slash_reward_fraction patch) (patch_stakers patch) (patch_sudo_key patch) (patch_epoch_config patch)
    (s ← staking; m ← messaging; Some (mkSystemContractsGenesis s m)).

Definition patch_with_sepolia_system_contracts : GenesisPatch -> GenesisPatch :=
  patch_with_system_contracts
    (contract_from_hex (bs "aa36a7") (bs "ca755ce69181d2d33097a24ce5ddc030a0b87f2c"))
    (contract_from_hex (bs "aa36a7") (bs "82840556980bfbCc08e3e7c61AA44E1a4EAb5471")).
Definition patch_with_ethereum_system_contracts : GenesisPatch -> GenesisPatch :=
  patch_with_system_contracts
    (contract_from_hex (bs "01") (bs "93d176dd54FF38b08f33b4Fc62573ec80F1da185"))
    (contract_from_hex (bs "01") (bs "70106a3247542069a3ee1AF4D6988a5f34b31cE1")).

(** ** The chain specifications *)

Inductive ChainType := Live | Development | Local.
Record ChainSpec := mkChainSpec {
  spec_name : bytes;
  spec_id : bytes;
  spec_chain_type : ChainType;
  spec_properties : bytes * Z;
  spec_genesis : GenesisPatch;
}.

(** The symbol of the token and its decimals. *)
Definition token_properties : bytes * Z := (bs "SxT", 18).

(** The runtime that the build embeds, and the variables of the environment. *)
Context (WASM_BINARY : option bytes) (env : gmap bytes bytes).

Definition wasm_binary : outcome bytes bytes := ok_or WASM_BINARY (bs "Development wasm not available").

Definition with_stashes (names : list bytes) : list bytes :=
  names ++ ((fun n => n ++ bs "//stash") <$> names).

Definition devnet_config : outcome bytes ChainSpec :=
  let? _ := wasm_binary in
  let? authorities := collect authority_keys_from_seed [bs "Alice"] in
  let? nominators := collect get_account_id_from_seed [bs "Bob"] in
  let? sudo := get_account_id_from_seed (bs "Alice") in
  let? endowed := collect get_account_id_from_seed
    (with_stashes [bs "Alice"; bs "Bob"; bs "Charlie"; bs "Dave"; bs "Eve"; bs "Ferdie"]) in
  Ok (mkChainSpec (bs "SxT Devnet") (bs "devnet") Live token_properties
    (genesis_patch authorities nominators sudo endowed (1000 * GRAND) (1000 * DOLLARS))).

Definition development_config : outcome bytes ChainSpec :=
  let? _ := wasm_binary in
  let? authorities := collect authority_keys_from_seed [bs "Alice"] in
  let? nominators := collect get_account_id_from_seed [bs "Charlie"] in
  let? sudo := get_account_id_from_seed (bs "Alice") in
  let? endowed := collect get_account_id_from_seed (with_stashes [bs "Alice"; bs "Bob"; bs "Charlie"]) in
  Ok (mkChainSpec (bs "Development") (bs "dev") Development token_properties
    (genesis_patch authorities nominators sudo endowed (1000 * GRAND) (1000 * DOLLARS))).

Definition local_testnet_config : outcome bytes ChainSpec :=
  let? _ := wasm_binary in
  let? authorities := collect authority_keys_from_seed [bs "Alice"; bs "Bob"; bs "Charlie"; bs "Dave"] in
  let? sudo := get_account_id_from_seed (bs "Alice") in
  let? endowed := collect get_account_id_from_seed
    (with_stashes [bs "Alice"; bs "Bob"; bs "Charlie"; bs "Dave"; bs "Eve"; bs "Ferdie"]) in
  Ok (mkChainSpec (bs "Sxt Local Testing Network") (bs "sxt-local") Local token_properties
    (genesis_patch authorities [] sudo endowed (1000 * GRAND) (1000 * DOLLARS))).

Definition get_env_or_panic {E} (input : bytes) : outcome E bytes := unwrap_option (env !! input).
Definition validators_or_panic {E} : outcome E (list bytes) :=
  collect get_env_or_panic [bs "SXT_VALIDATOR_1"; bs "SXT_VALIDATOR_2"; bs "SXT_VALIDATOR_3"].
Definition indexers_or_panic {E} : outcome E (list bytes) :=
  collect get_env_or_panic [bs "SXT_INDEXER_1"; bs "SXT_INDEXER_2"; bs "SXT_INDEXER_3"; bs "SXT_INDEXER_4"; bs "SXT_INDEXER_5"].
Definition sudo_key_or_panic {E} : outcome E bytes := get_env_or_panic (bs "SXT_SUDO_KEY").

Definition testnet_config : outcome bytes ChainSpec :=
  let? validators := validators_or_panic in
  let? indexers := indexers_or_panic in
  let? sudo_key := sudo_key_or_panic in
  let? _ := wasm_binary in
  let? authorities := collect authority_keys_from_phrase validators in
  let? nominators := collect get_account_id_from_phrase indexers in
  let? sudo := get_account_id_from_phrase sudo_key in
  let? endowed := collect get_account_id_from_phrase (sudo_key :: validators ++ indexers) in
  Ok (mkChainSpec (bs "Sxt Testnet") (bs "sxt-testnet") Live token_properties
    (patch_with_sepolia_system_contracts
      (genesis_patch authorities nominators sudo endowed (1000 * DOLLARS) (100 * DOLLARS)))).

Definition mainnet_config : outcome bytes ChainSpec :=
  let? validators := validators_or_panic in
  let? sudo_key := sudo_key_or_panic in
  let initial_gas := 10 * DOLLARS in
  let initial_stake := DOLLARS in
  let? _ := wasm_binary in
  let? authorities := collect authority_keys_from_phrase validators in
  let? sudo := get_account_id_from_phrase sudo_key in
  let? endowed := collect get_account_id_from_phrase (sudo_key :: validators) in
  Ok (mkChainSpec (bs "SXT Mainnet") (bs "sxt-mainnet") Live token_properties
    (patch_with_ethereum_system_contracts
      (genesis_patch authorities [] sudo endowed initial_gas initial_stake))).

(** [load_spec]; reading a file is a parameter. *)
Definition load_spec (from_json_file : bytes -> outcome bytes ChainSpec) (id : bytes) : outcome bytes ChainSpec :=
  if bool_decide (id = bs "dev") then development_config
  else if bool_decide (id = bs "devnet") then devnet_config
  else if bool_decide (id = bs "testnet") then testnet_config
  else if bool_decide (id = bs "mainnet") then mainnet_config
  else if bool_decide (id = [] \/ id = bs "local") then local_testnet_config
  else from_json_file id.

(** ** Who is endowed *)

Lemma push_missing_elem l x y : y ∈ push_missing l x <-> y ∈ l \/ y = x.
Proof. unfold push_missing. destruct (decide (x ∈ l)); set_solver. Qed.
Lemma push_missing_nodup l x : NoDup l -> NoDup (push_missing l x).
Proof.
  unfold push_missing. intros Hl. destruct (decide (x ∈ l)); [done|].
  apply NoDup_app. split_and!; [done|set_solver|apply NoDup_singleton].
Qed.
Lemma push_missing_prefix l x : l `prefix_of` push_missing l x.
Proof. unfold push_missing. destruct (decide _); [done|]. by eexists. Qed.

Lemma push_all_elem l xs y : y ∈ foldl push_missing l xs <-> y ∈ l \/ y ∈ xs.
Proof.
  revert l. induction xs as [|x xs IH]; intros l; cbn; [set_solver|].
  rewrite IH, push_missing_elem. set_solver.
Qed.
Lemma push_all_nodup l xs : NoDup l -> NoDup (foldl push_missing l xs).
Proof. revert l. induction xs as [|x xs IH]; intros l Hl; cbn; [done|]. by apply IH, push_missing_nodup. Qed.
Lemma push_all_prefix l xs : l `prefix_of` foldl push_missing l xs.
Proof.
  revert l. induction xs as [|x xs IH]; intros l; cbn; [done|].
  etransitivity; [apply push_missing_prefix|apply IH].
Qed.
Lemma push_all_present l xs : Forall (fun x => x ∈ l) xs -> foldl push_missing l xs = l.
Proof.
  induction 1 as [|x xs Hx _ IH]; [done|]. cbn. unfold push_missing at 2. by rewrite decide_True.
Qed.

(** The balance of an account in a patch. *)
Definition endowed_with (p : GenesisPatch) (a : AccountId) (v : Z) : Prop := (a, v) ∈ patch_balances p.

Section patch.
Context (authorities : list NodeIdSet) (nominators : list AccountId) (root : AccountId)
  (endowed : list AccountId) (endowment bond : Z).
Let p := genesis_patch authorities nominators root endowed endowment bond.
Let accounts := foldl push_missing endowed ((controller <$> authorities) ++ nominators).

Lemma patch_accounts : (patch_balances p).*1 = accounts.
Proof.
  unfold p, genesis_patch, configure_accounts. cbn [patch_balances]. rewrite <- list_fmap_compose.
  apply list_fmap_id.
Qed.

Lemma patch_endowed a : a ∈ accounts -> endowed_with p a endowment.
Proof. intros Ha. unfold endowed_with, p, genesis_patch, configure_accounts. cbn. set_solver. Qed.

Lemma patch_accounts_elem a : a ∈ accounts <-> a ∈ endowed \/ a ∈ controller <$> authorities \/ a ∈ nominators.
Proof. unfold accounts. rewrite push_all_elem, elem_of_app. done. Qed.

Lemma patch_staker a b v st :
  (a, b, v, st) ∈ patch_stakers p <->
  v = bond /\ ((exists x, x ∈ authorities /\ a = controller x /\ b = stash x /\ st = Validator) \/
    (a ∈ nominators /\ b = a /\ st = Nominator (controller <$> authorities))).
Proof.
  unfold p, genesis_patch, configure_accounts. cbn. rewrite elem_of_app, !list_elem_of_fmap. naive_solver.
Qed.

Lemma validator_staker x : x ∈ authorities -> (controller x, stash x, bond, Validator) ∈ patch_stakers p.
Proof. intros Hx. apply patch_staker. eauto 10. Qed.

Lemma patch_counts :
  authorities <> [] -> Z.of_nat (length authorities) < 2 ^ 32 ->
  1 <= patch_minimum_validator_count p <= patch_validator_count p.
Proof.
  intros Hne Hlt. unfold p, genesis_patch, configure_accounts. cbn. unfold minimum_validators.
  assert (1 <= Z.of_nat (length authorities)) by (destruct authorities; [done|cbn; lia]).
  rewrite !Z.mod_small by (rewrite ?Z.mod_small; lia). lia.
Qed.

End patch.

(** ** The specifications *)

(** Two of the keys of an authority that is given by a phrase are derived from another
    text than the others. *)
Theorem phrase_keys_differ {E} s (ids : NodeIdSet) :
  authority_keys_from_phrase (E := E) s = Ok ids ->
  pair_from_string GrandpaId s = Some (grandpa ids) /\ pair_from_string BabeId s = Some (babe ids) /\
  pair_from_string AuthorityId (bs "//" ++ s) = Some (authority_discovery ids) /\
  pair_from_string ImOnlineId (bs "//" ++ s) = Some (im_online ids) /\ controller ids = stash ids.
Proof.
  unfold authority_keys_from_phrase, get_account_id_from_phrase, get_from_seed, get_from_phrase.
  destruct (pair_from_string Sr25519 s) as [k|]; [|done]. cbn [unwrap_option omap_ok obind].
  destruct (pair_from_string GrandpaId s) as [g|]; [|done]. cbn [unwrap_option obind].
  destruct (pair_from_string BabeId s) as [b|]; [|done]. cbn [unwrap_option obind].
  destruct (pair_from_string AuthorityId (bs "//" ++ s)) as [d|]; [|done]. cbn [unwrap_option obind].
  destruct (pair_from_string ImOnlineId (bs "//" ++ s)) as [i|]; [|done]. by intros [= <-].
Qed.

Lemma phrase_controller {E} s (ids : NodeIdSet) :
  authority_keys_from_phrase (E := E) s = Ok ids -> get_account_id_from_phrase (E := E) s = Ok (controller ids).
Proof.
  unfold authority_keys_from_phrase. destruct (get_account_id_from_phrase s) as [k| |]; [|done..].
  cbn [obind]. do 4 (destruct (_ : outcome _ PublicKey) as [?| |]; [|done..]; cbn [obind]). by intros [= <-].
Qed.

Lemma phrase_controllers {E} (l : list bytes) (authorities : list NodeIdSet) (accounts : list AccountId) :
  collect (authority_keys_from_phrase (E := E)) l = Ok authorities ->
  collect (get_account_id_from_phrase (E := E)) l = Ok accounts -> controller <$> authorities = accounts.
Proof.
  rewrite !collect_ok. intros Ha. revert accounts. induction Ha as [|s ids l authorities Hs _ IH]; intros accounts.
  - by inversion 1.
  - inversion 1 as [|? a ? accounts' Hk Hrest]; subst. apply phrase_controller in Hs.
    assert (Ok (E := E) a = Ok (controller ids)) as [= ->] by congruence. cbn. f_equal. by apply IH.
Qed.

Lemma phrase_stakers {E} (l : list bytes) (authorities : list NodeIdSet) (v : Z) :
  collect (authority_keys_from_phrase (E := E)) l = Ok authorities ->
  (fun x => (controller x, stash x, v, Validator)) <$> authorities =
  (fun a => (a, a, v, Validator)) <$> (controller <$> authorities).
Proof.
  rewrite collect_ok. induction 1 as [|s ids l authorities Hs _ IH]; [done|]. cbn.
  apply phrase_keys_differ in Hs as (_ & _ & _ & _ & ->). by f_equal.
Qed.

(** The genesis of the main network: exactly the sudo account and the three validators
    are endowed, with ten tokens each; the three are the stakers, with a bond of one token,
    the minimum is two validators, and the system-contracts pallet starts with the contracts
    of chain 1. *)
Theorem mainnet_genesis spec :
  mainnet_config = Ok spec ->
  exists sudo v1 v2 v3, let p := spec_genesis spec in
    patch_sudo_key p = sudo /\ patch_invulnerables p = [v1; v2; v3] /\
    patch_balances p = (fun a => (a, 10 * UNITS)) <$> [sudo; v1; v2; v3] /\
    patch_stakers p = (fun a => (a, a, UNITS, Validator)) <$> [v1; v2; v3] /\
    (patch_validator_count p, patch_minimum_validator_count p) = (3, 2) /\
    forall s, exists g, patch_system_contracts p = Some g /\
      chain_id (pallet_system_contracts.StakingContract (system_contracts (system_contracts_build g s))) = 1 /\
      chain_id (pallet_system_contracts.MessagingContract (system_contracts (system_contracts_build g s))) = 1 /\
      length (info_address (pallet_system_contracts.StakingContract (system_contracts (system_contracts_build g s)))) = 20%nat.
Proof.
  unfold mainnet_config, validators_or_panic. cbn [collect].
  destruct (get_env_or_panic (bs "SXT_VALIDATOR_1")) as [p1| |]; [|done..].
  destruct (get_env_or_panic (bs "SXT_VALIDATOR_2")) as [p2| |]; [|done..].
  destruct (get_env_or_panic (bs "SXT_VALIDATOR_3")) as [p3| |]; [|done..]. cbn [obind].
  destruct sudo_key_or_panic as [p0| |]; [|done..]. cbn [obind].
  destruct wasm_binary as [w| |]; [|done..]. cbn [obind].
  destruct (collect authority_keys_from_phrase [p1; p2; p3]) as [authorities| |] eqn:Ha; [|done..]. cbn [obind].
  destruct (get_account_id_from_phrase p0) as [sudo| |]; [|done..]. cbn [obind].
  destruct (collect get_account_id_from_phrase [p1; p2; p3]) as [accounts| |] eqn:Hv; [|done..]. cbn [obind].
  pose proof (phrase_controllers _ _ _ Ha Hv) as Hc. apply collect_length in Hv as Hlen. symmetry in Hlen.
  pose proof (collect_length _ _ _ Ha) as Hlen'.
  destruct accounts as [|v1 [|v2 [|v3 [|? ?]]]]; try done. intros [= <-].
  exists sudo, v1, v2, v3.
  unfold patch_with_ethereum_system_contracts, patch_with_system_contracts, genesis_patch, configure_accounts. cbn zeta.
  cbn [spec_genesis patch_sudo_key patch_invulnerables patch_balances patch_stakers patch_validator_count
    patch_minimum_validator_count patch_system_contracts].
  rewrite (phrase_stakers _ _ _ Ha), Hc, Hlen', app_nil_r, fmap_nil, app_nil_r. split_and!; [done|done| |done|done|].
  - rewrite push_all_present by (repeat constructor; set_solver). done.
  - intros s. eexists. split; [vm_compute; reflexivity|]. by vm_compute.
Qed.
End chain_spec.

(** ** Examples *)

Module GenesisExamples.
#[local] Existing Instance sample_config.

(** Keys are the texts they are derived from; the empty text gives none. *)
#[local] Instance text_keys : KeyDerivation := {|
  PublicKey := bytes;
  pair_from_string _ s := match s with [] => None | _ => Some s end;
  into_account k := (k : @AccountId sample_config);
|}.

Definition env : gmap bytes bytes :=
  {[bs "SXT_VALIDATOR_1" := bs "one"; bs "SXT_VALIDATOR_2" := bs "two"; bs "SXT_VALIDATOR_3" := bs "three";
    bs "SXT_SUDO_KEY" := bs "sudo"]}.
Definition authority : NodeIdSet := mkNodeIdSet alice alice (bs "g" : PublicKey) (bs "b" : PublicKey)
  (bs "d" : PublicKey) (bs "i" : PublicKey).


Definition mainnet_spec : option ChainSpec := to_option (mainnet_config (Some []) env).

Lemma mainnet_genesis_witness :
  exists spec, mainnet_spec = Some spec /\
    (patch_validator_count (spec_genesis spec), patch_minimum_validator_count (spec_genesis spec)) = (3, 2).
Proof.
  assert (is_ok (mainnet_config (Some []) env) = true) as Hok by (vm_compute; reflexivity).
  unfold mainnet_spec. destruct (mainnet_config (Some []) env) as [spec| |] eqn:Hs; [|discriminate Hok..].
  exists spec. split; [reflexivity|].
  destruct (mainnet_genesis (Some []) env spec Hs) as (sudo & v1 & v2 & v3 & _ & _ & _ & _ & Hc & _). exact Hc.
Defined.

Lemma phrase_keys_differ_witness :
  exists ids : NodeIdSet, authority_keys_from_phrase (E := unit) (bs "one") = Ok ids /\
    pair_from_string ImOnlineId (bs "//one") = Some (im_online ids).
Proof.
  eexists. split; [reflexivity|]. by apply (phrase_keys_differ (E := unit) (bs "one")).
Defined.

(** Without a validator in the environment the specification panics. *)
Example missing_variable :
  match mainnet_config (Some []) (delete (bs "SXT_VALIDATOR_2") env) with Panic => true | _ => false end = true.
Proof. vm_compute. reflexivity. Qed.
Example without_runtime : match mainnet_config None env with Err _ => true | _ => false end = true.
Proof. vm_compute. reflexivity. Qed.
End GenesisExamples.
