(* ===== verification/ChainUtils.v ===== *)
(** * chain-utils

    The messages of the [test-staking] command, chain-utils/src/test_staking.rs, which
    imitate rows of the system tables and are submitted as arrow streams of tables.
    Theorems: both messages are read by the chain as the tables they were built from, and
    the pallet of the system tables refuses their rows, because the addresses are text where
    it reads bytes; nothing is staked and no key is registered. *)

From stdpp Require Import base tactics option gmap strings numbers list.
From Stdlib Require Import ZArith Lia.
From Stdlib Require Import Strings.Byte.
From S2P Require Import Prelude Bytes Text Types CommitmentScheme IndexMap OnChainTable ArrowConversion SqlAst.
From S2P Require Import TablesSql ProofOfSql PlainCommitment CommitmentSql Native Runtime Sample SystemTables.

(** Arrow's [StreamWriter] of one batch, and that the reader reads what it wrote. *)
Class StreamWriter := { write_stream : RecordBatch -> option bytes }.
Class StreamLaws `{StreamWriter} `{StreamReader} := {
  stream_round_trip batch b : write_stream batch = Some b -> read_stream b = Some [Some batch];
}.

(** ** test_staking.rs *)

Section test_staking.
Context `{UnicodeData} `{ArrowLibrary} `{StreamWriter}.

(** The columns that both messages start with. *)
Definition event_columns : list (Ident * OnChainColumn) :=
  [(Ident_new (bs "block_number"), BigInt [1]);
   (Ident_new (bs "time_stamp"), TimestampTZ Microsecond None [1]);
   (Ident_new (bs "transaction_hash"), VarChar [bs "asdf"]);
   (Ident_new (bs "event_index"), Int [1]);
   (Ident_new (bs "contract_address"), VarChar [bs "asdf"]);
   (Ident_new (bs "decode_error"), VarChar [bs "asdf"])].

(** A table as an arrow stream. *)
Definition message_data {E} (columns : list (Ident * OnChainColumn)) : outcome E RowData :=
  let? expected := unwrap (try_from_iter columns) in
  let? record_batch := table_into_batch expected in
  unwrap_option (write_stream record_batch).

Definition staking_columns (eth_wallet : bytes) (amount : Z) : list (Ident * OnChainColumn) :=
  event_columns ++
  [(Ident_new (bs "staker"), VarChar [eth_wallet]);
   (Ident_new (bs "amount"), Decimal75 75 0 [amount])].
Definition get_staking_message {E} (eth_wallet : bytes) (amount : Z) : outcome E RowData :=
  message_data (staking_columns eth_wallet amount).

Definition session_keys_columns (eth_wallet session_keys : bytes) : list (Ident * OnChainColumn) :=
  event_columns ++
  [(Ident_new (bs "sender"), VarChar [eth_wallet]);
   (Ident_new (bs "body"), VarChar [session_keys]);
   (Ident_new (bs "nonce"), Decimal75 75 0 [1])].
Definition get_session_keys_message {E} (eth_wallet session_keys : bytes) : outcome E RowData :=
  message_data (session_keys_columns eth_wallet session_keys).
End test_staking.

Definition STAKED_TABLE : TableIdentifier := mkTableIdentifier (bs "STAKED") (bs "SXT_SYSTEM_STAKING").
Definition MESSAGE_TABLE : TableIdentifier := mkTableIdentifier (bs "MESSAGE") (bs "SXT_SYSTEM_STAKING").

(** The amount that [test_staking] sends. *)
Definition test_amount : Z := 1000000000000000000000000000 * 1000.

Section lemmas.
Context `{UnicodeLaws} `{ArrowLibraryLaws} `{StreamLaws} `{PostcardLaws} `{ExternalPallets}.

(** What is sent is read back as the table of the message. *)
Lemma message_received {E} columns table data b :
  try_from_iter columns = Ok table -> Forall (fun p => column_exportable p.2) table ->
  Forall (fun p => quote_style p.1 = None) table -> message_data (E := E) columns = Ok data ->
  record_batch_to_onchain data = Ok b -> deserialize_on_chain_table (on_chain_table_data b) = Some table.
Proof.
  intros Ht Hex Hq Hm Hr. pose proof (try_from_iter_ok_wf _ _ Ht) as Hwf.
  destruct (table_batch_round_trip (E := E) table Hwf Hex Hq) as (batch & Hb & Hback).
  unfold message_data in Hm. rewrite Ht in Hm. cbn [unwrap obind] in Hm. rewrite Hb in Hm. cbn [obind] in Hm.
  destruct (write_stream batch) as [w|] eqn:Hw; [|done]. injection Hm as ->.
  unfold record_batch_to_onchain in Hr. rewrite (stream_round_trip _ _ Hw) in Hr. cbn in Hr.
  rewrite Hback in Hr. cbn [map_err obind] in Hr. apply map_err_ok in Hr.
  apply obind_ok in Hr as (raw & Hraw%ok_or_ok & Hr). apply obind_ok in Hr as (d & Hd%ok_or_ok & [= <-]).
  apply try_from_large_some in Hd as [-> _]. cbn. unfold deserialize_on_chain_table.
  rewrite (postcard_round_trip table raw (proj1 (proj2 Hwf)) Hraw).
  unfold base.mbind, option_bind. by rewrite try_from_iter_id.
Qed.

Definition refused_row (s : Storage) : Storage :=
  push_event (SystemTablesEvent (pallet_system_tables_events.MessageProcessingError
    (err pallet_system_tables.MissingExpectedField))) s.

(** A table that the messages are built from is refused by the pallet. *)
Definition refused_by_pallet (id : TableIdentifier) (table : OnChainTable) : Prop :=
  Forall (fun p => column_exportable p.2) table /\ Forall (fun p => quote_style p.1 = None) table /\
  forall s, process_system_table id table s = (refused_row s, Ok tt).

Lemma staking_table_refused wallet amount :
  0 <= amount < 2 ^ 256 ->
  exists table, try_from_iter (staking_columns wallet amount) = Ok table /\ refused_by_pallet STAKED_TABLE table.
Proof.
  intros Ha. eexists. split; [vm_compute; reflexivity|]. split_and!.
  - repeat constructor; cbn; (lia || done).
  - repeat constructor.
  - intros s. vm_compute. reflexivity.
Qed.

Lemma session_keys_table_refused wallet keys :
  exists table, try_from_iter (session_keys_columns wallet keys) = Ok table /\ refused_by_pallet MESSAGE_TABLE table.
Proof.
  eexists. split; [vm_compute; reflexivity|]. split_and!.
  - repeat constructor; cbn; (lia || done).
  - repeat constructor.
  - intros s. vm_compute. reflexivity.
Qed.

(** The chain reads the staking message as its table, and all that its pallet of the
    system tables does with it is to report that an expected field is missing. *)
Theorem staking_message_refused {E} wallet amount data b table s :
  0 <= amount < 2 ^ 256 -> get_staking_message (E := E) wallet amount = Ok data ->
  record_batch_to_onchain data = Ok b -> on_chain_table_try_from_bytes b = Ok table ->
  process_system_table STAKED_TABLE table s = (refused_row s, Ok tt).
Proof.
  intros Ha Hm Hr Ht%ok_or_ok. destruct (staking_table_refused wallet amount Ha) as (t & Ht' & Hex & Hq & Hp).
  rewrite (message_received _ _ _ _ Ht' Hex Hq Hm Hr) in Ht. injection Ht as <-. apply Hp.
Qed.

(** Nor does the other message register keys or use up a nonce. *)
Theorem session_keys_message_refused {E} wallet keys data b table s :
  get_session_keys_message (E := E) wallet keys = Ok data ->
  record_batch_to_onchain data = Ok b -> on_chain_table_try_from_bytes b = Ok table ->
  process_system_table MESSAGE_TABLE table s = (refused_row s, Ok tt).
Proof.
  intros Hm Hr Ht%ok_or_ok. destruct (session_keys_table_refused wallet keys) as (t & Ht' & Hex & Hq & Hp).
  rewrite (message_received _ _ _ _ Ht' Hex Hq Hm Hr) in Ht. injection Ht as <-. apply Hp.
Qed.
End lemmas.

(** The amount of the command is called a thousand tokens of 18 decimals; it is a
    thousand million times as much. *)
Example test_amount_value : test_amount = 10 ^ 9 * (1000 * 10 ^ 18).
Proof. reflexivity. Qed.

(** ** An example *)

Module ChainUtilsExamples.
#[local] Existing Instances plain_postcard plain_postcard_laws.
#[local] Existing Instances plain_arrow plain_arrow_laws.
#[local] Existing Instance plain_reader.
#[local] Existing Instances ascii_unicode ascii_unicode_laws.
#[local] Existing Instance sample_config.

#[local] Instance ArrowDataType_eq_dec : EqDecision ArrowDataType.
Proof. solve_decision. Defined.
#[local] Instance ArrowValues_eq_dec : EqDecision ArrowValues.
Proof. solve_decision. Defined.
#[local] Instance ArrayRef_eq_dec : EqDecision ArrayRef.
Proof. solve_decision. Defined.

(** A writer of the batches that the reader reads. *)
#[local] Instance plain_writer : StreamWriter := {|
  write_stream batch :=
    match table_try_from_batch batch with
    | Ok t =>
        b ← to_allocvec t;
        if bool_decide (read_stream b = Some [Some batch]) then Some b else None
    | _ => None
    end;
|}.
#[local] Instance plain_stream_laws : StreamLaws.
Proof.
  split. intros batch b. cbn. destruct (table_try_from_batch batch) as [t| |]; [|done..].
  case_bool_decide; [|done]. by intros [= <-].
Qed.

Definition wallet : bytes := bs "abcdef".
Definition data : RowData := default [] (to_option (get_staking_message (E := unit) wallet test_amount)).
Definition received : OnChainTableBytes :=
  default (mkOnChainTableBytes []) (to_option (record_batch_to_onchain data)).
Definition table : OnChainTable := default [] (to_option (on_chain_table_try_from_bytes received)).

Lemma staking_message_refused_witness :
  process_system_table STAKED_TABLE table sample_storage = (refused_row sample_storage, Ok tt).
Proof.
  apply (staking_message_refused (E := unit) wallet test_amount data received table sample_storage).
  - unfold test_amount. lia.
  - vm_compute. reflexivity.
  - vm_compute. reflexivity.
  - vm_compute. reflexivity.
Defined.

Definition keys_data : RowData := default [] (to_option (get_session_keys_message (E := unit) wallet (bs "0102"))).
Definition keys_received : OnChainTableBytes :=
  default (mkOnChainTableBytes []) (to_option (record_batch_to_onchain keys_data)).
Definition keys_table : OnChainTable := default [] (to_option (on_chain_table_try_from_bytes keys_received)).

Lemma session_keys_message_refused_witness :
  process_system_table MESSAGE_TABLE keys_table sample_storage = (refused_row sample_storage, Ok tt).
Proof.
  apply (session_keys_message_refused (E := unit) wallet (bs "0102") keys_data keys_received keys_table sample_storage);
    vm_compute; reflexivity.
Defined.
End ChainUtilsExamples.
