(* ===== verification/LoadTables.v ===== *)
(** * chain-utils: load-tables

    The command of chain-utils/src/load_tables.rs that reads table definitions from a file
    and submits them to the chain in one transaction, with the connection and the nonce of
    chain-utils/src/common.rs.  Theorems: the command sends exactly one transaction, with the
    nonce of the account and with the definitions of the file in their order, and its result
    does not tell whether the transaction succeeded; and with the pallet of tables at the
    other end, a transaction that succeeds registers every definition under the first two
    parts of its name. *)

From stdpp Require Import base tactics option gmap strings numbers list.
From Stdlib Require Import ZArith Lia.
From Stdlib Require Import Strings.Byte.
From S2P Require Import Prelude Bytes Text Types IgniteConversion CommitmentScheme CommitmentMap OnChainTable SqlAst.
From S2P Require Import TablesSql ProofOfSql PlainCommitment CommitmentSql Runtime Sample PalletPermissions PalletTables KeyFiles.

(** ** The code's dependencies *)

(** [sqlparser::ast::Statement], of which only the definitions of tables are looked at, and
    the parser of the generic dialect. *)
Inductive Statement :=
| CreateTableStatement (table : CreateTableBuilder)
| OtherStatement (text : bytes).
Class StatementParser := { parse_statements : bytes -> option (list Statement) }.

(** [Keypair::from_uri]. *)
Class KeypairUri `{Sr25519} := { keypair_from_uri : bytes -> option Keypair }.

(** The client: the connection, the account's nonce, and a transaction that is signed,
    submitted and followed until it is finalized. *)
Class LoadClient `{Sr25519} := {
  LoadState : Type;
  create_client : bytes -> M LoadState unit unit;
  account_info_nonce : bytes -> M LoadState unit (option Z);
  submit_create_tables : Keypair -> Z -> list UpdateTable -> M LoadState unit unit;
}.

(** ** common.rs and load_tables.rs *)

(** The state of the client and the transactions that were sent. *)
Record LoadWorld `{LoadClient} := mkLoadWorld {
  load_state : LoadState;
  load_sent : list (Z * list UpdateTable * bool);
}.

Section load_tables.
Context `{SqlParser} `{StatementParser} `{Sr25519} `{!KeypairUri} `{!LoadClient} (files : Files).

Inductive LoadError := InvalidKey | FileError | ParseError | ConnectError.

Definition load_call {E A} (m : M LoadState E A) : M LoadWorld E A := fun w =>
  let '(c, o) := m (load_state w) in (mkLoadWorld _ _ c (load_sent w), o).
Definition log_load (t : Z * list UpdateTable * bool) (w : LoadWorld) : LoadWorld :=
  mkLoadWorld _ _ (load_state w) (load_sent w ++ [t]).

(** The reads are unwrapped. *)
Definition get_starting_nonce {E} (id : bytes) : M LoadWorld E Z :=
  let* account_info := mtry (load_call (account_info_nonce id)) in
  match account_info with
  | inl account_info => mret (default 0 account_info)
  | inr _ => mpanic
  end.

Definition extract_table_data (statement : Statement) : option UpdateTable :=
  match statement with
  | CreateTableStatement table =>
      name ← table_name table !! 1%nat;
      namespace ← head (table_name table);
      Some (mkUpdateTable (mkTableIdentifier (ident_value name) (ident_value namespace))
        (print_create_table table) (Testing (mkInsertQuorumSize None (Some 0)))
        (EmptyCommitment (mkFlags true true)) Sepolia)
  | OtherStatement _ => None
  end.

Definition send_to_substrate {E} (statements : list Statement) (keypair : Keypair) (nonce : Z)
    : M LoadWorld E unit :=
  let table_data := omap extract_table_data statements in
  let* r := mtry (load_call (submit_create_tables keypair nonce table_data)) in
  mmodify (log_load (nonce, table_data, match r with inl _ => true | inr _ => false end)).

Definition load_tables (file private_key rpc : bytes) : M LoadWorld LoadError unit :=
  let* signer := mlift (ok_or (keypair_from_uri private_key) InvalidKey) in
  let* ddl_content := mlift (ok_or (read_to_string files file) FileError) in
  let fixed_ddl := convert_ignite_create_statement ddl_content in
  let* statements := mlift (ok_or (parse_statements fixed_ddl) ParseError) in
  mmap_err (fun _ => ConnectError) (load_call (create_client rpc)) ;;;
  let* nonce_start := get_starting_nonce (to_account_id signer) in
  send_to_substrate statements signer nonce_start.
End load_tables.

(** ** Theorems *)

(** Calls of the client return. *)
Class LoadClientLaws `{LoadClient} := {
  create_client_returns rpc c : snd (create_client rpc c) <> Panic;
  submit_returns k n l c : snd (submit_create_tables k n l c) <> Panic;
}.

Section theorems.
Context `{SqlParser} `{StatementParser} `{Sr25519} `{!KeypairUri} `{!LoadClient} `{!LoadClientLaws}
  (files : Files).

(** When the key, the file and the connection are good and the nonce can be read, exactly
    one transaction is sent, with this nonce and the definitions of the file that have a
    name of two parts or more, in their order; the command succeeds, whether or not the
    transaction does. *)
Theorem load_tables_spec file private_key rpc signer content statements w c1 c2 n :
  keypair_from_uri private_key = Some signer -> read_to_string files file = Some content ->
  parse_statements (convert_ignite_create_statement content) = Some statements ->
  create_client rpc (load_state w) = (c1, Ok tt) ->
  account_info_nonce (to_account_id signer) c1 = (c2, Ok n) ->
  let l := omap extract_table_data statements in
  let r := submit_create_tables signer (default 0 n) l c2 in
  load_tables files file private_key rpc w =
    (mkLoadWorld _ _ (fst r) (load_sent w ++ [(default 0 n, l, is_ok (snd r))]), Ok tt).
Proof.
  intros Hk Hf Hp Hc Hn l r. unfold load_tables, mlift, mret, mmap_err, mbind.
  rewrite Hk, Hf. cbn [ok_or]. rewrite Hp. cbn [ok_or]. unfold load_call at 1. rewrite Hc. cbn [map_err].
  unfold get_starting_nonce, mbind, mtry, load_call. cbn [load_state]. rewrite Hn. cbn [mret].
  unfold send_to_substrate, mbind, mtry, load_call. cbn [load_state load_sent].
  pose proof (submit_returns signer (default 0 n) l c2) as Hr. subst r. fold l.
  by destruct (submit_create_tables signer (default 0 n) l c2) as [c3 [[]|[]|]].
Qed.

(** A statement is left out exactly if it defines no table or its name has one part. *)
Theorem extract_table_data_none statement :
  extract_table_data statement = None <->
  forall table, statement = CreateTableStatement table -> (length (table_name table) <= 1)%nat.
Proof.
  destruct statement as [t|t]; cbn [extract_table_data]; [|done].
  destruct (table_name t) as [|a [|b r]] eqn:Ht; cbn.
  - split; [|done]. intros _ t' [= <-]. rewrite Ht. cbn. lia.
  - split; [|done]. intros _ t' [= <-]. rewrite Ht. cbn. lia.
  - split; [done|]. intros Hl. specialize (Hl t eq_refl). rewrite Ht in Hl. cbn in Hl. lia.
Qed.
End theorems.

(** The chain at the other end: a transaction runs the call of the pallet of tables for the
    account of the key. *)
Class RunsTables `{Config} `{UnicodeData} `{SqlParser} `{UuidRng} `{ProofOfSql} `{LoadClient}
    (setups : PerCommitmentScheme PublicSetup) (account : Keypair -> AccountId) := {
  chain_storage : LoadState -> Storage;
  submission_runs k n l c c' :
    submit_create_tables k n l c = (c', Ok tt) ->
    dispatch_tables setups (Signed (account k)) (CreateTables l) (chain_storage c) =
      (chain_storage c', Ok tt);
}.

(** C25: After a run whose transaction succeeded, every definition of the file whose name has two
    parts or more is registered on the chain under the first two, and no other table has
    changed. *)
Theorem loaded_tables_registered `{Config} `{UnicodeLaws} `{SqlParser} `{UuidRng} `{ProofOfSqlLaws}
    `{StatementParser} `{Sr25519} `{!KeypairUri} `{!LoadClient} `{!LoadClientLaws} setups account
    `{!RunsTables setups account} files file private_key rpc signer content statements w c1 c2 n :
  keypair_from_uri private_key = Some signer -> read_to_string files file = Some content ->
  parse_statements (convert_ignite_create_statement content) = Some statements ->
  create_client rpc (load_state w) = (c1, Ok tt) ->
  account_info_nonce (to_account_id signer) c1 = (c2, Ok n) ->
  let w' := fst (load_tables files file private_key rpc w) in
  (snd <$> last (load_sent w')) = Some true ->
  (forall table name namespace rest,
     CreateTableStatement table ∈ statements -> table_name table = namespace :: name :: rest ->
     registered (tables (chain_storage (load_state w')))
       (mkTableIdentifier (ident_value name) (ident_value namespace))) /\
  (forall id, id ∉ ident <$> omap extract_table_data statements ->
     same_table (tables (chain_storage c2)) (tables (chain_storage (load_state w'))) id).
Proof.
  intros Hk Hf Hp Hc Hn. cbv zeta.
  rewrite (load_tables_spec files _ _ _ _ _ _ _ _ _ _ Hk Hf Hp Hc Hn). cbn [fst load_state load_sent].
  rewrite last_snoc. cbn [fmap option_fmap option_map snd].
  destruct (submit_create_tables signer _ _ c2) as [c3 [[]|e|]] eqn:Hs; cbn [snd is_ok fst]; [|done..].
  intros _. apply submission_runs in Hs. apply create_tables_registers in Hs as (_ & Hreg & Hsame & _).
  split; [|exact Hsame]. intros t name namespace rest Hin Ht.
  set (u := mkUpdateTable (mkTableIdentifier (ident_value name) (ident_value namespace))
    (print_create_table t) (Testing (mkInsertQuorumSize None (Some 0)))
    (EmptyCommitment (mkFlags true true)) Sepolia).
  apply (Hreg u). apply list_elem_of_omap. exists (CreateTableStatement t). split; [done|].
  cbn [extract_table_data]. by rewrite Ht.
Qed.

(** ** Examples *)

Module LoadTablesExamples.
#[local] Existing Instance sample_config.
#[local] Existing Instance ascii_unicode.
#[local] Existing Instance ascii_unicode_laws.
#[local] Existing Instance plain_proof_of_sql.
#[local] Existing Instance plain_laws.
#[local] Existing Instance mini_sql.
#[local] Existing Instance plain_rng.
#[local] Existing Instance bytes_keypair.

#[local] Instance mini_statements : StatementParser := {|
  parse_statements s :=
    Some ((fun t => match mini_parse t with
                    | Some table => CreateTableStatement table
                    | None => OtherStatement t
                    end) <$> str_split ";"%byte s);
|}.
#[local] Instance any_uri : KeypairUri := {| keypair_from_uri u := Some u |}.

(** A chain that alice may change the tables of. *)
Definition key_account (k : Keypair) : AccountId := alice.
#[local] Instance tables_client : LoadClient := {|
  LoadState := Storage;
  create_client _ s := (s, Ok tt);
  account_info_nonce _ s := (s, Ok (Some 4));
  submit_create_tables k n l s :=
    match dispatch_tables sample_setups (Signed (key_account k)) (CreateTables l) s with
    | (s', Ok tt) => (s', Ok tt)
    | _ => (s, Err tt)
    end;
|}.
#[local] Instance tables_client_laws : LoadClientLaws.
Proof.
  split; cbn; [done|]. intros k n l c. by destruct (dispatch_tables _ _ _ c) as [s' [[]|e|]].
Qed.
#[local] Instance tables_client_runs : RunsTables sample_setups key_account.
Proof.
  unshelve econstructor; [exact (fun s => s)|]. cbn. intros k n l c c'.
  destruct (dispatch_tables _ _ _ c) as [s' [[]|e|]]; by intros [= <-].
Defined.

Definition ddl : bytes := bs "CREATE TABLE ETHEREUM.BLOCKS (BLOCK_NUMBER,SIZE);CREATE TABLE ALONE (A);SELECT".
Definition ddl_files : Files := fun _ => Some ddl.
Definition ddl_statements : list Statement := default [] (parse_statements ddl).
Definition blocks_definition : CreateTableBuilder :=
  mkCreateTable [Ident_new (bs "ETHEREUM"); Ident_new (bs "BLOCKS")]
    [mini_column (bs "BLOCK_NUMBER"); mini_column (bs "SIZE")] [] [].
Definition may_edit : Storage :=
  with_permissions (pallet_permissions.mkStorage _ {[ alice := [TablesPallet EditSchema] ]}) sample_storage.
Definition load_world : LoadWorld := mkLoadWorld _ tables_client may_edit [].
Definition loaded : LoadWorld := fst (load_tables ddl_files (bs "ddl.sql") (bs "//Alice") (bs "ws") load_world).

Lemma ddl_read : read_to_string ddl_files (bs "ddl.sql") = Some ddl.
Proof. vm_compute. reflexivity. Qed.
Lemma ddl_parsed : parse_statements (convert_ignite_create_statement ddl) = Some ddl_statements.
Proof. vm_compute. reflexivity. Qed.
Lemma ddl_defines : ddl_statements = CreateTableStatement blocks_definition :: tl ddl_statements.
Proof. vm_compute. reflexivity. Qed.
Lemma ddl_accepted : (snd <$> last (load_sent loaded)) = Some true.
Proof.
  assert (match last (load_sent loaded) with Some t => snd t | None => false end = true) as Hl
    by (vm_compute; reflexivity).
  destruct (last (load_sent loaded)) as [[t []]|]; done.
Qed.

Lemma loaded_tables_registered_witness :
  registered (tables (chain_storage (load_state loaded))) blocks.
Proof.
  destruct (loaded_tables_registered sample_setups key_account ddl_files (bs "ddl.sql") (bs "//Alice")
    (bs "ws") (bs "//Alice") ddl ddl_statements load_world may_edit may_edit (Some 4)) as [Hreg _];
    [reflexivity|exact ddl_read|exact ddl_parsed|reflexivity|reflexivity|exact ddl_accepted|].
  apply (Hreg blocks_definition (Ident_new (bs "BLOCKS")) (Ident_new (bs "ETHEREUM")) []); [|reflexivity].
  rewrite ddl_defines. left.
Defined.

(** Of a name with a catalog, the catalog is taken for the schema and the schema for the
    table. *)
Example catalog_taken_for_schema :
  ident <$> extract_table_data (CreateTableStatement (mkCreateTable
    [Ident_new (bs "CATALOG"); Ident_new (bs "ETHEREUM"); Ident_new (bs "BLOCKS")] [] [] [])) =
  Some (mkTableIdentifier (bs "ETHEREUM") (bs "CATALOG")).
Proof. reflexivity. Qed.
End LoadTablesExamples.
