(* ===== verification/CommitGrouper.v ===== *)
(** * utils/commit-grouper

    The tool that collects the commitments of tables from files, each named after its
    table and scheme.  Reading a file and expanding a pattern are parameters.  Theorems:
    which files are read as a commitment and as which; that the name of a file made of a
    namespace, a table and a scheme without hyphens is read back as these; and that the
    whole collection panics as soon as one matching file is not of this form. *)

From stdpp Require Import base tactics option gmap strings numbers list.
From Stdlib Require Import ZArith Lia.
From Stdlib Require Import Strings.Byte.
From S2P Require Import Prelude Bytes Text Types CommitmentScheme CommitmentMap Native.

Inductive CommitmentParserError :=
| NoFileNameError
| FileNameFormatError
| ErrorReadingCommitmentFile
| BoundedVecError
| TableNamespaceError
| TableNameError
| InvalidCommitmentScheme
| GlobError
| NoCommitsFoundError.

Record SingleCommit := mkSingleCommit {
  commit_ident : TableIdentifier;
  single_commit : TableCommitmentBytesPerCommitmentScheme;
}.

(** [Path::file_name]: the last component, if it is a name. *)
Definition path_file_name (p : bytes) : option bytes :=
  match last (filter (fun c => c <> [] /\ c <> bs ".") (str_split "/"%byte p)) with
  | Some name => if bool_decide (name = bs "..") then None else Some name
  | None => None
  end.

Section grouper.
(** [std::fs::read] and [glob::glob]. *)
Context (fs_read : bytes -> option bytes) (glob : bytes -> option (list (option bytes))).

(** The place of a commitment by the name of its scheme. *)
Definition commit_of_scheme (scheme : bytes) (commit_data : TableCommitmentBytes)
    : option TableCommitmentBytesPerCommitmentScheme :=
  if bool_decide (scheme = bs "dynamic_dory") then Some (mkPer None (Some commit_data))
  else if bool_decide (scheme = bs "dory") then Some (mkPer None (Some commit_data))
  else if bool_decide (scheme = bs "hyper_kzg") then Some (mkPer (Some commit_data) None)
  else None.

Definition single_commit_from_path_buf (p : bytes) : outcome CommitmentParserError SingleCommit :=
  let? file_name := ok_or (path_file_name p) NoFileNameError in
  let file_name := from_utf8_lossy file_name in
  match str_split "-"%byte file_name with
  | [_; namespace; name; scheme; _] =>
      let? commit_data := ok_or (fs_read p) ErrorReadingCommitmentFile in
      let? commit_data := ok_or (try_from_large TABLE_COMMITMENT_MAX_LENGTH commit_data) BoundedVecError in
      let? commit := ok_or (commit_of_scheme scheme (mkTableCommitmentBytes commit_data)) InvalidCommitmentScheme in
      let? namespace := ok_or (try_from_bounded IDENT_LENGTH namespace) TableNamespaceError in
      let? name := ok_or (try_from_bounded IDENT_LENGTH name) TableNameError in
      Ok (mkSingleCommit (mkTableIdentifier name namespace) commit)
  | _ => Err FileNameFormatError
  end.

Definition parse_commits_from_glob (pattern : bytes)
    : outcome CommitmentParserError (list (TableIdentifier * TableCommitmentBytesPerCommitmentScheme)) :=
  let? paths := unwrap_option (glob pattern) in
  let? commits := collect (fun pathbuf =>
      let? c := unwrap (single_commit_from_path_buf pathbuf) in
      Ok (commit_ident c, single_commit c)) (omap id paths) in
  match commits with
  | [] => Err NoCommitsFoundError
  | _ => Ok commits
  end.

(** ** Theorems *)

Definition commit_file_name (prefix namespace name scheme rest : bytes) : bytes :=
  prefix ++ "-"%byte :: namespace ++ "-"%byte :: name ++ "-"%byte :: scheme ++ "-"%byte :: rest.

Lemma path_file_name_join dir file :
  "/"%byte ∉ file -> file <> [] -> file <> bs "." -> file <> bs ".." ->
  path_file_name (dir ++ "/"%byte :: file) = Some file.
Proof.
  intros Hs Hne Hd Hdd. unfold path_file_name.
  rewrite str_split_app, (str_split_none _ file) by done.
  rewrite filter_app, filter_cons_True, filter_nil, last_snoc by done.
  by rewrite bool_decide_false.
Qed.

(** A file that is named after a table and a scheme, in parts without hyphens, and that
    is not too large, is read as the commitment of this table for this scheme, with no
    commitment for the other. *)
Theorem commit_file_round_trip dir prefix namespace name scheme rest content commit :
  Forall (fun part => "-"%byte ∉ part /\ "/"%byte ∉ part) [prefix; namespace; name; scheme; rest] ->
  utf8_valid (commit_file_name prefix namespace name scheme rest) = true ->
  (length namespace <= IDENT_LENGTH)%nat -> (length name <= IDENT_LENGTH)%nat ->
  fs_read (dir ++ "/"%byte :: commit_file_name prefix namespace name scheme rest) = Some content ->
  Z.of_nat (length content) <= TABLE_COMMITMENT_MAX_LENGTH ->
  commit_of_scheme scheme (mkTableCommitmentBytes content) = Some commit ->
  single_commit_from_path_buf (dir ++ "/"%byte :: commit_file_name prefix namespace name scheme rest) =
  Ok (mkSingleCommit (mkTableIdentifier name namespace) commit).
Proof.
  clear glob. intros Hparts Hutf Hns Hname Hread Hlen Hscheme. rewrite !Forall_cons in Hparts. destruct_and?.
  assert ("-"%byte ∈ commit_file_name prefix namespace name scheme rest) as Hin by (unfold commit_file_name; set_solver).
  unfold single_commit_from_path_buf. rewrite path_file_name_join; cycle 1.
  { unfold commit_file_name. set_solver. }
  { intros Heq. rewrite Heq in Hin. by apply not_elem_of_nil in Hin. }
  { intros Heq. rewrite Heq in Hin. revert Hin. apply (bool_decide_unpack _). vm_compute. exact I. }
  { intros Heq. rewrite Heq in Hin. revert Hin. apply (bool_decide_unpack _). vm_compute. exact I. }
  cbn [ok_or obind]. rewrite from_utf8_lossy_valid by done. unfold commit_file_name at 1.
  rewrite !str_split_app, !str_split_none by done. cbn [app]. rewrite Hread. cbn [ok_or obind].
  rewrite (proj2 (try_from_large_some _ content content)) by done. cbn [ok_or obind]. rewrite Hscheme. cbn [ok_or obind].
  rewrite (proj2 (try_from_bounded_some _ namespace namespace)) by done. cbn [ok_or obind].
  by rewrite (proj2 (try_from_bounded_some _ name name)).
Qed.

(** Every commitment that is read is for exactly one scheme, of a table whose names fit
    their types. *)
Theorem single_commit_ok p c :
  single_commit_from_path_buf p = Ok c ->
  (exists content, fs_read p = Some content /\ Z.of_nat (length content) <= TABLE_COMMITMENT_MAX_LENGTH /\
    (single_commit c = mkPer None (Some (mkTableCommitmentBytes content)) \/
     single_commit c = mkPer (Some (mkTableCommitmentBytes content)) None)) /\
  (length (name (commit_ident c)) <= IDENT_LENGTH)%nat /\ (length (namespace (commit_ident c)) <= IDENT_LENGTH)%nat.
Proof.
  unfold single_commit_from_path_buf. intros (f & _ & Hc)%obind_ok.
  destruct (str_split _ _) as [|x0 [|ns [|nm [|sch [|x4 [|? ?]]]]]]; try done.
  apply obind_ok in Hc as (content & Hread%ok_or_ok & Hc).
  apply obind_ok in Hc as (content' & [-> Hlen]%ok_or_ok%try_from_large_some & Hc).
  apply obind_ok in Hc as (commit & Hcommit%ok_or_ok & Hc).
  apply obind_ok in Hc as (ns' & [-> Hns]%ok_or_ok%try_from_bounded_some & Hc).
  apply obind_ok in Hc as (nm' & [-> Hnm]%ok_or_ok%try_from_bounded_some & [= <-]).
  split_and!; [|done|done]. exists content. split_and!; [done|done|]. cbn. unfold commit_of_scheme in Hcommit.
  repeat case_bool_decide; simplify_eq; eauto.
Qed.

Lemma single_commit_returns p : single_commit_from_path_buf p <> Panic.
Proof.
  unfold single_commit_from_path_buf. destruct (path_file_name p); [|done]. cbn [ok_or obind].
  destruct (str_split _ _) as [|? [|? [|? [|? [|? [|? ?]]]]]]; try done.
  repeat (apply obind_not_panic; [apply ok_or_no_panic|intros ? _]). done.
Qed.

(** The collection has a commitment for every matching file, in their order; it panics
    as soon as one of them cannot be read as a commitment, although it returns errors. *)
Theorem collection_spec pattern paths :
  glob pattern = Some paths ->
  match parse_commits_from_glob pattern with
  | Ok commits => commits <> [] /\
      Forall2 (fun p c => single_commit_from_path_buf p = Ok (mkSingleCommit c.1 c.2)) (omap id paths) commits
  | Err e => e = NoCommitsFoundError /\ omap id paths = []
  | Panic => exists p e, p ∈ omap id paths /\ single_commit_from_path_buf p = Err e
  end.
Proof.
  intros Hg. unfold parse_commits_from_glob. rewrite Hg. cbn [unwrap_option obind].
  set (f := fun pathbuf => let? c := unwrap (single_commit_from_path_buf pathbuf) in Ok (commit_ident c, single_commit c)).
  change (collect _ (omap id paths)) with (collect f (omap id paths)).
  destruct (collect f (omap id paths)) as [commits|e|] eqn:Hc; cbn [obind].
  - apply collect_ok in Hc.
    assert (Forall2 (fun p c => single_commit_from_path_buf p = Ok (mkSingleCommit c.1 c.2)) (omap id paths) commits) as Hall.
    { eapply Forall2_impl; [exact Hc|]. intros p c. unfold f. destruct (single_commit_from_path_buf p) as [[i s]| |]; cbn; by intros [= <-]. }
    destruct commits; [|done]. split; [done|]. by inversion Hall.
  - apply collect_err in Hc as (p & _ & Hf). unfold f in Hf. by destruct (single_commit_from_path_buf p).
  - apply collect_panic in Hc as (p & Hp & Hf). unfold f in Hf. exists p.
    pose proof (single_commit_returns p). destruct (single_commit_from_path_buf p) as [c|e|]; [done|by eauto|done].
Qed.
End grouper.

(** ** An example *)

Module GrouperExamples.
Definition file : bytes := commit_file_name [] (bs "ETHEREUM") (bs "BLOCKS") (bs "dory") (bs "commitment.txt").
Definition path : bytes := bs "testing" ++ "/"%byte :: file.
Definition fs (p : bytes) : option bytes := if bool_decide (p = path) then Some (bs "data") else None.
Definition commit : TableCommitmentBytesPerCommitmentScheme :=
  @mkPer (OptionType (ConcreteType TableCommitmentBytes)) None (Some (mkTableCommitmentBytes (bs "data"))).

Lemma commit_file_round_trip_witness :
  single_commit_from_path_buf fs path = Ok (mkSingleCommit (mkTableIdentifier (bs "BLOCKS") (bs "ETHEREUM")) commit).
Proof.
  apply (commit_file_round_trip fs (bs "testing") [] (bs "ETHEREUM") (bs "BLOCKS") (bs "dory")
    (bs "commitment.txt") (bs "data") commit).
  - apply (bool_decide_unpack _). vm_compute. exact I.
  - vm_compute. reflexivity.
  - apply Nat.leb_le. vm_compute. reflexivity.
  - apply Nat.leb_le. vm_compute. reflexivity.
  - vm_compute. reflexivity.
  - vm_compute. congruence.
  - vm_compute. reflexivity.
Defined.

Lemma single_commit_ok_witness : exists content, fs path = Some content.
Proof.
  destruct (single_commit_ok fs path (mkSingleCommit (mkTableIdentifier (bs "BLOCKS") (bs "ETHEREUM")) commit))
    as [(content & Hc & _) _]; [vm_compute; reflexivity|]. by exists content.
Defined.

Definition globbed (pattern : bytes) : option (list (option bytes)) := Some [Some path; None; Some (bs "testing/notes.txt")].

(** One file of another form makes the collection panic. *)
Lemma collection_spec_witness : exists p e, single_commit_from_path_buf fs p = Err e.
Proof.
  pose proof (collection_spec fs globbed (bs "testing/*") _ eq_refl) as Hs.
  assert (parse_commits_from_glob fs globbed (bs "testing/*") = Panic) as Hp by (vm_compute; reflexivity).
  rewrite Hp in Hs. destruct Hs as (p & e & _ & He). by exists p, e.
Defined.

(** A table name with a hyphen is not of the form. *)
Example hyphen_refused :
  single_commit_from_path_buf fs (bs "testing/-ETHEREUM-MY-TABLE-dory-commitment.txt") = Err FileNameFormatError.
Proof. vm_compute. reflexivity. Qed.
End GrouperExamples.
