(* ===== verification/Canary.v ===== *)
(** * canaries

    The monitor in canaries/src/main.rs: it listens to the finalized blocks of the
    chain, counts the events of seven kinds, and at every new session sets four
    gauges for the era before: the annualized reward rate, the total stake, the
    reward and the multiplier.  Numbers of type f64 are the IEEE 754 numbers of
    [SpecFloat], with 53 bits of precision.  Theorems: the counters are the numbers of
    events in the blocks received; the four gauges of an era are set together and the
    rate is computed from the other three; and with a positive multiplier no gauge is
    ever negative or not a number. *)

From stdpp Require Import base tactics option gmap strings numbers list.
From Stdlib Require Import ZArith Lia.
From Stdlib Require Import Floats.SpecFloat.
From Stdlib Require Import Strings.Byte.
From S2P Require Import Prelude Bytes Text Inflation.

(** ** f64 *)

Notation f64 := spec_float (only parsing).
Definition f64_prec : Z := 53.
Definition f64_emax : Z := 1024.
(** [z as f64] for an unsigned integer: rounded to nearest, ties to even. *)
Definition as_f64 (z : Z) : f64 := binary_normalize f64_prec f64_emax z 0 false.
Definition f64_div (x y : f64) : f64 := SFdiv f64_prec f64_emax x y.
Definition f64_mul (x y : f64) : f64 := SFmul f64_prec f64_emax x y.

(** ** The code's dependencies *)

(** The events of a block that the canary looks at. *)
Inductive CanaryEvent :=
| EvBlockAttested
| EvDataSubmitted
| EvQuorumReached
| EvEraPaid
| EvPayoutError
| EvSetupError
| EvPayout
| EvNewSession (session_index : Z)
| EvUnwatched.

#[global] Instance CanaryEvent_eq_dec : EqDecision CanaryEvent.
Proof. solve_decision. Defined.

(** The [subxt] client: the events of a block, and three reads of the staking pallet at a
    block. *)
Class CanaryClient := {
  CanaryApi : Type;
  CanaryBlock : Type;
  canary_block_events : CanaryBlock -> M CanaryApi unit (list CanaryEvent);
  active_era : CanaryBlock -> M CanaryApi unit (option Z);
  eras_validator_reward : CanaryBlock -> Z -> M CanaryApi unit (option Z);
  eras_total_stake : CanaryBlock -> Z -> M CanaryApi unit (option Z);
}.

(** ** The process *)

Record Metrics `{CanaryClient} := mkMetrics {
  canary_api : CanaryApi;
  EVENT_COUNTER : gmap bytes Z;
  REWARD_RATE : gmap bytes f64;
  TOTAL_STAKED : gmap bytes f64;
  VALIDATOR_REWARD : gmap bytes f64;
  ANNUALIZER : gmap bytes f64;
}.

Section canary.
Context `{CanaryClient}.
Implicit Types (w : Metrics).

Definition set_api a w := mkMetrics _ a (EVENT_COUNTER w) (REWARD_RATE w) (TOTAL_STAKED w) (VALIDATOR_REWARD w) (ANNUALIZER w).
Definition set_counter m w := mkMetrics _ (canary_api w) m (REWARD_RATE w) (TOTAL_STAKED w) (VALIDATOR_REWARD w) (ANNUALIZER w).
Definition set_reward_rate m w := mkMetrics _ (canary_api w) (EVENT_COUNTER w) m (TOTAL_STAKED w) (VALIDATOR_REWARD w) (ANNUALIZER w).
Definition set_total_staked m w := mkMetrics _ (canary_api w) (EVENT_COUNTER w) (REWARD_RATE w) m (VALIDATOR_REWARD w) (ANNUALIZER w).
Definition set_validator_reward m w := mkMetrics _ (canary_api w) (EVENT_COUNTER w) (REWARD_RATE w) (TOTAL_STAKED w) m (ANNUALIZER w).
Definition set_annualizer m w := mkMetrics _ (canary_api w) (EVENT_COUNTER w) (REWARD_RATE w) (TOTAL_STAKED w) (VALIDATOR_REWARD w) m.

Definition call {A} (m : M CanaryApi unit A) : M Metrics unit A := fun w =>
  let '(a, o) := m (canary_api w) in (set_api a w, o).

(** [fetch_events::<T>(&block).await.unwrap_or_default()]. *)
Definition fetch_events_or_default {T} (as_event : CanaryEvent -> option T) (block : CanaryBlock)
    : M Metrics unit (list T) :=
  let* r := mtry (call (canary_block_events block)) in
  match r with
  | inl events => mret (omap as_event events)
  | inr _ => mret []
  end.

Definition is_event (e e' : CanaryEvent) : option unit := if decide (e' = e) then Some tt else None.
Definition as_new_session (e : CanaryEvent) : option Z :=
  match e with EvNewSession session_index => Some session_index | _ => None end.

(** [with_label_values(&[label]).inc_by(n)] of an atomic [u64]. *)
Definition inc_by (label : bytes) (n : nat) : M Metrics unit unit :=
  mmodify (fun w => set_counter
    (<[label := (default 0 (EVENT_COUNTER w !! label) + Z.of_nat n) mod 2 ^ 64]> (EVENT_COUNTER w)) w).

(** The gauges of the era before the active one. *)
Definition set_gauges (annualizer : f64) (prev_era era_reward total_staked : Z) : M Metrics unit unit :=
  let reward_rate := f64_div (as_f64 era_reward) (as_f64 total_staked) in
  let annualized_rate := f64_mul reward_rate annualizer in
  let era_label := dec_bytes prev_era in
  mmodify (fun w => set_reward_rate (<[era_label := f64_mul annualized_rate (as_f64 100)]> (REWARD_RATE w)) w) ;;;
  mmodify (fun w => set_total_staked (<[era_label := as_f64 total_staked]> (TOTAL_STAKED w)) w) ;;;
  mmodify (fun w => set_validator_reward (<[era_label := as_f64 era_reward]> (VALIDATOR_REWARD w)) w) ;;;
  mmodify (fun w => set_annualizer (<[era_label := annualizer]> (ANNUALIZER w)) w).

(** The part of [process_block] after a new session; a read that fails or finds nothing
    ends it. *)
Definition observe_era (annualizer : f64) (block : CanaryBlock) : M Metrics unit unit :=
  let* era := mtry (call (active_era block)) in
  match era with
  | inl (Some active_era) =>
      let prev_era := Z.max 0 (active_era - 1) in
      let* reward := mtry (call (eras_validator_reward block prev_era)) in
      match reward with
      | inl (Some era_reward) =>
          let* stake := mtry (call (eras_total_stake block prev_era)) in
          match stake with
          | inl (Some total_staked) =>
              if total_staked =? 0 then mret tt
              else set_gauges annualizer prev_era era_reward total_staked
          | _ => mret tt
          end
      | _ => mret tt
      end
  | _ => mret tt
  end.

Definition canary_process_block (annualizer : f64) (block : CanaryBlock) : M Metrics unit unit :=
  let* attested := fetch_events_or_default (is_event EvBlockAttested) block in
  let* submitted := fetch_events_or_default (is_event EvDataSubmitted) block in
  let* quorum := fetch_events_or_default (is_event EvQuorumReached) block in
  let* era_paid := fetch_events_or_default (is_event EvEraPaid) block in
  let* payout_error := fetch_events_or_default (is_event EvPayoutError) block in
  let* setup_error := fetch_events_or_default (is_event EvSetupError) block in
  let* payout := fetch_events_or_default (is_event EvPayout) block in
  inc_by (bs "BlockAttested") (length attested) ;;;
  inc_by (bs "DataSubmitted") (length submitted) ;;;
  inc_by (bs "QuorumReached") (length quorum) ;;;
  inc_by (bs "EraPaid") (length era_paid) ;;;
  inc_by (bs "SetupError") (length setup_error) ;;;
  inc_by (bs "PayoutError") (length payout_error) ;;;
  inc_by (bs "Payout") (length payout) ;;;
  let* session_events := fetch_events_or_default as_new_session block in
  match head session_events with
  | Some _ => observe_era annualizer block
  | None => mret tt
  end.

(** *** event-forwarder/src/chain_listener.rs *)

(** [ChainListener::run] on a subscription: a stream of blocks and errors. *)
Definition listener_run (process_block : CanaryBlock -> M Metrics unit unit)
    (block_stream : outcome unit (list (outcome unit CanaryBlock))) : M Metrics unit unit :=
  match block_stream with
  | Ok block_sub =>
      miter (fun block => match block with Ok block => process_block block | _ => mret tt end) block_sub
  | _ => mret tt
  end.

(** The canary of [main], on the finalized blocks that the subscription gives. *)
Definition canary_main (annualizer : f64)
    (subscribe_finalized : outcome unit (list (outcome unit CanaryBlock))) : M Metrics unit unit :=
  listener_run (canary_process_block annualizer) subscribe_finalized.
End canary.

(** The default of the [annualizer] option. *)
Definition DEFAULT_ANNUALIZER : f64 := as_f64 8760.

(** ** Arithmetic of f64 *)

(** Not negative and not NaN; and a positive finite number. *)
Definition nonneg (x : f64) : bool :=
  match x with
  | S754_zero sign | S754_infinity sign | S754_finite sign _ _ => negb sign
  | S754_nan => false
  end.
Definition positive_finite (x : f64) : bool :=
  match x with S754_finite false _ _ => true | _ => false end.

Lemma shr_1_half r : 0 <= shr_m r -> shr_m (shr_1 r) = shr_m r / 2.
Proof.
  destruct r as [[|[p|p|]|p] x y]; cbn [shr_1 shr_m]; intros Hm; [done| | |done|lia].
  - replace (Z.pos p~1) with (1 + Z.pos p * 2) by lia. by rewrite Z.div_add by lia.
  - replace (Z.pos p~0) with (Z.pos p * 2) by lia. by rewrite Z.div_mul by lia.
Qed.

Lemma iter_shr p : forall r,
  0 <= shr_m r -> shr_m (iter_pos shr_1 p r) = shr_m r / 2 ^ Z.pos p.
Proof.
  assert (forall n r, 0 <= shr_m r -> 0 <= shr_m r / 2 ^ n) as Hpos.
  { intros n r Hr. destruct (Z.lt_ge_cases n 0); [by rewrite Z.pow_neg_r, Zdiv_0_r|].
    apply Z.div_pos; [done|]. by apply Z.pow_pos_nonneg. }
  induction p as [p IH|p IH|]; intros r Hr; cbn [iter_pos].
  - pose proof (shr_1_half r Hr) as Hh. assert (0 <= shr_m (shr_1 r)) by (rewrite Hh; by apply (Hpos 1)).
    rewrite IH by (rewrite IH by done; by apply Hpos). rewrite IH, Hh by done.
    rewrite !Z.div_div by lia. f_equal.
    replace (Z.pos p~1) with (1 + Z.pos p + Z.pos p) by lia. rewrite !Z.pow_add_r by lia. lia.
  - rewrite IH by (rewrite IH by done; by apply Hpos). rewrite IH by done.
    rewrite Z.div_div by lia. f_equal.
    replace (Z.pos p~0) with (Z.pos p + Z.pos p) by lia. rewrite !Z.pow_add_r by lia. lia.
  - rewrite shr_1_half by done. done.
Qed.

Lemma shr_record_m m l : shr_m (shr_record_of_loc m l) = m.
Proof. by destruct l as [|[]]. Qed.

Lemma round_near m l : m <= round_nearest_even m l <= m + 1.
Proof. destruct l as [|[]]; cbn; [lia| |lia|lia]. destruct (Z.even m); lia. Qed.

Lemma shr_fexp_nonneg m e l : 0 <= m -> 0 <= shr_m (fst (shr_fexp f64_prec f64_emax m e l)).
Proof.
  intros Hm. unfold shr_fexp, shr. destruct (_ - e) as [|p|p]; cbn [fst]; rewrite ?shr_record_m; [done| |done].
  rewrite iter_shr by (by rewrite shr_record_m). rewrite shr_record_m. apply Z.div_pos; [done|lia].
Qed.

Lemma round_aux_nonneg m e l :
  0 <= m -> nonneg (binary_round_aux f64_prec f64_emax false m e l) = true.
Proof.
  intros Hm. unfold binary_round_aux. pose proof (shr_fexp_nonneg m e l Hm) as H1.
  destruct (shr_fexp _ _ m e l) as [r1 e1]. cbn [fst] in H1.
  pose proof (round_near (shr_m r1) (loc_of_shr_record r1)) as Hr.
  set (m2 := round_nearest_even _ _) in *. assert (0 <= m2) as H2 by lia.
  pose proof (shr_fexp_nonneg m2 e1 loc_Exact H2) as H3.
  destruct (shr_fexp _ _ m2 e1 loc_Exact) as [r3 e3]. cbn [fst] in H3.
  destruct (shr_m r3); [done| |lia]. by destruct (_ <=? _).
Qed.

Lemma digits_log2 p : Z.pos (digits2_pos p) = Z.log2 (Z.pos p) + 1.
Proof.
  assert (digits2_pos p = Pos.size p) as ->.
  { induction p as [p IH|p IH|]; cbn; [by rewrite IH..|done]. }
  destruct p; cbn; lia.
Qed.

Lemma digits_bound m k : 0 < m < 2 ^ k -> 0 < Zdigits2 m <= k.
Proof.
  intros [Hm Hk]. destruct m as [|p|p]; [lia| |lia]. cbn [Zdigits2]. rewrite digits_log2.
  pose proof (Z.log2_nonneg (Z.pos p)). apply Z.log2_lt_pow2 in Hk; lia.
Qed.

(** Rounding to the precision leaves a positive number positive. *)
Lemma shr_fexp_pos m e l k :
  0 < m < 2 ^ k -> -1074 <= e ->
  let '(r, e') := shr_fexp f64_prec f64_emax m e l in
  0 < shr_m r <= m /\ e <= e' <= e + k.
Proof.
  intros Hm He. pose proof (digits_bound m k Hm) as Hd. unfold shr_fexp, shr.
  assert (fexp f64_prec f64_emax (Zdigits2 m + e) - e <= Z.max 0 (Zdigits2 m - 1)) as Hn.
  { unfold fexp, emin, f64_prec, f64_emax. lia. }
  set (n := _ - e) in *. clearbody n. destruct n as [|p|p]; rewrite ?shr_record_m; [lia| |lia].
  rewrite iter_shr by (rewrite shr_record_m; lia). rewrite shr_record_m.
  assert (Z.pos p <= Zdigits2 m - 1) as Hp by lia.
  assert (2 ^ Z.pos p <= m) as Hpow.
  { destruct m as [|q|q]; [lia| |lia]. cbn [Zdigits2] in Hp. rewrite digits_log2 in Hp.
    etrans; [apply Z.pow_le_mono_r; [lia|]|apply (Z.log2_spec (Z.pos q))]; lia. }
  assert (0 < 2 ^ Z.pos p) by (apply Z.pow_pos_nonneg; lia).
  split; [split; [by apply Z.div_str_pos|apply Z.div_le_upper_bound; nia]|lia].
Qed.

Lemma round_aux_finite m e l :
  0 < m < 2 ^ 128 -> -1074 <= e <= 700 ->
  positive_finite (binary_round_aux f64_prec f64_emax false m e l) = true.
Proof.
  intros Hm He. unfold binary_round_aux. pose proof (shr_fexp_pos m e l 128 Hm) as H1.
  destruct (shr_fexp _ _ m e l) as [r1 e1]. destruct H1 as [Hr1 He1]; [lia|].
  pose proof (round_near (shr_m r1) (loc_of_shr_record r1)) as Hr.
  set (m2 := round_nearest_even _ _) in *.
  pose proof (shr_fexp_pos m2 e1 loc_Exact 129) as H2.
  destruct (shr_fexp _ _ m2 e1 loc_Exact) as [r2 e2].
  destruct H2 as [Hr2 He2]; [change (2 ^ 129) with (2 * 2 ^ 128); lia|lia|].
  destruct (shr_m r2) as [|p|p]; [lia| |lia].
  replace (e2 <=? f64_emax - f64_prec) with true; [done|].
  symmetry. apply Z.leb_le. unfold f64_emax, f64_prec. lia.
Qed.

(** A positive [u128] is a positive finite number. *)
Lemma as_f64_finite z : 0 < z < 2 ^ 128 -> positive_finite (as_f64 z) = true.
Proof.
  intros Hz. destruct z as [|p|p]; [lia| |lia]. unfold as_f64, binary_normalize, binary_round, shl_align.
  pose proof (digits_bound (Z.pos p) 128 Hz) as Hd. cbn [Zdigits2] in Hd.
  set (e := fexp _ _ _). assert (e = Z.max (Z.pos (digits2_pos p) - 53) (-1074)) as He.
  { unfold e, fexp, emin, f64_prec, f64_emax. lia. }
  destruct (e - 0) as [|q|q] eqn:Hq; [apply round_aux_finite; lia..|].
  apply round_aux_finite; [|lia]. change (Pos.iter xO p q) with (shift_pos q p).
  rewrite shift_pos_correct, Zpower_pos_nat, Zpower_nat_Z, positive_nat_Z.
  assert (Z.pos q = 53 - Z.pos (digits2_pos p)) as -> by lia.
  assert (Z.pos p < 2 ^ Z.pos (digits2_pos p)) as Hp.
  { rewrite digits_log2. apply (Z.log2_spec (Z.pos p)). lia. }
  assert (0 < 2 ^ (53 - Z.pos (digits2_pos p))) by (apply Z.pow_pos_nonneg; lia).
  split; [nia|]. apply Z.lt_le_trans with (2 ^ (53 - Z.pos (digits2_pos p)) * 2 ^ Z.pos (digits2_pos p)).
  - by apply Z.mul_lt_mono_pos_l.
  - rewrite <- Z.pow_add_r by lia. apply Z.pow_le_mono_r; lia.
Qed.

Lemma as_f64_nonneg z : 0 <= z < 2 ^ 128 -> nonneg (as_f64 z) = true.
Proof.
  intros Hz. destruct (decide (z = 0)) as [->|]; [done|].
  pose proof (as_f64_finite z ltac:(lia)) as Hf. by destruct (as_f64 z) as [| | |[]].
Qed.

Lemma div_nonneg r t :
  0 <= r < 2 ^ 128 -> positive_finite t = true -> nonneg (f64_div (as_f64 r) t) = true.
Proof.
  intros Hr Ht. destruct t as [| | |[] mt et]; try done. destruct (decide (r = 0)) as [->|]; [done|].
  pose proof (as_f64_finite r ltac:(lia)) as Hf. destruct (as_f64 r) as [| | |[] mr er]; try done.
  unfold f64_div, SFdiv, SFdiv_core_binary. set (m' := match _ with 0 => _ | _ => _ end).
  assert (0 <= m') as Hm'.
  { unfold m'. destruct (er - et - _); [lia|apply Z.shiftl_nonneg; lia|lia]. }
  pose proof (Z.div_pos m' (Z.pos mt) Hm' ltac:(lia)) as Hq. unfold Z.div in Hq.
  destruct (Z.div_eucl m' (Z.pos mt)) as [q rem]. by apply round_aux_nonneg.
Qed.

Lemma mul_nonneg x y : nonneg x = true -> positive_finite y = true -> nonneg (f64_mul x y) = true.
Proof.
  destruct y as [| | |[] my ey]; try done. destruct x as [[]|[]| |[] mx ex]; try done. intros _ _.
  unfold f64_mul, SFmul. by apply round_aux_nonneg.
Qed.

(** The rate of an era. *)
Lemma rate_nonneg a r t :
  positive_finite a = true -> 0 <= r < 2 ^ 128 -> 0 < t < 2 ^ 128 ->
  nonneg (f64_mul (f64_mul (f64_div (as_f64 r) (as_f64 t)) a) (as_f64 100)) = true.
Proof.
  intros Ha Hr Ht. apply mul_nonneg; [|done]. apply mul_nonneg; [|done].
  apply div_nonneg; [done|]. by apply as_f64_finite.
Qed.

(** ** Gauges *)

Section gauges.
Context `{CanaryClient}.
Implicit Types (w : Metrics).

(** The four gauges of an era: none is set, or all are and the rate follows from the
    other three; no rate is negative or NaN. *)
Definition gauges_of_era w (era : bytes) : Prop :=
  match REWARD_RATE w !! era, VALIDATOR_REWARD w !! era, TOTAL_STAKED w !! era, ANNUALIZER w !! era with
  | Some rate, Some reward, Some staked, Some a =>
      rate = f64_mul (f64_mul (f64_div reward staked) a) (as_f64 100) /\
      nonneg rate = true /\ nonneg reward = true /\ positive_finite staked = true
  | None, None, None, None => True
  | _, _, _, _ => False
  end.
Definition gauges_ok w : Prop := forall era, gauges_of_era w era.

Lemma preserves_call {A} (m : M CanaryApi unit A) : preserves gauges_ok (call m).
Proof. intros w Hw. unfold call. by destruct (m (canary_api w)). Qed.

Lemma preserves_fetch {T} (f : CanaryEvent -> option T) b : preserves gauges_ok (fetch_events_or_default f b).
Proof. apply preserves_bind; [apply preserves_try, preserves_call|]. intros []; apply preserves_ret. Qed.

Lemma preserves_inc_by label n : preserves gauges_ok (inc_by label n).
Proof. apply preserves_modify. done. Qed.

Lemma set_gauges_run a era r t w :
  fst (set_gauges a era r t w) =
  let label := dec_bytes era in
  mkMetrics _ (canary_api w) (EVENT_COUNTER w)
    (<[label := f64_mul (f64_mul (f64_div (as_f64 r) (as_f64 t)) a) (as_f64 100)]> (REWARD_RATE w))
    (<[label := as_f64 t]> (TOTAL_STAKED w)) (<[label := as_f64 r]> (VALIDATOR_REWARD w))
    (<[label := a]> (ANNUALIZER w)).
Proof. done. Qed.

Lemma set_gauges_ok a era r t :
  positive_finite a = true -> 0 <= r < 2 ^ 128 -> 0 < t < 2 ^ 128 ->
  preserves gauges_ok (set_gauges a era r t).
Proof.
  intros Ha Hr Ht w Hw label. rewrite set_gauges_run. unfold gauges_of_era. cbn.
  destruct (decide (label = dec_bytes era)) as [->|Hne].
  - rewrite !lookup_insert_eq. split_and!; [done|by apply rate_nonneg|by apply as_f64_nonneg|by apply as_f64_finite].
  - rewrite !lookup_insert_ne by done. apply Hw.
Qed.
End gauges.

(** What the client promises: the events of a block are always the same, calls return, and
    balances are [u128]. *)
Class CanaryClientLaws `{CanaryClient} := {
  events_in : CanaryBlock -> list CanaryEvent;
  events_read b a l : snd (canary_block_events b a) = Ok l -> l = events_in b;
  events_no_panic b a : snd (canary_block_events b a) <> Panic;
  active_era_no_panic b a : snd (active_era b a) <> Panic;
  reward_no_panic b era a : snd (eras_validator_reward b era a) <> Panic;
  stake_no_panic b era a : snd (eras_total_stake b era a) <> Panic;
  reward_u128 b era a r : snd (eras_validator_reward b era a) = Ok (Some r) -> 0 <= r < 2 ^ 128;
  stake_u128 b era a t : snd (eras_total_stake b era a) = Ok (Some t) -> 0 <= t < 2 ^ 128;
}.

Section theorems.
Context `{CanaryClientLaws}.
Implicit Types (w : Metrics).

(** A call, and the same with its error caught. *)
Lemma try_call_run {A} (m : M CanaryApi unit A) w :
  snd (m (canary_api w)) <> Panic ->
  exists a r, mtry (E := unit) (F := unit) (call m) w = (set_api a w, Ok r) /\
    snd (m (canary_api w)) = match r with inl x => Ok x | inr e => Err e end.
Proof.
  intros Hp. unfold mtry, call. destruct (m (canary_api w)) as [a [x|e|]]; [| |done].
  - by exists a, (inl x).
  - by exists a, (inr e).
Qed.

Lemma observe_era_ok a b :
  positive_finite a = true -> preserves gauges_ok (observe_era a b).
Proof.
  intros Ha w Hw. unfold observe_era. unfold mbind at 1.
  destruct (try_call_run (active_era b) w) as (a1 & r1 & -> & _); [apply active_era_no_panic|].
  destruct r1 as [[era|]|]; [|done..]. unfold mbind at 1. set (w1 := set_api a1 w).
  destruct (try_call_run (eras_validator_reward b (Z.max 0 (era - 1))) w1) as (a2 & r2 & -> & Hr2);
    [apply reward_no_panic|].
  destruct r2 as [[r|]|]; [|done..]. unfold mbind at 1. set (w2 := set_api a2 w1).
  destruct (try_call_run (eras_total_stake b (Z.max 0 (era - 1))) w2) as (a3 & r3 & -> & Hr3);
    [apply stake_no_panic|].
  destruct r3 as [[t|]|]; [|done..]. apply reward_u128 in Hr2. apply stake_u128 in Hr3.
  destruct (Z.eqb_spec t 0); [done|]. apply set_gauges_ok; [done|lia|lia|done].
Qed.

(** C24: From empty gauges, whatever blocks and errors the canary receives: the four
    gauges of an era are set together, the rate is the reward divided by the stake times
    the multiplier in percent, and with a positive multiplier it is never negative and
    never NaN. *)
Theorem canary_gauges_sound a stream w :
  positive_finite a = true -> gauges_ok w -> gauges_ok (fst (canary_main a stream w)).
Proof.
  intros Ha. revert w. change (preserves gauges_ok (canary_main a stream)).
  unfold canary_main, listener_run. destruct stream as [l| |]; [|apply preserves_ret..].
  apply preserves_iter. intros [b| |]; [|apply preserves_ret..].
  unfold canary_process_block.
  do 7 (apply preserves_bind; [apply preserves_fetch|intros ?]).
  do 7 (apply preserves_bind; [apply preserves_inc_by|intros ?]).
  apply preserves_bind; [apply preserves_fetch|intros sessions].
  destruct (head sessions); [by apply observe_era_ok|apply preserves_ret].
Qed.

(** *** Counters *)

Definition watched : list (bytes * CanaryEvent) :=
  [(bs "BlockAttested", EvBlockAttested); (bs "DataSubmitted", EvDataSubmitted);
   (bs "QuorumReached", EvQuorumReached); (bs "EraPaid", EvEraPaid);
   (bs "SetupError", EvSetupError); (bs "PayoutError", EvPayoutError); (bs "Payout", EvPayout)].

(** The events of a kind in a list of events, and in a stream of blocks. *)
Definition count (e : CanaryEvent) (l : list CanaryEvent) : Z :=
  Z.of_nat (length (omap (is_event e) l)).
Fixpoint count_stream (e : CanaryEvent) (l : list (outcome unit CanaryBlock)) : Z :=
  match l with
  | [] => 0
  | Ok b :: l => count e (events_in b) + count_stream e l
  | _ :: l => count_stream e l
  end.

(** A counter that grows, and the counters after a block. *)
Definition bump (label : bytes) (n : nat) (m : gmap bytes Z) : gmap bytes Z :=
  <[label := (default 0 (m !! label) + Z.of_nat n) mod 2 ^ 64]> m.
Definition counted (events : list CanaryEvent) (m : gmap bytes Z) : gmap bytes Z :=
  foldl (fun m p => bump p.1 (length (omap (is_event p.2) events)) m) m watched.

Lemma bump_lookup label n m k :
  default 0 (bump label n m !! k) =
  if bool_decide (k = label) then (default 0 (m !! k) + Z.of_nat n) mod 2 ^ 64 else default 0 (m !! k).
Proof.
  unfold bump. case_bool_decide; [subst; by rewrite lookup_insert_eq|by rewrite lookup_insert_ne].
Qed.

Lemma fetch_run {T} (f : CanaryEvent -> option T) b w :
  (forall a, is_ok (snd (canary_block_events b a)) = true) ->
  exists w', fetch_events_or_default f b w = (w', Ok (omap f (events_in b))) /\
    EVENT_COUNTER w' = EVENT_COUNTER w.
Proof.
  intros Hok. unfold fetch_events_or_default, mbind.
  destruct (try_call_run (canary_block_events b) w) as (a & r & -> & Hr); [apply events_no_panic|].
  specialize (Hok (canary_api w)). rewrite Hr in Hok. destruct r as [l|e]; [|done].
  apply events_read in Hr as ->. by exists (set_api a w).
Qed.

Lemma observe_era_counter a b w :
  exists w', observe_era a b w = (w', Ok tt) /\ EVENT_COUNTER w' = EVENT_COUNTER w.
Proof.
  unfold observe_era. unfold mbind at 1.
  destruct (try_call_run (active_era b) w) as (a1 & r1 & -> & _); [apply active_era_no_panic|].
  destruct r1 as [[era|]|]; [|by eexists..]. unfold mbind at 1. set (w1 := set_api a1 w).
  destruct (try_call_run (eras_validator_reward b (Z.max 0 (era - 1))) w1) as (a2 & r2 & -> & _);
    [apply reward_no_panic|].
  destruct r2 as [[r|]|]; [|by eexists..]. unfold mbind at 1. set (w2 := set_api a2 w1).
  destruct (try_call_run (eras_total_stake b (Z.max 0 (era - 1))) w2) as (a3 & r3 & -> & _);
    [apply stake_no_panic|].
  destruct r3 as [[t|]|]; [|by eexists..]. destruct (t =? 0); by eexists.
Qed.

Lemma inc_by_run label n w :
  exists w', inc_by label n w = (w', Ok tt) /\ EVENT_COUNTER w' = bump label n (EVENT_COUNTER w).
Proof. by eexists. Qed.

(** One fetch of events that succeeds, and one increment. *)
Ltac step b Hok :=
  let w' := fresh "w" in let Hf := fresh "Hf" in let Hc := fresh "Hc" in
  match goal with
  | |- context [mbind (fetch_events_or_default ?f b) _ ?w] => destruct (fetch_run f b w Hok) as (w' & Hf & Hc)
  | |- context [mbind (inc_by ?label ?n) _ ?w] => destruct (inc_by_run label n w) as (w' & Hf & Hc)
  end; rewrite (mbind_run _ _ _ _ _ Hf); clear Hf.

Lemma process_block_counts a b w :
  (forall s, is_ok (snd (canary_block_events b s)) = true) ->
  exists w', canary_process_block a b w = (w', Ok tt) /\
    EVENT_COUNTER w' = counted (events_in b) (EVENT_COUNTER w).
Proof.
  intros Hok. unfold canary_process_block. do 15 step b Hok.
  assert (EVENT_COUNTER w14 = counted (events_in b) (EVENT_COUNTER w)) as Hcount.
  { unfold counted, watched. cbn [foldl fst snd].
    repeat match goal with H : EVENT_COUNTER ?x = _ |- context [EVENT_COUNTER ?x] => rewrite H end.
    reflexivity. }
  destruct (head _); [|by exists w14].
  destruct (observe_era_counter a b w14) as (w' & -> & Hw'). exists w'. by rewrite Hw'.
Qed.

Lemma counted_lookup events m label e :
  (label, e) ∈ watched ->
  default 0 (counted events m !! label) = (default 0 (m !! label) + count e events) mod 2 ^ 64.
Proof.
  unfold counted, watched, count. cbn [foldl fst snd]. intros Hin. rewrite !bump_lookup.
  repeat (apply elem_of_cons in Hin as [[= -> ->]|Hin]); [reflexivity..|by apply elem_of_nil in Hin].
Qed.

(** When the events of every block can be read, each counter of the canary grows by
    exactly the number of events of its kind in the blocks received, whatever the reads of
    the staking pallet return and whatever errors the stream has in between. *)
Theorem canary_counts a l w label e :
  (forall b s, is_ok (snd (canary_block_events b s)) = true) -> (label, e) ∈ watched ->
  0 <= default 0 (EVENT_COUNTER w !! label) < 2 ^ 64 ->
  snd (canary_main a (Ok l) w) = Ok tt /\
  default 0 (EVENT_COUNTER (fst (canary_main a (Ok l) w)) !! label) =
    (default 0 (EVENT_COUNTER w !! label) + count_stream e l) mod 2 ^ 64.
Proof.
  intros Hok Hin. unfold canary_main, listener_run. revert w.
  induction l as [|[b|u|] l IH]; intros w Hw; cbn [miter count_stream].
  - cbn. by rewrite Z.add_0_r, Z.mod_small by done.
  - destruct (process_block_counts a b w (Hok b)) as (w' & Hr & Hc).
    rewrite (mbind_run _ _ _ _ _ Hr). pose proof (counted_lookup (events_in b) (EVENT_COUNTER w) label e Hin) as Hl.
    rewrite <- Hc in Hl. destruct (IH w') as [Ho ->]; [rewrite Hl; by apply Z.mod_pos_bound|].
    split; [done|]. rewrite Hl, Z.add_mod_idemp_l by done. f_equal. lia.
  - by apply IH.
  - by apply IH.
Qed.
End theorems.

(** ** Examples *)

Module CanaryExamples.

(** Blocks are numbers; block 1 starts a session after an era that paid 10 of 1000. *)
#[local] Instance sample_client : CanaryClient := {|
  CanaryApi := unit;
  CanaryBlock := Z;
  canary_block_events b a :=
    (a, Ok (if b =? 1 then [EvBlockAttested; EvNewSession 24; EvEraPaid; EvBlockAttested]
            else [EvDataSubmitted; EvBlockAttested]));
  active_era b a := (a, Ok (Some 5));
  eras_validator_reward b era a := (a, Ok (Some 10));
  eras_total_stake b era a := (a, Ok (if era =? 4 then Some 1000 else None));
|}.

#[local] Program Instance sample_client_laws : CanaryClientLaws := {|
  events_in b := if b =? 1 then [EvBlockAttested; EvNewSession 24; EvEraPaid; EvBlockAttested]
                 else [EvDataSubmitted; EvBlockAttested];
|}.
Solve Obligations with naive_solver.
Next Obligation. naive_solver lia. Qed.
Next Obligation. intros b era a t. cbn. destruct (era =? 4); intros [= <-]. lia. Qed.

Definition no_metrics : Metrics := mkMetrics sample_client tt ∅ ∅ ∅ ∅ ∅.
Definition block (n : Z) : @CanaryBlock sample_client := n.
Definition sample_stream : list (outcome unit CanaryBlock) := [Ok (block 1); Err tt; Ok (block 2)].

Lemma canary_counts_witness :
  default 0 (EVENT_COUNTER (fst (canary_main DEFAULT_ANNUALIZER (Ok sample_stream) no_metrics))
    !! bs "BlockAttested") = 3.
Proof.
  destruct (canary_counts DEFAULT_ANNUALIZER sample_stream no_metrics (bs "BlockAttested")
    EvBlockAttested) as [_ ->]; [done|left|done|done].
Defined.

Lemma canary_gauges_sound_witness :
  gauges_of_era (fst (canary_main DEFAULT_ANNUALIZER (Ok sample_stream) no_metrics)) (bs "4").
Proof. apply canary_gauges_sound; [done|]. by intros era. Defined.

(** One percent in an era of an hour is 87.6 times the stake in a year. *)
Example rate_of_era_4 :
  REWARD_RATE (fst (canary_main DEFAULT_ANNUALIZER (Ok sample_stream) no_metrics)) !! bs "4" =
  Some (as_f64 8760).
Proof. vm_compute. reflexivity. Qed.

(** What the canary shows for an era of the runtime, which lasts a day and pays the
    stakers of 1000 tokens: more than 189 percent a year, where the yearly rate is 7.9. *)
Example day_shown :
  let reward := fst (@era_payout InflationExamples.exact_fixed (1000 * UNITS) UNITS expected_era_millis) in
  let rate := f64_mul (f64_mul (f64_div (as_f64 reward) (as_f64 (1000 * UNITS))) DEFAULT_ANNUALIZER)
                (as_f64 100) in
  SFltb (as_f64 189) rate && SFltb rate (as_f64 190) = true.
Proof. vm_compute. reflexivity. Qed.
End CanaryExamples.
